(** * Monitor manager: a shallow embedding of the sync engine

    The development follows the Python sources of the manager:
    - [module/helpers.py]      ([helper.pathsafe], [helper.confirm],
                                [helper.prepare_for_create]),
    - [module/comparator.py]   ([Comparator.check_version_state],
                                [Comparator.compare_monitors]),
    - [module/localstorage.py] ([ManageLocalMonitors]),
    - [module/opensearchclient.py] ([ManageRemoteMonitors]),
    - [manager.py]             (the [--sync] branch of [main]).

    Python values are JSON trees, Python dicts are association lists in
    insertion order, exceptions are an explicit [Raise] outcome, and the
    stateful part of the program runs in a small state-and-exception
    monad whose state carries the local directory tree, the remote
    transport, the operator's input and a log of every effect. *)

From Stdlib Require Import String Ascii List Bool ZArith Lia Arith.
Import ListNotations.
Local Open Scope string_scope.
Local Open Scope list_scope.

Set Implicit Arguments.

(* ================================================================== *)
(** ** Python values *)
(* ================================================================== *)

(** What [json.loads] returns.  Numbers are integers: floats do not occur
    in the fields the engine inspects ([_version] is an integer in
    OpenSearch).  A string is a sequence of bytes; every character the
    code tests for is ASCII, so a UTF-8 encoded name is classified like
    the Python [str] it encodes. *)
#[warnings="-register-all"]
Inductive json : Type :=
| JNull
| JBool (b : bool)
| JNum (z : Z)
| JStr (s : string)
| JArr (l : list json)
| JObj (d : list (string * json)).

(** The exceptions the modelled code can raise.  [SystemExit] is what
    [helper.error] ends with ([exit(1)]).  [OutOfModel] marks the edge
    of the embedding (see [resolve] and [py_int]); Python has no such
    exception. *)
Inductive exn : Type :=
| SystemExit
| KeyError (k : string)
| TypeError
| ValueError
| EOFError
| AttributeError
| FileNotFoundError
| OSError
| OutOfModel.

Inductive result (A : Type) : Type :=
| Ok (a : A)
| Raise (e : exn).
Arguments Ok {A} a.
Arguments Raise {A} e.

Definition rbind {A B} (r : result A) (k : A -> result B) : result B :=
  match r with
  | Ok a => k a
  | Raise e => Raise e
  end.

Declare Scope res_scope.
Delimit Scope res_scope with res.
Notation "x <~ c ;; k" := (rbind c (fun x => k))
  (at level 61, c at next level, right associativity) : res_scope.

(* ================================================================== *)
(** ** Python dicts: association lists in insertion order *)
(* ================================================================== *)

Module Dict.
Section DictOps.
Variable V : Type.

Definition t := list (string * V).

(** [d.get(k)]: the first binding of [k]. *)
Fixpoint lookup (k : string) (d : t) : option V :=
match d with
| [] => None
| (k', v) :: r => if String.eqb k k' then Some v else lookup k r
end.

(** [k in d]. *)
Definition mem (k : string) (d : t) : bool :=
match lookup k d with Some _ => true | None => false end.

(** [d[k] = v]: an existing key keeps its position, a new key goes
  last. *)
Fixpoint insert (k : string) (v : V) (d : t) : t :=
match d with
| [] => [(k, v)]
| (k', v') :: r =>
    if String.eqb k k' then (k, v) :: r else (k', v') :: insert k v r
end.

(** The effect of [del d[k]] on the bindings. *)
Definition remove (k : string) (d : t) : t :=
filter (fun kv => negb (String.eqb k (fst kv))) d.

Definition keys (d : t) : list string := map fst d.

(** The keys of a dict are distinct. *)
Fixpoint distinct (ks : list string) : bool :=
match ks with
| [] => true
| k :: r => negb (existsb (String.eqb k) r) && distinct r
end.

Definition wf (d : t) : bool := distinct (keys d).
End DictOps.
End Dict.

Arguments Dict.lookup {V} k d.
Arguments Dict.mem {V} k d.
Arguments Dict.insert {V} k v d.
Arguments Dict.remove {V} k d.
Arguments Dict.keys {V} d.
Arguments Dict.wf {V} d.

(** [v[k]] for a string key [k]. *)
Definition getitem (k : string) (v : json) : result json :=
  match v with
  | JObj d =>
      match Dict.lookup k d with
      | Some x => Ok x
      | None => Raise (KeyError k)
      end
  | _ => Raise TypeError
  end.

(** [del v[k]]: the value [v] has become. *)
Definition delitem (k : string) (v : json) : result json :=
  match v with
  | JObj d =>
      if Dict.mem k d then Ok (JObj (Dict.remove k d))
      else Raise (KeyError k)
  | _ => Raise TypeError
  end.

(** [v[k] = x]. *)
Definition setitem (k : string) (x : json) (v : json) : result json :=
  match v with
  | JObj d => Ok (JObj (Dict.insert k x d))
  | _ => Raise TypeError
  end.

(** Python truthiness. *)
Definition truthy (v : json) : bool :=
  match v with
  | JNull => false
  | JBool b => b
  | JNum z => negb (Z.eqb z 0)
  | JStr s => negb (String.eqb s "")
  | JArr l => match l with [] => false | _ => true end
  | JObj d => match d with [] => false | _ => true end
  end.

(** A value spliced into a path or printed as a name: the text of a
    JSON string.  How Python formats a value of another type is outside
    the model. *)
Definition as_str (v : json) : result string :=
  match v with
  | JStr s => Ok s
  | _ => Raise OutOfModel
  end.

(** [int(v)].  Booleans are Python integers.  Parsing a string is not
    modelled. *)
Definition py_int (v : json) : result Z :=
  match v with
  | JNum z => Ok z
  | JBool b => Ok (if b then 1 else 0)%Z
  | JStr _ => Raise OutOfModel
  | _ => Raise TypeError
  end.

(** [a > b] as [load_monitors] uses it on two [_version] values: numbers
    compare as integers, strings lexicographically, a number against a
    string is a [TypeError]. Comparing two lists is not modelled. *)
Definition py_gt (a b : json) : result bool :=
  match a, b with
  | (JNum _ | JBool _), (JNum _ | JBool _) =>
      x <~ py_int a ;; y <~ py_int b ;; Ok (Z.ltb y x)
  | JStr x, JStr y => Ok (String.ltb y x)
  | JArr _, JArr _ => Raise OutOfModel
  | _, _ => Raise TypeError
  end%res.

(** [monitor["monitor"]["name"]] as it is, for a printed line or a
    call argument. *)
Definition raw_name (m : json) : result json :=
  (c <~ getitem "monitor" m ;; getitem "name" c)%res.

(** The same where the name is used as a string: as a path segment, or
    by [pathsafe]. *)
Definition monitor_name (m : json) : result string :=
  (n <~ raw_name m ;; as_str n)%res.

(* ================================================================== *)
(** ** [helper.pathsafe] *)
(* ================================================================== *)

Definition dquote : ascii := ascii_of_nat 34.

(** The nine entries of [unsafe_chars]: backslash, slash, colon, star,
    question mark, double quote, less-than, greater-than and bar. *)
Definition unsafe_chars : list ascii :=
  ["\"; "/"; ":"; "*"; "?"; dquote; "<"; ">"; "|"]%char.

(** [char in unsafe_chars] *)
Definition is_unsafe (c : ascii) : bool := existsb (Ascii.eqb c) unsafe_chars.

(** [for char in s: if char in unsafe_chars: return False] and the final
    [return True]. *)
Fixpoint scan_chars (s : string) : bool :=
  match s with
  | EmptyString => true
  | String c r => if is_unsafe c then false else scan_chars r
  end.

(** [s and s[0] == " "] *)
Definition starts_with_space (s : string) : bool :=
  match s with
  | EmptyString => false
  | String c _ => Ascii.eqb c " "
  end.

Definition pathsafe (s : string) : bool :=
  if starts_with_space s then false else scan_chars s.

(** [pathsafe(v)] for a value that need not be a string.  [None],
    booleans and numbers can be neither subscripted nor iterated.  A
    list is run through like a string: [s[0] == " "] looks at its first
    element, and [char in unsafe_chars] compares each element with the
    nine one-character strings.  An empty dict passes; a non-empty one is
    subscripted with [0], which is not a string key: outside the
    model. *)
Definition is_space (v : json) : bool :=
  match v with
  | JStr (String c EmptyString) => Ascii.eqb c " "
  | _ => false
  end.

Definition unsafe_item (v : json) : bool :=
  match v with
  | JStr (String c EmptyString) => is_unsafe c
  | _ => false
  end.

Definition py_pathsafe (v : json) : result bool :=
  match v with
  | JStr s => Ok (pathsafe s)
  | JArr [] => Ok true
  | JArr (x :: r) =>
      Ok (if is_space x then false else negb (existsb unsafe_item (x :: r)))
  | JObj [] => Ok true
  | JObj _ => Raise OutOfModel
  | _ => Raise TypeError
  end.

(** The three characters the specification lists as whitespace. *)
Definition tab : ascii := ascii_of_nat 9.
Definition newline : ascii := ascii_of_nat 10.
Definition spec_whitespace (c : ascii) : bool :=
  Ascii.eqb c " " || Ascii.eqb c tab || Ascii.eqb c newline.

(** [c] occurs in [s]. *)
Fixpoint occurs (c : ascii) (s : string) : Prop :=
  match s with
  | EmptyString => False
  | String c' r => c = c' \/ occurs c r
  end.

(* ================================================================== *)
(** ** [helper.prepare_for_create] *)
(* ================================================================== *)

(** The routine works on the dict object it was handed: every [del]
    changes the caller's monitor.  The functions below therefore return
    the value the object has become, next to how the statement ended. *)

(** In-place replacement of a field of a dict. *)
Definition update_field (k : string) (x : json) (v : json) : json :=
  match v with
  | JObj d => JObj (Dict.insert k x d)
  | _ => v
  end.

(** [except KeyError: pass] *)
Definition swallow_KeyError (r : result unit) : result unit :=
  match r with
  | Raise (KeyError _) => Ok tt
  | _ => r
  end.

Definition remove_keys : list string :=
  ["enabled_time"; "last_update_time"; "data_sources"; "owner"].

(** [for key in remove_keys: try: del content[key]
     except KeyError: continue] *)
Fixpoint strip_keys (ks : list string) (content : json) : json * result unit :=
  match ks with
  | [] => (content, Ok tt)
  | key :: r =>
      match delitem key content with
      | Ok c' => strip_keys r c'
      | Raise (KeyError _) => strip_keys r content
      | Raise e => (content, Raise e)
      end
  end.

(** [for action in actions: del action["id"]] over a Python list. *)
Fixpoint strip_action_ids (acts : list json) : list json * result unit :=
  match acts with
  | [] => ([], Ok tt)
  | a :: r =>
      match delitem "id" a with
      | Ok a' => let (r', s) := strip_action_ids r in (a' :: r', s)
      | Raise e => (a :: r, Raise e)
      end
  end.

(** The same loop over whatever [...["actions"]] holds.  Iterating a
    non-empty dict or string yields strings, on which [del x["id"]] is a
    [TypeError]; [None], booleans and numbers are not iterable. *)
Definition strip_actions (x : json) : json * result unit :=
  match x with
  | JArr l => let (l', s) := strip_action_ids l in (JArr l', s)
  | JObj [] => (x, Ok tt)
  | JStr EmptyString => (x, Ok tt)
  | _ => (x, Raise TypeError)
  end.

(** One round of the loop body for the trigger kind [k]:
    [del trigger[k]["id"]] and then
    [for action in trigger[k]["actions"]: del action["id"]]. *)
Definition strip_trigger (k : string) (t : json) : json * result unit :=
  match getitem k t with
  | Raise e => (t, Raise e)
  | Ok lt =>
      match delitem "id" lt with
      | Raise e => (t, Raise e)
      | Ok lt1 =>
          match getitem "actions" lt1 with
          | Raise e => (update_field k lt1 t, Raise e)
          | Ok acts =>
              let (acts', s) := strip_actions acts in
              (update_field k (update_field "actions" acts' lt1) t, s)
          end
      end
  end.

Fixpoint strip_trigger_list (k : string) (ts : list json)
  : list json * result unit :=
  match ts with
  | [] => ([], Ok tt)
  | t :: r =>
      match strip_trigger k t with
      | (t', Ok _) =>
          let (r', s) := strip_trigger_list k r in (t' :: r', s)
      | (t', Raise e) => (t' :: r, Raise e)
      end
  end.

(** [for trigger in content["triggers"]: ...] for the kind [k]. *)
Definition strip_triggers (k : string) (content : json) : json * result unit :=
  match getitem "triggers" content with
  | Raise e => (content, Raise e)
  | Ok (JArr ts) =>
      let (ts', s) := strip_trigger_list k ts in
      (update_field "triggers" (JArr ts') content, s)
  | Ok (JObj []) => (content, Ok tt)
  | Ok (JStr EmptyString) => (content, Ok tt)
  | Ok _ => (content, Raise TypeError)
  end.

(** [prepare_for_create monitor] is the pair of what [monitor] has
    become and of the outcome: the returned [content] or the exception. *)
Definition prepare_for_create (monitor : json) : json * result json :=
  match getitem "monitor" monitor with
  | Raise e => (monitor, Raise e)
  | Ok content =>
      match (n <~ getitem "name" content ;; py_pathsafe n)%res with
      | Raise e => (monitor, Raise e)
      | Ok safe =>
          if negb safe then (monitor, Raise SystemExit)
          else
            let (c1, s1) := strip_keys remove_keys content in
            match s1 with
            | Raise e => (update_field "monitor" c1 monitor, Raise e)
            | Ok _ =>
                let (c2, s2) := strip_triggers "document_level_trigger" c1 in
                match swallow_KeyError s2 with
                | Raise e => (update_field "monitor" c2 monitor, Raise e)
                | Ok _ =>
                    let (c3, s3) := strip_triggers "query_level_trigger" c2 in
                    match swallow_KeyError s3 with
                    | Raise e => (update_field "monitor" c3 monitor, Raise e)
                    | Ok _ => (update_field "monitor" c3 monitor, Ok c3)
                    end
                end
            end
      end
  end.

(* ================================================================== *)
(** ** [Comparator] *)
(* ================================================================== *)

(** [self.version_sync_mismatch]: identity to the three-element list
    [[name, remote _version, local _version]]. *)
Definition mismatch := Dict.t (json * json * json).

(** The body of the loop of [check_version_state] for one remote item. *)
Definition version_step (local_monitors : Dict.t json)
    (id : string) (remote_version : json) (acc : mismatch) : result mismatch :=
  match Dict.lookup id local_monitors with
  | None => Raise (KeyError id)
  | Some local_version =>
      (lv <~ getitem "_version" local_version ;;
       li <~ py_int lv ;;
       rv <~ getitem "_version" remote_version ;;
       ri <~ py_int rv ;;
       if Z.ltb li ri then
         c <~ getitem "monitor" local_version ;;
         n <~ getitem "name" c ;;
         Ok (Dict.insert id (n, rv, lv) acc)
       else Ok acc)%res
  end.

(** [check_version_state]: the attribute [version_sync_mismatch] as the
    call leaves it, and how the call ended. *)
Fixpoint check_version_state (local_monitors remote_monitors : Dict.t json)
    (acc : mismatch) : mismatch * result unit :=
  match remote_monitors with
  | [] => (acc, Ok tt)
  | (id, remote_version) :: rest =>
      match version_step local_monitors id remote_version acc with
      | Ok acc' => check_version_state local_monitors rest acc'
      | Raise e => (acc, Raise e)
      end
  end.

Section Compare.
(** [DeepDiff(remote, local, view="tree")] comes from a library: [None]
    when the diff is empty (falsy), otherwise its [to_json()] text. *)
Variable DeepDiff : json -> json -> option string.

Definition compare_step (remote_monitors : Dict.t json)
    (monitor_id : string) (contents : json) (acc : Dict.t string)
  : result (Dict.t string) :=
  (local_contents <~ getitem "monitor" contents ;;
   match Dict.lookup monitor_id remote_monitors with
   | None => Raise (KeyError monitor_id)
   | Some r =>
       remote_contents <~ getitem "monitor" r ;;
       match DeepDiff remote_contents local_contents with
       | Some txt => Ok (Dict.insert monitor_id txt acc)
       | None => Ok acc
       end
   end)%res.

(** [compare_monitors]: the attribute [monitor_diff] as the call leaves
    it, and how the call ended. *)
Fixpoint compare_monitors (local_monitors remote_monitors : Dict.t json)
    (acc : Dict.t string) : Dict.t string * result unit :=
  match local_monitors with
  | [] => (acc, Ok tt)
  | (monitor_id, contents) :: rest =>
      match compare_step remote_monitors monitor_id contents acc with
      | Ok acc' => compare_monitors rest remote_monitors acc'
      | Raise e => (acc, Raise e)
      end
  end.
End Compare.

(** [int(m["_version"])] *)
Definition version_of (m : json) : result Z :=
  (v <~ getitem "_version" m ;; py_int v)%res.

(** The remote item has a local counterpart, both carry an integer
    [_version], and the local one a name. *)
Definition comparable (local_monitors : Dict.t json) (item : string * json)
  : bool :=
  match Dict.lookup (fst item) local_monitors with
  | Some l =>
      match version_of l, raw_name l, version_of (snd item) with
      | Ok _, Ok _, Ok _ => true
      | _, _, _ => false
      end
  | None => false
  end.

(** The record is a dict with a [monitor] entry. *)
Definition has_monitor (item : string * json) : bool :=
  match getitem "monitor" (snd item) with
  | Ok _ => true
  | Raise _ => false
  end.

(* ================================================================== *)
(** ** Strings: [str.lower], [in], [startswith] *)
(* ================================================================== *)

(** [c.lower()] on an ASCII letter; other bytes are left alone. *)
Definition lower_ascii (c : ascii) : ascii :=
  let n := nat_of_ascii c in
  if (Nat.leb 65 n && Nat.leb n 90)%bool then ascii_of_nat (n + 32) else c.

Fixpoint lower (s : string) : string :=
  match s with
  | EmptyString => EmptyString
  | String c r => String (lower_ascii c) (lower r)
  end.

(** [sub in s] for two strings. *)
Fixpoint contains (sub s : string) : bool :=
  if String.prefix sub s then true
  else match s with
       | EmptyString => false
       | String _ r => contains sub r
       end.

(** [x.startswith(".")] *)
Definition is_dotfile (x : string) : bool := String.prefix "." x.

(* ================================================================== *)
(** ** The local directory tree *)
(* ================================================================== *)

(** The content of a file as [json.loads] sees it: [Some j] when the text
    parses to [j] (and [json.dumps j] is such a text), [None] when it is
    not JSON. *)
Definition content := option json.

(** An entry of [instance_path]: a regular file, or a monitor directory
    with its files. *)
Inductive node : Type :=
| File
| Dir (files : Dict.t content).

(** [instance_path] itself always exists ([makedirs] on it is a no-op
    whose [FileExistsError] the code ignores); its entries are listed in
    the order [listdir] returns them. *)
Definition tree := Dict.t node.

(** A name that denotes a direct child of [instance_path] when it is
    spliced into a path: not empty, no slash, neither [.] nor [..].
    Other names leave the directory and are outside the model. *)
Fixpoint has_slash (s : string) : bool :=
  match s with
  | EmptyString => false
  | String c r => Ascii.eqb c "/" || has_slash r
  end.

Definition plain_name (s : string) : bool :=
  negb (String.eqb s "") && negb (has_slash s)
  && negb (String.eqb s ".") && negb (String.eqb s "..").

Definition resolve (name : string) : result string :=
  if plain_name name then Ok name else Raise OutOfModel.

(** [path.isfile], [path.isdir] on an entry of [instance_path]. *)
Definition fs_isfile (t : tree) (name : string) : bool :=
  match Dict.lookup name t with Some File => true | _ => false end.

Definition fs_isdir (t : tree) (name : string) : bool :=
  match Dict.lookup name t with Some (Dir _) => true | _ => false end.

(** The files of the directory [name]; a regular file in its place is a
    [NotADirectoryError], an [OSError] that is not a
    [FileNotFoundError]. *)
Definition fs_files (t : tree) (name : string) : result (Dict.t content) :=
  (d <~ resolve name ;;
   match Dict.lookup d t with
   | None => Raise FileNotFoundError
   | Some File => Raise OSError
   | Some (Dir fl) => Ok fl
   end)%res.

(** [open(dir/file).read()] *)
Definition fs_read (t : tree) (dir file : string) : result content :=
  (fl <~ fs_files t dir ;;
   match Dict.lookup file fl with
   | None => Raise FileNotFoundError
   | Some c => Ok c
   end)%res.

(** [listdir(dir)] *)
Definition fs_listdir (t : tree) (dir : string) : result (list string) :=
  (fl <~ fs_files t dir ;; Ok (Dict.keys fl))%res.

(** [remove(dir/file)] *)
Definition fs_remove (t : tree) (dir file : string) : result tree :=
  (fl <~ fs_files t dir ;;
   if Dict.mem file fl then Ok (Dict.insert dir (Dir (Dict.remove file fl)) t)
   else Raise FileNotFoundError)%res.

(** [rmdir(dir)]: only an empty directory can be removed. *)
Definition fs_rmdir (t : tree) (dir : string) : result tree :=
  (fl <~ fs_files t dir ;;
   match fl with
   | [] => Ok (Dict.remove dir t)
   | _ => Raise OSError
   end)%res.

(** [makedirs(dir)] where nothing has that name yet: the new directory is
    listed last. *)
Definition fs_mkdir (t : tree) (dir : string) : tree :=
  Dict.insert dir (Dir []) t.

(** [open(dir/file, "w").write(json.dumps(j))] *)
Definition fs_write (t : tree) (dir file : string) (j : json) : result tree :=
  (fl <~ fs_files t dir ;;
   Ok (Dict.insert dir (Dir (Dict.insert file (Some j) fl)) t))%res.

(* ================================================================== *)
(** ** The world outside the program *)
(* ================================================================== *)

(** The OpenSearch endpoint behind [requests], the [DeepDiff] library and
    [random.choice].  A request that [get], [put] or [post] turns into
    [exit(1)] or [helper.error] is a [Raise SystemExit]; the transport may
    also fail with an exception of its own. *)
Class World : Type := {
  server : Type;
  (** [requests.get] followed by [json.loads(response.text)] *)
  http_get : server -> string -> result json;
  (** [requests.put] with the body [data] *)
  http_put : server -> string -> json -> server * result unit;
  (** [requests.post] followed by [json.loads(response.text)] *)
  http_post : server -> string -> json -> server * result json;
  (** see [Section Compare] *)
  deep_diff : json -> json -> option string;
  (** the ten letters of the [n]-th placeholder identity *)
  random_lowercase : nat -> string
}.

(** [arg.force], [arg.dryrun] and [config["filter"]]. *)
Record settings : Type := {
  force : bool;
  dryrun : bool;
  filter_term : option string
}.

(** The per-monitor lines the program prints (banners are left out); the
    fields are the values formatted into the line. *)
Inductive line : Type :=
| MovedDir (removed_dir new_dir : string)
| Storing (name : json)
| NewMonitorFound (name : json)
| Creating (name : json)
| CreatedWithId (new_id : json)
| RemoteIsNewer (name remote_version local_version : json)
| UpdatingLocal (name : json)
| Skipping (name : json)
| FoundLocalChanges (name : json)
| UpdatingMonitor (name : json) (monitor_id : string).

(** Everything the program does to its surroundings. *)
Inductive event : Type :=
| EPrint (l : line)
| EConfirm (message : string) (kind : string) (answer : bool)
| EMakedirs (dir : string)
| EWrite (dir file : string) (j : json)
| ERemove (dir file : string)
| ERmdir (dir : string)
| EGet (uri : string)
| EPut (uri : string) (data : json)
| EPost (uri : string) (data : json).

(** The surroundings (directory tree, server, operator input, random
    draws made, log of effects) followed by the attributes of the objects
    [local], [remote], [helper] and [compare] of [main]. *)
Record state {W : World} : Type := {
  fs : tree;
  srv : server;
  stdin : list string;
  draws : nat;
  log : list event;
  local_monitors : Dict.t json;
  local_cleanup : Dict.t string;
  local_confirm_all : Dict.t bool;
  remote_monitors : Dict.t json;
  main_confirm_all : Dict.t bool;
  version_sync_mismatch : mismatch;
  monitor_diff : Dict.t string
}.

Definition set_fs {W : World} (x : tree) (s : state) : state :=
  {| fs := x;
     srv := srv s;
     stdin := stdin s;
     draws := draws s;
     log := log s;
     local_monitors := local_monitors s;
     local_cleanup := local_cleanup s;
     local_confirm_all := local_confirm_all s;
     remote_monitors := remote_monitors s;
     main_confirm_all := main_confirm_all s;
     version_sync_mismatch := version_sync_mismatch s;
     monitor_diff := monitor_diff s |}.

Definition set_srv {W : World} (x : server) (s : state) : state :=
  {| fs := fs s;
     srv := x;
     stdin := stdin s;
     draws := draws s;
     log := log s;
     local_monitors := local_monitors s;
     local_cleanup := local_cleanup s;
     local_confirm_all := local_confirm_all s;
     remote_monitors := remote_monitors s;
     main_confirm_all := main_confirm_all s;
     version_sync_mismatch := version_sync_mismatch s;
     monitor_diff := monitor_diff s |}.

Definition set_stdin {W : World} (x : list string) (s : state) : state :=
  {| fs := fs s;
     srv := srv s;
     stdin := x;
     draws := draws s;
     log := log s;
     local_monitors := local_monitors s;
     local_cleanup := local_cleanup s;
     local_confirm_all := local_confirm_all s;
     remote_monitors := remote_monitors s;
     main_confirm_all := main_confirm_all s;
     version_sync_mismatch := version_sync_mismatch s;
     monitor_diff := monitor_diff s |}.

Definition set_draws {W : World} (x : nat) (s : state) : state :=
  {| fs := fs s;
     srv := srv s;
     stdin := stdin s;
     draws := x;
     log := log s;
     local_monitors := local_monitors s;
     local_cleanup := local_cleanup s;
     local_confirm_all := local_confirm_all s;
     remote_monitors := remote_monitors s;
     main_confirm_all := main_confirm_all s;
     version_sync_mismatch := version_sync_mismatch s;
     monitor_diff := monitor_diff s |}.

Definition set_log {W : World} (x : list event) (s : state) : state :=
  {| fs := fs s;
     srv := srv s;
     stdin := stdin s;
     draws := draws s;
     log := x;
     local_monitors := local_monitors s;
     local_cleanup := local_cleanup s;
     local_confirm_all := local_confirm_all s;
     remote_monitors := remote_monitors s;
     main_confirm_all := main_confirm_all s;
     version_sync_mismatch := version_sync_mismatch s;
     monitor_diff := monitor_diff s |}.

Definition set_local_monitors {W : World} (x : Dict.t json) (s : state) : state :=
  {| fs := fs s;
     srv := srv s;
     stdin := stdin s;
     draws := draws s;
     log := log s;
     local_monitors := x;
     local_cleanup := local_cleanup s;
     local_confirm_all := local_confirm_all s;
     remote_monitors := remote_monitors s;
     main_confirm_all := main_confirm_all s;
     version_sync_mismatch := version_sync_mismatch s;
     monitor_diff := monitor_diff s |}.

Definition set_local_cleanup {W : World} (x : Dict.t string) (s : state) : state :=
  {| fs := fs s;
     srv := srv s;
     stdin := stdin s;
     draws := draws s;
     log := log s;
     local_monitors := local_monitors s;
     local_cleanup := x;
     local_confirm_all := local_confirm_all s;
     remote_monitors := remote_monitors s;
     main_confirm_all := main_confirm_all s;
     version_sync_mismatch := version_sync_mismatch s;
     monitor_diff := monitor_diff s |}.

Definition set_local_confirm_all {W : World} (x : Dict.t bool) (s : state) : state :=
  {| fs := fs s;
     srv := srv s;
     stdin := stdin s;
     draws := draws s;
     log := log s;
     local_monitors := local_monitors s;
     local_cleanup := local_cleanup s;
     local_confirm_all := x;
     remote_monitors := remote_monitors s;
     main_confirm_all := main_confirm_all s;
     version_sync_mismatch := version_sync_mismatch s;
     monitor_diff := monitor_diff s |}.

Definition set_remote_monitors {W : World} (x : Dict.t json) (s : state) : state :=
  {| fs := fs s;
     srv := srv s;
     stdin := stdin s;
     draws := draws s;
     log := log s;
     local_monitors := local_monitors s;
     local_cleanup := local_cleanup s;
     local_confirm_all := local_confirm_all s;
     remote_monitors := x;
     main_confirm_all := main_confirm_all s;
     version_sync_mismatch := version_sync_mismatch s;
     monitor_diff := monitor_diff s |}.

Definition set_main_confirm_all {W : World} (x : Dict.t bool) (s : state) : state :=
  {| fs := fs s;
     srv := srv s;
     stdin := stdin s;
     draws := draws s;
     log := log s;
     local_monitors := local_monitors s;
     local_cleanup := local_cleanup s;
     local_confirm_all := local_confirm_all s;
     remote_monitors := remote_monitors s;
     main_confirm_all := x;
     version_sync_mismatch := version_sync_mismatch s;
     monitor_diff := monitor_diff s |}.

Definition set_version_sync_mismatch {W : World} (x : mismatch) (s : state) : state :=
  {| fs := fs s;
     srv := srv s;
     stdin := stdin s;
     draws := draws s;
     log := log s;
     local_monitors := local_monitors s;
     local_cleanup := local_cleanup s;
     local_confirm_all := local_confirm_all s;
     remote_monitors := remote_monitors s;
     main_confirm_all := main_confirm_all s;
     version_sync_mismatch := x;
     monitor_diff := monitor_diff s |}.

Definition set_monitor_diff {W : World} (x : Dict.t string) (s : state) : state :=
  {| fs := fs s;
     srv := srv s;
     stdin := stdin s;
     draws := draws s;
     log := log s;
     local_monitors := local_monitors s;
     local_cleanup := local_cleanup s;
     local_confirm_all := local_confirm_all s;
     remote_monitors := remote_monitors s;
     main_confirm_all := main_confirm_all s;
     version_sync_mismatch := version_sync_mismatch s;
     monitor_diff := x |}.

(** A computation: an outcome and the state it leaves, also when it
    raises. *)
Definition M {W : World} (A : Type) : Type := state -> result A * state.

Definition ret {W : World} {A} (a : A) : M A := fun s => (Ok a, s).

Definition bind {W : World} {A B} (c : M A) (k : A -> M B) : M B :=
  fun s =>
    match c s with
    | (Ok a, s') => k a s'
    | (Raise e, s') => (Raise e, s')
    end.

Definition raise {W : World} {A} (e : exn) : M A := fun s => (Raise e, s).

Definition lift {W : World} {A} (r : result A) : M A := fun s => (r, s).

Definition gets {W : World} {A} (f : state -> A) : M A :=
  fun s => (Ok (f s), s).

Definition modify {W : World} (f : state -> state) : M unit :=
  fun s => (Ok tt, f s).

Declare Scope monad_scope.
Delimit Scope monad_scope with monad.
Notation "x <- c ;; k" := (bind c (fun x => k))
  (at level 61, c at next level, right associativity) : monad_scope.
Notation "' p <- c ;; k" := (bind c (fun x => match x with p => k end))
  (at level 61, p pattern, c at next level, right associativity) : monad_scope.
Notation "c ;; k" := (bind c (fun _ => k))
  (at level 61, right associativity) : monad_scope.
Local Open Scope monad_scope.

(** [try: c except E: h] for the exceptions [E] that [handles] selects. *)
Definition try_except {W : World} {A} (c : M A) (handles : exn -> bool)
    (h : M A) : M A :=
  fun s =>
    match c s with
    | (Raise e, s') => if handles e then h s' else (Raise e, s')
    | r => r
    end.

Definition is_FileNotFoundError (e : exn) : bool :=
  match e with FileNotFoundError => true | _ => false end.

(** [for x in l: body x] *)
Fixpoint for_each {W : World} {X} (l : list X) (body : X -> M unit) : M unit :=
  match l with
  | [] => ret tt
  | x :: r => body x ;; for_each r body
  end.

(** A loop that carries local variables [a]. *)
Fixpoint fold_M {W : World} {X A} (l : list X) (a : A) (body : A -> X -> M A)
  : M A :=
  match l with
  | [] => ret a
  | x :: r => a' <- body a x ;; fold_M r a' body
  end.

Definition emit {W : World} (e : event) : M unit :=
  modify (fun s => set_log (log s ++ [e]) s).

(** [helper.error]: print and [exit(1)]. *)
Definition helper_error {W : World} {A} : M A := raise SystemExit.

(* ================================================================== *)
(** ** [helper.confirm] *)
(* ================================================================== *)

(** [main], [ManageLocalMonitors] and [ManageRemoteMonitors] each build a
    [helper] of their own, so each has its own [confirm_all] latch; the
    remote one never asks. *)
Inductive helper_of : Type := MainHelper | LocalHelper.

Definition confirm_all {W : World} (h : helper_of) (s : state) : Dict.t bool :=
  match h with
  | MainHelper => main_confirm_all s
  | LocalHelper => local_confirm_all s
  end.

Definition set_confirm_all {W : World} (h : helper_of) (d : Dict.t bool)
    (s : state) : state :=
  match h with
  | MainHelper => set_main_confirm_all d s
  | LocalHelper => set_local_confirm_all d s
  end.

(** [while confirmation == "": confirmation = input(...)]: the first
    non-empty line and the lines left; [input] raises [EOFError] when the
    operator's input ends. *)
Fixpoint read_answer (inp : list string) : result string * list string :=
  match inp with
  | [] => (Raise EOFError, [])
  | a :: r => if String.eqb a "" then read_answer r else (Ok a, r)
  end.

Definition one_of (a : string) (l : list string) : bool :=
  existsb (String.eqb a) l.

Section Helper.
Context {W : World}.
Variable cfg : settings.

(** The part of [confirm] after the latch has been consulted. *)
Definition ask (h : helper_of) (message kind : string) : M bool :=
  inp <- gets stdin ;;
  let (r, rest) := read_answer inp in
  modify (set_stdin rest) ;;
  confirmation <- lift r ;;
  if one_of (lower confirmation) ["y"; "yes"] then
    emit (EConfirm message kind true) ;; ret true
  else if one_of (lower confirmation) ["a"; "all"] then
    modify (fun s =>
      set_confirm_all h (Dict.insert kind true (confirm_all h s)) s) ;;
    emit (EConfirm message kind true) ;; ret true
  else
    emit (EConfirm message kind false) ;; ret false.

(** [helper.confirm(message, event)]; [EConfirm] records what the call
    returned. *)
Definition confirm (h : helper_of) (message kind : string) : M bool :=
  if force cfg then emit (EConfirm message kind true) ;; ret true
  else
    latch <- gets (confirm_all h) ;;
    match Dict.lookup kind latch with
    | Some true => emit (EConfirm message kind true) ;; ret true
    | Some false => ask h message kind
    | None =>
        modify (set_confirm_all h (Dict.insert kind false latch)) ;;
        ask h message kind
    end.
End Helper.

(* ================================================================== *)
(** ** [ManageLocalMonitors] *)
(* ================================================================== *)

(** [x in monitor] for the string [x]. *)
Definition py_contains (x : string) (v : json) : result bool :=
  match v with
  | JObj d => Ok (Dict.mem x d)
  | JArr l =>
      Ok (existsb (fun e => match e with
                            | JStr s => String.eqb s x
                            | _ => false
                            end) l)
  | JStr s => Ok (contains x s)
  | _ => Raise TypeError
  end.

(** A value used as a dict key or spliced into a URI: identities are
    strings.  Lists and dicts are unhashable; other hashable values are
    outside the model. *)
Definition as_key (v : json) : result string :=
  match v with
  | JStr s => Ok s
  | JArr _ | JObj _ => Raise TypeError
  | _ => Raise OutOfModel
  end.

(** [v.lower()] on a name: a method of [str] only. *)
Definition name_lower (v : json) : result string :=
  match v with
  | JStr s => Ok (lower s)
  | _ => Raise AttributeError
  end.

Definition filter_active (cfg : settings) : option string :=
  match filter_term cfg with
  | Some f => if String.eqb f "" then None else Some f
  | None => None
  end.

(** [if filter.lower() in monitor["monitor"]["name"].lower()] *)
Definition matches_filter (f : string) (monitor : json) : result bool :=
  (n <~ raw_name monitor ;; ln <~ name_lower n ;; Ok (contains (lower f) ln))%res.

(** The loop that builds [filtered_monitors]. *)
Fixpoint filter_monitors (f : string) (all_monitors : Dict.t json)
    (filtered : Dict.t json) : result (Dict.t json) :=
  match all_monitors with
  | [] => Ok filtered
  | (id, monitor) :: r =>
      (b <~ matches_filter f monitor ;;
       filter_monitors f r
         (if b then Dict.insert id monitor filtered else filtered))%res
  end.

Definition managed_files : list string :=
  ["monitor.json"; "metadata.json"; "README.md"].

Section Local.
Context {W : World}.
Variable cfg : settings.

(** [try: makedirs(dir) except FileExistsError: pass] *)
Definition makedirs (dir : string) : M unit :=
  d <- lift (resolve dir) ;;
  t <- gets fs ;;
  if Dict.mem d t then ret tt
  else modify (set_fs (fs_mkdir t d)) ;; emit (EMakedirs d).

Definition write_file (dir file : string) (j : json) : M unit :=
  t <- gets fs ;;
  t' <- lift (fs_write t dir file j) ;;
  modify (set_fs t') ;; emit (EWrite dir file j).

Definition remove_file (dir file : string) : M unit :=
  t <- gets fs ;;
  t' <- lift (fs_remove t dir file) ;;
  modify (set_fs t') ;; emit (ERemove dir file).

Definition rmdir (dir : string) : M unit :=
  t <- gets fs ;;
  t' <- lift (fs_rmdir t dir) ;;
  modify (set_fs t') ;; emit (ERmdir dir).

(** [store_monitor(monitor_id, monitor_contents, metadata)]; the body
    never looks at [monitor_id]. *)
Definition store_monitor (monitor_id : json) (monitor_contents : json)
    (metadata : json) : M unit :=
  name <- lift (monitor_name monitor_contents) ;;
  if dryrun cfg then ret tt
  else
    makedirs name ;;
    write_file name "monitor.json" monitor_contents ;;
    if truthy metadata then write_file name "metadata.json" metadata
    else ret tt.

(** [remove_monitor(monitor_name)] *)
Definition remove_monitor (name : json) : M unit :=
  if dryrun cfg then ret tt
  else
    n <- lift (as_str name) ;;
    for_each managed_files (fun file =>
      try_except (remove_file n file) is_FileNotFoundError (ret tt)) ;;
    rmdir n.

(** The body of the second loop of [load_monitors] for one directory,
    with the local variable [all_monitors] threaded through. *)
Definition load_dir (all_monitors : Dict.t json) (monitor_dir : string)
  : M (Dict.t json) :=
  t <- gets fs ;;
  match fs_read t monitor_dir "monitor.json" with
  | Raise FileNotFoundError => ret all_monitors
  | Raise e => raise e
  | Ok None => helper_error
  | Ok (Some monitor) =>
      has_id <- lift (py_contains "_id" monitor) ;;
      if negb has_id then helper_error
      else
        v <- lift (getitem "_id" monitor) ;;
        monitor_id <-
          (if truthy v then lift (as_key v)
           else
             n <- gets draws ;;
             modify (set_draws (S n)) ;;
             ret ("create" ++ random_lowercase n)%string) ;;
        match Dict.lookup monitor_id all_monitors with
        | Some seen =>
            mv <- lift (getitem "_version" monitor) ;;
            sv <- lift (getitem "_version" seen) ;;
            newer <- lift (py_gt mv sv) ;;
            if (newer : bool) then
              n <- lift (raw_name seen) ;;
              remove_monitor n ;;
              ret (Dict.insert monitor_id monitor all_monitors)
            else
              n <- lift (raw_name monitor) ;;
              remove_monitor n ;;
              ret all_monitors
        | None => ret (Dict.insert monitor_id monitor all_monitors)
        end
  end.

(** [ManageLocalMonitors.load_monitors] *)
Definition local_load_monitors : M unit :=
  t <- gets fs ;;
  let dirlist := filter (fun x => negb (is_dotfile x)) (Dict.keys t) in
  let directories := filter (fs_isdir t) dirlist in
  all_monitors <- fold_M directories [] load_dir ;;
  match filter_active cfg with
  | Some f =>
      filtered <- lift (filter_monitors f all_monitors []) ;;
      modify (set_local_monitors filtered)
  | None => modify (set_local_monitors all_monitors)
  end.

Definition mismatch_message (monitor_dir name : string) : string :=
  ("Do you want to move mismatching monitor from /" ++ monitor_dir
   ++ " to /" ++ name ++ "?")%string.

(** The body of the loop of [clean_folders] for one entry. *)
Definition clean_dir (monitor_dir : string) : M unit :=
  t <- gets fs ;;
  if fs_isfile t monitor_dir then ret tt
  else
    match fs_read t monitor_dir "monitor.json" with
    | Raise FileNotFoundError =>
        l <- lift (fs_listdir t monitor_dir) ;;
        match l with
        | [] => rmdir monitor_dir
        | _ => helper_error
        end
    | Raise e => raise e
    | Ok None => helper_error
    | Ok (Some monitor) =>
        name <- lift (monitor_name monitor) ;;
        (if pathsafe name then ret tt else helper_error) ;;
        if String.eqb monitor_dir name then ret tt
        else
          confirmation <-
            confirm cfg LocalHelper (mismatch_message monitor_dir name)
              "mismatch" ;;
          (if negb (dryrun cfg) && confirmation then
             t1 <- gets fs ;;
             metadata <-
               match fs_read t1 monitor_dir "metadata.json" with
               | Raise FileNotFoundError => ret (JObj [])
               | Raise e => raise e
               | Ok None => raise ValueError
               | Ok (Some md) =>
                   try_except
                     (remove_file monitor_dir "metadata.json" ;; ret md)
                     is_FileNotFoundError (ret (JObj []))
               end ;;
             try_except (remove_file monitor_dir "README.md")
               is_FileNotFoundError (ret tt) ;;
             remove_file monitor_dir "monitor.json" ;;
             rmdir monitor_dir ;;
             id <- lift (getitem "_id" monitor) ;;
             store_monitor id monitor metadata
           else ret tt) ;;
          modify (fun s =>
            set_local_cleanup (Dict.insert monitor_dir name (local_cleanup s)) s)
    end.

(** [ManageLocalMonitors.clean_folders] *)
Definition clean_folders : M unit :=
  if dryrun cfg then ret tt
  else
    t <- gets fs ;;
    let directories := filter (fun x => negb (is_dotfile x)) (Dict.keys t) in
    for_each directories clean_dir.
End Local.

(* ================================================================== *)
(** ** [ManageRemoteMonitors] *)
(* ================================================================== *)

(** [for x in v: body] where the body starts by subscripting [x] with a
    string: the elements of a list; a non-empty dict or string yields
    strings, for which that subscript is a [TypeError]. *)
Definition iter_items (v : json) : result (list json) :=
  match v with
  | JArr l => Ok l
  | JObj [] => Ok []
  | JStr EmptyString => Ok []
  | _ => Raise TypeError
  end.

(** [v["monitor"]["last_update_time"] = 0] *)
Definition reset_last_update_time (v : json) : result json :=
  (inner <~ getitem "monitor" v ;;
   inner' <~ setitem "last_update_time" (JNum 0) inner ;;
   setitem "monitor" inner' v)%res.

(** What the loop of [load_monitors] makes of one search hit. *)
Definition normalise_hit (monitor : json) : result json :=
  (m1 <~ delitem "_index" monitor ;;
   m2 <~ delitem "_score" m1 ;;
   source <~ getitem "_source" m2 ;;
   m3 <~ delitem "_source" m2 ;;
   m4 <~ setitem "monitor" source m3 ;;
   reset_last_update_time m4)%res.

Definition search_uri : string := "/_plugins/_alerting/monitors/_search".
Definition create_uri : string := "/_plugins/_alerting/monitors/".
Definition monitor_uri (monitor_id : string) : string :=
  ("/_plugins/_alerting/monitors/" ++ monitor_id)%string.

Section Remote.
Context {W : World}.
Variable cfg : settings.

Definition get (uri : string) : M json :=
  emit (EGet uri) ;;
  s <- gets srv ;;
  lift (http_get s uri).

Definition put (uri : string) (data : json) : M unit :=
  if dryrun cfg then ret tt
  else
    emit (EPut uri data) ;;
    s <- gets srv ;;
    let (s', r) := http_put s uri data in
    modify (set_srv s') ;; lift r.

Definition post (uri : string) (data : json) : M json :=
  if dryrun cfg then ret data
  else
    emit (EPost uri data) ;;
    s <- gets srv ;;
    let (s', r) := http_post s uri data in
    modify (set_srv s') ;; lift r.

(** [ManageRemoteMonitors.load_monitors]: [self.monitors] is updated in
    place, it is not emptied first. *)
Definition remote_load_monitors : M unit :=
  response <- get search_uri ;;
  hits <- lift (h <~ getitem "hits" response ;; getitem "hits" h)%res ;;
  items <- lift (iter_items hits) ;;
  for_each items (fun hit =>
    monitor <- lift (normalise_hit hit) ;;
    keep <-
      match filter_active cfg with
      | Some f => lift (matches_filter f monitor)
      | None => ret true
      end ;;
    if (keep : bool) then
      v <- lift (getitem "_id" monitor) ;;
      id <- lift (as_key v) ;;
      modify (fun s =>
        set_remote_monitors (Dict.insert id monitor (remote_monitors s)) s)
    else ret tt).

Definition get_monitor_contents (monitor_id : string) : M (string * json) :=
  r <- get (monitor_uri monitor_id) ;;
  monitor_contents <- lift (reset_last_update_time r) ;;
  ret (monitor_id, monitor_contents).

Definition update_monitor (monitor_id : string) (monitor_contents : json)
  : M (string * json) :=
  n <- lift (raw_name monitor_contents) ;;
  emit (EPrint (UpdatingMonitor n monitor_id)) ;;
  if dryrun cfg then ret (monitor_id, monitor_contents)
  else
    data <- lift (getitem "monitor" monitor_contents) ;;
    put (monitor_uri monitor_id) data ;;
    get_monitor_contents monitor_id.

Definition create_monitor (monitor : json) : M (json * json) :=
  if dryrun cfg then
    id <- lift (getitem "_id" monitor) ;; ret (id, monitor)
  else
    r <- post create_uri monitor ;;
    new_monitor <- lift (reset_last_update_time r) ;;
    id <- lift (getitem "_id" new_monitor) ;;
    ret (id, new_monitor).
End Remote.

(* ================================================================== *)
(** ** [main]: the [--sync] branch *)
(* ================================================================== *)

(** The check for duplicate and path-unsafe names over [remote.monitors];
    [seen] is [duplicate_remote_names]. *)
Fixpoint check_remote_names (seen : list string) (remote : Dict.t json)
  : result unit :=
  match remote with
  | [] => Ok tt
  | (remote_id, remote_contents) :: rest =>
      (name <~ monitor_name remote_contents ;;
       if one_of name seen then Raise SystemExit
       else if negb (pathsafe name) then Raise SystemExit
       else check_remote_names (seen ++ [name]) rest)%res
  end.

Definition create_question : string :=
  "Do you want to create a new remote monitor?".
Definition pull_question : string :=
  "Do you want to update local monitor? Updating will overwrite local changes.".
Definition push_question : string :=
  "Do you want to update the remote monitor with these changes?".

Section Main.
Context {W : World}.
Variable cfg : settings.

(** [local.monitors[id]] and [remote.monitors[id]] *)
Definition local_monitor (id : string) : M json :=
  d <- gets local_monitors ;;
  match Dict.lookup id d with
  | Some m => ret m
  | None => raise (KeyError id)
  end.

Definition remote_monitor (id : string) : M json :=
  d <- gets remote_monitors ;;
  match Dict.lookup id d with
  | Some m => ret m
  | None => raise (KeyError id)
  end.

(** Lines 387-397: store new remote monitors. *)
Definition adopt_one (monitor_id : string) : M unit :=
  d <- gets local_monitors ;;
  if Dict.mem monitor_id d then ret tt
  else
    r <- remote_monitor monitor_id ;;
    store_monitor cfg (JStr monitor_id) r (JObj []) ;;
    modify (fun s =>
      set_local_monitors (Dict.insert monitor_id r (local_monitors s)) s) ;;
    n <- lift (raw_name r) ;;
    emit (EPrint (Storing n)).

Definition adopt_remote_only : M unit :=
  remote <- gets remote_monitors ;;
  for_each (Dict.keys remote) adopt_one.

(** Lines 413-427: the branch taken when the operator accepts. *)
Definition create_new (monitor_id : string) : M unit :=
  m <- local_monitor monitor_id ;;
  n <- lift (raw_name m) ;;
  emit (EPrint (Creating n)) ;;
  m <- local_monitor monitor_id ;;
  let (m', r) := prepare_for_create m in
  modify (fun s =>
    set_local_monitors (Dict.insert monitor_id m' (local_monitors s)) s) ;;
  prepared <- lift r ;;
  ' (new_id, new_contents) <- create_monitor cfg prepared ;;
  emit (EPrint (CreatedWithId new_id)) ;;
  store_monitor cfg new_id new_contents (JObj []) ;;
  c <- lift (getitem "monitor" new_contents) ;;
  _ <- lift (getitem "name" c) ;;
  _ <- lift (getitem "monitor_type" c) ;;
  ret tt.

(** Lines 399-431: the body of the loop over [local.monitors]; it
    carries [created_new] and [skipped]. *)
Definition offer_one (vars : bool * list string) (monitor_id : string)
  : M (bool * list string) :=
  let (created_new, skipped) := vars in
  d <- gets remote_monitors ;;
  if Dict.mem monitor_id d then ret (created_new, skipped)
  else
    m <- local_monitor monitor_id ;;
    n <- lift (raw_name m) ;;
    emit (EPrint (NewMonitorFound n)) ;;
    yes <- confirm cfg MainHelper create_question "general" ;;
    if (yes : bool) then create_new monitor_id ;; ret (true, skipped)
    else ret (created_new, skipped ++ [monitor_id]).

(** [del local.monitors[id]] *)
Definition forget_local (id : string) : M unit :=
  d <- gets local_monitors ;;
  if Dict.mem id d then modify (set_local_monitors (Dict.remove id d))
  else raise (KeyError id).

Definition offer_local_only : M unit :=
  d <- gets local_monitors ;;
  ' (created_new, skipped) <- fold_M (Dict.keys d) (false, []) offer_one ;;
  for_each skipped forget_local ;;
  if (created_new : bool) then
    local_load_monitors cfg ;; remote_load_monitors cfg
  else ret tt.

(** Lines 439-462: pull newer remote versions. *)
Definition pull_one (item : string * (json * json * json)) : M unit :=
  let '(id, (name, remote_version, local_version)) := item in
  emit (EPrint (RemoteIsNewer name remote_version local_version)) ;;
  confirmation <- confirm cfg MainHelper pull_question "sync" ;;
  if (confirmation : bool) then
    m <- local_monitor id ;;
    n <- lift (raw_name m) ;;
    emit (EPrint (UpdatingLocal n)) ;;
    r <- remote_monitor id ;;
    store_monitor cfg (JStr id) r (JObj [])
  else emit (EPrint (Skipping name)).

Definition reconcile_versions : M unit :=
  l <- gets local_monitors ;;
  r <- gets remote_monitors ;;
  acc <- gets version_sync_mismatch ;;
  let (acc', outcome) := check_version_state l r acc in
  modify (set_version_sync_mismatch acc') ;;
  lift outcome ;;
  match acc' with
  | [] => ret tt
  | _ =>
      for_each acc' pull_one ;;
      local_load_monitors cfg ;;
      clean_folders cfg
  end.

(** Lines 464-495: push local changes. *)
Definition push_one (item : string * string) : M unit :=
  let (monitor_id, difference) := item in
  m <- local_monitor monitor_id ;;
  n <- lift (raw_name m) ;;
  emit (EPrint (FoundLocalChanges n)) ;;
  confirmation <- confirm cfg MainHelper push_question "monitor_update" ;;
  if (confirmation : bool) then
    m <- local_monitor monitor_id ;;
    ' (updated_id, updated_contents) <- update_monitor cfg monitor_id m ;;
    store_monitor cfg (JStr updated_id) updated_contents (JObj []) ;;
    m <- local_monitor monitor_id ;;
    _ <- lift (raw_name m) ;;
    ret tt
  else ret tt.

Definition reconcile_content : M unit :=
  l <- gets local_monitors ;;
  r <- gets remote_monitors ;;
  acc <- gets monitor_diff ;;
  let (acc', outcome) := compare_monitors deep_diff l r acc in
  modify (set_monitor_diff acc') ;;
  lift outcome ;;
  for_each acc' push_one.

(** Lines 354-366: layout repair, and a reload when something moved. *)
Definition repair_layout : M unit :=
  clean_folders cfg ;;
  moved <- gets local_cleanup ;;
  match moved with
  | [] => ret tt
  | _ =>
      for_each moved (fun kv => emit (EPrint (MovedDir (fst kv) (snd kv)))) ;;
      local_load_monitors cfg
  end.

(** Lines 368-385. *)
Definition integrity_check : M unit :=
  r <- gets remote_monitors ;;
  lift (check_remote_names [] r).

Definition stages : M unit :=
  adopt_remote_only ;;
  offer_local_only ;;
  reconcile_versions ;;
  reconcile_content.

(** The body of [if arg.sync:] up to the README generation. *)
Definition sync : M unit :=
  repair_layout ;;
  integrity_check ;;
  stages.

(** Lines 206-207 followed by the sync branch: one pass over one
    instance. *)
Definition sync_pass : M unit :=
  local_load_monitors cfg ;;
  remote_load_monitors cfg ;;
  sync.
End Main.

(* ================================================================== *)
(** ** A small world to run the program in *)
(* ================================================================== *)

Module Demo.

(** Structural equality of two JSON trees. *)
Fixpoint json_eqb (a b : json) : bool :=
  match a, b with
  | JNull, JNull => true
  | JBool x, JBool y => Bool.eqb x y
  | JNum x, JNum y => Z.eqb x y
  | JStr x, JStr y => String.eqb x y
  | JArr x, JArr y =>
      (fix all2 (x y : list json) : bool :=
         match x, y with
         | [], [] => true
         | u :: x', v :: y' => json_eqb u v && all2 x' y'
         | _, _ => false
         end) x y
  | JObj x, JObj y =>
      (fix all2 (x y : list (string * json)) : bool :=
         match x, y with
         | [], [] => true
         | (k, u) :: x', (k', v) :: y' =>
             String.eqb k k' && json_eqb u v && all2 x' y'
         | _, _ => false
         end) x y
  | _, _ => false
  end.

(** A server that holds a list of search hits, answers the monitor
    search with them and rejects every other request; a differ that
    reports two trees that are not the same; placeholder letters that
    count the draws. *)
#[local] Instance world : World := {|
  server := list json;
  http_get := fun hits uri =>
    if String.eqb uri search_uri
    then Ok (JObj [("hits", JObj [("hits", JArr hits)])])
    else Raise SystemExit;
  http_put := fun hits _ _ => (hits, Raise SystemExit);
  http_post := fun hits _ _ => (hits, Raise SystemExit);
  deep_diff := fun a b => if json_eqb a b then None else Some "{}";
  random_lowercase := fun n => String (ascii_of_nat (97 + n mod 26)) "aaaaaaaaa"
|}.

(** A search hit as OpenSearch returns it. *)
Definition hit (id name : string) (version : Z) : json :=
  JObj [("_index", JStr ".opendistro-alerting-config");
        ("_id", JStr id);
        ("_version", JNum version);
        ("_score", JNum 1);
        ("_source", JObj [("name", JStr name); ("enabled", JBool true)])].

(** A monitor as [monitor.json] holds it. *)
Definition monitor (id name : string) (version : Z) : json :=
  JObj [("_id", JStr id);
        ("_version", JNum version);
        ("monitor", JObj [("name", JStr name); ("enabled", JBool true);
                          ("last_update_time", JNum 0)])].

Definition monitor_dir (id name : string) (version : Z) : node :=
  Dir [("monitor.json", Some (monitor id name version))].

(** The program at start-up: nothing loaded, no latch set. *)
Definition boot (t : tree) (hits : list json) (answers : list string)
  : state :=
  {| fs := t; srv := hits; stdin := answers; draws := 0; log := [];
     local_monitors := []; local_cleanup := []; local_confirm_all := [];
     remote_monitors := []; main_confirm_all := [];
     version_sync_mismatch := []; monitor_diff := [] |}.

Definition interactive : settings :=
  {| force := false; dryrun := false; filter_term := None |}.

Definition assume_yes : settings :=
  {| force := true; dryrun := false; filter_term := None |}.

(** A monitor authored offline, with server bookkeeping left in it. *)
Definition draft : json :=
  JObj [("_id", JStr "");
        ("_version", JNum 1);
        ("monitor",
         JObj [("name", JStr "Disk usage");
               ("enabled", JBool true);
               ("enabled_time", JNum 1700000000);
               ("last_update_time", JNum 1700000001);
               ("owner", JStr "alerting");
               ("triggers",
                JArr [JObj [("query_level_trigger",
                             JObj [("id", JStr "t-1");
                                   ("name", JStr "above 90%");
                                   ("actions",
                                    JArr [JObj [("id", JStr "a-1");
                                                ("name", JStr "page")];
                                          JObj [("id", JStr "a-2");
                                                ("name", JStr "mail")]])])]])])].

(** The content [prepare_for_create] returns for [draft], and [draft]
    after the call. *)
Definition draft_content : json :=
  JObj [("name", JStr "Disk usage");
        ("enabled", JBool true);
        ("triggers",
         JArr [JObj [("query_level_trigger",
                      JObj [("name", JStr "above 90%");
                            ("actions",
                             JArr [JObj [("name", JStr "page")];
                                   JObj [("name", JStr "mail")]])])]])].

Definition draft_stripped : json :=
  JObj [("_id", JStr ""); ("_version", JNum 1); ("monitor", draft_content)].

(** Two stores that hold the same two identities; the local copy of
    [M3] is three versions behind. *)
Definition remote_pair : Dict.t json :=
  [("M3", monitor "M3" "Alert-C" 5); ("M4", monitor "M4" "Alert-D" 5)].

Definition local_pair : Dict.t json :=
  [("M4", monitor "M4" "Alert-D" 5); ("M3", monitor "M3" "Alert-C" 2)].

(** [local_pair] with a monitor the remote store does not know. *)
Definition local_with_new : Dict.t json :=
  local_pair ++ [("createabcdefghij", monitor "" "Alert-E" 1)].

(** A local directory whose name no longer matches its monitor, and a
    remote set in which one name is not path safe. *)
Definition renamed_tree : tree := [("old", monitor_dir "M1" "new" 1)].

Definition unsafe_hits : list json :=
  [hit "M1" "new" 1; hit "M9" "a/b" 1].

(** A monitor authored offline under the identity [M2], unknown to
    the remote store. *)
Definition offline_tree : tree := [("M2", monitor_dir "M2" "M2" 1)].

(** The program after the two loads of a pass over [offline_tree] and
    an empty remote store, with an operator who will answer no. *)
Definition offline_loaded : state :=
  snd ((local_load_monitors interactive ;; remote_load_monitors interactive)
         (boot offline_tree [] ["no"])).

(** The first pass over [offline_tree], with an operator who declines,
    and a later pass of a fresh process over what the first one left. *)
Definition first_pass : result unit * state :=
  sync_pass interactive (boot offline_tree [] ["no"]).

Definition second_pass : result unit * state :=
  sync_pass interactive
    (boot (fs (snd first_pass)) (srv (snd first_pass)) ["no"]).

(** A pass over the renamed directory and the unsafe remote name, with
    an operator who agrees to the move; the state after its two loads
    and the state after its layout repair. *)
Definition renamed_boot : state := boot renamed_tree unsafe_hits ["yes"].

Definition renamed_loaded : state :=
  snd ((local_load_monitors interactive ;; remote_load_monitors interactive)
         renamed_boot).

Definition renamed_repaired : state :=
  snd (repair_layout interactive renamed_loaded).

(** Two remote monitors that the search returns in an order that is
    not the order of their names. *)
Definition unsorted_hits : list json := [hit "id1" "b" 1; hit "id2" "a" 1].

(** Two directories that resolve to the identity [X], with the same
    version. *)
Definition tie_tree : tree :=
  [("A", monitor_dir "X" "A" 5); ("B", monitor_dir "X" "B" 5)].

(** The identity [X] twice, with the versions 4 and 6, among a hidden
    directory, a plain file, a directory without [monitor.json] and a
    monitor of its own. *)
Definition crowded_tree : tree :=
  [(".git", Dir []);
   ("A", monitor_dir "X" "A" 4);
   ("notes.txt", File);
   ("C", monitor_dir "Y" "C" 1);
   ("empty", Dir []);
   ("B", monitor_dir "X" "B" 6)].

(** The program after the two loads of a pass over an empty tree and
    [unsorted_hits]. *)
Definition unsorted_loaded : state :=
  snd ((local_load_monitors interactive ;; remote_load_monitors interactive)
         (boot [] unsorted_hits [])).

(** A local copy that was edited by hand: the monitor is disabled. *)
Definition edited (id name : string) (version : Z) : json :=
  JObj [("_id", JStr id);
        ("_version", JNum version);
        ("monitor", JObj [("name", JStr name); ("enabled", JBool false);
                          ("last_update_time", JNum 0)])].

(** Two monitors known to both stores: the local copy of [M4] was
    edited, the local copy of [M3] is three versions behind; the
    operator will answer no. *)
Definition pair_tree : tree :=
  [("Alert-D", Dir [("monitor.json", Some (edited "M4" "Alert-D" 5))]);
   ("Alert-C", monitor_dir "M3" "Alert-C" 2)].

Definition pair_hits : list json :=
  [hit "M3" "Alert-C" 5; hit "M4" "Alert-D" 5].

Definition pair_loaded : state :=
  snd ((local_load_monitors interactive ;; remote_load_monitors interactive)
         (boot pair_tree pair_hits ["no"])).

End Demo.

(* ================================================================== *)
(** ** Vocabulary of the statements *)
(* ================================================================== *)

(** The exceptions of a failed subscript or [del]. *)
Definition lookup_error (e : exn) : Prop :=
  e = TypeError \/ exists k, e = KeyError k.

(** A trigger on which the loop body for the kind [k] stops at once with
    a [KeyError], before it has changed anything. *)
Definition settled (k : string) (t : json) : Prop :=
  (exists x, getitem k t = Raise (KeyError x)) \/
  (exists lt x, getitem k t = Ok lt /\ delitem "id" lt = Raise (KeyError x)).

Definition head_settled (k : string) (ts : list json) : Prop :=
  match ts with
  | [] => True
  | t :: _ => settled k t
  end.

(** A content on which the trigger loop for the kind [k] changes nothing
    and ends normally or with a swallowed [KeyError]. *)
Definition content_settled (k : string) (c : json) : Prop :=
  exists s, strip_triggers k c = (c, s) /\ swallow_KeyError s = Ok tt.


(** *** The log *)

(** Classes of events. *)
Definition is_fs_event (e : event) : bool :=
  match e with
  | EMakedirs _ | EWrite _ _ _ | ERemove _ _ | ERmdir _ => true
  | _ => false
  end.

Definition is_confirm (e : event) : bool :=
  match e with EConfirm _ _ _ => true | _ => false end.

Definition is_get (e : event) : bool :=
  match e with EGet _ => true | _ => false end.

Definition is_post (e : event) : bool :=
  match e with EPost _ _ => true | _ => false end.

Definition is_print (e : event) : bool :=
  match e with EPrint _ => true | _ => false end.

(** A change of the local or of the remote store. *)
Definition is_mutation (e : event) : bool :=
  match e with
  | EMakedirs _ | EWrite _ _ _ | ERemove _ _ | ERmdir _
  | EPut _ _ | EPost _ _ => true
  | _ => false
  end.

Definition no (p : event -> bool) (e : event) : bool := negb (p e).

Definition either (p q : event -> bool) (e : event) : bool := p e || q e.

(** Whatever the computation [c] is started in, it leaves the old log in
    place and adds only events that [ok] admits. *)
Definition allows {W : World} {A} (ok : event -> bool) (c : M A) : Prop :=
  forall s, exists evs,
    log (snd (c s)) = log s ++ evs /\ forallb ok evs = true.

(** The computation [c] leaves the component [f] of the state alone. *)
Definition preserves {W : World} {A X} (f : state -> X) (c : M A) : Prop :=
  forall s, f (snd (c s)) = f s.

(** The steps of a creation: the line that announces it, printed right
    before [create_monitor] is called, and the [POST]. *)
Definition is_creation (e : event) : bool :=
  match e with
  | EPrint (Creating _) | EPost _ _ => true
  | _ => false
  end.

(** The confirmation gate in front of a creation, read off the log.  It
    follows one monitor at a time: it is [Announced n] once the monitor
    named [n] has been announced as new, [Confirmed n] when the call of
    [helper.confirm] that follows, with the question about a creation,
    has returned [True], and [Started n] once the creation of [n] has
    been announced. *)
Inductive gate : Type :=
| Idle
| Announced (n : json)
| Confirmed (n : json)
| Started (n : json).

(** A step of the gate.  A monitor announced as new takes the gate over;
    any other answer of [helper.confirm] than a yes to the creation of
    the announced monitor closes it.  The two steps of a creation are
    guarded: [Creating n] needs the gate [Confirmed] for the same [n],
    and a [POST] needs the creation of [n] started, goes to the
    creation endpoint and carries a content whose name is [n].  A
    guarded step that the gate does not admit has no successor. *)
Definition gate_step (g : gate) (e : event) (g' : gate) : Prop :=
  match e with
  | EPrint (NewMonitorFound n) => g' = Announced n
  | EConfirm message kind answer =>
      g' = match g with
           | Announced n =>
               if (answer && String.eqb message create_question
                   && String.eqb kind "general")%bool
               then Confirmed n else Idle
           | _ => Idle
           end
  | EPrint (Creating n) => g = Confirmed n /\ g' = Started n
  | EPost uri data =>
      exists n, g = Started n /\ uri = create_uri /\
                getitem "name" data = Ok n /\ g' = Idle
  | _ => g' = g
  end.

Fixpoint gate_run (g : gate) (evs : list event) (g' : gate) : Prop :=
  match evs with
  | [] => g' = g
  | e :: r => exists g1, gate_step g e g1 /\ gate_run g1 r g'
  end.

(** Every creation in [evs] goes through the gate. *)
Definition gated (evs : list event) : Prop :=
  exists g, gate_run Idle evs g.

(** Events that leave the gate as it is, whatever its state. *)
Definition is_neutral (e : event) : bool :=
  match e with
  | EConfirm _ _ _ | EPrint (NewMonitorFound _) | EPrint (Creating _)
  | EPost _ _ => false
  | _ => true
  end.

Definition quiet (evs : list event) : Prop := forallb is_neutral evs = true.

(** The computation [c] never runs against the gate, whatever state the
    gate and the program are in when it starts. *)
Definition gate_safe {W : World} {A} (c : M A) : Prop :=
  forall s, exists evs,
    log (snd (c s)) = log s ++ evs /\
    forall g, exists g', gate_run g evs g'.

(** *** Traces *)

(** Whatever the computation [c] is started in, it leaves the old log in
    place, and what it adds satisfies [T]. *)
Definition traces {W : World} {A} (T : list event -> Prop) (c : M A) : Prop :=
  forall s, exists evs, log (snd (c s)) = log s ++ evs /\ T evs.

(** What [create_new] logs behind its [Creating] line for the local
    record [m]: at most one [POST], to the creation endpoint, of the
    content that [prepare_for_create] returns for [m]. *)
Definition creation_tail (m : json) (rest : list event) : Prop :=
  quiet rest \/
  exists prepared after,
    snd (prepare_for_create m) = Ok prepared /\
    rest = EPost create_uri prepared :: after /\ quiet after.

(** The log of the round of the offer loop for the identity [id], in
    terms of the state [s] the loop starts in: nothing for an identity
    the remote store knows; else the announcement of the local record,
    the answer to the question about its creation and, behind a yes and
    only there, the creation of that record. *)
Definition offer_trace {W : World} (s : state) (id : string)
    (evs : list event) : Prop :=
  evs = [] \/
  exists m n,
    Dict.mem id (remote_monitors s) = false /\
    Dict.lookup id (local_monitors s) = Some m /\
    raw_name m = Ok n /\
    (evs = [EPrint (NewMonitorFound n)] \/
     evs = [EPrint (NewMonitorFound n);
            EConfirm create_question "general" false] \/
     exists rest,
       evs = EPrint (NewMonitorFound n)
             :: EConfirm create_question "general" true
             :: EPrint (Creating n) :: rest /\
       creation_tail m rest).

Definition is_storing (e : event) : bool :=
  match e with EPrint (Storing _) => true | _ => false end.

(** What [update_monitor] does: its line, a [PUT] and a [GET]. *)
Definition is_update_event (e : event) : bool :=
  match e with
  | EPrint (UpdatingMonitor _ _) | EPut _ _ | EGet _ => true
  | _ => false
  end.

(** *** The integrity check *)

(** The names of the remote records, in the order of the mapping. *)
Definition remote_names (remote : Dict.t json) : list (result string) :=
  map (fun kv => monitor_name (snd kv)) remote.

Definition has_unsafe_name (remote : Dict.t json) : Prop :=
  exists n, In (Ok n) (remote_names remote) /\ pathsafe n = false.

Definition has_duplicate_name (remote : Dict.t json) : Prop :=
  exists pre n mid post,
    remote_names remote = pre ++ Ok n :: mid ++ Ok n :: post.

(** Every remote record has a name, and it is a string. *)
Definition all_named (remote : Dict.t json) : bool :=
  forallb (fun r => match r with Ok _ => true | Raise _ => false end)
          (remote_names remote).

(** *** Declined offers *)

(** No call of [helper.confirm] in [evs] returned [True]. *)
Definition declined_all (evs : list event) : bool :=
  forallb (fun e => match e with
                    | EConfirm _ _ true => false
                    | _ => true
                    end) evs.

(** The identities of [d] that the mapping [other] lacks, in the order
    of [d]. *)
Definition only_in {V V'} (d : Dict.t V) (other : Dict.t V') : list string :=
  filter (fun id => negb (Dict.mem id other)) (Dict.keys d).

(** *** Entries of the local tree *)

(** The directory [n], named after its monitor, holds the monitor [m]
    with the identity [id] and the integer version [v], and nothing but
    the files the manager writes. *)
Definition holds_monitor (n : string) (fl : Dict.t content) (m : json)
    (id : string) (v : Z) : Prop :=
  plain_name n = true /\
  is_dotfile n = false /\
  forallb (fun f => one_of f managed_files) (Dict.keys fl) = true /\
  Dict.lookup "monitor.json" fl = Some (Some m) /\
  getitem "_id" m = Ok (JStr id) /\
  id <> "" /\
  getitem "_version" m = Ok (JNum v) /\
  raw_name m = Ok (JStr n).

(** A tree every directory of which the load can read: the names of the
    entries are distinct, and a directory that is not hidden either has
    no [monitor.json], or holds a monitor under the monitor's name. *)
Definition kept_tree (t : tree) : Prop :=
  Dict.wf t = true /\
  forall n fl,
    Dict.lookup n t = Some (Dir fl) -> is_dotfile n = false ->
    (plain_name n = true /\ Dict.lookup "monitor.json" fl = None) \/
    exists m id v, holds_monitor n fl m id v.

(** [listdir] returns [n1] before [n2]. *)
Definition listed_before (t : tree) (n1 n2 : string) : Prop :=
  exists pre mid post, Dict.keys t = pre ++ n1 :: mid ++ n2 :: post.

(** How far the loop of [load_monitors] over the tree [t] has come when
    it has visited the directories [seen], has [all] in [all_monitors]
    and has made [t'] of the tree, where [n1] (holding [m1]) and [n2]
    are the directories of the identity [id]: a directory not yet
    visited is as it was; every monitor of [all] still has the directory
    it was read from; and [id] is absent before [n1] is visited, bound
    to [m1] between [n1] and [n2], and bound to [winner], with the
    directory [loser] gone, after [n2]. *)
Definition load_progress (t : tree) (n1 n2 : string) (m1 : json)
    (id : string) (winner : json) (loser : string)
    (seen : list string) (all : Dict.t json) (t' : tree) : Prop :=
  Dict.wf all = true /\
  (forall n, ~ In n seen -> Dict.lookup n t' = Dict.lookup n t) /\
  (forall k m, Dict.lookup k all = Some m ->
     exists n fl v,
       In n seen /\ Dict.lookup n t = Some (Dir fl) /\
       holds_monitor n fl m k v /\ Dict.lookup n t' = Some (Dir fl)) /\
  (In n2 seen -> In n1 seen) /\
  (~ In n1 seen -> Dict.lookup id all = None) /\
  (In n1 seen -> ~ In n2 seen -> Dict.lookup id all = Some m1) /\
  (In n2 seen ->
   Dict.lookup id all = Some winner /\ Dict.lookup loser t' = None).

(** *** The order of processing *)

(** What a computation adds to the log. *)
Definition new_events {W : World} {A} (c : M A) (s : state) : list event :=
  skipn (length (log s)) (log (snd (c s))).

(** What the reload and the layout repair behind the pull loop may log:
    changes of the local tree, and answers to the question about a
    directory whose name does not match. *)
Definition is_layout_event (e : event) : bool :=
  match e with
  | EMakedirs _ | EWrite _ _ _ | ERemove _ _ | ERmdir _ => true
  | EConfirm _ kind _ => String.eqb kind "mismatch"
  | _ => false
  end.

(** The rounds of a loop: every item the loop reached, with what its
    round added to the log.  The loop stops at the round that raises. *)
Fixpoint rounds {W : World} {X} (body : X -> M unit) (l : list X) (s : state)
  : list (X * list event) :=
  match l with
  | [] => []
  | x :: r =>
      (x, new_events (body x) s)
      :: match body x s with
         | (Ok _, s') => rounds body r s'
         | (Raise _, _) => []
         end
  end.

(** The same for a loop that carries local variables. *)
Fixpoint rounds_fold {W : World} {X A} (body : A -> X -> M A) (l : list X)
    (a : A) (s : state) : list (X * list event) :=
  match l with
  | [] => []
  | x :: r =>
      (x, new_events (body a x) s)
      :: match body a x s with
         | (Ok a', s') => rounds_fold body r a' s'
         | (Raise _, _) => []
         end
  end.

(** The rounds [rs] go through [items] in order, from the first item
    on, and through all of them when the outcome is a return. *)
Definition in_order {X A} (items : list X) (rs : list (X * list event))
    (outcome : result A) : Prop :=
  exists rest,
    items = map fst rs ++ rest /\
    ((exists a, outcome = Ok a) -> rest = []).

(** What [store_monitor] logs for the record [r] and no metadata: the
    directory named after [r] is made if need be, and [monitor.json] is
    written with [r]. *)
Definition stored (r : json) (evs : list event) : Prop :=
  evs = [] \/
  exists n,
    monitor_name r = Ok n /\
    (evs = [EMakedirs n] \/
     evs = [EWrite n "monitor.json" r] \/
     evs = [EMakedirs n; EWrite n "monitor.json" r]).

(** The round of the adoption loop for [id]: nothing, or the remote
    record of [id], which has no local counterpart, is stored and the
    line about it printed. *)
Definition adopt_trace {W : World} (s : state) (id : string)
    (evs : list event) : Prop :=
  evs = [] \/
  exists r pre,
    Dict.mem id (local_monitors s) = false /\
    Dict.lookup id (remote_monitors s) = Some r /\
    stored r pre /\
    (evs = pre \/
     exists n, raw_name r = Ok n /\ evs = pre ++ [EPrint (Storing n)]).

(** The round of the pull loop for an entry of [version_sync_mismatch]:
    the line about the gap, the answer to the question, and behind a yes
    the line about the local record of [id] and the remote record of
    [id] stored; behind a no the line that the monitor is skipped. *)
Definition pull_trace {W : World} (s : state)
    (item : string * (json * json * json)) (evs : list event) : Prop :=
  let '(id, (name, remote_version, local_version)) := item in
  exists rest,
    evs = EPrint (RemoteIsNewer name remote_version local_version) :: rest /\
    (rest = [] \/
     rest = [EConfirm pull_question "sync" false; EPrint (Skipping name)] \/
     exists acts,
       rest = EConfirm pull_question "sync" true :: acts /\
       (acts = [] \/
        exists m n w,
          Dict.lookup id (local_monitors s) = Some m /\
          raw_name m = Ok n /\
          acts = EPrint (UpdatingLocal n) :: w /\
          (w = [] \/
           exists r, Dict.lookup id (remote_monitors s) = Some r /\
                     stored r w))).

(** The round of the push loop for an entry of [monitor_diff]: the line
    about the local record of [id], the answer to the question, and
    behind a yes the update: its line, the [PUT] of the [monitor] field
    of that record to the address of [id], the [GET] from that address,
    and what came back stored. *)
Definition push_trace {W : World} (s : state) (item : string * string)
    (evs : list event) : Prop :=
  evs = [] \/
  exists m n rest,
    Dict.lookup (fst item) (local_monitors s) = Some m /\
    raw_name m = Ok n /\
    evs = EPrint (FoundLocalChanges n) :: rest /\
    (rest = [] \/
     rest = [EConfirm push_question "monitor_update" false] \/
     exists acts,
       rest = EConfirm push_question "monitor_update" true
              :: EPrint (UpdatingMonitor n (fst item)) :: acts /\
       (acts = [] \/
        exists c,
          getitem "monitor" m = Ok c /\
          (acts = [EPut (monitor_uri (fst item)) c] \/
           exists w,
             acts = EPut (monitor_uri (fst item)) c
                    :: EGet (monitor_uri (fst item)) :: w /\
             (w = [] \/ exists u, stored u w)))).

(* ================================================================== *)
(** ** Python values, continued *)
(* ================================================================== *)

(** A boolean or an integer as the integer it compares as. *)
Definition as_int (v : json) : option Z :=
  match v with
  | JNum z => Some z
  | JBool b => Some (if b then 1 else 0)%Z
  | _ => None
  end.

(** [a == b]: [True == 1] and [False == 0], lists compare element by
    element, dicts compare by key whatever the order of insertion. *)
Fixpoint py_eq (a b : json) : bool :=
  match a with
  | JNull => match b with JNull => true | _ => false end
  | JBool _ | JNum _ =>
      match as_int a, as_int b with
      | Some x, Some y => Z.eqb x y
      | _, _ => false
      end
  | JStr x => match b with JStr y => String.eqb x y | _ => false end
  | JArr la =>
      match b with
      | JArr lb =>
          (fix all2 (la lb : list json) : bool :=
             match la, lb with
             | [], [] => true
             | u :: la', v :: lb' => py_eq u v && all2 la' lb'
             | _, _ => false
             end) la lb
      | _ => false
      end
  | JObj da =>
      match b with
      | JObj db =>
          Nat.eqb (length da) (length db) &&
          (fix all (da : list (string * json)) : bool :=
             match da with
             | [] => true
             | (k, u) :: r =>
                 match Dict.lookup k db with
                 | Some v => py_eq u v
                 | None => false
                 end && all r
             end) da
      | _ => false
      end
  end.

(** The one-character strings of a string. *)
Fixpoint chars (s : string) : list json :=
  match s with
  | EmptyString => []
  | String c r => JStr (String c EmptyString) :: chars r
  end.

(** [for x in v]: the elements of a list, the keys of a dict, the
    characters of a string; [None], booleans and numbers are not
    iterable. *)
Definition py_iter (v : json) : result (list json) :=
  match v with
  | JArr l => Ok l
  | JObj d => Ok (map JStr (Dict.keys d))
  | JStr s => Ok (chars s)
  | _ => Raise TypeError
  end.

(** [c.upper()] on an ASCII letter; other bytes are left alone. *)
Definition upper_ascii (c : ascii) : ascii :=
  let n := nat_of_ascii c in
  if (Nat.leb 97 n && Nat.leb n 122)%bool then ascii_of_nat (n - 32) else c.

Fixpoint upper (s : string) : string :=
  match s with
  | EmptyString => EmptyString
  | String c r => String (upper_ascii c) (upper r)
  end.

(** [s.split(sep)] for a separator of one character: never empty. *)
Fixpoint split_on (sep : ascii) (s : string) : list string :=
  match s with
  | EmptyString => [EmptyString]
  | String c r =>
      if Ascii.eqb c sep then EmptyString :: split_on sep r
      else match split_on sep r with
           | h :: t => String c h :: t
           | [] => [String c EmptyString]
           end
  end.

(* ================================================================== *)
(** ** [helper.timestamp_to_string] *)
(* ================================================================== *)

Definition digit_char (d : Z) : ascii := ascii_of_nat (48 + Z.to_nat d).

(** The decimal digits of a natural number, the most significant one
    first; [fuel] bounds the number of digits. *)
Fixpoint digits_of (fuel : nat) (n : Z) : string :=
  match fuel with
  | O => EmptyString
  | S f =>
      if (n <? 10)%Z then String (digit_char n) EmptyString
      else (digits_of f (n / 10)
            ++ String (digit_char (n mod 10)) EmptyString)%string
  end.

(** A number below [2 ^ k] has at most [k] digits. *)
Definition digits (n : Z) : string :=
  digits_of (S (Z.to_nat (Z.log2 n))) n.

(** [str(z)] *)
Definition str_of_int (z : Z) : string :=
  if (z <? 0)%Z then String "-" (digits (- z)) else digits z.

Definition digit_value (c : ascii) : option Z :=
  let n := nat_of_ascii c in
  if (Nat.leb 48 n && Nat.leb n 57)%bool then Some (Z.of_nat (n - 48))
  else None.

Fixpoint value_of (s : string) (acc : Z) : option Z :=
  match s with
  | EmptyString => Some acc
  | String c r =>
      match digit_value c with
      | Some d => value_of r (10 * acc + d)%Z
      | None => None
      end
  end.

(** [int(s)] for a text made of decimal digits behind an optional
    minus sign, which is what [str(z)[:-3]] is.  Python accepts more
    (blanks around, a plus sign, underscores); such texts are outside
    the model. *)
Definition int_of_str (s : string) : result Z :=
  match s with
  | EmptyString => Raise ValueError
  | String c r =>
      if Ascii.eqb c "-" then
        match r with
        | EmptyString => Raise ValueError
        | _ => match value_of r 0 with
               | Some v => Ok (- v)%Z
               | None => Raise OutOfModel
               end
        end
      else match value_of s 0 with
           | Some v => Ok v
           | None => Raise OutOfModel
           end
  end.

(** [s[:-3]] *)
Definition drop_last3 (s : string) : string :=
  substring 0 (String.length s - 3) s.

Section Timestamp.
(** [str(datetime.fromtimestamp(n))]: the text depends on the time zone
    of the machine, and the call raises for a number of seconds the
    platform cannot represent. *)
Variable fromtimestamp : Z -> result string.

(** A boolean prints as [True] or [False], a list or a dict as its
    [repr]: what is left of them is no number. *)
Definition timestamp_to_string (timestamp : json) : result string :=
  match timestamp with
  | JNull => Ok "-"
  | JNum z => (n <~ int_of_str (drop_last3 (str_of_int z)) ;; fromtimestamp n)%res
  | JStr s => (n <~ int_of_str (drop_last3 s) ;; fromtimestamp n)%res
  | JBool _ | JArr _ | JObj _ => Raise ValueError
  end.
End Timestamp.

(* ================================================================== *)
(** ** [Comparator.check_name_state] *)
(* ================================================================== *)

(** [self.name_sync_mismatch] as the list of the identities appended,
    each with the local and the remote name of the line printed for
    it. *)
Definition renames := list (string * (json * json)).

(** The body of the loop for one remote item. *)
Definition name_step (local_monitors : Dict.t json)
    (id : string) (remote_version : json) (acc : renames) : result renames :=
  match Dict.lookup id local_monitors with
  | None => Raise (KeyError id)
  | Some local_version =>
      (ln <~ raw_name local_version ;;
       rn <~ raw_name remote_version ;;
       if negb (py_eq ln rn) then Ok (acc ++ [(id, (ln, rn))]) else Ok acc)%res
  end.

Fixpoint check_name_state (local_monitors remote_monitors : Dict.t json)
    (acc : renames) : renames * result unit :=
  match remote_monitors with
  | [] => (acc, Ok tt)
  | (id, remote_version) :: rest =>
      match name_step local_monitors id remote_version acc with
      | Ok acc' => check_name_state local_monitors rest acc'
      | Raise e => (acc, Raise e)
      end
  end.

(** The remote item has a local counterpart under another name. *)
Definition renamed (local_monitors : Dict.t json) (item : string * json)
  : bool :=
  match Dict.lookup (fst item) local_monitors with
  | Some l =>
      match raw_name l, raw_name (snd item) with
      | Ok ln, Ok rn => negb (py_eq ln rn)
      | _, _ => false
      end
  | None => false
  end.

(** The remote item has a local counterpart, and both have a name. *)
Definition nameable (local_monitors : Dict.t json) (item : string * json)
  : bool :=
  match Dict.lookup (fst item) local_monitors with
  | Some l =>
      match raw_name l, raw_name (snd item) with
      | Ok _, Ok _ => true
      | _, _ => false
      end
  | None => false
  end.

(* ================================================================== *)
(** ** [ManageRemoteMonitors.get_notification_channels] *)
(* ================================================================== *)

Definition root_uri : string := "/".
Definition configs_uri : string := "/_plugins/_notifications/configs".
Definition destinations_uri : string := "/_plugins/_alerting/destinations".

(** [version.split(".")], a method of [str] only. *)
Definition version_parts (version : json) : result (list string) :=
  match version with
  | JStr s => Ok (split_on "." s)
  | _ => Raise AttributeError
  end.

(** [notification_channels[config_item["config_id"]] =
     config_item["config"]["name"]]: the right-hand side is evaluated
    first. *)
Definition channel_v2 (acc : Dict.t json) (config_item : json)
  : result (Dict.t json) :=
  (c <~ getitem "config" config_item ;;
   name <~ getitem "name" c ;;
   k <~ getitem "config_id" config_item ;;
   id <~ as_key k ;;
   Ok (Dict.insert id name acc))%res.

(** [notification_channels[config_item["id"]] = config_item["name"]] *)
Definition channel_v1 (acc : Dict.t json) (config_item : json)
  : result (Dict.t json) :=
  (name <~ getitem "name" config_item ;;
   k <~ getitem "id" config_item ;;
   id <~ as_key k ;;
   Ok (Dict.insert id name acc))%res.

Fixpoint collect (step : Dict.t json -> json -> result (Dict.t json))
    (items : list json) (acc : Dict.t json) : result (Dict.t json) :=
  match items with
  | [] => Ok acc
  | x :: r => (acc' <~ step acc x ;; collect step r acc')%res
  end.

Section Channels.
Context {W : World}.

Definition get_notification_channels : M (Dict.t json) :=
  version_data <- get root_uri ;;
  version <- lift (v <~ getitem "version" version_data ;;
                   getitem "number" v)%res ;;
  parts <- lift (version_parts version) ;;
  let major := hd EmptyString parts in
  if String.eqb major "2" then
    output <- get configs_uri ;;
    l <- lift (getitem "config_list" output) ;;
    items <- lift (iter_items l) ;;
    lift (collect channel_v2 items [])
  else if String.eqb major "1" then
    output <- get destinations_uri ;;
    l <- lift (getitem "destinations" output) ;;
    items <- lift (iter_items l) ;;
    lift (collect channel_v1 items [])
  else helper_error.
End Channels.

(** The part of a version string in front of its first dot. *)
Definition major_of (version : string) : string :=
  hd EmptyString (split_on "." version).

(* ================================================================== *)
(** ** [Validate] *)
(* ================================================================== *)

Module Validate.

(** [self.errors]: the messages recorded under each monitor name. *)
Definition errors := Dict.t (list string).

(** What a validator returns: a pair, a triple, or nothing when the
    body runs off its end. *)
Inductive verdict : Type :=
| Pair (ok : bool) (text : string)
| Triple (ok : bool) (text : string) (detail : json)
| Nothing.

(** [if monitor.get("_id") != False: monitor = monitor["monitor"]];
    [get] is a method of dicts only. *)
Definition unwrap (monitor : json) : result json :=
  match monitor with
  | JObj d =>
      let id := match Dict.lookup "_id" d with
                | Some v => v
                | None => JNull
                end in
      if negb (py_eq id (JBool false)) then getitem "monitor" monitor
      else Ok monitor
  | _ => Raise AttributeError
  end.

(** [init_errors] *)
Definition init_errors (errs : errors) (monitor : json) : result errors :=
  (m <~ unwrap monitor ;;
   name <~ getitem "name" m ;;
   k <~ as_key name ;;
   Ok (Dict.insert k [] errs))%res.

(** [self.errors[name].append(message)] *)
Definition record (name : json) (message : string) (errs : errors)
  : result errors :=
  (k <~ as_key name ;;
   match Dict.lookup k errs with
   | Some l => Ok (Dict.insert k (l ++ [message]) errs)
   | None => Raise (KeyError k)
   end)%res.

Definition disabled_message : string := "Monitor disabled".
Definition unknown_message : string :=
  "Unknown value for 'monitor.enabled', expecting boolean".
Definition missing_message : string :=
  "Key and value for 'monitor.enabled' not found.".

(** [enabled]: the attribute [errors] as the call leaves it, and what
    the call returned.  The [except KeyError] also catches a [KeyError]
    raised by [self.errors[...]] in the [try] block; the handler then
    subscripts [self.errors] again. *)
Definition enabled (errs : errors) (monitor : json)
  : errors * result (bool * string) :=
  match (m <~ unwrap monitor ;; n <~ getitem "name" m ;; Ok (m, n))%res with
  | Raise e => (errs, Raise e)
  | Ok (m, name) =>
      if negb (truthy name) then (errs, Ok (false, "[red]Err[/red]"))
      else
        let attempt : result (errors * (bool * string)) :=
          (e <~ getitem "enabled" m ;;
           match e with
           | JBool true => Ok (errs, (true, "[green]Yes[/green]"))
           | JBool false =>
               errs' <~ record name disabled_message errs ;;
               Ok (errs', (false, "[red]No[/red]"))
           | _ =>
               errs' <~ record name unknown_message errs ;;
               Ok (errs', (false, "[yellow]Unknown[/yellow]"))
           end)%res in
        match attempt with
        | Ok (errs', v) => (errs', Ok v)
        | Raise (KeyError _) =>
            match record name missing_message errs with
            | Ok errs' => (errs', Ok (false, "[red]Fail[/red]"))
            | Raise e => (errs, Raise e)
            end
        | Raise e => (errs, Raise e)
        end
  end.

(** [try: for action in trigger[kind]["actions"]: actions.append(action)
     except KeyError: pass] *)
Definition actions_of (kind : string) (trigger : json) : result (list json) :=
  match (t <~ getitem kind trigger ;; getitem "actions" t)%res with
  | Ok acts => py_iter acts
  | Raise (KeyError _) => Ok []
  | Raise e => Raise e
  end.

(** The list [actions] of one trigger. *)
Definition gather (trigger : json) : result (list json) :=
  (q <~ actions_of "query_level_trigger" trigger ;;
   d <~ actions_of "document_level_trigger" trigger ;;
   Ok (q ++ d))%res.

(** The body of [for action in actions] in [channels]: it returns in
    its first round.  A key of [channels] is a string, so another
    hashable [destination_id] is a key it lacks; a list or a dict is
    unhashable. *)
Definition check_destination (chans : Dict.t json) (action : json)
  : result verdict :=
  match getitem "destination_id" action with
  | Raise (KeyError _) => Ok (Triple false "[red]Fail[/red]" (JStr "Not found"))
  | Raise e => Raise e
  | Ok (JStr k) =>
      match Dict.lookup k chans with
      | Some destination => Ok (Triple true "[green]Pass[/green]" destination)
      | None => Ok (Triple false "[red]Fail[/red]" (JStr "Not found"))
      end
  | Ok (JArr _ | JObj _) => Raise TypeError
  | Ok _ => Ok (Triple false "[red]Fail[/red]" (JStr "Not found"))
  end.

(** [for trigger in monitor["triggers"]] in [channels] *)
Fixpoint channels_loop (chans : Dict.t json) (triggers : list json)
  : result verdict :=
  match triggers with
  | [] => Ok Nothing
  | t :: r =>
      (acts <~ gather t ;;
       match acts with
       | a :: _ => check_destination chans a
       | [] => channels_loop chans r
       end)%res
  end.

(** [channels(monitor, channels)] *)
Definition channels (monitor : json) (chans : Dict.t json) : result verdict :=
  (m <~ unwrap monitor ;;
   name <~ getitem "name" m ;;
   if negb (truthy name) then Ok (Pair false "None")
   else
     ts <~ getitem "triggers" m ;;
     if truthy ts then
       l <~ py_iter ts ;; channels_loop chans l
     else Ok (Triple false "[yellow]Miss[/yellow]" (JStr "")))%res.

(** The trigger yields no action. *)
Definition actionless (trigger : json) : bool :=
  match gather trigger with
  | Ok [] => true
  | _ => false
  end.

(** [len(v)] *)
Definition py_len (v : json) : result nat :=
  match v with
  | JStr s => Ok (String.length s)
  | JArr l => Ok (List.length l)
  | JObj d => Ok (List.length d)
  | _ => Raise TypeError
  end.

(** [len(action[template]["source"]) < 1] *)
Definition blank (template : string) (action : json) : result bool :=
  (t <~ getitem template action ;;
   source <~ getitem "source" t ;;
   n <~ py_len source ;;
   Ok (Nat.ltb n 1))%res.

Definition subject_message : string := "Slack subject missing".
Definition no_triggers_message : string := "Monitor has no triggers".

(** [for action in actions] in [slack]: the errors and the pair of the
    [return] an action leads to, if one does. *)
Fixpoint slack_actions (errs : errors) (name : json) (actions : list json)
  : result (option (errors * (bool * string))) :=
  match actions with
  | [] => Ok None
  | action :: r =>
      (b <~ blank "subject_template" action ;;
       if (b : bool) then
         errs' <~ record name subject_message errs ;;
         Ok (Some (errs', (false, "[red]Fail[/red]"%string)))
       else
         b <~ blank "message_template" action ;;
         if (b : bool) then Ok (Some (errs, (false, "[red]Fail[/red]"%string)))
         else slack_actions errs name r)%res
  end.

(** [for trigger in monitor["triggers"]] in [slack], and the [return]
    behind it. *)
Fixpoint slack_loop (errs : errors) (name : json) (triggers : list json)
  : result (errors * (bool * string)) :=
  match triggers with
  | [] => Ok (errs, (true, "[green]Pass[/green]"%string))
  | t :: r =>
      (acts <~ gather t ;;
       v <~ slack_actions errs name acts ;;
       match v with
       | Some out => Ok out
       | None => slack_loop errs name r
       end)%res
  end.

(** [slack]: the attribute [errors] as the call leaves it, and what the
    call returned.  Unlike the other validators it starts with
    [if monitor["_id"]:]. *)
Definition slack (errs : errors) (monitor : json)
  : errors * result (bool * string) :=
  let attempt : result (errors * (bool * string)) :=
    (id <~ getitem "_id" monitor ;;
     m <~ (if truthy id then getitem "monitor" monitor else Ok monitor) ;;
     name <~ getitem "name" m ;;
     if negb (truthy name) then Ok (errs, (false, "[red]Err[/red]"%string))
     else
       ts <~ getitem "triggers" m ;;
       if truthy ts then
         l <~ py_iter ts ;; slack_loop errs name l
       else
         errs' <~ record name no_triggers_message errs ;;
         Ok (errs', (false, "[yellow]Miss[/yellow]"%string)))%res in
  match attempt with
  | Ok (errs', v) => (errs', Ok v)
  | Raise e => (errs, Raise e)
  end.

(** The action has a subject and a message, and neither is empty. *)
Definition complete (action : json) : bool :=
  match blank "subject_template" action, blank "message_template" action with
  | Ok false, Ok false => true
  | _, _ => false
  end.

End Validate.

(* ================================================================== *)
(** ** [Metadata.create_json] and [Metadata.read_json] *)
(* ================================================================== *)

(** [self.config.get("global", {}).get(key)]; [get] is a method of
    dicts only. *)
Definition template_setting (config : json) (key : string) : result json :=
  match config with
  | JObj d =>
      match Dict.lookup "global" d with
      | Some (JObj g) =>
          Ok (match Dict.lookup key g with Some v => v | None => JNull end)
      | Some _ => Raise AttributeError
      | None => Ok JNull
      end
  | _ => Raise AttributeError
  end.

Definition not_defined : json := JStr "not defined".

(** [for value in metadata_template_attributes:
     data["attributes"][value] = "not defined"] *)
Fixpoint template_attributes (values : list json) (acc : Dict.t json)
  : result (Dict.t json) :=
  match values with
  | [] => Ok acc
  | value :: r =>
      (k <~ as_key value ;;
       template_attributes r (Dict.insert k not_defined acc))%res
  end.

Definition default_attributes : Dict.t json :=
  [("MITRE Tactic", not_defined);
   ("MITRE Technique", not_defined);
   ("MITRE Data Source", not_defined);
   ("Playbook", JStr "[link](https://)")].

Definition default_references : json :=
  JArr [JStr "https://attack.mitre.org/datasources/";
        JStr "https://attack.mitre.org/matrices/enterprise/"].

(** The dict [data] that [create_json] dumps. *)
Definition metadata_template (config monitor : json) : result json :=
  (id <~ getitem "_id" monitor ;;
   mta <~ template_setting config "metadata_template_attributes" ;;
   attributes <~
     (if truthy mta then
        values <~ py_iter mta ;; template_attributes values []
      else Ok default_attributes) ;;
   mtr <~ template_setting config "metadata_template_references" ;;
   Ok (JObj [("id", id);
             ("description", JStr "No description");
             ("author", JStr "Unknown author");
             ("attributes", JObj attributes);
             ("references", if truthy mtr then mtr else default_references)]))%res.

(** [path.exists(dir/file)] *)
Definition fs_exists (t : tree) (dir file : string) : bool :=
  match fs_read t dir file with
  | Ok _ => true
  | Raise _ => false
  end.

Section Metadata.
Context {W : World}.
Variable cfg : settings.
Variable config : json.

(** [create_json(monitor, force)] *)
Definition create_json (monitor : json) (force : bool) : M bool :=
  if dryrun cfg then ret false
  else
    monitor_name <- lift (monitor_name monitor) ;;
    t <- gets fs ;;
    if fs_exists t monitor_name "metadata.json" && negb force then ret false
    else
      data <- lift (metadata_template config monitor) ;;
      write_file monitor_name "metadata.json" data ;;
      ret true.

(** [read_json(monitor)]: the attribute [monitor_metadata] as the call
    leaves it, and what the call returns.  The message printed when the
    file cannot be opened is not among the logged lines. *)
Definition read_json (monitor_metadata : Dict.t json) (monitor : json)
  : M (Dict.t json * bool) :=
  monitor_name <- lift (monitor_name monitor) ;;
  if dryrun cfg then ret (monitor_metadata, true)
  else
    t <- gets fs ;;
    (if negb (fs_exists t monitor_name "metadata.json")
     then create_json monitor false ;; ret tt
     else ret tt) ;;
    t <- gets fs ;;
    match fs_read t monitor_name "metadata.json" with
    | Raise FileNotFoundError => ret (monitor_metadata, false)
    | Raise e => raise e
    | Ok None => helper_error
    | Ok (Some metadata) =>
        v <- lift (getitem "_id" monitor) ;;
        id <- lift (as_key v) ;;
        ret (Dict.insert id metadata monitor_metadata, true)
    end.
End Metadata.

(* ================================================================== *)
(** ** [Configuration.create_config] *)
(* ================================================================== *)

(** [entry[0:1] == "."] *)
Definition hidden (entry : string) : bool :=
  String.eqb (substring 0 1 entry) ".".

(** [l.remove(x)]: the first occurrence goes. *)
Fixpoint remove_first (x : string) (l : list string) : list string :=
  match l with
  | [] => []
  | y :: r => if String.eqb x y then r else y :: remove_first x r
  end.

(** [for entry in existing_instances: if entry[0:1] == ".":
     existing_instances.remove(entry)].  The loop runs over the list it
    changes: the iterator keeps an index [i] into the list as it is at
    each round.  Every round advances the index, so [fuel] rounds are
    enough for a list of [fuel] entries. *)
Fixpoint prune (fuel i : nat) (l : list string) : list string :=
  match fuel with
  | O => l
  | S f =>
      match nth_error l i with
      | None => l
      | Some entry =>
          if hidden entry then prune f (S i) (remove_first entry l)
          else prune f (S i) l
      end
  end.

Definition existing_instances (listing : list string) : list string :=
  prune (length listing) 0 listing.

(** The entry added for a monitor folder that exists already. *)
Definition found_instance (instance : string) : json :=
  JObj [("active", JBool false);
        ("name", JStr instance);
        ("url", JStr "https://url:port");
        ("env_username", JStr (upper instance ++ "_USERNAME"));
        ("env_password", JStr (upper instance ++ "_PASSWORD"));
        ("note", JStr "Automatically added instance, pre-existing monitor folder found.")].

Definition example_instance (name prefix : string) : json :=
  JObj [("active", JBool false);
        ("name", JStr name);
        ("url", JStr "https://url:port");
        ("env_username", JStr (prefix ++ "_API_USERNAME"));
        ("env_password", JStr (prefix ++ "_API_PASSWORD"))].

(** The configuration [create_config] writes, for the entries
    [listdir] finds in the monitor root. *)
Definition create_config (listing : list string) : json :=
  JObj [("global",
         JObj [("slack webhook", JStr "");
               ("metadata_template_attributes",
                JArr [JStr "MITRE technique"; JStr "MITRE Tactic";
                      JStr "MITRE Data Source"; JStr "Playbook"]);
               ("metadata_template_references",
                JArr [JStr "https://attack.mitre.org/datasources/";
                      JStr "https://attack.mitre.org/matrices/enterprise/"])]);
        ("instances",
         JObj [("opensearch",
                JArr (map found_instance (existing_instances listing)
                      ++ [example_instance "example-opensearch-1" "OS1";
                          example_instance "example-opensearch-2" "OS2"]))])].

(** What the loop would leave if it looked at every entry: after a
    hidden entry is removed, the entry behind it moves into its place
    and is passed over. *)
Fixpoint passes_over (l : list string) : list string :=
  match l with
  | [] => []
  | x :: r =>
      if hidden x then
        match r with
        | [] => []
        | y :: r' => y :: passes_over r'
        end
      else x :: passes_over r
  end.

(* ================================================================== *)
(** ** [Configuration.read_config] *)
(* ================================================================== *)

Section ReadConfig.
(** [os.getenv] *)
Variable getenv : string -> option string.
(** The monitor root, [realpath(dirname(__file__))/../../monitors/]. *)
Variable monitor_root : string.

(** The lines on [config["global"]["slack webhook"]]: the [global] dict
    as they leave it.  A webhook that is a list has no [upper]; a number
    cannot be sliced; slicing a dict is outside the model. *)
Definition resolve_webhook (g : json) : result json :=
  (webhook <~ getitem "slack webhook" g ;;
   if truthy webhook then
     match webhook with
     | JStr s =>
         if negb (String.eqb (substring 0 8 s) "https://") then
           match getenv (upper s) with
           | Some value => setitem "slack webhook" (JStr value) g
           | None => Raise SystemExit
           end
         else Ok g
     | JArr _ => Raise AttributeError
     | JObj _ => Raise OutOfModel
     | _ => Raise TypeError
     end
   else Ok g)%res.

(** [for key, value in instance.items(): if key == "name":
     if self.helper.pathsafe(value) == False: self.helper.error(...)] *)
Fixpoint check_items (items : list (string * json)) : result unit :=
  match items with
  | [] => Ok tt
  | (key, value) :: r =>
      if String.eqb key "name" then
        (safe <~ py_pathsafe value ;;
         if (safe : bool) then check_items r else Raise SystemExit)%res
      else check_items r
  end.

(** [items] is a method of dicts. *)
Definition check_instance (instance : json) : result unit :=
  match instance with
  | JObj d => check_items d
  | _ => Raise AttributeError
  end.

Fixpoint check_instances (instances : list json) : result unit :=
  match instances with
  | [] => Ok tt
  | instance :: r =>
      (u <~ check_instance instance ;; check_instances r)%res
  end.

(** The branch for a configuration file that parsed: [self.config] as
    it is returned. *)
Definition parsed_config (config : json) : result json :=
  (g <~ getitem "global" config ;;
   g <~ setitem "monitor root path" (JStr monitor_root) g ;;
   g <~ resolve_webhook g ;;
   config <~ setitem "global" g config ;;
   i <~ getitem "instances" config ;;
   l <~ getitem "opensearch" i ;;
   instances <~ py_iter l ;;
   u <~ check_instances instances ;;
   Ok config)%res.

(** [read_config()], for what the configuration file holds ([None]:
    there is no such file; [Some None]: it is not JSON) and for the
    entries of the monitor root: what the call returns, and what the
    file holds afterwards.  Without a file the template is written
    (the write is taken to succeed) and the call exits. *)
Definition read_config (file : option content) (listing : list string)
  : result json * option content :=
  match file with
  | Some (Some config) => (parsed_config config, file)
  | Some None => (Raise SystemExit, file)
  | None => (Raise SystemExit, Some (Some (create_config listing)))
  end.
End ReadConfig.

(* ================================================================== *)
(** ** [main]: the loop over the instances *)
(* ================================================================== *)

Section Instances.
Context {W : World}.
(** The work on one active instance (from the line that announces it
    to the end of the [--sync] branch): whether it set [do_notify]. *)
Variable process : json -> M bool.
(** [notify.send()] *)
Variable send : M unit.

(** The body of the loop; it carries [instance_counter] and
    [do_notify]. *)
Definition instance_step (vars : nat * bool) (instance : json)
  : M (nat * bool) :=
  let (instance_counter, do_notify) := vars in
  active <- lift (getitem "active" instance) ;;
  if truthy active then
    name <- lift (getitem "name" instance) ;;
    unnamed <- lift (py_contains "rename-me" name) ;;
    if (unnamed : bool) then helper_error
    else
      let instance_counter := S instance_counter in
      notified <- process instance ;;
      let do_notify := (do_notify || notified)%bool in
      (if Nat.eqb instance_counter 0 then helper_error else ret tt) ;;
      (if do_notify then send else ret tt) ;;
      ret (instance_counter, do_notify)
  else ret (instance_counter, do_notify).

(** [for instance in config["instances"]["opensearch"]] *)
Definition instances_loop (config : json) : M (nat * bool) :=
  l <- lift (i <~ getitem "instances" config ;; getitem "opensearch" i)%res ;;
  items <- lift (iter_items l) ;;
  fold_M items (0, false) instance_step.
End Instances.

(** The instance is a dict whose [active] field is falsy. *)
Definition inactive (instance : json) : bool :=
  match getitem "active" instance with
  | Ok v => negb (truthy v)
  | Raise _ => false
  end.

(* ================================================================== *)
(** ** Two stores in step *)
(* ================================================================== *)

(** The remote item has a local counterpart whose integer [_version] is
    not behind. *)
Definition up_to_date (local_monitors : Dict.t json) (item : string * json)
  : bool :=
  match Dict.lookup (fst item) local_monitors with
  | Some l =>
      match version_of l, version_of (snd item) with
      | Ok lv, Ok rv => Z.leb rv lv
      | _, _ => false
      end
  | None => false
  end.

(** The local item has a remote counterpart, and [DeepDiff] finds no
    difference between the two [monitor] fields. *)
Definition unchanged (DeepDiff : json -> json -> option string)
    (remote_monitors : Dict.t json) (item : string * json) : bool :=
  match getitem "monitor" (snd item), Dict.lookup (fst item) remote_monitors with
  | Ok lc, Some r =>
      match getitem "monitor" r with
      | Ok rc => match DeepDiff rc lc with None => true | Some _ => false end
      | Raise _ => false
      end
  | _, _ => false
  end.

(** *** Invariants of the state *)

(** The computation [c] keeps the property [P] of the state, whether it
    returns or raises. *)
Definition maintains {W : World} {A} (P : state -> Prop) (c : M A) : Prop :=
  forall s, P s -> P (snd (c s)).

(** A remote record as [load_monitors] leaves it: filed under its own
    [_id], [_source] renamed to [monitor], [last_update_time] zeroed,
    [_index] and [_score] gone. *)
Definition normalised (id : string) (m : json) : Prop :=
  getitem "_id" m = Ok (JStr id) /\
  (exists c, getitem "monitor" m = Ok c /\
             getitem "last_update_time" c = Ok (JNum 0)) /\
  getitem "_index" m = Raise (KeyError "_index") /\
  getitem "_score" m = Raise (KeyError "_score") /\
  getitem "_source" m = Raise (KeyError "_source").

Definition all_normalised {W : World} (s : state) : Prop :=
  forall id m, Dict.lookup id (remote_monitors s) = Some m -> normalised id m.

(** The hits of the search that [load_monitors] sends,
    [response["hits"]["hits"]]; none when the request fails. *)
Definition search_hits {W : World} (s : state) : list json :=
  match (response <~ http_get (srv s) search_uri ;;
         h <~ getitem "hits" response ;;
         hits <~ getitem "hits" h ;;
         iter_items hits)%res with
  | Ok items => items
  | Raise _ => []
  end.

(** The record [m] is what [load_monitors] makes of the search hit
    [hit] whose [_id] is [id]: its [monitor] is the [_source] of the hit
    with [last_update_time] set to 0, [_index], [_score] and [_source]
    are gone, and every other field is the hit's. *)
Definition filed_from (hit : json) (id : string) (m : json) : Prop :=
  getitem "_id" hit = Ok (JStr id) /\
  (exists source c,
     getitem "_source" hit = Ok source /\
     setitem "last_update_time" (JNum 0) source = Ok c /\
     getitem "monitor" m = Ok c) /\
  getitem "_index" m = Raise (KeyError "_index") /\
  getitem "_score" m = Raise (KeyError "_score") /\
  getitem "_source" m = Raise (KeyError "_source") /\
  (forall k, k <> "_index" -> k <> "_score" -> k <> "_source" ->
             k <> "monitor" -> getitem k m = getitem k hit).

(** *** Requests *)

(** A request to the server. *)
Definition is_request (e : event) : bool :=
  match e with
  | EGet _ | EPut _ _ | EPost _ _ => true
  | _ => false
  end.

(** *** The local tree *)

(** The files of the directory [n]; none when there is no such
    directory. *)
Definition files_of (t : tree) (n : string) : Dict.t content :=
  match Dict.lookup n t with
  | Some (Dir fl) => fl
  | _ => []
  end.

(** The metadata a move carries along: the parsed [metadata.json] of
    the directory, [{}] when it has none. *)
Definition metadata_of (fl : Dict.t content) : json :=
  match Dict.lookup "metadata.json" fl with
  | Some (Some md) => md
  | _ => JObj []
  end.

(** The files of a directory that are not the manager's own. *)
Definition foreign_files (fl : Dict.t content) : Dict.t content :=
  filter (fun kv => negb (one_of (fst kv) managed_files)) fl.

(** *** Questions in a row *)

(** [helper.confirm] called once for each of [messages], all for the
    event [kind]; the answers in order. *)
Definition ask_each {W : World} (cfg : settings) (h : helper_of)
    (kind : string) (messages : list string) : M (list bool) :=
  fold_M messages [] (fun answers message =>
    b <- confirm cfg h message kind ;; ret (answers ++ [b])).

(* ================================================================== *)
(** ** Further scenarios *)
(* ================================================================== *)

Module Scenario.
Import Demo.

(** [--sync --dryrun] *)
Definition dry : settings :=
  {| force := false; dryrun := true; filter_term := None |}.

(** Both stores hold [M3] and [M4] in the same versions and with the
    same content. *)
Definition settled_tree : tree :=
  [("Alert-D", monitor_dir "M4" "Alert-D" 5);
   ("Alert-C", monitor_dir "M3" "Alert-C" 5)].

Definition settled_loaded : state :=
  snd ((local_load_monitors interactive ;; remote_load_monitors interactive)
         (boot settled_tree pair_hits [])).

(** A remote mapping that was loaded before [M4] disappeared from the
    server. *)
Definition stale_remote : state :=
  let s := boot [] [hit "M3" "Alert-C" 5] [] in
  set_remote_monitors [("M4", monitor "M4" "Alert-D" 5)] s.

(** An operator who answers [All] to the first question. *)
Definition eager : state := boot [] [] [""; "All"; "no"].

(** A monitor with a query-level trigger followed by a document-level
    one, and what [prepare_for_create] makes of it. *)
Definition mixed_triggers : list json :=
  [JObj [("query_level_trigger",
          JObj [("id", JStr "q-1"); ("actions", JArr [])])];
   JObj [("document_level_trigger",
          JObj [("id", JStr "d-1");
                ("actions", JArr [JObj [("id", JStr "a-1")]])])]].

Definition mixed_content : json :=
  JObj [("name", JStr "Mixed"); ("triggers", JArr mixed_triggers)].

Definition mixed : json :=
  JObj [("_id", JStr ""); ("_version", JNum 1); ("monitor", mixed_content)].

Definition mixed_prepared : json * json :=
  match prepare_for_create mixed with
  | (m1, Ok c) => (m1, c)
  | (m1, Raise _) => (m1, JNull)
  end.

(** A dry run in which the operator has accepted to create the monitor
    [draft], loaded under a placeholder identity. *)
Definition dry_offer : state :=
  set_local_monitors [("createabcdefghij", draft)] (boot [] [] []).

(** A monitor whose first action goes to a known channel and whose
    second action goes nowhere. *)
Definition two_actions : json :=
  JObj [("_id", JStr "M5");
        ("monitor",
         JObj [("name", JStr "Alert-E");
               ("triggers",
                JArr [JObj [("query_level_trigger",
                             JObj [("actions",
                                    JArr [JObj [("destination_id", JStr "c1")];
                                          JObj [("destination_id",
                                                 JStr "gone")]])])]])])].

(** A server that answers the version request with [number] and
    every other request with an empty object. *)
Definition versioned (number : string) : World := {|
  server := unit;
  http_get := fun _ uri =>
    if String.eqb uri root_uri
    then Ok (JObj [("version", JObj [("number", JStr number)])])
    else Ok (JObj [("config_list", JArr []); ("destinations", JArr [])]);
  http_put := fun _ _ _ => (tt, Raise SystemExit);
  http_post := fun _ _ _ => (tt, Raise SystemExit);
  deep_diff := fun _ _ => None;
  random_lowercase := fun _ => "aaaaaaaaaa"
|}.

Definition versioned_boot (number : string) : @state (versioned number) :=
  @Build_state (versioned number) [] tt [] 0 [] [] [] [] [] [] [] [].

(** A server that keeps the body of every [PUT] under its URI and
    answers a [GET] with the monitor it keeps there, in version 6. *)
Definition keeper : World := {|
  server := Dict.t json;
  http_get := fun kept uri =>
    match Dict.lookup uri kept with
    | Some c => Ok (JObj [("_id", JStr "M4"); ("_version", JNum 6);
                          ("monitor", c)])
    | None => Raise SystemExit
    end;
  http_put := fun kept uri data => (Dict.insert uri data kept, Ok tt);
  http_post := fun kept _ _ => (kept, Raise SystemExit);
  deep_diff := fun a b => if json_eqb a b then None else Some "{}";
  random_lowercase := fun _ => "aaaaaaaaaa"
|}.

(** The local copy of [M4] was edited; the server keeps nothing yet. *)
Definition edited_loaded : @state keeper :=
  @Build_state keeper [("Alert-D", Dir [("monitor.json",
                                         Some (edited "M4" "Alert-D" 5))])]
    [] [] 0 [] [("M4", edited "M4" "Alert-D" 5)] [] [] [] [] [] [].

(** A monitor directory in which the operator keeps a file of their
    own. *)
Definition annotated_tree : tree :=
  [("M2", Dir [("monitor.json", Some (monitor "M2" "M2" 1));
               ("notes.txt", None)])].

(** A monitor with two Slack actions; the second has no message. *)
Definition slack_action (subject message : string) : json :=
  JObj [("destination_id", JStr "c1");
        ("subject_template", JObj [("source", JStr subject)]);
        ("message_template", JObj [("source", JStr message)])].

Definition half_written_content : json :=
  JObj [("name", JStr "Alert-F");
        ("triggers",
         JArr [JObj [("query_level_trigger",
                      JObj [("actions",
                             JArr [slack_action "Disk" "Disk is full";
                                   slack_action "Disk again" ""])])]])].

Definition half_written : json :=
  JObj [("_id", JStr "M6"); ("_version", JNum 1);
        ("monitor", half_written_content)].

(** The same monitor as its author wrote it, before it was ever
    created on the server. *)
Definition handwritten : json :=
  JObj [("_id", JStr ""); ("_version", JNum 1);
        ("monitor", half_written_content)].

(** Two monitors that only the local store knows; the operator
    declines the first and accepts the second. *)
Definition drafts_loaded : state :=
  snd ((local_load_monitors interactive ;; remote_load_monitors interactive)
         (boot [("B-draft", monitor_dir "N1" "B-draft" 1);
                ("A-draft", monitor_dir "N2" "A-draft" 1)]
               [] ["no"; "yes"])).

(** Two monitors whose local copies are behind; the operator accepts
    the first pull and declines the second. *)
Definition behind_loaded : state :=
  snd ((local_load_monitors interactive ;; remote_load_monitors interactive)
         (boot [("Alert-C", monitor_dir "M3" "Alert-C" 2);
                ("Alert-A", monitor_dir "M5" "Alert-A" 1)]
               [hit "M3" "Alert-C" 5; hit "M5" "Alert-A" 4]
               ["yes"; "no"])).

(** Two monitors whose local copies were edited; the operator declines
    the first push and accepts the second. *)
Definition edits_loaded : state :=
  snd ((local_load_monitors interactive ;; remote_load_monitors interactive)
         (boot [("Alert-D", Dir [("monitor.json",
                                  Some (edited "M4" "Alert-D" 5))]);
                ("Alert-B", Dir [("monitor.json",
                                  Some (edited "M6" "Alert-B" 5))])]
               [hit "M4" "Alert-D" 5; hit "M6" "Alert-B" 5]
               ["no"; "yes"])).

End Scenario.
(* ================================================================== *)
(** * Properties *)
(* ================================================================== *)

Unset Implicit Arguments.

(** ** Association lists *)

Section DictFacts.
Variable V : Type.
Implicit Types (d : Dict.t V) (k : string) (v : V).

Lemma lookup_insert_eq d k v : Dict.lookup k (Dict.insert k v d) = Some v.
Proof.
  induction d as [|[k' v'] r IH]; simpl.
  - now rewrite String.eqb_refl.
  - destruct (String.eqb k k') eqn:E; simpl.
    + now rewrite String.eqb_refl.
    + now rewrite E.
Qed.

Lemma lookup_insert_neq d k k' v :
  k <> k' -> Dict.lookup k (Dict.insert k' v d) = Dict.lookup k d.
Proof.
  intros N. apply String.eqb_neq in N.
  induction d as [|[k0 v0] r IH]; simpl.
  - now rewrite N.
  - destruct (String.eqb k' k0) eqn:E; simpl.
    + apply String.eqb_eq in E. subst k0. now rewrite N.
    + destruct (String.eqb k k0); [reflexivity | exact IH].
Qed.

Lemma lookup_remove_eq d k : Dict.lookup k (Dict.remove k d) = None.
Proof.
  induction d as [|[k' v'] r IH]; simpl; [reflexivity|].
  destruct (String.eqb k k') eqn:E; simpl; [exact IH|].
  now rewrite E.
Qed.

Lemma lookup_remove_neq d k k' :
  k <> k' -> Dict.lookup k (Dict.remove k' d) = Dict.lookup k d.
Proof.
  intros N. apply String.eqb_neq in N.
  induction d as [|[k0 v0] r IH]; simpl; [reflexivity|].
  destruct (String.eqb k' k0) eqn:E; simpl.
  - apply String.eqb_eq in E. subst k0. now rewrite N.
  - destruct (String.eqb k k0); [reflexivity | exact IH].
Qed.

(** Writing back the value a key already has changes nothing. *)
Lemma insert_same d k v : Dict.lookup k d = Some v -> Dict.insert k v d = d.
Proof.
  induction d as [|[k' v'] r IH]; simpl; [discriminate|].
  destruct (String.eqb k k') eqn:E.
  - apply String.eqb_eq in E. subst k'. now intros [= ->].
  - intros H. now rewrite IH.
Qed.

Lemma insert_insert d k v v' :
  Dict.insert k v (Dict.insert k v' d) = Dict.insert k v d.
Proof.
  induction d as [|[k' v0] r IH]; simpl.
  - now rewrite String.eqb_refl.
  - destruct (String.eqb k k') eqn:E; simpl.
    + now rewrite String.eqb_refl.
    + now rewrite E, IH.
Qed.

Lemma mem_lookup d k : Dict.mem k d = true <-> exists v, Dict.lookup k d = Some v.
Proof.
  unfold Dict.mem. destruct (Dict.lookup k d); split; eauto; try discriminate.
  now intros [v [=]].
Qed.

Lemma mem_false_lookup d k : Dict.mem k d = false <-> Dict.lookup k d = None.
Proof.
  unfold Dict.mem. destruct (Dict.lookup k d); split; congruence.
Qed.

Lemma lookup_In d k v : Dict.lookup k d = Some v -> In (k, v) d.
Proof.
  induction d as [|[k' v'] r IH]; simpl; [discriminate|].
  destruct (String.eqb k k') eqn:E.
  - apply String.eqb_eq in E. subst k'. intros [= ->]. now left.
  - intros H. right. auto.
Qed.

Lemma lookup_None_keys d k : Dict.lookup k d = None <-> ~ In k (Dict.keys d).
Proof.
  induction d as [|[k' v'] r IH]; simpl; [tauto|].
  destruct (String.eqb k k') eqn:E.
  - apply String.eqb_eq in E. subst k'. split; [discriminate | tauto].
  - apply String.eqb_neq in E. rewrite IH. split; [intros H [A|A]; congruence | tauto].
Qed.

(** In a dict, whose keys are distinct, every binding is found by
    its key. *)
Lemma In_lookup d k v :
  NoDup (Dict.keys d) -> In (k, v) d -> Dict.lookup k d = Some v.
Proof.
  induction d as [|[k' v'] r IH]; simpl; [tauto|].
  intros ND [A|A].
  - injection A as -> ->. now rewrite String.eqb_refl.
  - inversion ND as [|? ? NI ND']; subst.
    destruct (String.eqb k k') eqn:E.
    + apply String.eqb_eq in E. subst k'. exfalso. apply NI.
      change k with (fst (k, v)). now apply in_map.
    + auto.
Qed.
End DictFacts.

(** ** Path safety *)

Lemma is_unsafe_In c : is_unsafe c = true <-> In c unsafe_chars.
Proof.
  unfold is_unsafe. rewrite existsb_exists. split.
  - intros [x [Hx E]]. apply Ascii.eqb_eq in E. now subst.
  - intros H. exists c. split; [exact H | apply Ascii.eqb_refl].
Qed.

Lemma scan_chars_false s :
  scan_chars s = false <-> exists c, In c unsafe_chars /\ occurs c s.
Proof.
  induction s as [|c r IH]; simpl.
  - split; [discriminate | intros [c [_ []]]].
  - destruct (is_unsafe c) eqn:U.
    + split; [intros _ | reflexivity].
      exists c. split; [now apply is_unsafe_In | now left].
    + rewrite IH. split.
      * intros [x [Hx O]]. exists x. auto.
      * intros [x [Hx [E|O]]].
        -- subst x. apply is_unsafe_In in Hx. congruence.
        -- exists x. auto.
Qed.

Lemma starts_with_space_true s :
  starts_with_space s = true <-> exists r, s = String " " r.
Proof.
  destruct s as [|c r]; simpl.
  - split; [discriminate | intros [r [=]]].
  - split.
    + intros E. apply Ascii.eqb_eq in E. subst c. now exists r.
    + intros [r' [= -> _]]. reflexivity.
Qed.

(** C8, as the code has it: [pathsafe] answers [False] exactly for the
    strings that contain one of the nine forbidden characters or whose
    first character is a space (the character U+0020, no other
    whitespace). *)
Theorem pathsafe_false_iff (s : string) :
  pathsafe s = false <->
  (exists c, In c unsafe_chars /\ occurs c s) \/ (exists r, s = String " " r).
Proof.
  unfold pathsafe. destruct (starts_with_space s) eqn:S.
  - split; [intros _ | reflexivity].
    right. now apply starts_with_space_true.
  - rewrite scan_chars_false. split; [tauto|].
    intros [H|H]; [exact H|].
    apply starts_with_space_true in H. congruence.
Qed.

(** C8, the claim as written fails: a name that starts with a tab, one of
    the whitespace characters the claim lists, and holds none of the nine
    characters is accepted. *)
Lemma pathsafe_accepts_leading_tab :
  spec_whitespace tab = true /\
  scan_chars (String tab "alert") = true /\
  pathsafe (String tab "alert") = true.
Proof. repeat split; reflexivity. Qed.

(** ** Stripping the volatile fields *)


Lemma getitem_error k v e : getitem k v = Raise e -> lookup_error e.
Proof.
  destruct v; simpl; try (intros [= <-]; now left).
  destruct (Dict.lookup k d); [discriminate|].
  intros [= <-]. right. eauto.
Qed.

Lemma delitem_error k v e : delitem k v = Raise e -> lookup_error e.
Proof.
  destruct v; simpl; try (intros [= <-]; now left).
  destruct (Dict.mem k d); [discriminate|].
  intros [= <-]. right. eauto.
Qed.

Lemma getitem_Ok_obj k v x : getitem k v = Ok x -> exists d, v = JObj d.
Proof. destruct v; simpl; try discriminate. eauto. Qed.

Lemma delitem_Ok k v x :
  delitem k v = Ok x ->
  exists d, v = JObj d /\ x = JObj (Dict.remove k d).
Proof.
  destruct v; simpl; try discriminate.
  destruct (Dict.mem k d); [|discriminate].
  intros [= <-]. eauto.
Qed.

Lemma delitem_twice k d e :
  delitem k (JObj (Dict.remove k d)) = Raise e -> e = KeyError k.
Proof.
  simpl. unfold Dict.mem. rewrite lookup_remove_eq. now intros [= <-].
Qed.

Lemma strip_keys_obj ks : forall d,
  exists d',
    strip_keys ks (JObj d) = (JObj d', Ok tt) /\
    (forall k, In k ks -> Dict.lookup k d' = None) /\
    (forall k, ~ In k ks -> Dict.lookup k d' = Dict.lookup k d).
Proof.
  induction ks as [|key r IH]; intros d; simpl.
  - exists d. repeat split; tauto.
  - unfold Dict.mem. destruct (Dict.lookup key d) eqn:L.
    + destruct (IH (Dict.remove key d)) as (d' & E & A & B).
      exists d'. split; [exact E|]. split.
      * intros k [<-|Hk]; [|auto].
        destruct (in_dec string_dec key r) as [I|I]; [auto|].
        rewrite (B key I). apply lookup_remove_eq.
      * intros k Hk. rewrite B by tauto. apply lookup_remove_neq.
        intros ->. tauto.
    + destruct (IH d) as (d' & E & A & B).
      exists d'. split; [exact E|]. split.
      * intros k [<-|Hk]; [|auto].
        destruct (in_dec string_dec key r) as [I|I]; [auto|].
        now rewrite (B key I).
      * intros k Hk. apply B. tauto.
Qed.

Lemma strip_keys_absent ks d :
  (forall k, In k ks -> Dict.lookup k d = None) ->
  strip_keys ks (JObj d) = (JObj d, Ok tt).
Proof.
  induction ks as [|key r IH]; simpl; intros H; [reflexivity|].
  unfold Dict.mem. rewrite (H key) by now left. apply IH. auto.
Qed.


Lemma settled_stops k t :
  settled k t -> exists x, strip_trigger k t = (t, Raise (KeyError x)).
Proof.
  unfold strip_trigger. intros [[x E]|(lt & x & E & D)].
  - rewrite E. eauto.
  - rewrite E, D. eauto.
Qed.

Lemma swallow_Ok s :
  swallow_KeyError s = Ok tt -> s = Ok tt \/ exists x, s = Raise (KeyError x).
Proof.
  destruct s as [[]|e]; simpl; [now left|].
  destruct e; try discriminate. right. eauto.
Qed.

Lemma strip_trigger_settles k t t' s :
  strip_trigger k t = (t', s) -> swallow_KeyError s = Ok tt -> settled k t'.
Proof.
  unfold strip_trigger.
  destruct (getitem k t) as [lt|e] eqn:G.
  - destruct (getitem_Ok_obj _ _ _ G) as [d ->].
    destruct (delitem "id" lt) as [lt1|e] eqn:D.
    + destruct (delitem_Ok _ _ _ D) as (ld & -> & ->).
      assert (S : forall acts,
                 settled k (update_field k
                   (update_field "actions" acts (JObj (Dict.remove "id" ld)))
                   (JObj d))).
      { intros acts. right. simpl.
        rewrite lookup_insert_eq. eexists. exists "id". split; [reflexivity|].
        simpl. unfold Dict.mem.
        rewrite lookup_insert_neq by discriminate.
        now rewrite lookup_remove_eq. }
      destruct (getitem "actions" (JObj (Dict.remove "id" ld))) as [acts|e] eqn:A.
      * destruct (strip_actions acts) as [acts' s']. intros [= <- <-] _. apply S.
      * intros [= <- <-] _. right. simpl. rewrite lookup_insert_eq.
        eexists. exists "id". split; [reflexivity|].
        simpl. unfold Dict.mem. now rewrite lookup_remove_eq.
    + intros [= <- <-] Sw. apply swallow_Ok in Sw as [Sw|[x Sw]]; [discriminate|].
      injection Sw as ->. right. eauto.
  - intros [= <- <-] Sw. apply swallow_Ok in Sw as [Sw|[x Sw]]; [discriminate|].
    injection Sw as ->. left. eauto.
Qed.

(** The loop body for one kind leaves the other kind's field alone. *)
Lemma strip_trigger_other k k' t t' s :
  k <> k' -> strip_trigger k' t = (t', s) -> getitem k t' = getitem k t.
Proof.
  intros N. unfold strip_trigger.
  destruct (getitem k' t) as [lt|e] eqn:G; [|now intros [= <- _]].
  destruct (getitem_Ok_obj _ _ _ G) as [d ->].
  destruct (delitem "id" lt) as [lt1|e]; [|now intros [= <- _]].
  destruct (getitem "actions" lt1) as [acts|e].
  - destruct (strip_actions acts) as [acts' s']. intros [= <- _].
    simpl. now rewrite lookup_insert_neq.
  - intros [= <- _]. simpl. now rewrite lookup_insert_neq.
Qed.

Lemma settled_other k k' t t' s :
  k <> k' -> strip_trigger k' t = (t', s) -> settled k t -> settled k t'.
Proof.
  intros N E. unfold settled. now rewrite (strip_trigger_other _ _ _ _ _ N E).
Qed.


Lemma strip_trigger_list_settles k ts ts' s :
  strip_trigger_list k ts = (ts', s) -> swallow_KeyError s = Ok tt ->
  head_settled k ts'.
Proof.
  destruct ts as [|t r]; simpl.
  - now intros [= <- _] _.
  - destruct (strip_trigger k t) as [t' [[]|e]] eqn:E.
    + destruct (strip_trigger_list k r) as [r' s'].
      intros [= <- _] _. simpl. now apply (strip_trigger_settles _ _ _ _ E).
    + intros [= <- <-] Sw. simpl. now apply (strip_trigger_settles _ _ _ _ E).
Qed.

Lemma strip_trigger_list_fixed k ts :
  head_settled k ts ->
  exists s, strip_trigger_list k ts = (ts, s) /\ swallow_KeyError s = Ok tt.
Proof.
  destruct ts as [|t r]; simpl; intros H.
  - eauto.
  - destruct (settled_stops _ _ H) as [x ->]. eauto.
Qed.

Lemma strip_trigger_list_other k k' ts ts' s :
  k <> k' -> strip_trigger_list k' ts = (ts', s) ->
  head_settled k ts -> head_settled k ts'.
Proof.
  intros N. destruct ts as [|t r]; simpl.
  - now intros [= <- _].
  - destruct (strip_trigger k' t) as [t' [[]|e]] eqn:E.
    + destruct (strip_trigger_list k' r) as [r' s'].
      intros [= <- _] H. simpl. now apply (settled_other _ _ _ _ _ N E).
    + intros [= <- _] H. simpl. now apply (settled_other _ _ _ _ _ N E).
Qed.


Lemma strip_triggers_settles k c c' s :
  strip_triggers k c = (c', s) -> swallow_KeyError s = Ok tt ->
  content_settled k c'.
Proof.
  unfold content_settled, strip_triggers.
  destruct (getitem "triggers" c) as [v|e] eqn:G.
  - destruct (getitem_Ok_obj _ _ _ G) as [d ->].
    destruct v as [| | |str|ts|o].
    1-3: intros [= <- <-]; discriminate.
    + destruct str; intros [= <- <-] Sw; [|discriminate].
      rewrite G. eauto.
    + destruct (strip_trigger_list k ts) as [ts' s'] eqn:E.
      intros [= <- <-] Sw.
      destruct (strip_trigger_list_fixed _ _
                  (strip_trigger_list_settles _ _ _ _ E Sw)) as (s2 & E2 & Sw2).
      simpl. rewrite lookup_insert_eq, E2. simpl.
      rewrite insert_insert. eauto.
    + destruct o; intros [= <- <-] Sw; [|discriminate].
      rewrite G. eauto.
  - intros [= <- <-] Sw. rewrite G. eauto.
Qed.

Lemma strip_triggers_other k k' c c' s :
  k <> k' -> strip_triggers k' c = (c', s) ->
  content_settled k c -> content_settled k c'.
Proof.
  intros N. unfold strip_triggers at 1.
  destruct (getitem "triggers" c) as [v|e] eqn:G; [|now intros [= <- _]].
  destruct (getitem_Ok_obj _ _ _ G) as [d ->].
  destruct v as [| | |str|ts|o]; try now intros [= <- _].
  - destruct str; now intros [= <- _].
  - destruct (strip_trigger_list k' ts) as [ts' s'] eqn:E.
    intros [= <- _] (s1 & E1 & Sw1).
    unfold strip_triggers in E1. rewrite G in E1.
    destruct (strip_trigger_list k ts) as [ts1 s1'] eqn:E1'.
    injection E1 as E1 ->.
    assert (ts1 = ts) as ->.
    { simpl in G.
      assert (L : Dict.lookup "triggers" (Dict.insert "triggers" (JArr ts1) d)
                  = Some (JArr ts1)) by apply lookup_insert_eq.
      rewrite E1 in L. destruct (Dict.lookup "triggers" d); [|discriminate].
      injection G as ->. now injection L. }
    pose proof (strip_trigger_list_settles _ _ _ _ E1' Sw1) as H.
    pose proof (strip_trigger_list_other _ _ _ _ _ N E H) as H'.
    destruct (strip_trigger_list_fixed _ _ H') as (s2 & E2 & Sw2).
    unfold content_settled, strip_triggers. simpl.
    rewrite lookup_insert_eq, E2. simpl. rewrite insert_insert. eauto.
  - destruct o; now intros [= <- _].
Qed.

(** The trigger loops touch no field of the content but [triggers]. *)
Lemma strip_triggers_fields k d c' s :
  strip_triggers k (JObj d) = (c', s) ->
  exists d', c' = JObj d' /\
    forall key, key <> "triggers" -> Dict.lookup key d' = Dict.lookup key d.
Proof.
  unfold strip_triggers.
  destruct (getitem "triggers" (JObj d)) as [v|e]; [|intros [= <- _]; eauto].
  destruct v as [| | |str|ts|o]; try (intros [= <- _]; eauto).
  - destruct str; intros [= <- _]; eauto.
  - destruct (strip_trigger_list k ts) as [ts' s']. intros [= <- _].
    simpl. eexists. split; [reflexivity|].
    intros key Hk. now apply lookup_insert_neq.
  - destruct o; intros [= <- _]; eauto.
Qed.

Lemma strip_action_ids_error l l' e :
  strip_action_ids l = (l', Raise e) -> lookup_error e.
Proof.
  revert l'. induction l as [|a r IH]; simpl; intros l'; [discriminate|].
  destruct (delitem "id" a) eqn:D.
  - destruct (strip_action_ids r) as [r' s]. intros [= _ ->]. eapply IH. reflexivity.
  - intros [= _ <-]. eapply delitem_error, D.
Qed.

Lemma strip_trigger_error k t t' e :
  strip_trigger k t = (t', Raise e) -> lookup_error e.
Proof.
  unfold strip_trigger.
  destruct (getitem k t) eqn:G; [|intros [= _ <-]; eapply getitem_error, G].
  destruct (delitem "id" a) eqn:D; [|intros [= _ <-]; eapply delitem_error, D].
  destruct (getitem "actions" a0) eqn:A; [|intros [= _ <-]; eapply getitem_error, A].
  unfold strip_actions.
  destruct a1 as [| | |str|l|o]; try (intros [= _ <-]; now left).
  - destruct str; [discriminate | intros [= _ <-]; now left].
  - destruct (strip_action_ids l) as [l' s] eqn:S.
    intros [= _ ->]. eapply strip_action_ids_error, S.
  - destruct o; [discriminate | intros [= _ <-]; now left].
Qed.

Lemma strip_trigger_list_error k ts ts' e :
  strip_trigger_list k ts = (ts', Raise e) -> lookup_error e.
Proof.
  revert ts'. induction ts as [|t r IH]; simpl; intros ts'; [discriminate|].
  destruct (strip_trigger k t) as [t' [[]|e']] eqn:E.
  - destruct (strip_trigger_list k r) as [r' s]. intros [= _ ->].
    eapply IH. reflexivity.
  - intros [= _ <-]. eapply strip_trigger_error, E.
Qed.

Lemma strip_triggers_error k c c' e :
  strip_triggers k c = (c', Raise e) -> lookup_error e.
Proof.
  unfold strip_triggers.
  destruct (getitem "triggers" c) as [v|e'] eqn:G;
    [|intros [= _ <-]; eapply getitem_error, G].
  destruct v as [| | |str|ts|o]; try (intros [= _ <-]; now left).
  - destruct str; [discriminate | intros [= _ <-]; now left].
  - destruct (strip_trigger_list k ts) as [ts' s] eqn:S.
    intros [= _ ->]. eapply strip_trigger_list_error, S.
  - destruct o; [discriminate | intros [= _ <-]; now left].
Qed.

(** [prepare_for_create] exits only on a name that is not path safe. *)
Lemma prepare_for_create_exit m m' :
  prepare_for_create m = (m', Raise SystemExit) ->
  exists n, raw_name m = Ok n /\ py_pathsafe n = Ok false.
Proof.
  unfold prepare_for_create, raw_name.
  destruct (getitem "monitor" m) as [content|e] eqn:G.
  2:{ intros [= _ ->]. destruct (getitem_error _ _ _ G) as [|[? ?]]; discriminate. }
  simpl rbind.
  destruct (getitem "name" content) as [n|e] eqn:Gn; simpl rbind.
  2:{ intros [= _ ->]. destruct (getitem_error _ _ _ Gn) as [|[? ?]]; discriminate. }
  destruct (py_pathsafe n) as [safe|e] eqn:A.
  2:{ intros [= _ ->]. destruct n as [| | | |[|? ?]|[|? ?]]; discriminate. }
  destruct safe; simpl negb; cbv iota; [|eauto].
  destruct (getitem_Ok_obj _ _ _ Gn) as [cd ->].
  destruct (strip_keys_obj remove_keys cd) as (d1 & -> & _).
  destruct (strip_triggers _ (JObj d1)) as [c2 s2] eqn:S2.
  destruct s2 as [[]|e2]; simpl swallow_KeyError.
  2:{ destruct (strip_triggers_error _ _ _ _ S2) as [->|[x ->]]; [discriminate|].
      destruct (strip_triggers _ c2) as [c3 s3] eqn:S3.
      destruct s3 as [[]|e3]; simpl swallow_KeyError; [discriminate|].
      destruct (strip_triggers_error _ _ _ _ S3) as [->|[y ->]]; discriminate. }
  destruct (strip_triggers _ c2) as [c3 s3] eqn:S3.
  destruct s3 as [[]|e3]; simpl swallow_KeyError; [discriminate|].
  destruct (strip_triggers_error _ _ _ _ S3) as [->|[y ->]]; discriminate.
Qed.

(** C10: the empty string is path safe, so a monitor whose name is empty
    passes the remote name check of [main], and [prepare_for_create] does
    not exit on it. *)
Theorem pathsafe_accepts_empty_name :
  pathsafe "" = true /\
  (forall id fields content,
     check_remote_names []
       [(id, JObj (("monitor", JObj (("name", JStr "") :: content)) :: fields))]
     = Ok tt) /\
  (forall fields content,
     snd (prepare_for_create
            (JObj (("monitor", JObj (("name", JStr "") :: content)) :: fields)))
     <> Raise SystemExit).
Proof.
  split; [reflexivity|]. split; [reflexivity|].
  intros fields content H.
  destruct (prepare_for_create _) as [m' r] eqn:E. simpl in H. subst r.
  apply prepare_for_create_exit in E as (name & N & P).
  cbv in N. injection N as <-. discriminate.
Qed.

Lemma prepare_for_create_draft :
  prepare_for_create Demo.draft = (Demo.draft_stripped, Ok Demo.draft_content).
Proof. reflexivity. Qed.

(** C7: [prepare_for_create] is idempotent.  The routine strips the
    monitor it is handed in place and returns its content; when a call
    returns, a second call on the same, already stripped, monitor returns
    the same content and changes nothing any more. *)
Theorem prepare_for_create_idempotent (m m1 c : json) :
  prepare_for_create m = (m1, Ok c) ->
  prepare_for_create m1 = (m1, Ok c).
Proof.
  unfold prepare_for_create at 1.
  destruct (getitem "monitor" m) as [content|e] eqn:G; [|discriminate].
  destruct (getitem_Ok_obj _ _ _ G) as [md ->].
  destruct (getitem "name" content) as [n|e] eqn:Gn; simpl rbind; [|discriminate].
  destruct (getitem_Ok_obj _ _ _ Gn) as [cd ->].
  destruct (py_pathsafe n) as [[|]|e] eqn:A; simpl negb; cbv iota;
    try discriminate.
  destruct (strip_keys_obj remove_keys cd) as (d1 & K & Gone & Kept).
  rewrite K.
  destruct (strip_triggers "document_level_trigger" (JObj d1)) as [c2 s2] eqn:S2.
  destruct (swallow_KeyError s2) as [[]|e2] eqn:Sw2; [|discriminate].
  destruct (strip_triggers "query_level_trigger" c2) as [c3 s3] eqn:S3.
  destruct (swallow_KeyError s3) as [[]|e3] eqn:Sw3; [|discriminate].
  intros [= <- <-].
  destruct (strip_triggers_fields _ _ _ _ S2) as (d2 & -> & F2).
  destruct (strip_triggers_fields _ _ _ _ S3) as (d3 & -> & F3).
  assert (Same : forall key, key <> "triggers" ->
                   Dict.lookup key d3 = Dict.lookup key d1).
  { intros key Hk. now rewrite F3, F2. }
  assert (D : content_settled "document_level_trigger" (JObj d3)).
  { refine (strip_triggers_other _ _ _ _ _ _ S3 _); [discriminate|].
    eapply strip_triggers_settles; eassumption. }
  assert (Q : content_settled "query_level_trigger" (JObj d3)).
  { eapply strip_triggers_settles; eassumption. }
  destruct D as (sd & Ed & Swd). destruct Q as (sq & Eq & Swq).
  unfold prepare_for_create. simpl getitem at 1.
  rewrite lookup_insert_eq. simpl getitem.
  rewrite Same, Kept by (try discriminate; cbv; intuition discriminate).
  simpl in Gn. destruct (Dict.lookup "name" cd); [|discriminate].
  injection Gn as ->. simpl rbind. rewrite A. simpl negb. cbv iota.
  rewrite strip_keys_absent.
  2:{ intros key Hk. rewrite Same.
      - now apply Gone.
      - intros ->. cbv in Hk. intuition discriminate. }
  rewrite Ed, Swd, Eq, Swq. simpl update_field. now rewrite insert_insert.
Qed.

Lemma prepare_for_create_idempotent_witness :
  prepare_for_create Demo.draft_stripped
  = (Demo.draft_stripped, Ok Demo.draft_content).
Proof.
  apply (prepare_for_create_idempotent Demo.draft). reflexivity.
Defined.

(** ** The comparator *)

Lemma distinct_NoDup ks : Dict.distinct ks = true <-> NoDup ks.
Proof.
  induction ks as [|k r IH]; simpl.
  - split; [constructor | reflexivity].
  - rewrite andb_true_iff, negb_true_iff, IH. split.
    + intros [E ND]. constructor; [|exact ND].
      intros I. assert (X : existsb (String.eqb k) r = true).
      { apply existsb_exists. exists k. split; [exact I | apply String.eqb_refl]. }
      congruence.
    + intros ND. inversion ND as [|? ? NI ND']; subst. split; [|exact ND'].
      destruct (existsb (String.eqb k) r) eqn:E; [|reflexivity].
      apply existsb_exists in E as (x & I & E). apply String.eqb_eq in E.
      subst x. contradiction.
Qed.

Lemma comparable_inv local id r :
  comparable local (id, r) = true ->
  exists l lj lv n rj rv,
    Dict.lookup id local = Some l /\
    getitem "_version" l = Ok lj /\ py_int lj = Ok lv /\
    raw_name l = Ok n /\
    getitem "_version" r = Ok rj /\ py_int rj = Ok rv.
Proof.
  unfold comparable, version_of. simpl fst. simpl snd.
  destruct (Dict.lookup id local) as [l|]; [|discriminate].
  destruct (getitem "_version" l) as [lj|] eqn:Gl; simpl rbind; [|discriminate].
  destruct (py_int lj) as [lv|] eqn:Il; [|discriminate].
  destruct (raw_name l) as [n|] eqn:N; [|discriminate].
  destruct (getitem "_version" r) as [rj|] eqn:Gr; simpl rbind; [|discriminate].
  destruct (py_int rj) as [rv|] eqn:Ir; [|discriminate].
  intros _. exists l, lj, lv, n, rj, rv. repeat split; assumption.
Qed.

(** One round of the loop on a comparable item. *)
Lemma version_step_comparable local id r acc l lj lv n rj rv :
  Dict.lookup id local = Some l ->
  getitem "_version" l = Ok lj -> py_int lj = Ok lv ->
  raw_name l = Ok n ->
  getitem "_version" r = Ok rj -> py_int rj = Ok rv ->
  version_step local id r acc
  = Ok (if (lv <? rv)%Z then Dict.insert id (n, rj, lj) acc else acc).
Proof.
  intros L Gl Il N Gr Ir. unfold version_step. rewrite L, Gl. simpl rbind.
  rewrite Il. simpl rbind. rewrite Gr. simpl rbind. rewrite Ir. simpl rbind.
  destruct (lv <? rv)%Z; [|reflexivity].
  unfold raw_name in N. destruct (getitem "monitor" l); [|discriminate].
  simpl rbind in *. now rewrite N.
Qed.

Lemma check_version_state_run local : forall remote acc,
  NoDup (Dict.keys remote) ->
  forallb (comparable local) remote = true ->
  exists m,
    check_version_state local remote acc = (m, Ok tt) /\
    (forall id, ~ In id (Dict.keys remote) ->
       Dict.lookup id m = Dict.lookup id acc) /\
    (forall id l r lj lv n rj rv,
       Dict.lookup id remote = Some r ->
       Dict.lookup id local = Some l ->
       getitem "_version" l = Ok lj -> py_int lj = Ok lv ->
       raw_name l = Ok n ->
       getitem "_version" r = Ok rj -> py_int rj = Ok rv ->
       Dict.lookup id m
       = if (lv <? rv)%Z then Some (n, rj, lj) else Dict.lookup id acc).
Proof.
  induction remote as [|[id0 r0] rest IH]; intros acc ND C.
  - exists acc. simpl. repeat split; auto. discriminate.
  - simpl in ND, C. inversion ND as [|? ? NI ND']; subst.
    apply andb_true_iff in C as [C0 C].
    destruct (comparable_inv _ _ _ C0)
      as (l0 & lj0 & lv0 & n0 & rj0 & rv0 & L0 & Gl0 & Il0 & N0 & Gr0 & Ir0).
    simpl. rewrite (version_step_comparable _ _ _ acc _ _ _ _ _ _ L0 Gl0 Il0 N0 Gr0 Ir0).
    destruct (IH (if (lv0 <? rv0)%Z then Dict.insert id0 (n0, rj0, lj0) acc else acc)
                ND' C) as (m & E & Out & Inside).
    exists m. split; [exact E|]. split.
    + intros id NIn. rewrite Out by tauto.
      destruct (lv0 <? rv0)%Z; [|reflexivity].
      apply lookup_insert_neq. intros ->. tauto.
    + intros id l r lj lv n rj rv Lr Ll Gl Il N Gr Ir.
      destruct (String.eqb id id0) eqn:Eid.
      * apply String.eqb_eq in Eid. subst id0. injection Lr as <-.
        rewrite L0 in Ll. injection Ll as <-.
        assert (lj0 = lj) by congruence. assert (rj0 = rj) by congruence.
        assert (n0 = n) by congruence. subst lj0 rj0 n0.
        assert (lv0 = lv) by congruence. assert (rv0 = rv) by congruence.
        subst lv0 rv0.
        rewrite Out by exact NI.
        destruct (lv <? rv)%Z; [apply lookup_insert_eq | reflexivity].
      * rewrite (Inside id l r lj lv n rj rv Lr Ll Gl Il N Gr Ir).
        destruct (lv <? rv)%Z; [reflexivity|].
        destruct (lv0 <? rv0)%Z; [|reflexivity].
        apply lookup_insert_neq. now apply String.eqb_neq.
Qed.

(** What a round of the loop that does not raise has found and done. *)
Lemma version_step_Ok local id r acc acc' :
  version_step local id r acc = Ok acc' ->
  exists l lj lv rj rv,
    Dict.lookup id local = Some l /\
    getitem "_version" l = Ok lj /\ py_int lj = Ok lv /\
    getitem "_version" r = Ok rj /\ py_int rj = Ok rv /\
    ((lv <? rv)%Z = true ->
     exists n, raw_name l = Ok n /\ acc' = Dict.insert id (n, rj, lj) acc) /\
    ((lv <? rv)%Z = false -> acc' = acc).
Proof.
  unfold version_step.
  destruct (Dict.lookup id local) as [l|]; [|discriminate].
  destruct (getitem "_version" l) as [lj|] eqn:Gl; simpl rbind; [|discriminate].
  destruct (py_int lj) as [lv|] eqn:Il; simpl rbind; [|discriminate].
  destruct (getitem "_version" r) as [rj|] eqn:Gr; simpl rbind; [|discriminate].
  destruct (py_int rj) as [rv|] eqn:Ir; simpl rbind; [|discriminate].
  intros H. exists l, lj, lv, rj, rv. repeat split; try assumption.
  - intros Lt. rewrite Lt in H. unfold raw_name.
    destruct (getitem "monitor" l) as [c|]; simpl rbind in *; [|discriminate].
    destruct (getitem "name" c) as [n|]; simpl rbind in *; [|discriminate].
    injection H as <-. eauto.
  - intros Ge. rewrite Ge in H. now injection H.
Qed.

Lemma check_version_state_returns local : forall remote acc m,
  NoDup (Dict.keys remote) ->
  check_version_state local remote acc = (m, Ok tt) ->
  (forall id, ~ In id (Dict.keys remote) ->
     Dict.lookup id m = Dict.lookup id acc) /\
  (forall id r,
     Dict.lookup id remote = Some r ->
     exists l lj lv rj rv,
       Dict.lookup id local = Some l /\
       getitem "_version" l = Ok lj /\ py_int lj = Ok lv /\
       getitem "_version" r = Ok rj /\ py_int rj = Ok rv /\
       ((lv <? rv)%Z = true ->
        exists n, raw_name l = Ok n /\ Dict.lookup id m = Some (n, rj, lj)) /\
       ((lv <? rv)%Z = false -> Dict.lookup id m = Dict.lookup id acc)).
Proof.
  induction remote as [|[id0 r0] rest IH]; intros acc m ND.
  - simpl. intros [= <-]. split; [reflexivity | discriminate].
  - simpl in ND. inversion ND as [|? ? NI ND']; subst. simpl.
    destruct (version_step local id0 r0 acc) as [acc'|e] eqn:S; [|discriminate].
    intros E. destruct (IH acc' m ND' E) as (Out & Inside).
    destruct (version_step_Ok _ _ _ _ _ S)
      as (l0 & lj0 & lv0 & rj0 & rv0 & L0 & Gl0 & Il0 & Gr0 & Ir0 & Lt0 & Ge0).
    assert (Other : forall id, id <> id0 ->
                      Dict.lookup id acc' = Dict.lookup id acc).
    { intros id N. destruct (lv0 <? rv0)%Z.
      - destruct (Lt0 eq_refl) as (n & _ & ->). now apply lookup_insert_neq.
      - now rewrite (Ge0 eq_refl). }
    split.
    + intros id NIn. rewrite Out by tauto. apply Other. intros ->. tauto.
    + intros id r Lr. destruct (String.eqb id id0) eqn:Eid.
      * apply String.eqb_eq in Eid. subst id0. injection Lr as <-.
        exists l0, lj0, lv0, rj0, rv0. repeat split; try assumption.
        -- intros Lt. destruct (Lt0 Lt) as (n & N & ->).
           exists n. split; [exact N|]. rewrite Out by exact NI.
           apply lookup_insert_eq.
        -- intros Ge. rewrite Out by exact NI. now rewrite (Ge0 Ge).
      * destruct (Inside id r Lr)
          as (l & lj & lv & rj & rv & L & Gl & Il & Gr & Ir & Lt & Ge).
        exists l, lj, lv, rj, rv. repeat split; try assumption.
        intros G. rewrite (Ge G). apply Other. now apply String.eqb_neq.
Qed.

(** C4: started with nothing recorded, [check_version_state] returns
    when every remote identity has a local counterpart (with integer
    versions); and whenever it returns, for every identity present in
    both mappings it has recorded a gap if and only if the local
    [_version] is strictly less than the remote one, the gap being
    [[name, remote version, local version]]; when the local version is
    greater or equal, nothing is recorded for that identity. *)
Theorem check_version_state_gap (local remote : Dict.t json) :
  Dict.wf remote = true ->
  (forallb (comparable local) remote = true ->
   exists m, check_version_state local remote [] = (m, Ok tt)) /\
  (forall m,
     check_version_state local remote [] = (m, Ok tt) ->
     forall id l r,
       Dict.lookup id local = Some l -> Dict.lookup id remote = Some r ->
       exists lj rj lv rv,
         getitem "_version" l = Ok lj /\ getitem "_version" r = Ok rj /\
         py_int lj = Ok lv /\ py_int rj = Ok rv /\
         (Dict.mem id m = true <-> (lv < rv)%Z) /\
         ((lv < rv)%Z ->
          exists n, raw_name l = Ok n /\ Dict.lookup id m = Some (n, rj, lj)) /\
         ((rv <= lv)%Z -> Dict.lookup id m = None)).
Proof.
  intros WF. apply distinct_NoDup in WF. split.
  - intros C.
    destruct (check_version_state_run local remote [] WF C) as (m & E & _).
    now exists m.
  - intros m E id l r Ll Lr.
    destruct (check_version_state_returns local remote [] m WF E) as (_ & Inside).
    destruct (Inside id r Lr)
      as (l' & lj & lv & rj & rv & L' & Gl & Il & Gr & Ir & Lt & Ge).
    rewrite Ll in L'. injection L' as <-.
    exists lj, rj, lv, rv. repeat split; try assumption.
    + intros M. destruct (Z.ltb_spec lv rv) as [H|H]; [exact H|].
      unfold Dict.mem in M. rewrite (Ge eq_refl) in M. discriminate.
    + intros H. apply Z.ltb_lt in H. destruct (Lt H) as (n & _ & F).
      unfold Dict.mem. now rewrite F.
    + intros H. apply Z.ltb_lt in H. exact (Lt H).
    + intros H. apply Z.ltb_ge in H. now rewrite (Ge H).
Qed.

Lemma check_version_state_gap_witness :
  (exists m,
     check_version_state Demo.local_pair Demo.remote_pair [] = (m, Ok tt)) /\
  (exists lj rj lv rv,
     getitem "_version" (Demo.monitor "M3" "Alert-C" 2) = Ok lj /\
     getitem "_version" (Demo.monitor "M3" "Alert-C" 5) = Ok rj /\
     py_int lj = Ok lv /\ py_int rj = Ok rv /\
     (Dict.mem "M3" [("M3", (JStr "Alert-C", JNum 5, JNum 2))] = true
      <-> (lv < rv)%Z) /\
     ((lv < rv)%Z ->
      exists n,
        raw_name (Demo.monitor "M3" "Alert-C" 2) = Ok n /\
        Dict.lookup "M3" [("M3", (JStr "Alert-C", JNum 5, JNum 2))]
        = Some (n, rj, lj)) /\
     ((rv <= lv)%Z ->
      Dict.lookup "M3" [("M3", (JStr "Alert-C", JNum 5, JNum 2))] = None)).
Proof.
  destruct (check_version_state_gap Demo.local_pair Demo.remote_pair eq_refl)
    as [Returns Records].
  split.
  - apply Returns. reflexivity.
  - apply (Records [("M3", (JStr "Alert-C", JNum 5, JNum 2))] eq_refl "M3");
      reflexivity.
Defined.

(** What the call records on the two demo stores: one gap, for [M3]. *)
Example check_version_state_pair :
  check_version_state Demo.local_pair Demo.remote_pair []
  = ([("M3", (JStr "Alert-C", JNum 5, JNum 2))], Ok tt).
Proof. reflexivity. Qed.

Lemma compare_monitors_missing diff remote : forall local acc,
  forallb has_monitor local = true ->
  forallb has_monitor remote = true ->
  (exists id, In id (Dict.keys local) /\ Dict.mem id remote = false) ->
  exists d k,
    compare_monitors diff local remote acc = (d, Raise (KeyError k)) /\
    In k (Dict.keys local) /\ Dict.mem k remote = false.
Proof.
  intros local acc HL HR. revert acc HL.
  induction local as [|[id contents] rest IH]; intros acc HL (x & I & Mx).
  - destruct I.
  - simpl in HL. apply andb_true_iff in HL as [H0 HL].
    unfold has_monitor in H0. simpl snd in H0.
    simpl. unfold compare_step.
    destruct (getitem "monitor" contents) as [lc|]; [|discriminate].
    simpl rbind.
    destruct (Dict.lookup id remote) as [r|] eqn:L.
    + assert (Hr : has_monitor (id, r) = true).
      { rewrite forallb_forall in HR. apply HR. now apply lookup_In. }
      unfold has_monitor in Hr. simpl snd in Hr.
      destruct (getitem "monitor" r) as [rc|]; [|discriminate].
      simpl rbind.
      assert (R : exists id', In id' (Dict.keys rest) /\ Dict.mem id' remote = false).
      { exists x. split; [|exact Mx]. destruct I as [<-|I]; [|exact I].
        unfold Dict.mem in Mx. simpl in Mx. rewrite L in Mx. discriminate. }
      destruct (diff rc lc).
      * destruct (IH (Dict.insert id s acc) HL R) as (d & k & E & Ik & Mk).
        exists d, k. split; [exact E|]. split; [now right | exact Mk].
      * destruct (IH acc HL R) as (d & k & E & Ik & Mk).
        exists d, k. split; [exact E|]. split; [now right | exact Mk].
    + exists acc, id. repeat split; [now left|].
      unfold Dict.mem. now rewrite L.
Qed.

Lemma check_version_state_missing local : forall remote acc,
  forallb (fun item => negb (Dict.mem (fst item) local) || comparable local item)
          remote = true ->
  (exists id, In id (Dict.keys remote) /\ Dict.mem id local = false) ->
  exists m k,
    check_version_state local remote acc = (m, Raise (KeyError k)) /\
    In k (Dict.keys remote) /\ Dict.mem k local = false.
Proof.
  induction remote as [|[id r] rest IH]; intros acc C (x & I & Mx).
  - destruct I.
  - simpl in C. apply andb_true_iff in C as [C0 C]. simpl fst in C0.
    simpl. destruct (Dict.mem id local) eqn:M.
    + simpl in C0.
      destruct (comparable_inv _ _ _ C0)
        as (l & lj & lv & n & rj & rv & L & Gl & Il & N & Gr & Ir).
      rewrite (version_step_comparable _ _ _ acc _ _ _ _ _ _ L Gl Il N Gr Ir).
      assert (R : exists id', In id' (Dict.keys rest) /\ Dict.mem id' local = false).
      { exists x. split; [|exact Mx]. simpl in I.
        destruct I as [<-|I]; [congruence | exact I]. }
      destruct (IH (if (lv <? rv)%Z then Dict.insert id (n, rj, lj) acc else acc) C R)
        as (m & k & E & Ik & Mk).
      exists m, k. split; [exact E|]. split; [now right | exact Mk].
    + unfold version_step. apply mem_false_lookup in M as L. rewrite L.
      exists acc, id. repeat split; [now left | exact M].
Qed.

(** C9: the comparisons need a key containment.  On mappings of monitor
    records, [compare_monitors] raises [KeyError] (for a local identity
    the remote mapping lacks) whenever some identity of the local mapping
    is absent from the remote one, and [check_version_state] raises
    [KeyError] (for a remote identity the local mapping lacks) whenever
    some identity of the remote mapping is absent from the local one;
    neither skips the identity and returns. *)
Theorem comparisons_raise_on_missing_identity
    (diff : json -> json -> option string) (local remote : Dict.t json)
    (diffs : Dict.t string) (gaps : mismatch) :
  (forallb has_monitor local = true ->
   forallb has_monitor remote = true ->
   (exists id, In id (Dict.keys local) /\ Dict.mem id remote = false) ->
   exists d k,
     compare_monitors diff local remote diffs = (d, Raise (KeyError k)) /\
     In k (Dict.keys local) /\ Dict.mem k remote = false)
  /\
  (forallb (fun item => negb (Dict.mem (fst item) local) || comparable local item)
           remote = true ->
   (exists id, In id (Dict.keys remote) /\ Dict.mem id local = false) ->
   exists m k,
     check_version_state local remote gaps = (m, Raise (KeyError k)) /\
     In k (Dict.keys remote) /\ Dict.mem k local = false).
Proof.
  split.
  - apply compare_monitors_missing.
  - apply check_version_state_missing.
Qed.

(** The local store knows a monitor the remote one lacks: comparing the
    contents raises; the other way round the version check raises. *)
Lemma comparisons_raise_on_missing_identity_witness :
  (exists d k,
     compare_monitors (@deep_diff Demo.world) Demo.local_with_new Demo.remote_pair []
     = (d, Raise (KeyError k)) /\
     In k (Dict.keys Demo.local_with_new) /\
     Dict.mem k Demo.remote_pair = false)
  /\
  (exists m k,
     check_version_state Demo.remote_pair Demo.local_with_new []
     = (m, Raise (KeyError k)) /\
     In k (Dict.keys Demo.local_with_new) /\
     Dict.mem k Demo.remote_pair = false).
Proof.
  split.
  - apply (proj1 (comparisons_raise_on_missing_identity
                    (@deep_diff Demo.world) Demo.local_with_new Demo.remote_pair [] []));
      try reflexivity.
    exists "createabcdefghij". split; [simpl; tauto | reflexivity].
  - apply (proj2 (comparisons_raise_on_missing_identity
                    (@deep_diff Demo.world) Demo.remote_pair Demo.local_with_new [] []));
      try reflexivity.
    exists "createabcdefghij". split; [simpl; tauto | reflexivity].
Defined.

Example compare_monitors_new_local :
  compare_monitors (@deep_diff Demo.world) Demo.local_with_new Demo.remote_pair []
  = ([], Raise (KeyError "createabcdefghij")).
Proof. reflexivity. Qed.

(* ================================================================== *)
(** ** A program logic for the log and for the state components *)
(* ================================================================== *)

Section Logic.
Context {W : World}.

Lemma run_bind {A B} (c : M A) (k : A -> M B) s :
  bind c k s = match c s with
               | (Ok a, s') => k a s'
               | (Raise e, s') => (Raise e, s')
               end.
Proof. reflexivity. Qed.

Section Allows.
Variable ok : event -> bool.

Lemma allows_ret {A} (a : A) : allows ok (ret a).
Proof. intros s. exists []. simpl. now rewrite app_nil_r. Qed.

Lemma allows_raise {A} e : allows ok (@raise _ A e).
Proof. intros s. exists []. simpl. now rewrite app_nil_r. Qed.

Lemma allows_lift {A} (r : result A) : allows ok (lift r).
Proof. intros s. exists []. simpl. now rewrite app_nil_r. Qed.

Lemma allows_gets {A} (f : state -> A) : allows ok (gets f).
Proof. intros s. exists []. simpl. now rewrite app_nil_r. Qed.

Lemma allows_modify f :
  (forall s, log (f s) = log s) -> allows ok (modify f).
Proof. intros H s. exists []. simpl. now rewrite app_nil_r, H. Qed.

Lemma allows_emit e : ok e = true -> allows ok (emit e).
Proof. intros H s. exists [e]. simpl. now rewrite H. Qed.

Lemma allows_bind {A B} (c : M A) (k : A -> M B) :
  allows ok c -> (forall a, allows ok (k a)) -> allows ok (bind c k).
Proof.
  intros Hc Hk s. rewrite run_bind.
  destruct (Hc s) as (e1 & L1 & F1).
  destruct (c s) as [[a|e] s1]; simpl in L1.
  - destruct (Hk a s1) as (e2 & L2 & F2).
    exists (e1 ++ e2). rewrite L2, L1, app_assoc, forallb_app, F1, F2.
    now split.
  - exists e1. now split.
Qed.

Lemma allows_try_except {A} (c h : M A) handles :
  allows ok c -> allows ok h -> allows ok (try_except c handles h).
Proof.
  intros Hc Hh s. unfold try_except.
  destruct (Hc s) as (e1 & L1 & F1).
  destruct (c s) as [[a|e] s1]; simpl in L1.
  - exists e1. now split.
  - destruct (handles e).
    + destruct (Hh s1) as (e2 & L2 & F2).
      exists (e1 ++ e2). rewrite L2, L1, app_assoc, forallb_app, F1, F2.
      now split.
    + exists e1. now split.
Qed.

Lemma allows_for_each {X} (l : list X) (body : X -> M unit) :
  (forall x, allows ok (body x)) -> allows ok (for_each l body).
Proof.
  intros H. induction l as [|x r IH]; simpl.
  - apply allows_ret.
  - apply allows_bind; [apply H | intros _; exact IH].
Qed.

Lemma allows_fold_M {X A} (l : list X) (body : A -> X -> M A) :
  (forall a x, allows ok (body a x)) -> forall a, allows ok (fold_M l a body).
Proof.
  intros H. induction l as [|x r IH]; intros a; simpl.
  - apply allows_ret.
  - apply allows_bind; [apply H | intros a'; apply IH].
Qed.
End Allows.

Lemma allows_mono {A} (ok ok' : event -> bool) (c : M A) :
  (forall e, ok e = true -> ok' e = true) -> allows ok c -> allows ok' c.
Proof.
  intros Le H s. destruct (H s) as (evs & L & F).
  exists evs. split; [exact L|].
  rewrite forallb_forall in *. auto.
Qed.

Section Preserves.
Context {X : Type}.
Variable f : state -> X.

Lemma preserves_ret {A} (a : A) : preserves f (ret a).
Proof. intros s. reflexivity. Qed.

Lemma preserves_raise {A} e : preserves f (@raise _ A e).
Proof. intros s. reflexivity. Qed.

Lemma preserves_lift {A} (r : result A) : preserves f (lift r).
Proof. intros s. reflexivity. Qed.

Lemma preserves_gets {A} (g : state -> A) : preserves f (gets g).
Proof. intros s. reflexivity. Qed.

Lemma preserves_modify g :
  (forall s, f (g s) = f s) -> preserves f (modify g).
Proof. intros H s. apply H. Qed.

Lemma preserves_emit e :
  (forall l s, f (set_log l s) = f s) -> preserves f (emit e).
Proof. intros H s. apply H. Qed.

Lemma preserves_bind {A B} (c : M A) (k : A -> M B) :
  preserves f c -> (forall a, preserves f (k a)) -> preserves f (bind c k).
Proof.
  intros Hc Hk s. rewrite run_bind. specialize (Hc s).
  destruct (c s) as [[a|e] s1]; simpl in Hc.
  - now rewrite Hk.
  - exact Hc.
Qed.

Lemma preserves_try_except {A} (c h : M A) handles :
  preserves f c -> preserves f h -> preserves f (try_except c handles h).
Proof.
  intros Hc Hh s. unfold try_except. specialize (Hc s).
  destruct (c s) as [[a|e] s1]; simpl in Hc; [exact Hc|].
  destruct (handles e); [now rewrite Hh | exact Hc].
Qed.

Lemma preserves_for_each {Y} (l : list Y) (body : Y -> M unit) :
  (forall x, preserves f (body x)) -> preserves f (for_each l body).
Proof.
  intros H. induction l as [|x r IH]; simpl.
  - apply preserves_ret.
  - apply preserves_bind; [apply H | intros _; exact IH].
Qed.

Lemma preserves_fold_M {Y A} (l : list Y) (body : A -> Y -> M A) :
  (forall a x, preserves f (body a x)) ->
  forall a, preserves f (fold_M l a body).
Proof.
  intros H. induction l as [|x r IH]; intros a; simpl.
  - apply preserves_ret.
  - apply preserves_bind; [apply H | intros a'; apply IH].
Qed.
End Preserves.
End Logic.

(** Taking a computation apart, one construct at a time. *)
Ltac allows_step :=
  lazymatch goal with
  | |- allows _ (bind _ _) => apply allows_bind; [|intros]
  | |- allows _ (ret _) => apply allows_ret
  | |- allows _ (raise _) => apply allows_raise
  | |- allows _ helper_error => apply allows_raise
  | |- allows _ (lift _) => apply allows_lift
  | |- allows _ (gets _) => apply allows_gets
  | |- allows _ (modify _) =>
      apply allows_modify; intros;
      repeat match goal with h : helper_of |- _ => destruct h end; reflexivity
  | |- allows _ (emit _) => apply allows_emit; reflexivity
  | |- allows _ (try_except _ _ _) => apply allows_try_except
  | |- allows _ (for_each _ _) => apply allows_for_each; intros
  | |- allows _ (fold_M _ _ _) => apply allows_fold_M; intros
  | |- allows _ (if ?b then _ else _) => destruct b
  | |- allows _ (match ?x with _ => _ end) => destruct x
  end.

Ltac preserves_step :=
  lazymatch goal with
  | |- preserves _ (bind _ _) => apply preserves_bind; [|intros]
  | |- preserves _ (ret _) => apply preserves_ret
  | |- preserves _ (raise _) => apply preserves_raise
  | |- preserves _ helper_error => apply preserves_raise
  | |- preserves _ (lift _) => apply preserves_lift
  | |- preserves _ (gets _) => apply preserves_gets
  | |- preserves _ (modify _) =>
      apply preserves_modify; intros;
      repeat match goal with h : helper_of |- _ => destruct h end; reflexivity
  | |- preserves _ (emit _) => apply preserves_emit; intros; reflexivity
  | |- preserves _ (try_except _ _ _) => apply preserves_try_except
  | |- preserves _ (for_each _ _) => apply preserves_for_each; intros
  | |- preserves _ (fold_M _ _ _) => apply preserves_fold_M; intros
  | |- preserves _ (if ?b then _ else _) => destruct b
  | |- preserves _ (match ?x with _ => _ end) => destruct x
  end.

(** An inclusion between two classes of events. *)
Ltac class_le :=
  let e := fresh "e" in
  intros e; destruct e as [[]| | | | | | | |]; cbv; intros;
  solve [reflexivity | discriminate | assumption].

Create HintDb events.

(** A call of a routine whose events are known. *)
Ltac allows_known :=
  eapply allows_mono; [| solve [eauto with events]]; class_le.

Ltac allows_auto := repeat first [allows_step | allows_known].

(** ** What each routine may add to the log *)

Section Events.
Context {W : World}.
Variable cfg : settings.

Lemma confirm_events h message kind :
  allows is_confirm (confirm cfg h message kind).
Proof. unfold confirm, ask. repeat allows_step. Qed.

Lemma makedirs_events dir : allows is_fs_event (makedirs dir).
Proof. unfold makedirs. repeat allows_step. Qed.

Lemma write_file_events dir file j : allows is_fs_event (write_file dir file j).
Proof. unfold write_file. repeat allows_step. Qed.

Lemma remove_file_events dir file : allows is_fs_event (remove_file dir file).
Proof. unfold remove_file. repeat allows_step. Qed.

Lemma rmdir_events dir : allows is_fs_event (rmdir dir).
Proof. unfold rmdir. repeat allows_step. Qed.
End Events.

#[export] Hint Resolve confirm_events makedirs_events write_file_events
  remove_file_events rmdir_events : events.

Section LocalEvents.
Context {W : World}.
Variable cfg : settings.

Lemma store_monitor_events id c md :
  allows is_fs_event (store_monitor cfg id c md).
Proof. unfold store_monitor. allows_auto. Qed.

Lemma remove_monitor_events n : allows is_fs_event (remove_monitor cfg n).
Proof. unfold remove_monitor. allows_auto. Qed.

Hint Resolve store_monitor_events remove_monitor_events : events.

Lemma load_dir_events all d : allows is_fs_event (load_dir cfg all d).
Proof. unfold load_dir. allows_auto. Qed.

Lemma local_load_monitors_events :
  allows is_fs_event (local_load_monitors cfg).
Proof.
  unfold local_load_monitors. allows_auto. apply load_dir_events.
Qed.

Lemma clean_dir_events d :
  allows (either is_fs_event is_confirm) (clean_dir cfg d).
Proof. unfold clean_dir. allows_auto. Qed.

Lemma clean_folders_events :
  allows (either is_fs_event is_confirm) (clean_folders cfg).
Proof. unfold clean_folders. allows_auto. apply clean_dir_events. Qed.

Lemma get_events uri : allows is_get (get uri).
Proof. unfold get. allows_auto. Qed.

Hint Resolve get_events : events.

Lemma remote_load_monitors_events : allows is_get (remote_load_monitors cfg).
Proof. unfold remote_load_monitors. allows_auto. Qed.

Lemma create_monitor_events m : allows is_post (create_monitor cfg m).
Proof. unfold create_monitor, post. allows_auto. Qed.

Lemma update_monitor_events id m :
  allows is_update_event (update_monitor cfg id m).
Proof. unfold update_monitor, get_monitor_contents, put. allows_auto. Qed.
End LocalEvents.

#[export] Hint Resolve store_monitor_events remove_monitor_events
  load_dir_events local_load_monitors_events clean_dir_events
  clean_folders_events get_events remote_load_monitors_events
  create_monitor_events update_monitor_events : events.

(** ** The stages of [main] *)

Section StageEvents.
Context {W : World}.
Variable cfg : settings.

Lemma adopt_one_events id :
  allows (either is_fs_event is_storing) (adopt_one cfg id).
Proof. unfold adopt_one, remote_monitor. allows_auto. Qed.

Lemma adopt_remote_only_events :
  allows (either is_fs_event is_storing) (adopt_remote_only cfg).
Proof. unfold adopt_remote_only. allows_auto. apply adopt_one_events. Qed.

Lemma repair_layout_no_creation : allows (no is_creation) (repair_layout cfg).
Proof. unfold repair_layout. allows_auto. Qed.

Lemma integrity_check_silent : allows (fun _ => false) integrity_check.
Proof. unfold integrity_check. allows_auto. Qed.

Lemma reconcile_versions_no_creation : allows (no is_creation) (reconcile_versions cfg).
Proof.
  unfold reconcile_versions, pull_one, local_monitor, remote_monitor.
  allows_auto.
Qed.

Lemma reconcile_content_no_creation : allows (no is_creation) (reconcile_content cfg).
Proof.
  unfold reconcile_content, push_one, local_monitor. allows_auto.
Qed.
End StageEvents.

#[export] Hint Resolve adopt_one_events adopt_remote_only_events
  integrity_check_silent : events.

(** ** The integrity check *)

Lemma one_of_In a l : one_of a l = true <-> In a l.
Proof.
  unfold one_of. rewrite existsb_exists. split.
  - intros (x & I & E). apply String.eqb_eq in E. now subst.
  - intros I. exists a. split; [exact I | apply String.eqb_refl].
Qed.

Lemma check_remote_names_finds : forall remote seen,
  (exists n, In (Ok n) (remote_names remote) /\
             (pathsafe n = false \/ In n seen)) \/
  has_duplicate_name remote ->
  exists e, check_remote_names seen remote = Raise e /\
            (all_named remote = true -> e = SystemExit).
Proof.
  induction remote as [|[id r] rest IH]; intros seen H.
  - exfalso. destruct H as [(n & [] & _)|(pre & n & mid & post & E)].
    destruct pre; discriminate.
  - simpl. unfold all_named. simpl.
    destruct (monitor_name r) as [name|e] eqn:N; simpl rbind.
    2:{ exists e. split; [reflexivity | discriminate]. }
    destruct (one_of name seen) eqn:S;
      [exists SystemExit; split; reflexivity|].
    destruct (pathsafe name) eqn:P; simpl negb; cbv iota;
      [|exists SystemExit; split; reflexivity].
    apply IH.
    destruct H as [(n & [E|I] & B)|(pre & n & mid & post & E)].
    + simpl in E. rewrite N in E. injection E as <-.
      exfalso. destruct B as [B|B]; [congruence|].
      apply one_of_In in B. congruence.
    + left. exists n. split; [exact I|].
      destruct B as [B|B]; [now left | right; apply in_or_app; now left].
    + unfold remote_names in E. simpl in E. rewrite N in E.
      destruct pre as [|x pre]; simpl in E; injection E as E1 E2.
      * left. exists name. split.
        -- unfold remote_names. rewrite E2, <- E1.
           apply in_or_app. right. now left.
        -- right. apply in_or_app. right. now left.
      * right. exists pre, n, mid, post. exact E2.
Qed.

Section Frames.
Context {W : World}.
Variable cfg : settings.

Ltac frame := repeat preserves_step.

Lemma confirm_keeps_remote h m k :
  preserves remote_monitors (confirm cfg h m k).
Proof. unfold confirm, ask. frame. Qed.

Lemma store_monitor_keeps_remote id c md :
  preserves remote_monitors (store_monitor cfg id c md).
Proof. unfold store_monitor, makedirs, write_file. frame. Qed.

Lemma remove_monitor_keeps_remote n :
  preserves remote_monitors (remove_monitor cfg n).
Proof. unfold remove_monitor, remove_file, rmdir. frame. Qed.

Lemma local_load_keeps_remote :
  preserves remote_monitors (local_load_monitors cfg).
Proof.
  unfold local_load_monitors, load_dir. frame;
    apply remove_monitor_keeps_remote.
Qed.

Lemma clean_folders_keeps_remote :
  preserves remote_monitors (clean_folders cfg).
Proof.
  unfold clean_folders, clean_dir, remove_file, rmdir. frame;
    first [apply confirm_keeps_remote | apply store_monitor_keeps_remote].
Qed.

Lemma repair_layout_keeps_remote :
  preserves remote_monitors (repair_layout cfg).
Proof.
  unfold repair_layout. frame;
    first [apply clean_folders_keeps_remote | apply local_load_keeps_remote].
Qed.
End Frames.

(** C1, as the code has it: when the remote set holds a duplicate or a
    path-unsafe name, the pass is aborted by the name check, in the very
    state the layout repair has left: no stage runs, nothing is adopted,
    created, pulled or pushed, and nothing is added to the log after the
    repair.  The loads and the layout repair, which come before the
    check, have run (or have aborted the pass themselves), and what they
    did to the local directories stays done. *)
Theorem name_violation_aborts_before_stages {W : World} (cfg : settings)
    (s s0 s1 : state) (r1 : result unit) :
  (local_load_monitors cfg ;; remote_load_monitors cfg) s = (Ok tt, s0) ->
  repair_layout cfg s0 = (r1, s1) ->
  has_unsafe_name (remote_monitors s0) \/ has_duplicate_name (remote_monitors s0) ->
  exists e,
    sync_pass cfg s = (Raise e, s1) /\
    (r1 = Ok tt -> all_named (remote_monitors s0) = true -> e = SystemExit).
Proof.
  intros Load Repair V.
  assert (Pass : sync_pass cfg s = sync cfg s0).
  { unfold sync_pass. rewrite run_bind in *.
    destruct (local_load_monitors cfg s) as [[[]|e] sa]; [|discriminate].
    rewrite run_bind. now rewrite Load. }
  rewrite Pass. unfold sync. rewrite run_bind, Repair.
  destruct r1 as [[]|e1].
  - pose proof (repair_layout_keeps_remote cfg s0) as K.
    rewrite Repair in K. simpl in K.
    destruct (check_remote_names_finds (remote_monitors s0) []) as (e & C & E).
    { destruct V as [(n & I & P)|D]; [left; exists n; auto | now right]. }
    exists e. split; [|intros _; exact E].
    rewrite run_bind. unfold integrity_check, bind, gets, lift.
    now rewrite K, C.
  - exists e1. split; [reflexivity | discriminate].
Qed.

Lemma name_violation_aborts_before_stages_witness :
  sync_pass (W:=Demo.world) Demo.interactive Demo.renamed_boot
  = (Raise SystemExit, Demo.renamed_repaired).
Proof.
  destruct (name_violation_aborts_before_stages (W:=Demo.world)
              Demo.interactive Demo.renamed_boot Demo.renamed_loaded
              Demo.renamed_repaired (Ok tt))
    as (e & Aborts & Exit).
  - vm_compute. reflexivity.
  - vm_compute. reflexivity.
  - left. exists "a/b". split; [vm_compute; tauto | reflexivity].
  - rewrite <- (Exit eq_refl eq_refl). exact Aborts.
Defined.

(** C1, the claim as written fails.  The remote set of this pass holds
    the path-unsafe name [a/b] and the name check aborts the pass, but by
    then the remote store has been read and the layout repair has moved
    the local directory [old] to [new]: removals and a write precede the
    abort. *)
Lemma layout_repair_precedes_name_abort :
  fst (sync_pass (W:=Demo.world) Demo.interactive Demo.renamed_boot)
  = Raise SystemExit /\
  check_remote_names []
    (remote_monitors
       (snd (sync_pass (W:=Demo.world) Demo.interactive Demo.renamed_boot)))
  = Raise SystemExit /\
  log (snd (sync_pass (W:=Demo.world) Demo.interactive Demo.renamed_boot))
  = [EGet search_uri;
     EConfirm "Do you want to move mismatching monitor from /old to /new?"
       "mismatch" true;
     ERemove "old" "monitor.json";
     ERmdir "old";
     EMakedirs "new";
     EWrite "new" "monitor.json" (Demo.monitor "M1" "new" 1);
     EPrint (MovedDir "old" "new")] /\
  fs Demo.renamed_boot = [("old", Demo.monitor_dir "M1" "new" 1)] /\
  fs (snd (sync_pass (W:=Demo.world) Demo.interactive Demo.renamed_boot))
  = [("new", Demo.monitor_dir "M1" "new" 1)].
Proof. repeat split; vm_compute; reflexivity. Qed.

(** ** Declined offers *)

(** Unfolds the routines down to the primitives and checks that none of
    them writes the component. *)
Ltac by_frame :=
  unfold create_new, create_monitor, update_monitor, get_monitor_contents,
    post, put, get, remove_monitor, store_monitor, makedirs, write_file,
    remove_file, rmdir, local_monitor, remote_monitor, confirm, ask;
  repeat preserves_step.

Section Declined.
Context {W : World}.
Variable cfg : settings.

Lemma confirm_keeps_fs h m k : preserves fs (confirm cfg h m k).
Proof. by_frame. Qed.

Lemma confirm_keeps_srv h m k : preserves srv (confirm cfg h m k).
Proof. by_frame. Qed.

Lemma confirm_keeps_local h m k :
  preserves local_monitors (confirm cfg h m k).
Proof. by_frame. Qed.

(** What [confirm] adds to the log: its answer, when it returns. *)
Lemma confirm_log h m k s :
  match fst (confirm cfg h m k s) with
  | Ok b => log (snd (confirm cfg h m k s)) = log s ++ [EConfirm m k b]
  | Raise _ => log (snd (confirm cfg h m k s)) = log s
  end.
Proof.
  unfold confirm, ask. cbv [bind gets modify emit lift ret].
  destruct (force cfg); [reflexivity|].
  assert (S : forall x, stdin (set_confirm_all h x s) = stdin s)
    by (intros; destruct h; reflexivity).
  destruct (Dict.lookup k (confirm_all h s)) as [[|]|];
    [reflexivity | |rewrite S];
    (destruct (read_answer (stdin s)) as [[a|e] rest];
     [|destruct h; reflexivity]);
    (destruct (one_of (lower a) ["y"; "yes"]); [destruct h; reflexivity|]);
    (destruct (one_of (lower a) ["a"; "all"]); destruct h; reflexivity).
Qed.

Lemma create_new_extends id : allows (fun _ => true) (create_new cfg id).
Proof. unfold create_new, local_monitor. allows_auto. Qed.

(** One round of the offer loop in which nothing is accepted: only the
    log, the operator's input and the latch change, and an identity the
    remote mapping lacks goes to [skipped]. *)
Lemma offer_one_declined vars id s :
  exists evs,
    log (snd (offer_one cfg vars id s)) = log s ++ evs /\
    (declined_all evs = true ->
     fs (snd (offer_one cfg vars id s)) = fs s /\
     srv (snd (offer_one cfg vars id s)) = srv s /\
     remote_monitors (snd (offer_one cfg vars id s)) = remote_monitors s /\
     local_monitors (snd (offer_one cfg vars id s)) = local_monitors s /\
     forall v', fst (offer_one cfg vars id s) = Ok v' ->
       v' = (fst vars,
             snd vars ++ if Dict.mem id (remote_monitors s) then [] else [id])).
Proof.
  destruct vars as [created_new skipped].
  unfold offer_one. cbv [bind gets lift emit modify ret raise local_monitor].
  destruct (Dict.mem id (remote_monitors s)).
  { exists []. simpl. rewrite !app_nil_r. repeat split. now intros v' [= <-]. }
  destruct (Dict.lookup id (local_monitors s)) as [m|].
  2:{ exists []. simpl. rewrite app_nil_r. repeat split. discriminate. }
  destruct (raw_name m) as [n|e].
  2:{ exists []. simpl. rewrite app_nil_r. repeat split. discriminate. }
  set (sa := set_log (log s ++ [EPrint (NewMonitorFound n)]) s).
  pose proof (confirm_log MainHelper create_question "general" sa) as L.
  pose proof (confirm_keeps_fs MainHelper create_question "general" sa) as Kf.
  pose proof (confirm_keeps_srv MainHelper create_question "general" sa) as Ks.
  pose proof (confirm_keeps_remote cfg MainHelper create_question "general" sa) as Kr.
  pose proof (confirm_keeps_local MainHelper create_question "general" sa) as Kl.
  destruct (confirm cfg MainHelper create_question "general" sa)
    as [[[|]|e] sb]; simpl in L, Kf, Ks, Kr, Kl.
  - destruct (create_new_extends id sb) as (more & Lm & _).
    exists ([EPrint (NewMonitorFound n)]
            ++ [EConfirm create_question "general" true] ++ more).
    split.
    + destruct (create_new cfg id sb) as [[[]|e] sc]; simpl in *;
        rewrite Lm, L; now rewrite <- !app_assoc.
    + simpl. discriminate.
  - exists [EPrint (NewMonitorFound n); EConfirm create_question "general" false].
    simpl. split; [rewrite L; simpl; now rewrite <- app_assoc|].
    intros _. repeat split; try assumption. now intros v' [= <-].
  - exists [EPrint (NewMonitorFound n)]. simpl. split; [exact L|].
    intros _. repeat split; try assumption. discriminate.
Qed.

Lemma declined_all_app e1 e2 :
  declined_all (e1 ++ e2) = declined_all e1 && declined_all e2.
Proof. apply forallb_app. Qed.

Lemma offer_loop_declined ids : forall vars s,
  exists evs,
    log (snd (fold_M ids vars (offer_one cfg) s)) = log s ++ evs /\
    (declined_all evs = true ->
     fs (snd (fold_M ids vars (offer_one cfg) s)) = fs s /\
     srv (snd (fold_M ids vars (offer_one cfg) s)) = srv s /\
     remote_monitors (snd (fold_M ids vars (offer_one cfg) s))
     = remote_monitors s /\
     local_monitors (snd (fold_M ids vars (offer_one cfg) s))
     = local_monitors s /\
     forall v', fst (fold_M ids vars (offer_one cfg) s) = Ok v' ->
       v' = (fst vars,
             snd vars
             ++ filter (fun id => negb (Dict.mem id (remote_monitors s))) ids)).
Proof.
  induction ids as [|id rest IH]; intros vars s.
  - exists []. simpl. rewrite !app_nil_r. repeat split.
    intros v' [= <-]. now destruct vars.
  - simpl fold_M. rewrite run_bind.
    destruct (offer_one_declined vars id s) as (e1 & L1 & D1).
    destruct (offer_one cfg vars id s) as [[v1|e] s1]; simpl in L1, D1.
    + destruct (IH v1 s1) as (e2 & L2 & D2).
      exists (e1 ++ e2). split; [now rewrite L2, L1, app_assoc|].
      rewrite declined_all_app. intros D. apply andb_true_iff in D as [Da Db].
      destruct (D1 Da) as (F1 & S1 & R1 & Lo1 & V1).
      destruct (D2 Db) as (F2 & S2 & R2 & Lo2 & V2).
      repeat split; try congruence.
      intros v' E. rewrite (V2 v' E), (V1 v1 eq_refl), R1. simpl.
      destruct (Dict.mem id (remote_monitors s)); simpl;
        now rewrite <- ?app_assoc, ?app_nil_r.
    + exists e1. split; [exact L1|]. intros D.
      destruct (D1 D) as (F1 & S1 & R1 & Lo1 & V1).
      repeat split; try assumption. discriminate.
Qed.
End Declined.

Lemma filter_filter_and {A} (f g : A -> bool) l :
  filter f (filter g l) = filter (fun x => g x && f x) l.
Proof.
  induction l as [|x r IH]; simpl; [reflexivity|].
  destruct (g x); simpl; [destruct (f x)|]; now rewrite IH.
Qed.

Lemma filter_all {A} (l : list A) : filter (fun _ => true) l = l.
Proof. induction l as [|x r IH]; simpl; [reflexivity | now rewrite IH]. Qed.

Lemma remove_all {V} (ids : list string) : forall d : Dict.t V,
  fold_left (fun d id => Dict.remove id d) ids d
  = filter (fun kv => negb (existsb (fun id => String.eqb id (fst kv)) ids)) d.
Proof.
  induction ids as [|id r IH]; intros d; simpl.
  - now rewrite filter_all.
  - rewrite IH. unfold Dict.remove. rewrite filter_filter_and.
    apply filter_ext. intros kv. now rewrite negb_orb.
Qed.

Lemma remove_only_in {V V'} (d : Dict.t V) (other : Dict.t V') :
  fold_left (fun d id => Dict.remove id d) (only_in d other) d
  = filter (fun kv => Dict.mem (fst kv) other) d.
Proof.
  rewrite remove_all. apply filter_ext_in. intros [k v] I. simpl.
  unfold only_in. destruct (Dict.mem k other) eqn:M.
  - apply negb_true_iff.
    destruct (existsb _ _) eqn:E; [|reflexivity].
    apply existsb_exists in E as (x & Ix & Ex).
    apply String.eqb_eq in Ex. subst x.
    apply filter_In in Ix as [_ Ix]. rewrite M in Ix. discriminate.
  - apply negb_false_iff. apply existsb_exists. exists k.
    split; [|apply String.eqb_refl].
    apply filter_In. split; [|now rewrite M].
    change k with (fst (k, v)). now apply in_map.
Qed.

Section Forget.
Context {W : World}.

Lemma forget_all ids : forall s,
  log (snd (for_each ids forget_local s)) = log s /\
  fs (snd (for_each ids forget_local s)) = fs s /\
  srv (snd (for_each ids forget_local s)) = srv s /\
  remote_monitors (snd (for_each ids forget_local s)) = remote_monitors s /\
  (fst (for_each ids forget_local s) = Ok tt ->
   local_monitors (snd (for_each ids forget_local s))
   = fold_left (fun d id => Dict.remove id d) ids (local_monitors s)).
Proof.
  induction ids as [|id r IH]; intros s; simpl.
  - repeat split.
  - rewrite run_bind. unfold forget_local at 1 3 5 7 9 11.
    cbv [bind gets modify raise].
    destruct (Dict.mem id (local_monitors s)).
    + destruct (IH (set_local_monitors (Dict.remove id (local_monitors s)) s))
        as (L & F & S & R & Lo).
      repeat split; assumption.
    + simpl. repeat split. discriminate.
Qed.
End Forget.

(** C2, as the code has it: in a creation stage in which the operator
    declines every offer, each declined monitor is dropped from the
    in-memory local mapping and nothing else happens to it: the local
    directory tree and the remote store are exactly what they were, so
    the entry is still on disk for the next pass to load. *)
Theorem declined_offer_only_forgets {W : World} (cfg : settings) (s : state)
    (evs : list event) :
  log (snd (offer_local_only cfg s)) = log s ++ evs ->
  declined_all evs = true ->
  fs (snd (offer_local_only cfg s)) = fs s /\
  srv (snd (offer_local_only cfg s)) = srv s /\
  remote_monitors (snd (offer_local_only cfg s)) = remote_monitors s /\
  (fst (offer_local_only cfg s) = Ok tt ->
   local_monitors (snd (offer_local_only cfg s))
   = filter (fun kv => Dict.mem (fst kv) (remote_monitors s)) (local_monitors s)).
Proof.
  unfold offer_local_only. rewrite run_bind. cbv [gets]. rewrite run_bind.
  destruct (offer_loop_declined cfg (Dict.keys (local_monitors s)) (false, []) s)
    as (e1 & L1 & D1).
  destruct (fold_M (Dict.keys (local_monitors s)) (false, []) (offer_one cfg) s)
    as [[[created_new skipped]|e] s1]; simpl in L1, D1.
  - assert (Rest : allows (fun _ => true)
                     (for_each skipped forget_local ;;
                      (if created_new
                       then local_load_monitors cfg ;; remote_load_monitors cfg
                       else ret tt))).
    { unfold forget_local. allows_auto. }
    destruct (Rest s1) as (e2 & L2 & _).
    intros L D. rewrite L2, L1, <- app_assoc in L.
    apply app_inv_head in L. subst evs.
    rewrite declined_all_app in D. apply andb_true_iff in D as [Da _].
    destruct (D1 Da) as (F1 & S1 & R1 & Lo1 & V1).
    specialize (V1 _ eq_refl). simpl in V1. injection V1 as -> ->.
    rewrite run_bind.
    destruct (forget_all (filter (fun id => negb (Dict.mem id (remote_monitors s)))
                            (Dict.keys (local_monitors s))) s1)
      as (Lf & Ff & Sf & Rf & Lof).
    destruct (for_each _ forget_local s1) as [[[]|e] s2]; simpl in *.
    + repeat split; try congruence.
      intros _. rewrite Lof by reflexivity. rewrite Lo1.
      apply (remove_only_in (local_monitors s) (remote_monitors s)).
    + repeat split; congruence.
  - simpl. intros L D. rewrite L1 in L. apply app_inv_head in L. subst evs.
    destruct (D1 D) as (F1 & S1 & R1 & Lo1 & V1).
    repeat split; try assumption. discriminate.
Qed.

Lemma declined_offer_only_forgets_witness :
  fs (snd (offer_local_only (W:=Demo.world) Demo.interactive Demo.offline_loaded))
  = Demo.offline_tree /\
  srv (snd (offer_local_only (W:=Demo.world) Demo.interactive Demo.offline_loaded))
  = [] /\
  remote_monitors
    (snd (offer_local_only (W:=Demo.world) Demo.interactive Demo.offline_loaded))
  = [] /\
  (fst (offer_local_only (W:=Demo.world) Demo.interactive Demo.offline_loaded)
   = Ok tt ->
   local_monitors
     (snd (offer_local_only (W:=Demo.world) Demo.interactive Demo.offline_loaded))
   = []).
Proof.
  apply (declined_offer_only_forgets (W:=Demo.world) Demo.interactive
           Demo.offline_loaded
           [EPrint (NewMonitorFound (JStr "M2"));
            EConfirm create_question "general" false]).
  - vm_compute. reflexivity.
  - reflexivity.
Defined.

(** C2, the claim as written fails.  The operator declines the creation
    of the local-only monitor [M2]; the pass ends with [M2] still on
    disk, and the next pass loads it and offers its creation again. *)
Lemma declined_monitor_is_offered_again :
  fst Demo.first_pass = Ok tt /\
  log (snd Demo.first_pass)
  = [EGet search_uri;
     EPrint (NewMonitorFound (JStr "M2"));
     EConfirm create_question "general" false] /\
  fs (snd Demo.first_pass) = [("M2", Demo.monitor_dir "M2" "M2" 1)] /\
  log (snd Demo.second_pass)
  = [EGet search_uri;
     EPrint (NewMonitorFound (JStr "M2"));
     EConfirm create_question "general" false].
Proof. repeat split; vm_compute; reflexivity. Qed.

(** ** De-duplication on load *)

Lemma remove_insert {V} (d : Dict.t V) k v :
  Dict.remove k (Dict.insert k v d) = Dict.remove k d.
Proof.
  induction d as [|[k' v'] r IH]; simpl.
  - now rewrite String.eqb_refl.
  - destruct (String.eqb k k') eqn:E; simpl.
    + now rewrite String.eqb_refl.
    + now rewrite E, IH.
Qed.

Lemma remove_absent {V} (d : Dict.t V) k :
  Dict.mem k d = false -> Dict.remove k d = d.
Proof.
  unfold Dict.mem. induction d as [|[k' v'] r IH]; simpl; [reflexivity|].
  destruct (String.eqb k k') eqn:E; [discriminate|].
  intros H. simpl. now rewrite IH.
Qed.

Lemma remove_managed (fl : Dict.t content) :
  forallb (fun f => one_of f managed_files) (Dict.keys fl) = true ->
  Dict.remove "README.md"
    (Dict.remove "metadata.json" (Dict.remove "monitor.json" fl)) = [].
Proof.
  unfold Dict.remove. rewrite !filter_filter_and.
  induction fl as [|[f c] r IH]; [reflexivity|].
  intros H. simpl in H. apply andb_true_iff in H as [Hf Hr].
  specialize (IH Hr). cbn [filter]. rewrite IH.
  unfold one_of, managed_files in Hf. cbn [existsb] in Hf.
  rewrite !orb_true_iff in Hf.
  destruct Hf as [E|[E|[E|E]]]; try discriminate;
    apply String.eqb_eq in E; subst f; reflexivity.
Qed.

Section Dedup.
Context {W : World}.
Variable cfg : settings.
Hypothesis wet : dryrun cfg = false.

(** [try: remove(n/file) except FileNotFoundError: pass] on an
    existing directory. *)
Lemma try_remove_run s n fl file :
  plain_name n = true ->
  Dict.lookup n (fs s) = Some (Dir fl) ->
  exists s',
    try_except (remove_file n file) is_FileNotFoundError (ret tt) s
    = (Ok tt, s') /\
    Dict.lookup n (fs s') = Some (Dir (Dict.remove file fl)) /\
    Dict.remove n (fs s') = Dict.remove n (fs s).
Proof.
  intros P L. unfold try_except, remove_file, fs_remove, fs_files, resolve.
  cbv [bind gets lift modify emit ret rbind]. rewrite P, L.
  destruct (Dict.mem file fl) eqn:M; simpl.
  - eexists. split; [reflexivity|]. simpl. split.
    + apply lookup_insert_eq.
    + apply remove_insert.
  - eexists. split; [reflexivity|]. rewrite remove_absent by exact M. auto.
Qed.

(** [remove_monitor] on a directory that holds only managed files
    removes the directory, and nothing else. *)
Lemma remove_monitor_run s n fl :
  plain_name n = true ->
  Dict.lookup n (fs s) = Some (Dir fl) ->
  forallb (fun f => one_of f managed_files) (Dict.keys fl) = true ->
  exists s',
    remove_monitor cfg (JStr n) s = (Ok tt, s') /\
    fs s' = Dict.remove n (fs s).
Proof.
  intros P L F. unfold remove_monitor. rewrite wet.
  rewrite run_bind. cbv [lift as_str]. rewrite run_bind.
  unfold managed_files. simpl for_each.
  destruct (try_remove_run s n fl "monitor.json" P L) as (s1 & E1 & L1 & R1).
  destruct (try_remove_run s1 n _ "metadata.json" P L1) as (s2 & E2 & L2 & R2).
  destruct (try_remove_run s2 n _ "README.md" P L2) as (s3 & E3 & L3 & R3).
  rewrite (remove_managed fl F) in L3.
  rewrite run_bind, E1, run_bind, E2, run_bind, E3.
  cbv [ret]. unfold rmdir, fs_rmdir, fs_files, resolve.
  cbv [bind gets lift modify emit rbind]. rewrite P, L3.
  eexists. split; [reflexivity|]. simpl. congruence.
Qed.

(** What [load_dir] finds in a directory that holds a monitor. *)
Lemma load_dir_reads s all n fl m id v :
  Dict.lookup n (fs s) = Some (Dir fl) ->
  holds_monitor n fl m id v ->
  load_dir cfg all n s
  = match Dict.lookup id all with
    | Some seen =>
        (mv <- lift (getitem "_version" m) ;;
         sv <- lift (getitem "_version" seen) ;;
         newer <- lift (py_gt mv sv) ;;
         if (newer : bool) then
           n <- lift (raw_name seen) ;;
           remove_monitor cfg n ;;
           ret (Dict.insert id m all)
         else
           n <- lift (raw_name m) ;;
           remove_monitor cfg n ;;
           ret all) s
    | None => (Ok (Dict.insert id m all), s)
    end.
Proof.
  intros L (P & _ & _ & Lm & Gid & Nid & _ & _).
  unfold load_dir. rewrite run_bind. cbv [gets].
  unfold fs_read, fs_files, resolve. rewrite P. cbv [rbind]. rewrite L, Lm.
  destruct (getitem_Ok_obj _ _ _ Gid) as [d ->].
  rewrite run_bind. cbv [lift py_contains].
  assert (M : Dict.mem "_id" d = true).
  { simpl in Gid. unfold Dict.mem. now destruct (Dict.lookup "_id" d). }
  rewrite M. cbv [negb]. rewrite run_bind, Gid. rewrite run_bind.
  assert (T : truthy (JStr id) = true).
  { simpl. apply negb_true_iff. now apply String.eqb_neq. }
  rewrite T. cbv [as_key].
  destruct (Dict.lookup id all); reflexivity.
Qed.

(** An entry whose identity was already seen: the strictly newer of
    the two stays in the mapping, the directory of the other one is
    removed; on a tie the one seen first stays. *)
Lemma load_dir_duplicate s all n fl m id v seen n0 fl0 v0 :
  Dict.lookup n (fs s) = Some (Dir fl) ->
  holds_monitor n fl m id v ->
  Dict.lookup id all = Some seen ->
  getitem "_version" seen = Ok (JNum v0) ->
  raw_name seen = Ok (JStr n0) ->
  plain_name n0 = true ->
  Dict.lookup n0 (fs s) = Some (Dir fl0) ->
  forallb (fun f => one_of f managed_files) (Dict.keys fl0) = true ->
  exists s',
    load_dir cfg all n s
    = (Ok (if (v0 <? v)%Z then Dict.insert id m all else all), s') /\
    fs s' = Dict.remove (if (v0 <? v)%Z then n0 else n) (fs s).
Proof.
  intros L H Seen V0 N0 P0 L0 F0.
  rewrite (load_dir_reads s all n fl m id v L H), Seen.
  destruct H as (P & _ & F & _ & _ & _ & V & N).
  rewrite run_bind. cbv [lift]. rewrite V, run_bind, V0, run_bind.
  cbv [py_gt py_int rbind].
  destruct (v0 <? v)%Z.
  - rewrite run_bind, N0, run_bind.
    destruct (remove_monitor_run s n0 fl0 P0 L0 F0) as (s' & E & Fs).
    rewrite E. cbv [ret]. eauto.
  - rewrite run_bind, N, run_bind.
    destruct (remove_monitor_run s n fl P L F) as (s' & E & Fs).
    rewrite E. cbv [ret]. eauto.
Qed.
End Dedup.


(** ** De-duplication in a whole tree *)

Lemma keys_insert {V} (d : Dict.t V) k v :
  Dict.keys (Dict.insert k v d)
  = if Dict.mem k d then Dict.keys d else Dict.keys d ++ [k].
Proof.
  unfold Dict.mem. induction d as [|[k' v'] r IH]; simpl; [reflexivity|].
  destruct (String.eqb k k') eqn:E; simpl.
  - apply String.eqb_eq in E. now subst.
  - rewrite IH. now destruct (Dict.lookup k r).
Qed.

Lemma wf_insert {V} (d : Dict.t V) k v :
  Dict.wf d = true -> Dict.wf (Dict.insert k v d) = true.
Proof.
  unfold Dict.wf. rewrite !distinct_NoDup, keys_insert. intros N.
  destruct (Dict.mem k d) eqn:E; [exact N|].
  apply NoDup_app; [exact N | repeat constructor; intros [] |].
  intros a I [<-|[]]. apply mem_false_lookup in E.
  now apply lookup_None_keys in E.
Qed.

Lemma lookup_remove_none {V} (d : Dict.t V) k k' :
  Dict.lookup k d = None -> Dict.lookup k (Dict.remove k' d) = None.
Proof.
  intros N. destruct (string_dec k k') as [->|D].
  - apply lookup_remove_eq.
  - now rewrite lookup_remove_neq.
Qed.

Lemma filter_split {X} (p : X -> bool) l pre a mid b post :
  l = pre ++ a :: mid ++ b :: post -> p a = true -> p b = true ->
  filter p l = filter p pre ++ a :: filter p mid ++ b :: filter p post.
Proof.
  intros -> A B. rewrite filter_app. simpl. rewrite A, filter_app. simpl.
  now rewrite B.
Qed.

(** The filter loop on a mapping whose monitors have string names. *)
Lemma filter_monitors_lookup f : forall all acc,
  NoDup (Dict.keys all) ->
  (forall k m, Dict.lookup k all = Some m ->
               exists n, raw_name m = Ok (JStr n)) ->
  exists out,
    filter_monitors f all acc = Ok out /\
    forall k,
      Dict.lookup k out
      = match Dict.lookup k all with
        | Some m =>
            if match matches_filter f m with Ok b => b | Raise _ => false end
            then Some m else Dict.lookup k acc
        | None => Dict.lookup k acc
        end.
Proof.
  induction all as [|[k0 m0] r IH]; intros acc N S.
  - exists acc. split; reflexivity.
  - inversion N as [|? ? Nk Nr]; subst.
    destruct (S k0 m0) as [n0 R0]; [simpl; now rewrite String.eqb_refl|].
    assert (Mt : exists b, matches_filter f m0 = Ok b).
    { unfold matches_filter. rewrite R0. simpl. eauto. }
    destruct Mt as [b Mt].
    destruct (IH (if b then Dict.insert k0 m0 acc else acc) Nr) as (out & E & Lk).
    { intros k m L. apply (S k m). simpl.
      destruct (String.eqb k k0) eqn:K; [|exact L].
      apply String.eqb_eq in K. subst k. apply lookup_In in L.
      exfalso. apply Nk. change k0 with (fst (k0, m)). now apply in_map. }
    exists out. split.
    + cbn [filter_monitors]. rewrite Mt. exact E.
    + intros k. rewrite Lk. cbn [Dict.lookup].
      destruct (String.eqb k k0) eqn:K.
      * apply String.eqb_eq in K. subst k.
        assert (Dict.lookup k0 r = None) as -> by now apply lookup_None_keys.
        rewrite Mt. destruct b; [apply lookup_insert_eq | reflexivity].
      * apply String.eqb_neq in K.
        destruct b; [now rewrite lookup_insert_neq | reflexivity].
Qed.

Lemma holds_same n fl m m' k k' v v' :
  holds_monitor n fl m k v -> holds_monitor n fl m' k' v' ->
  m = m' /\ k = k' /\ v = v'.
Proof.
  intros (_ & _ & _ & Lm & Gi & _ & Gv & _) (_ & _ & _ & Lm' & Gi' & _ & Gv' & _).
  assert (m = m') by congruence. subst m'.
  repeat split; congruence.
Qed.

Lemma holds_dir n n' fl fl' m k k' v v' :
  holds_monitor n fl m k v -> holds_monitor n' fl' m k' v' -> n = n'.
Proof.
  intros (_ & _ & _ & _ & _ & _ & _ & R) (_ & _ & _ & _ & _ & _ & _ & R').
  congruence.
Qed.

Section World.
Context {W : World}.

Lemma fold_M_app {X A} (body : A -> X -> M A) l2 : forall l1 a s,
  fold_M (l1 ++ l2) a body s
  = match fold_M l1 a body s with
    | (Ok a', s') => fold_M l2 a' body s'
    | (Raise e, s') => (Raise e, s')
    end.
Proof.
  induction l1 as [|x r IH]; intros a s; [reflexivity|].
  cbn [app fold_M]. rewrite !run_bind.
  destruct (body a x s) as [[a'|e] s']; [apply IH | reflexivity].
Qed.
End World.

Section DedupTree.
Context {W : World}.
Variable cfg : settings.
Hypothesis wet : dryrun cfg = false.
Variable t : tree.
Hypothesis kept : kept_tree t.
Variables (n1 n2 : string) (fl1 fl2 : Dict.t content) (m1 m2 : json).
Variables (id : string) (v1 v2 : Z).
Hypothesis L1 : Dict.lookup n1 t = Some (Dir fl1).
Hypothesis H1 : holds_monitor n1 fl1 m1 id v1.
Hypothesis L2 : Dict.lookup n2 t = Some (Dir fl2).
Hypothesis H2 : holds_monitor n2 fl2 m2 id v2.
Hypothesis apart : n1 <> n2.
Hypothesis only :
  forall n fl m v,
    Dict.lookup n t = Some (Dir fl) -> holds_monitor n fl m id v ->
    n = n1 \/ n = n2.

Local Notation "'winner'" := (if (v1 <? v2)%Z then m2 else m1).
Local Notation "'loser'" := (if (v1 <? v2)%Z then n1 else n2).
Local Notation "'progress'" := (load_progress t n1 n2 m1 id winner loser).

Lemma progress_start t' : t' = t -> progress [] [] t'.
Proof.
  intros ->. repeat split; try easy.
Qed.

(** A directory that holds another identity, or none. *)
Lemma progress_other seen all all' t' t'' n :
  n <> n1 -> n <> n2 ->
  progress seen all t' ->
  Dict.wf all' = true ->
  (forall x, ~ In x (n :: seen) -> Dict.lookup x t'' = Dict.lookup x t) ->
  (forall k m, Dict.lookup k all' = Some m ->
     exists n' fl v,
       In n' (n :: seen) /\ Dict.lookup n' t = Some (Dir fl) /\
       holds_monitor n' fl m k v /\ Dict.lookup n' t'' = Some (Dir fl)) ->
  Dict.lookup id all' = Dict.lookup id all ->
  (Dict.lookup loser t' = None -> Dict.lookup loser t'' = None) ->
  progress (n :: seen) all' t''.
Proof.
  intros N1 N2 (Wf & Ia & Ib & Io & I0 & I1 & I2) Wf' A B E G.
  assert (M1 : In n1 (n :: seen) <-> In n1 seen) by (simpl; intuition congruence).
  assert (M2 : In n2 (n :: seen) <-> In n2 seen) by (simpl; intuition congruence).
  repeat split; try assumption; rewrite ?M1, ?M2, ?E; intuition.
Qed.

Lemma same_dir n fl m k v :
  Dict.lookup n t = Some (Dir fl) -> holds_monitor n fl m k v ->
  (n = n1 -> m = m1 /\ k = id /\ v = v1 /\ fl = fl1) /\
  (n = n2 -> m = m2 /\ k = id /\ v = v2 /\ fl = fl2).
Proof.
  intros L H. split; intros ->.
  - assert (fl = fl1) by congruence. subst fl.
    destruct (holds_same _ _ _ _ _ _ _ _ H H1) as (? & ? & ?). auto.
  - assert (fl = fl2) by congruence. subst fl.
    destruct (holds_same _ _ _ _ _ _ _ _ H H2) as (? & ? & ?). auto.
Qed.

(** One round of the loop. *)
Lemma load_dir_progress seen all s n fl :
  Dict.lookup n t = Some (Dir fl) -> is_dotfile n = false ->
  ~ In n seen -> (n = n2 -> In n1 seen) ->
  progress seen all (fs s) ->
  exists all' s',
    load_dir cfg all n s = (Ok all', s') /\ progress (n :: seen) all' (fs s').
Proof.
  intros Ln Dn Nn Ord I.
  pose proof I as (Wf & Ia & Ib & Io & I0 & I1 & I2).
  assert (Ls : Dict.lookup n (fs s) = Some (Dir fl)) by (rewrite Ia; auto).
  destruct kept as (_ & K).
  destruct (K n fl Ln Dn) as [(P & Nm) | (m & k & v & H)].
  - (* no monitor.json: [continue] *)
    assert (N1 : n <> n1).
    { intros ->. destruct H1 as (_ & _ & _ & Lm & _). congruence. }
    assert (N2 : n <> n2).
    { intros ->. destruct H2 as (_ & _ & _ & Lm & _). congruence. }
    exists all, s. split.
    + unfold load_dir. rewrite run_bind. cbv [gets].
      unfold fs_read, fs_files, resolve. rewrite P. cbv [rbind].
      now rewrite Ls, Nm.
    + apply (progress_other seen all all (fs s) (fs s) n); auto.
      * intros x Nx. apply Ia. simpl in Nx. tauto.
      * intros k m L. destruct (Ib k m L) as (n' & fl' & v' & ? & ? & ? & ?).
        exists n', fl', v'. simpl. auto.
  - destruct (same_dir n fl m k v Ln H) as (S1 & S2).
    rewrite (load_dir_reads cfg s all n fl m k v Ls H).
    destruct (Dict.lookup k all) as [old|] eqn:Seen.
    + (* the identity was seen before *)
      destruct (Ib k old Seen) as (n0 & fl0 & v0 & In0 & Lt0 & H0 & Ls0).
      assert (D0 : n <> n0) by (intros ->; auto).
      pose proof H0 as (P0 & _ & F0 & _ & _ & _ & V0 & R0).
      destruct (load_dir_duplicate cfg wet s all n fl m k v old n0 fl0 v0
                  Ls H Seen V0 R0 P0 Ls0 F0) as (s' & E & Fs).
      rewrite (load_dir_reads cfg s all n fl m k v Ls H), Seen in E.
      rewrite E. eexists _, s'. split; [reflexivity|].
      assert (Wf' : Dict.wf (if (v0 <? v)%Z then Dict.insert k m all else all)
                    = true)
        by (destruct (v0 <? v)%Z; [now apply wf_insert | exact Wf]).
      assert (A' : forall x, ~ In x (n :: seen) ->
                     Dict.lookup x (fs s') = Dict.lookup x t).
      { intros x Nx. simpl in Nx. rewrite Fs, lookup_remove_neq.
        - apply Ia. tauto.
        - destruct (v0 <? v)%Z; [|intuition congruence].
          intros ->. tauto. }
      assert (B' : forall k' m',
                 Dict.lookup k' (if (v0 <? v)%Z then Dict.insert k m all else all)
                 = Some m' ->
                 exists n' fl' v',
                   In n' (n :: seen) /\ Dict.lookup n' t = Some (Dir fl') /\
                   holds_monitor n' fl' m' k' v' /\
                   Dict.lookup n' (fs s') = Some (Dir fl')).
      { intros k' m' L. rewrite Fs. destruct (v0 <? v)%Z.
        - destruct (string_dec k' k) as [->|Dk].
          + rewrite lookup_insert_eq in L. injection L as <-.
            exists n, fl, v. rewrite lookup_remove_neq by exact D0.
            simpl. auto.
          + rewrite lookup_insert_neq in L by exact Dk.
            destruct (Ib k' m' L) as (n' & fl' & v' & ? & Lt' & H' & ?).
            exists n', fl', v'. rewrite lookup_remove_neq.
            * simpl. auto.
            * intros ->. assert (fl' = fl0) by congruence. subst fl'.
              destruct (holds_same _ _ _ _ _ _ _ _ H' H0) as (_ & ? & _).
              contradiction.
        - destruct (Ib k' m' L) as (n' & fl' & v' & ? & ? & ? & ?).
          exists n', fl', v'. rewrite lookup_remove_neq.
          + simpl. auto.
          + intros ->. contradiction. }
      destruct (string_dec k id) as [->|Dk].
      * (* the second directory of [id] *)
        destruct (same_dir n0 fl0 old id v0 Lt0 H0) as (T1 & T2).
        assert (n0 = n1).
        { destruct (only n0 fl0 old v0 Lt0 H0) as [?|E0]; [assumption|].
          exfalso. subst n0. specialize (Io In0).
          destruct (only n fl m v Ln H) as [->| ->]; auto. }
        subst n0.
        assert (n = n2) by (destruct (only n fl m v Ln H); congruence).
        subst n.
        destruct (S2 eq_refl) as (-> & _ & -> & ->).
        destruct (T1 eq_refl) as (-> & _ & -> & ->).
        repeat split; try assumption.
        -- intros _. now right.
        -- intros C. exfalso. apply C. now right.
        -- intros _ C. exfalso. apply C. now left.
        -- destruct (v1 <? v2)%Z; [apply lookup_insert_eq | exact Seen].
        -- rewrite Fs. apply lookup_remove_eq.
      * assert (N1 : n <> n1) by (intros C; destruct (S1 C); tauto).
        assert (N2 : n <> n2) by (intros C; destruct (S2 C); tauto).
        apply (progress_other seen all _ (fs s) (fs s') n); auto.
        -- destruct (v0 <? v)%Z; [|reflexivity].
           apply lookup_insert_neq. congruence.
        -- intros G. rewrite Fs. now apply lookup_remove_none.
    + (* the first directory of its identity *)
      exists (Dict.insert k m all), s. split; [reflexivity|].
      assert (B' : forall k' m',
                 Dict.lookup k' (Dict.insert k m all) = Some m' ->
                 exists n' fl' v',
                   In n' (n :: seen) /\ Dict.lookup n' t = Some (Dir fl') /\
                   holds_monitor n' fl' m' k' v' /\
                   Dict.lookup n' (fs s) = Some (Dir fl')).
      { intros k' m' L. destruct (string_dec k' k) as [->|Dk].
        - rewrite lookup_insert_eq in L. injection L as <-.
          exists n, fl, v. simpl. auto.
        - rewrite lookup_insert_neq in L by exact Dk.
          destruct (Ib k' m' L) as (n' & fl' & v' & ? & ? & ? & ?).
          exists n', fl', v'. simpl. auto. }
      assert (A' : forall x, ~ In x (n :: seen) ->
                     Dict.lookup x (fs s) = Dict.lookup x t).
      { intros x Nx. apply Ia. simpl in Nx. tauto. }
      destruct (string_dec k id) as [->|Dk].
      * (* the first directory of [id] *)
        assert (F1 : ~ In n1 seen).
        { intros C. destruct (in_dec string_dec n2 seen) as [C2|C2].
          - destruct (I2 C2). congruence.
          - specialize (I1 C C2). congruence. }
        assert (n = n1).
        { destruct (only n fl m v Ln H) as [?|E2]; [assumption|].
          exfalso. auto. }
        subst n. destruct (S1 eq_refl) as (-> & _ & -> & ->).
        repeat split; try assumption.
        -- now apply wf_insert.
        -- intros _. now left.
        -- intros C. exfalso. apply C. now left.
        -- intros _ _. apply lookup_insert_eq.
        -- exfalso.
           match goal with
           | X : In n2 (n1 :: seen) |- _ => destruct X as [C|C]; [congruence | auto]
           end.
        -- exfalso.
           match goal with
           | X : In n2 (n1 :: seen) |- _ => destruct X as [C|C]; [congruence | auto]
           end.
      * assert (N1 : n <> n1) by (intros C; destruct (S1 C); tauto).
        assert (N2 : n <> n2) by (intros C; destruct (S2 C); tauto).
        apply (progress_other seen all _ (fs s) (fs s) n); auto.
        -- now apply wf_insert.
        -- apply lookup_insert_neq. congruence.
Qed.

(** A run of rounds. *)
Lemma load_dirs_progress : forall l seen all s,
  NoDup l ->
  (forall n, In n l ->
     ~ In n seen /\ is_dotfile n = false /\
     exists fl, Dict.lookup n t = Some (Dir fl)) ->
  (In n2 l -> In n1 seen) ->
  progress seen all (fs s) ->
  exists all' s',
    fold_M l all (load_dir cfg) s = (Ok all', s') /\
    progress (rev l ++ seen) all' (fs s').
Proof.
  induction l as [|x r IH]; intros seen all s N Each Ord I.
  - exists all, s. split; [reflexivity | exact I].
  - inversion N as [|? ? Nx Nr]; subst.
    destruct (Each x (or_introl eq_refl)) as (Sx & Dx & fl & Lx).
    destruct (load_dir_progress seen all s x fl Lx Dx Sx) as (a1 & s1 & E1 & P1);
      [intros ->; apply Ord; now left | exact I |].
    destruct (IH (x :: seen) a1 s1 Nr) as (a2 & s2 & E2 & P2); [| |exact P1|].
    + intros n In_r. destruct (Each n (or_intror In_r)) as (Sn & Dn & F).
      repeat split; [|exact Dn | exact F].
      intros [->|C]; [contradiction | contradiction].
    + intros C. right. apply Ord. now right.
    + exists a2, s2. split.
      * cbn [fold_M]. rewrite run_bind, E1. exact E2.
      * cbn [rev]. now rewrite <- app_assoc.
Qed.

(** The whole loop, when [listdir] returns [n1] before [n2]. *)
Lemma load_loop_dedup s :
  fs s = t -> listed_before t n1 n2 ->
  let dirs := filter (fs_isdir t)
                (filter (fun x => negb (is_dotfile x)) (Dict.keys t)) in
  exists all s',
    fold_M dirs [] (load_dir cfg) s = (Ok all, s') /\
    Dict.wf all = true /\
    (forall k m, Dict.lookup k all = Some m ->
                 exists n, raw_name m = Ok (JStr n)) /\
    Dict.lookup id all = Some winner /\
    Dict.lookup loser (fs s') = None /\
    Dict.lookup (if (v1 <? v2)%Z then n2 else n1) (fs s')
    = Some (Dir (if (v1 <? v2)%Z then fl2 else fl1)).
Proof.
  intros Fs (pre & mid & post & Keys) dirs.
  pose proof H1 as (_ & D1 & _). pose proof H2 as (_ & D2 & _).
  assert (Sp : exists a b c, dirs = (a ++ n1 :: b) ++ n2 :: c).
  { unfold dirs.
    rewrite (filter_split _ _ _ _ _ _ _ Keys) by now rewrite ?D1, ?D2.
    erewrite filter_split; [|reflexivity| |]; unfold fs_isdir.
    - eexists _, _, _. now rewrite <- app_assoc.
    - now rewrite L1.
    - now rewrite L2. }
  destruct Sp as (a & b & c & Sp).
  assert (Nd : NoDup dirs).
  { unfold dirs. do 2 apply NoDup_filter. apply distinct_NoDup, kept. }
  assert (Each : forall n, In n dirs ->
                   is_dotfile n = false /\
                   exists fl, Dict.lookup n t = Some (Dir fl)).
  { unfold dirs. intros n [[_ Hd]%filter_In Hi]%filter_In.
    apply negb_true_iff in Hd. split; [exact Hd|].
    unfold fs_isdir in Hi. destruct (Dict.lookup n t) as [[|fl]|]; try discriminate.
    eauto. }
  rewrite Sp in Nd, Each. rewrite Sp.
  pose proof (NoDup_remove_2 _ _ _ Nd) as Out.
  destruct (load_dirs_progress (a ++ n1 :: b) [] [] s) as (a1 & s1 & E1 & P1).
  - now apply NoDup_app_remove_r in Nd.
  - intros n I. split; [easy|]. apply Each, in_or_app. now left.
  - intros C. exfalso. apply Out, in_or_app. now left.
  - now apply progress_start.
  - destruct (load_dirs_progress (n2 :: c) (rev (a ++ n1 :: b) ++ []) a1 s1)
      as (a2 & s2 & E2 & P2).
    + now apply NoDup_app_remove_l in Nd.
    + intros n I. split; [|apply Each, in_or_app; now right].
      rewrite app_nil_r, <- in_rev. intros C.
      clear - Nd I C. induction (a ++ n1 :: b) as [|y r IH]; [easy|].
      simpl in Nd. inversion Nd as [|? ? Ny Nr]; subst.
      destruct C as [->|C]; [|now apply IH].
      apply Ny, in_or_app. now right.
    + intros _. rewrite app_nil_r, <- in_rev. apply in_or_app. right. now left.
    + exact P1.
    + exists a2, s2.
      pose proof (fold_M_app (load_dir cfg) (n2 :: c) (a ++ n1 :: b) [] s) as G.
      rewrite E1 in G. split; [exact (eq_trans G E2)|].
      destruct P2 as (Wf & _ & Ib & _ & _ & _ & I2).
      assert (S2 : In n2 (rev (n2 :: c) ++ rev (a ++ n1 :: b) ++ [])).
      { apply in_or_app. left. rewrite <- in_rev. now left. }
      destruct (I2 S2) as (Lw & Ll).
      split; [exact Wf|]. split.
      { intros k m L. destruct (Ib k m L) as (n & fl & v & _ & _ & H & _).
        exists n. apply H. }
      split; [exact Lw|]. split; [exact Ll|].
      destruct (Ib _ _ Lw) as (n & fl & v & _ & Lt & H & Ls).
      destruct (v1 <? v2)%Z.
      * assert (n = n2) by exact (holds_dir _ _ _ _ _ _ _ _ _ H H2). subst n.
        rewrite Ls. congruence.
      * assert (n = n1) by exact (holds_dir _ _ _ _ _ _ _ _ _ H H1). subst n.
        rewrite Ls. congruence.
Qed.
End DedupTree.

(** C3, as the code has it: in a tree where every visible directory that
    has a [monitor.json] has one that parses, is named after the monitor
    it holds, holds only the manager's files and carries a non-empty
    identity and an integer version, when exactly two directories resolve
    to the same identity, loading outside dry-run mode returns, and of
    the two entries the one with the strictly higher version is kept: it
    is the one the resulting mapping holds for the identity (with a name
    filter the mapping holds it or, when the filter leaves it out,
    nothing for the identity; never the other entry), its directory stays
    and the directory of the other entry is removed, and no confirmation
    is asked for, the log gaining only changes of the tree.  When the
    versions tie, the entry enumerated first is kept and the later one is
    removed. *)
Theorem duplicate_identity_keeps_newer_else_first {W : World}
    (cfg : settings) (s : state) (n1 n2 : string) (fl1 fl2 : Dict.t content)
    (m1 m2 : json) (id : string) (v1 v2 : Z) :
  dryrun cfg = false ->
  kept_tree (fs s) ->
  listed_before (fs s) n1 n2 ->
  Dict.lookup n1 (fs s) = Some (Dir fl1) ->
  holds_monitor n1 fl1 m1 id v1 ->
  Dict.lookup n2 (fs s) = Some (Dir fl2) ->
  holds_monitor n2 fl2 m2 id v2 ->
  (forall n fl m v,
     Dict.lookup n (fs s) = Some (Dir fl) -> holds_monitor n fl m id v ->
     n = n1 \/ n = n2) ->
  let s' := snd (local_load_monitors cfg s) in
  let newer := (v1 <? v2)%Z in
  let m := if newer then m2 else m1 in
  fst (local_load_monitors cfg s) = Ok tt /\
  (filter_active cfg = None -> Dict.lookup id (local_monitors s') = Some m) /\
  (forall w, Dict.lookup id (local_monitors s') = Some w -> w = m) /\
  Dict.lookup (if newer then n1 else n2) (fs s') = None /\
  Dict.lookup (if newer then n2 else n1) (fs s')
  = Some (Dir (if newer then fl2 else fl1)) /\
  exists evs,
    log s' = log s ++ evs /\ forallb is_fs_event evs = true.
Proof.
  intros Wet Kept Before L1 H1 L2 H2 Only s' newer m.
  assert (Apart : n1 <> n2).
  { destruct Before as (pre & mid & post & Keys).
    destruct Kept as (Wf & _). apply distinct_NoDup in Wf.
    rewrite Keys in Wf. apply NoDup_remove_2 in Wf.
    intros ->. apply Wf, in_or_app. right. apply in_or_app. right. now left. }
  destruct (load_loop_dedup cfg Wet (fs s) Kept n1 n2 fl1 fl2 m1 m2 id v1 v2
              L1 H1 L2 H2 Apart Only s eq_refl Before)
    as (all & s1 & E & Wf & Names & Lw & Ll & Lk).
  assert (Run : exists out,
             local_load_monitors cfg s = (Ok tt, set_local_monitors out s1) /\
             (filter_active cfg = None -> Dict.lookup id out = Some m) /\
             (forall w, Dict.lookup id out = Some w -> w = m)).
  { subst m newer. unfold local_load_monitors. rewrite run_bind. cbv [gets].
    rewrite run_bind, E.
    destruct (filter_active cfg) as [f|].
    - destruct (filter_monitors_lookup f all []) as (out & Ef & Lf);
        [now apply distinct_NoDup | exact Names |].
      rewrite run_bind. cbv [lift]. rewrite Ef. cbv [modify].
      exists out. split; [reflexivity|]. split; [discriminate|].
      intros w. rewrite Lf, Lw.
      destruct (matches_filter f _) as [[|]|]; simpl; congruence.
    - cbv [modify]. exists all. split; [reflexivity|].
      split; [intros _; exact Lw|]. intros w. rewrite Lw. congruence. }
  destruct Run as (out & Run & Lo & Lno).
  subst s'. rewrite Run. cbn [fst snd].
  split; [reflexivity|].
  split; [exact Lo|].
  split; [exact Lno|].
  split; [exact Ll|].
  split; [exact Lk|].
  pose proof (local_load_monitors_events cfg s) as Ev.
  rewrite Run in Ev. exact Ev.
Qed.

Lemma duplicate_identity_keeps_newer_else_first_witness :
  fst (local_load_monitors (W:=Demo.world) Demo.interactive
         (Demo.boot Demo.crowded_tree [] [])) = Ok tt /\
  Dict.lookup "X"
    (local_monitors (snd (local_load_monitors (W:=Demo.world) Demo.interactive
                            (Demo.boot Demo.crowded_tree [] []))))
  = Some (Demo.monitor "X" "B" 6) /\
  Dict.lookup "A"
    (fs (snd (local_load_monitors (W:=Demo.world) Demo.interactive
                (Demo.boot Demo.crowded_tree [] [])))) = None /\
  Dict.lookup "B"
    (fs (snd (local_load_monitors (W:=Demo.world) Demo.interactive
                (Demo.boot Demo.crowded_tree [] []))))
  = Some (Demo.monitor_dir "X" "B" 6) /\
  exists evs,
    log (snd (local_load_monitors (W:=Demo.world) Demo.interactive
                (Demo.boot Demo.crowded_tree [] [])))
    = log (Demo.boot Demo.crowded_tree [] []) ++ evs /\
    forallb is_fs_event evs = true.
Proof.
  destruct (duplicate_identity_keeps_newer_else_first (W:=Demo.world)
              Demo.interactive (Demo.boot Demo.crowded_tree [] [])
              "A" "B"
              [("monitor.json", Some (Demo.monitor "X" "A" 4))]
              [("monitor.json", Some (Demo.monitor "X" "B" 6))]
              (Demo.monitor "X" "A" 4) (Demo.monitor "X" "B" 6) "X" 4%Z 6%Z)
    as (R & Lk & _ & Lg & Lw & Ev).
  9: exact (conj R (conj (Lk eq_refl) (conj Lg (conj Lw Ev)))).
  - reflexivity.
  - split; [reflexivity|]. intros n fl L D. simpl in L.
    destruct (String.eqb n ".git") eqn:E0.
    { apply String.eqb_eq in E0. subst n. vm_compute in D. discriminate D. }
    destruct (String.eqb n "A") eqn:E1.
    { apply String.eqb_eq in E1. subst n. injection L as <-. right.
      exists (Demo.monitor "X" "A" 4), "X", 4%Z.
      repeat split; try reflexivity. discriminate. }
    destruct (String.eqb n "notes.txt"); [discriminate L|].
    destruct (String.eqb n "C") eqn:E3.
    { apply String.eqb_eq in E3. subst n. injection L as <-. right.
      exists (Demo.monitor "Y" "C" 1), "Y", 1%Z.
      repeat split; try reflexivity. discriminate. }
    destruct (String.eqb n "empty") eqn:E4.
    { apply String.eqb_eq in E4. subst n. injection L as <-. left.
      split; reflexivity. }
    destruct (String.eqb n "B") eqn:E5; [|discriminate L].
    apply String.eqb_eq in E5. subst n. injection L as <-. right.
    exists (Demo.monitor "X" "B" 6), "X", 6%Z.
    repeat split; try reflexivity. discriminate.
  - exists [".git"], ["notes.txt"; "C"; "empty"], []. reflexivity.
  - reflexivity.
  - repeat split; try reflexivity. discriminate.
  - reflexivity.
  - repeat split; try reflexivity. discriminate.
  - intros n fl m v L H. simpl in L.
    destruct (String.eqb n ".git") eqn:E0.
    { apply String.eqb_eq in E0. subst n.
      destruct H as (_ & D & _). vm_compute in D. discriminate D. }
    destruct (String.eqb n "A") eqn:E1.
    { apply String.eqb_eq in E1. now left. }
    destruct (String.eqb n "notes.txt"); [discriminate L|].
    destruct (String.eqb n "C").
    { injection L as <-. exfalso.
      destruct H as (_ & _ & _ & Lm & Gi & _).
      simpl in Lm. injection Lm as <-. discriminate Gi. }
    destruct (String.eqb n "empty").
    { injection L as <-. exfalso.
      destruct H as (_ & _ & _ & Lm & _). discriminate Lm. }
    destruct (String.eqb n "B") eqn:E5; [|discriminate L].
    apply String.eqb_eq in E5. now right.
Defined.
(** C3, the claim as written fails on a tie: both entries carry version
    5, and it is the entry enumerated first, [A], that stays in the
    mapping and on disk; the later one, [B], is removed. *)
Lemma tie_keeps_the_first_entry :
  fst (local_load_monitors (W:=Demo.world) Demo.interactive
         (Demo.boot Demo.tie_tree [] [])) = Ok tt /\
  local_monitors (snd (local_load_monitors (W:=Demo.world) Demo.interactive
                         (Demo.boot Demo.tie_tree [] [])))
  = [("X", Demo.monitor "X" "A" 5)] /\
  fs (snd (local_load_monitors (W:=Demo.world) Demo.interactive
             (Demo.boot Demo.tie_tree [] [])))
  = [("A", Demo.monitor_dir "X" "A" 5)] /\
  log (snd (local_load_monitors (W:=Demo.world) Demo.interactive
              (Demo.boot Demo.tie_tree [] [])))
  = [ERemove "B" "monitor.json"; ERmdir "B"].
Proof. repeat split; vm_compute; reflexivity. Qed.

(** ** The order of processing *)

Lemma new_events_app {W : World} {A} (c : M A) s evs :
  log (snd (c s)) = log s ++ evs -> new_events c s = evs.
Proof.
  intros L. unfold new_events. rewrite L.
  rewrite skipn_app, skipn_all, Nat.sub_diag. reflexivity.
Qed.

Section StageFrames.
Context {W : World}.
Variable cfg : settings.

Lemma store_monitor_keeps_local id c md :
  preserves local_monitors (store_monitor cfg id c md).
Proof. by_frame. Qed.

Lemma create_new_keeps_remote id :
  preserves remote_monitors (create_new cfg id).
Proof. by_frame. Qed.

Lemma create_new_keeps_others id id' :
  id' <> id ->
  preserves (fun s => Dict.lookup id' (local_monitors s)) (create_new cfg id).
Proof.
  intros N. by_frame.
  apply preserves_modify. intros s. simpl. now apply lookup_insert_neq.
Qed.

Lemma update_monitor_keeps_local id m :
  preserves local_monitors (update_monitor cfg id m).
Proof. by_frame. Qed.
End StageFrames.

(** ** Running a computation step by step *)

Lemma emit_run {W : World} (e : event) s :
  emit e s = (Ok tt, set_log (log s ++ [e]) s).
Proof. reflexivity. Qed.

Lemma lift_run {W : World} {A} (r : result A) s : lift r s = (r, s).
Proof. reflexivity. Qed.

Lemma ret_run {W : World} {A} (a : A) s : ret a s = (Ok a, s).
Proof. reflexivity. Qed.

Lemma gets_run {W : World} {A} (f : state -> A) s : gets f s = (Ok (f s), s).
Proof. reflexivity. Qed.

Lemma local_monitor_run {W : World} id m s :
  Dict.lookup id (local_monitors s) = Some m ->
  local_monitor id s = (Ok m, s).
Proof.
  intros L. unfold local_monitor. rewrite run_bind. cbv [gets].
  now rewrite L.
Qed.

Lemma remote_monitor_run {W : World} id r s :
  Dict.lookup id (remote_monitors s) = Some r ->
  remote_monitor id s = (Ok r, s).
Proof.
  intros L. unfold remote_monitor. rewrite run_bind. cbv [gets].
  now rewrite L.
Qed.

(** ** Traces *)

Section Traces.
Context {W : World}.

Lemma traces_weaken {A} (T T' : list event -> Prop) (c : M A) :
  (forall evs, T evs -> T' evs) -> traces T c -> traces T' c.
Proof.
  intros H Hc s. destruct (Hc s) as (evs & L & Te). eauto.
Qed.

Lemma silent_nil (evs : list event) :
  forallb (fun _ => false) evs = true -> evs = [].
Proof. destruct evs; [reflexivity | discriminate]. Qed.

(** A computation that logs nothing in front of one with known
    traces. *)
Lemma traces_after_silent {A B} (T : list event -> Prop) (c : M A)
    (k : A -> M B) :
  allows (fun _ => false) c -> T [] -> (forall a, traces T (k a)) ->
  traces T (bind c k).
Proof.
  intros Hc T0 Hk s. rewrite run_bind.
  destruct (Hc s) as (e1 & L1 & F1). apply silent_nil in F1. subst e1.
  rewrite app_nil_r in L1.
  destruct (c s) as [[a|e] s1]; simpl in L1.
  - destruct (Hk a s1) as (e2 & L2 & T2). exists e2. now rewrite L2, L1.
  - exists []. now rewrite app_nil_r.
Qed.

Lemma traces_bind {A B} (T1 T2 T : list event -> Prop) (c : M A)
    (k : A -> M B) :
  traces T1 c -> (forall a, traces T2 (k a)) ->
  (forall e1, T1 e1 -> T e1) ->
  (forall e1 e2, T1 e1 -> T2 e2 -> T (e1 ++ e2)) ->
  traces T (bind c k).
Proof.
  intros Hc Hk H1 H2 s. rewrite run_bind.
  destruct (Hc s) as (e1 & L1 & F1).
  destruct (c s) as [[a|e] s1]; simpl in L1.
  - destruct (Hk a s1) as (e2 & L2 & F2).
    exists (e1 ++ e2). split; [now rewrite L2, L1, app_assoc | auto].
  - exists e1. auto.
Qed.

Lemma traces_emit (T : list event -> Prop) e : T [e] -> traces T (emit e).
Proof. intros H s. exists [e]. now split. Qed.

Lemma quiet_app e1 e2 : quiet e1 -> quiet e2 -> quiet (e1 ++ e2).
Proof. unfold quiet. intros H1 H2. now rewrite forallb_app, H1, H2. Qed.
End Traces.

(** ** The gate in front of [POST] *)

Lemma gate_run_app e1 : forall g e2 g',
  gate_run g (e1 ++ e2) g' <->
  exists g1, gate_run g e1 g1 /\ gate_run g1 e2 g'.
Proof.
  induction e1 as [|e r IH]; intros g e2 g'; cbn [app gate_run].
  - split; [eauto | now intros (g1 & -> & H)].
  - split.
    + intros (g1 & S & R). apply IH in R as (g2 & R1 & R2). eauto.
    + intros (g2 & (g1 & S & R1) & R2). exists g1. split; [exact S|].
      apply IH. eauto.
Qed.

Lemma gate_run_quiet evs : quiet evs -> forall g, gate_run g evs g.
Proof.
  unfold quiet. induction evs as [|e r IH]; cbn [forallb gate_run];
    intros H g; [reflexivity|].
  apply andb_true_iff in H as [He Hr].
  exists g. split; [|now apply IH].
  destruct e as [[]| | | | | | | |]; try discriminate; reflexivity.
Qed.

Lemma gate_run_no_creation evs :
  forallb (no is_creation) evs = true ->
  forall g, exists g', gate_run g evs g'.
Proof.
  induction evs as [|e r IH]; cbn [forallb gate_run]; intros H g; [eauto|].
  apply andb_true_iff in H as [He Hr].
  destruct e as [[]| | | | | | | |]; try discriminate;
    cbn [gate_step];
    match goal with
    | |- exists g', exists g1, g1 = ?x /\ _ =>
        destruct (IH Hr x) as [g' R]; exists g', x; now split
    end.
Qed.

(** The posted content carries the name of the record it was prepared
    from. *)
Lemma prepared_name m c n :
  snd (prepare_for_create m) = Ok c ->
  raw_name m = Ok n ->
  getitem "name" c = Ok n.
Proof.
  unfold prepare_for_create, raw_name.
  destruct (getitem "monitor" m) as [content|e] eqn:G; [|discriminate].
  cbn [rbind].
  destruct (getitem "name" content) as [n'|e] eqn:Gn; cbn [rbind];
    [|discriminate].
  destruct (py_pathsafe n') as [[|]|]; cbn [negb]; try discriminate.
  destruct (getitem_Ok_obj _ _ _ Gn) as [cd ->].
  destruct (strip_keys_obj remove_keys cd) as (d1 & -> & _ & B1).
  destruct (strip_triggers "document_level_trigger" (JObj d1))
    as [c2 s2] eqn:S2.
  destruct (strip_triggers_fields _ _ _ _ S2) as (d2 & -> & B2).
  destruct (swallow_KeyError s2); [|discriminate].
  destruct (strip_triggers "query_level_trigger" (JObj d2))
    as [c3 s3] eqn:S3.
  destruct (strip_triggers_fields _ _ _ _ S3) as (d3 & -> & B3).
  destruct (swallow_KeyError s3); [|discriminate].
  cbn [snd]. intros [= <-] [= <-]. cbn [getitem] in *.
  rewrite B3, B2, B1; [exact Gn | | discriminate | discriminate].
  cbv. intuition discriminate.
Qed.

Section Gate.
Context {W : World}.
Variable cfg : settings.

Lemma gate_safe_bind {A B} (c : M A) (k : A -> M B) :
  gate_safe c -> (forall x, gate_safe (k x)) -> gate_safe (bind c k).
Proof.
  intros Hc Hk s. rewrite run_bind.
  destruct (Hc s) as (e1 & L1 & G1).
  destruct (c s) as [[x|e] s1]; simpl in L1.
  - destruct (Hk x s1) as (e2 & L2 & G2).
    exists (e1 ++ e2). split; [now rewrite L2, L1, app_assoc|].
    intros g. destruct (G1 g) as (g1 & R1). destruct (G2 g1) as (g2 & R2).
    exists g2. apply gate_run_app. eauto.
  - exists e1. split; [exact L1 | exact G1].
Qed.

(** Code that takes no step of a creation cannot run against the
    gate. *)
Lemma gate_safe_no_creation {A} (c : M A) :
  allows (no is_creation) c -> gate_safe c.
Proof.
  intros H s. destruct (H s) as (evs & L & F).
  exists evs. split; [exact L|]. now apply gate_run_no_creation.
Qed.

Lemma gate_safe_fold_M {X A} (l : list X) (body : A -> X -> M A) :
  (forall a x, gate_safe (body a x)) -> forall a, gate_safe (fold_M l a body).
Proof.
  intros H. induction l as [|x r IH]; intros a; simpl.
  - apply gate_safe_no_creation, allows_ret.
  - apply gate_safe_bind; [apply H | intros a'; apply IH].
Qed.

(** What follows the [Creating] line of [create_new] once the content
    is prepared. *)
Lemma post_traces uri data :
  dryrun cfg = false ->
  traces (fun evs => exists after, evs = EPost uri data :: after /\ quiet after)
    (post cfg uri data).
Proof.
  intros D. unfold post. rewrite D.
  apply traces_bind with (T1 := fun evs => evs = [EPost uri data])
                         (T2 := quiet).
  - now apply traces_emit.
  - intros _. apply (allows_bind is_neutral);
      [apply allows_gets | intros srv0].
    destruct (http_post srv0 uri data) as [s' r].
    apply allows_bind; [now apply allows_modify | intros _; apply allows_lift].
  - intros e1 ->. exists []. now split.
  - intros e1 e2 -> Q. exists e2. now split.
Qed.

Lemma creation_traces (prepared : json) :
  traces (fun rest =>
            quiet rest \/
            exists after, rest = EPost create_uri prepared :: after /\
                          quiet after)
    (' (new_id, new_contents) <- create_monitor cfg prepared ;;
     emit (EPrint (CreatedWithId new_id)) ;;
     store_monitor cfg new_id new_contents (JObj []) ;;
     c <- lift (getitem "monitor" new_contents) ;;
     _ <- lift (getitem "name" c) ;;
     _ <- lift (getitem "monitor_type" c) ;;
     ret tt).
Proof.
  assert (After : forall x : json * json,
            allows is_neutral
              (let (new_id, new_contents) := x in
               emit (EPrint (CreatedWithId new_id)) ;;
               store_monitor cfg new_id new_contents (JObj []) ;;
               c <- lift (getitem "monitor" new_contents) ;;
               _ <- lift (getitem "name" c) ;;
               _ <- lift (getitem "monitor_type" c) ;;
               ret tt)).
  { intros [new_id new_contents]. allows_auto. }
  destruct (dryrun cfg) eqn:D.
  - apply traces_weaken with (T := quiet); [now left|].
    apply allows_bind; [|exact After].
    unfold create_monitor. rewrite D. allows_auto.
  - apply traces_bind
      with (T1 := fun evs => exists after,
                    evs = EPost create_uri prepared :: after /\ quiet after)
           (T2 := quiet).
    + unfold create_monitor. rewrite D.
      apply traces_bind
        with (T1 := fun evs => exists after,
                      evs = EPost create_uri prepared :: after /\ quiet after)
             (T2 := quiet).
      * now apply post_traces.
      * intros r. apply (allows_bind is_neutral);
          [apply allows_lift | intros nm].
        apply allows_bind; [apply allows_lift | intros i; apply allows_ret].
      * auto.
      * intros e1 e2 (after & -> & Q) Q2. exists (after ++ e2).
        split; [reflexivity | now apply quiet_app].
    + exact After.
    + intros e1 H. now right.
    + intros e1 e2 (after & -> & Q) Q2. right. exists (after ++ e2).
      split; [reflexivity | now apply quiet_app].
Qed.

Lemma create_new_trace id s m n :
  Dict.lookup id (local_monitors s) = Some m ->
  raw_name m = Ok n ->
  exists rest,
    log (snd (create_new cfg id s)) = log s ++ EPrint (Creating n) :: rest /\
    creation_tail m rest.
Proof.
  intros L N. unfold create_new.
  rewrite run_bind, (local_monitor_run id m s L).
  rewrite run_bind, lift_run, N, run_bind, emit_run.
  set (s1 := set_log (log s ++ [EPrint (Creating n)]) s).
  rewrite run_bind, (local_monitor_run id m s1 L).
  unfold creation_tail.
  destruct (prepare_for_create m) as [m' r]. cbn [snd].
  rewrite run_bind. cbv [modify]. rewrite run_bind, lift_run.
  destruct r as [prepared|e].
  2:{ exists []. cbn [snd log set_local_monitors s1 set_log].
      split; [reflexivity | now left]. }
  match goal with
  | |- context [snd (?k ?s2)] =>
      destruct (creation_traces prepared s2) as (rest & Lr & T)
  end.
  exists rest. split.
  - rewrite Lr. cbn [log set_local_monitors s1 set_log].
    now rewrite <- app_assoc.
  - destruct T as [Q|(after & -> & Q)]; [now left|].
    right. exists prepared, after. auto.
Qed.

(** The round of the offer loop for one identity. *)
Lemma offer_one_trace vars id s :
  exists evs,
    log (snd (offer_one cfg vars id s)) = log s ++ evs /\
    offer_trace s id evs.
Proof.
  unfold offer_one, offer_trace. destruct vars as [created_new skipped].
  rewrite run_bind, gets_run.
  destruct (Dict.mem id (remote_monitors s)) eqn:M.
  { exists []. rewrite ret_run. cbn [snd]. rewrite app_nil_r. auto. }
  rewrite run_bind. unfold local_monitor at 1. rewrite run_bind, gets_run.
  destruct (Dict.lookup id (local_monitors s)) as [m|] eqn:L.
  2:{ exists []. cbn [raise snd]. rewrite app_nil_r. auto. }
  rewrite ret_run, run_bind, lift_run.
  destruct (raw_name m) as [n|e] eqn:N.
  2:{ exists []. cbn [snd]. rewrite app_nil_r. auto. }
  rewrite run_bind, emit_run.
  set (s1 := set_log (log s ++ [EPrint (NewMonitorFound n)]) s).
  rewrite run_bind.
  pose proof (confirm_log cfg MainHelper create_question "general" s1) as Lc.
  pose proof (confirm_keeps_local cfg MainHelper create_question "general" s1)
    as Kl.
  destruct (confirm cfg MainHelper create_question "general" s1)
    as [[[|]|e] s2]; cbn [fst snd] in Lc, Kl.
  - rewrite run_bind.
    assert (L2 : Dict.lookup id (local_monitors s2) = Some m)
      by (rewrite Kl; exact L).
    destruct (create_new_trace id s2 m n L2 N) as (rest & Lr & T).
    exists (EPrint (NewMonitorFound n)
            :: EConfirm create_question "general" true
            :: EPrint (Creating n) :: rest).
    split.
    + destruct (create_new cfg id s2) as [[[]|e] s3]; cbn [snd] in *;
        rewrite ?ret_run; cbn [snd]; rewrite Lr, Lc; cbn [s1 log set_log];
        now rewrite <- !app_assoc.
    + right. exists m, n. repeat split; auto. right. right. eauto.
  - exists [EPrint (NewMonitorFound n);
            EConfirm create_question "general" false].
    rewrite ret_run. cbn [snd]. split.
    + rewrite Lc. cbn [s1 log set_log]. now rewrite <- app_assoc.
    + right. exists m, n. repeat split; auto.
  - exists [EPrint (NewMonitorFound n)]. cbn [snd]. split.
    + rewrite Lc. reflexivity.
    + right. exists m, n. repeat split; auto.
Qed.

Lemma offer_trace_gate s id evs :
  offer_trace s id evs -> forall g, exists g', gate_run g evs g'.
Proof.
  intros [->|(m & n & _ & _ & N & [->|[->|(rest & -> & T)]])] g.
  - now exists g.
  - exists (Announced n). cbn. eauto.
  - exists Idle. cbn. eauto.
  - assert (Q : forall after, quiet after ->
              gate_run (Started n) after (Started n))
      by (intros; now apply gate_run_quiet).
    destruct T as [Qr|(prepared & after & P & -> & Qa)].
    + exists (Started n). cbn [gate_run gate_step].
      exists (Announced n). split; [reflexivity|].
      exists (Confirmed n). split; [now rewrite !String.eqb_refl|].
      exists (Started n). split; [now split | now apply Q].
    + exists Idle. cbn [gate_run gate_step].
      exists (Announced n). split; [reflexivity|].
      exists (Confirmed n). split; [now rewrite !String.eqb_refl|].
      exists (Started n). split; [now split|].
      exists Idle. split; [|now apply gate_run_quiet].
      exists n. repeat split. exact (prepared_name _ _ _ P N).
Qed.

Lemma offer_one_gated vars id : gate_safe (offer_one cfg vars id).
Proof.
  intros s. destruct (offer_one_trace vars id s) as (evs & L & T).
  exists evs. split; [exact L | exact (offer_trace_gate _ _ _ T)].
Qed.

Lemma offer_local_only_gated : gate_safe (offer_local_only cfg).
Proof.
  unfold offer_local_only.
  apply gate_safe_bind; [apply gate_safe_no_creation; allows_auto|]. intros d.
  apply gate_safe_bind; [apply gate_safe_fold_M; intros; apply offer_one_gated|].
  intros [created_new skipped].
  apply gate_safe_no_creation. unfold forget_local. allows_auto.
Qed.

Lemma sync_pass_gated : gate_safe (sync_pass cfg).
Proof.
  unfold sync_pass, sync, stages.
  apply gate_safe_bind; [apply gate_safe_no_creation; allows_auto | intros _].
  apply gate_safe_bind; [apply gate_safe_no_creation; allows_auto | intros _].
  apply gate_safe_bind;
    [apply gate_safe_no_creation, repair_layout_no_creation | intros _].
  apply gate_safe_bind; [apply gate_safe_no_creation; allows_auto | intros _].
  apply gate_safe_bind; [apply gate_safe_no_creation; allows_auto | intros _].
  apply gate_safe_bind; [apply offer_local_only_gated | intros _].
  apply gate_safe_bind;
    [apply gate_safe_no_creation, reconcile_versions_no_creation | intros _].
  apply gate_safe_no_creation, reconcile_content_no_creation.
Qed.
End Gate.

(** C5: adopting a remote-only monitor never goes through the
    confirmation gate (the adoption stage adds no [EConfirm] to the log),
    and a creation is only ever started for the monitor that was
    announced and confirmed.  The log of a whole sync pass goes through
    the gate: a creation is announced only right after
    [helper.confirm], asked about the creation of the monitor announced
    as new, returned [True], it is announced for that same monitor,
    and the [POST] that follows carries the content of that monitor.
    Round by round: in the round of the offer loop for the identity
    [id], the monitor announced is the local record of [id], the
    question follows the announcement, and a [POST] is sent only behind
    a yes and carries what [prepare_for_create] makes of that record. *)
Theorem adoption_ungated_creation_gated {W : World} (cfg : settings)
    (s : state) :
  (exists evs,
     log (snd (adopt_remote_only cfg s)) = log s ++ evs /\
     forallb (no is_confirm) evs = true) /\
  (exists evs,
     log (snd (sync_pass cfg s)) = log s ++ evs /\ gated evs) /\
  (forall vars id,
     offer_trace s id (new_events (offer_one cfg vars id) s)).
Proof.
  split; [|split].
  - apply (allows_mono (either is_fs_event is_storing));
      [class_le | apply adopt_remote_only_events].
  - destruct (sync_pass_gated cfg s) as (evs & L & G).
    exists evs. split; [exact L | exact (G Idle)].
  - intros vars id.
    destruct (offer_one_trace cfg vars id s) as (evs & L & T).
    now rewrite (new_events_app _ _ _ L).
Qed.

(* ================================================================== *)
(** * Further properties of the engine *)
(* ================================================================== *)

(** ** Dry runs *)

(** Unfolds a pass down to the primitives, along the branches a dry
    run takes. *)
Ltac dry_frame :=
  unfold sync_pass, sync, stages, repair_layout, integrity_check,
    adopt_remote_only, adopt_one, offer_local_only, offer_one, forget_local,
    reconcile_versions, pull_one, reconcile_content, push_one,
    local_load_monitors, load_dir, remote_load_monitors, clean_folders,
    create_new, create_monitor, update_monitor, get_monitor_contents,
    post, put, get, remove_monitor, store_monitor, local_monitor,
    remote_monitor, confirm, ask;
  repeat (cbn [dryrun]; preserves_step).

Lemma dry_pass_keeps_fs {W : World} cfg :
  dryrun cfg = true -> preserves fs (sync_pass cfg).
Proof.
  destruct cfg as [f d t]. simpl. intros ->. dry_frame.
Qed.

Lemma dry_pass_keeps_srv {W : World} cfg :
  dryrun cfg = true -> preserves srv (sync_pass cfg).
Proof.
  destruct cfg as [f d t]. simpl. intros ->. dry_frame.
Qed.

Lemma dry_pass_events {W : World} cfg :
  dryrun cfg = true -> allows (no is_mutation) (sync_pass cfg).
Proof.
  destruct cfg as [f d t]. simpl. intros ->.
  unfold sync_pass, sync, stages, repair_layout, integrity_check,
    adopt_remote_only, adopt_one, offer_local_only, offer_one, forget_local,
    reconcile_versions, pull_one, reconcile_content, push_one,
    local_load_monitors, load_dir, remote_load_monitors, clean_folders,
    create_new, create_monitor, update_monitor, get_monitor_contents,
    post, put, get, remove_monitor, store_monitor, local_monitor,
    remote_monitor, confirm, ask;
  repeat (cbn [dryrun]; allows_step).
Qed.

(** X1.  A pass in dry-run mode leaves the local tree and the server as
    they are, whether it returns or raises: all it adds to the log are
    printed lines, confirmations and [GET] requests. *)
Theorem dry_run_changes_nothing {W : World} (cfg : settings) (s : state) :
  dryrun cfg = true ->
  fs (snd (sync_pass cfg s)) = fs s /\
  srv (snd (sync_pass cfg s)) = srv s /\
  exists evs,
    log (snd (sync_pass cfg s)) = log s ++ evs /\
    forallb (no is_mutation) evs = true.
Proof.
  intros D. split; [|split].
  - apply (dry_pass_keeps_fs cfg D).
  - apply (dry_pass_keeps_srv cfg D).
  - apply (dry_pass_events cfg D).
Qed.

Lemma dry_run_changes_nothing_witness :
  let s := Demo.boot [] Demo.unsorted_hits [] in
  fs (snd (sync_pass Scenario.dry s)) = fs s /\
  srv (snd (sync_pass Scenario.dry s)) = srv s /\
  exists evs,
    log (snd (sync_pass Scenario.dry s)) = log s ++ evs /\
    forallb (no is_mutation) evs = true.
Proof.
  apply (dry_run_changes_nothing (W:=Demo.world) Scenario.dry
           (Demo.boot [] Demo.unsorted_hits [])).
  reflexivity.
Defined.

(** ** A pass over two stores in step *)

Section Idle.
Context {W : World}.
Variable cfg : settings.

Lemma adopt_known ids s :
  forallb (fun id => Dict.mem id (local_monitors s)) ids = true ->
  for_each ids (adopt_one cfg) s = (Ok tt, s).
Proof.
  induction ids as [|id r IH]; simpl; [reflexivity|].
  intros H. apply andb_true_iff in H as [M Hr].
  rewrite run_bind. unfold adopt_one at 1. rewrite run_bind.
  cbv [gets]. rewrite M. cbv [ret]. auto.
Qed.

Lemma offer_known ids s vars :
  forallb (fun id => Dict.mem id (remote_monitors s)) ids = true ->
  fold_M ids vars (offer_one cfg) s = (Ok vars, s).
Proof.
  induction ids as [|id r IH]; simpl; [reflexivity|].
  intros H. apply andb_true_iff in H as [M Hr].
  rewrite run_bind. unfold offer_one at 1. destruct vars as [c sk].
  rewrite run_bind. cbv [gets]. rewrite M. cbv [ret]. auto.
Qed.
End Idle.

Lemma version_of_inv m z :
  version_of m = Ok z ->
  exists v, getitem "_version" m = Ok v /\ py_int v = Ok z.
Proof.
  unfold version_of. destruct (getitem "_version" m) as [v|e]; simpl;
    [eauto | discriminate].
Qed.

Lemma check_version_state_in_step local : forall remote acc,
  forallb (up_to_date local) remote = true ->
  check_version_state local remote acc = (acc, Ok tt).
Proof.
  induction remote as [|[id r] rest IH]; intros acc H; [reflexivity|].
  simpl in H. apply andb_true_iff in H as [U Hr].
  simpl. unfold version_step. unfold up_to_date in U. simpl in U.
  destruct (Dict.lookup id local) as [l|]; [|discriminate].
  destruct (version_of l) as [lv|] eqn:Vl; [|discriminate].
  destruct (version_of r) as [rv|] eqn:Vr; [|discriminate].
  destruct (version_of_inv _ _ Vl) as (lj & Gl & Il).
  destruct (version_of_inv _ _ Vr) as (rj & Gr & Ir).
  rewrite Gl. simpl. rewrite Il. simpl. rewrite Gr. simpl. rewrite Ir. simpl.
  assert (L : (lv <? rv)%Z = false) by (apply Z.ltb_ge; now apply Z.leb_le).
  rewrite L. now apply IH.
Qed.

Lemma compare_monitors_in_step diff remote : forall local acc,
  forallb (unchanged diff remote) local = true ->
  compare_monitors diff local remote acc = (acc, Ok tt).
Proof.
  induction local as [|[id l] rest IH]; intros acc H; [reflexivity|].
  simpl in H. apply andb_true_iff in H as [U Hr].
  simpl. unfold compare_step. unfold unchanged in U. simpl in U.
  destruct (getitem "monitor" l) as [lc|]; [|discriminate].
  destruct (Dict.lookup id remote) as [r|]; [|discriminate].
  simpl. destruct (getitem "monitor" r) as [rc|]; [|discriminate].
  simpl. destruct (diff rc lc); [discriminate|]. now apply IH.
Qed.

Lemma up_to_date_known local remote :
  forallb (up_to_date local) remote = true ->
  forallb (fun id => Dict.mem id local) (Dict.keys remote) = true.
Proof.
  induction remote as [|[id r] rest IH]; simpl; [reflexivity|].
  intros H. apply andb_true_iff in H as [U Hr].
  rewrite (IH Hr), andb_true_r.
  unfold up_to_date in U. simpl in U. unfold Dict.mem.
  now destruct (Dict.lookup id local).
Qed.

Lemma unchanged_known diff remote local :
  forallb (unchanged diff remote) local = true ->
  forallb (fun id => Dict.mem id remote) (Dict.keys local) = true.
Proof.
  induction local as [|[id l] rest IH]; simpl; [reflexivity|].
  intros H. apply andb_true_iff in H as [U Hr].
  rewrite (IH Hr), andb_true_r.
  unfold unchanged in U. simpl in U. unfold Dict.mem.
  destruct (getitem "monitor" l); [|discriminate].
  now destruct (Dict.lookup id remote).
Qed.

Lemma set_version_sync_mismatch_same {W : World} (s : state) :
  set_version_sync_mismatch (version_sync_mismatch s) s = s.
Proof. now destruct s. Qed.

Lemma set_monitor_diff_same {W : World} (s : state) :
  set_monitor_diff (monitor_diff s) s = s.
Proof. now destruct s. Qed.

(** X2.  When every remote monitor has a local copy that is not behind
    and no local monitor differs from its remote counterpart, the four
    stages run through without a prompt and without an effect: they
    return and leave the whole state, log included, as it was. *)
Theorem stages_idle_when_in_step {W : World} (cfg : settings) (s : state) :
  forallb (up_to_date (local_monitors s)) (remote_monitors s) = true ->
  forallb (unchanged deep_diff (remote_monitors s)) (local_monitors s) = true ->
  version_sync_mismatch s = [] ->
  monitor_diff s = [] ->
  stages cfg s = (Ok tt, s).
Proof.
  intros U C V D. unfold stages.
  rewrite run_bind. unfold adopt_remote_only. rewrite run_bind. cbv [gets].
  rewrite (adopt_known cfg _ s (up_to_date_known _ _ U)).
  rewrite run_bind. unfold offer_local_only. rewrite run_bind. cbv [gets].
  rewrite run_bind.
  rewrite (offer_known cfg _ s (false, []) (unchanged_known _ _ _ C)).
  simpl for_each. rewrite run_bind. cbv [ret].
  rewrite run_bind. unfold reconcile_versions.
  do 3 (rewrite run_bind; cbv beta iota delta [gets]).
  rewrite (check_version_state_in_step _ _ _ U).
  rewrite run_bind. cbv [modify]. rewrite set_version_sync_mismatch_same.
  rewrite run_bind. cbv [lift]. rewrite V. cbv [ret].
  unfold reconcile_content.
  do 3 (rewrite run_bind; cbv beta iota delta [gets]).
  rewrite (compare_monitors_in_step _ _ _ _ C).
  rewrite run_bind. cbv [modify]. rewrite set_monitor_diff_same.
  rewrite run_bind. cbv [lift]. rewrite D. reflexivity.
Qed.

Lemma stages_idle_when_in_step_witness :
  stages Demo.interactive Scenario.settled_loaded
  = (Ok tt, Scenario.settled_loaded).
Proof.
  apply (stages_idle_when_in_step (W:=Demo.world) Demo.interactive
           Scenario.settled_loaded); reflexivity.
Defined.

(** ** What the adoption establishes *)

Section Adoption.
Context {W : World}.
Variable cfg : settings.

(** One round of the adoption loop that ends normally. *)
Lemma adopt_one_local id s :
  fst (adopt_one cfg id s) = Ok tt ->
  remote_monitors (snd (adopt_one cfg id s)) = remote_monitors s /\
  forall id',
    Dict.lookup id' (local_monitors (snd (adopt_one cfg id s)))
    = match Dict.lookup id' (local_monitors s) with
      | Some l => Some l
      | None => if String.eqb id' id then Dict.lookup id (remote_monitors s)
                else None
      end.
Proof.
  unfold adopt_one, remote_monitor.
  cbv [bind gets lift emit modify ret raise].
  destruct (Dict.mem id (local_monitors s)) eqn:M.
  { intros _. split; [reflexivity|]. intros id'. simpl.
    destruct (Dict.lookup id' (local_monitors s)) eqn:L; [reflexivity|].
    destruct (String.eqb id' id) eqn:E; [|reflexivity].
    apply String.eqb_eq in E. subst id'. unfold Dict.mem in M.
    now rewrite L in M. }
  destruct (Dict.lookup id (remote_monitors s)) as [r|] eqn:R;
    [|discriminate].
  pose proof (store_monitor_keeps_remote cfg (JStr id) r (JObj []) s) as Kr.
  pose proof (store_monitor_keeps_local cfg (JStr id) r (JObj []) s) as Kl.
  destruct (store_monitor cfg (JStr id) r (JObj []) s) as [[[]|e] s1];
    simpl in Kr, Kl; [|discriminate].
  destruct (raw_name r) as [n|e]; [|discriminate].
  intros _. simpl. split; [exact Kr|]. intros id'. rewrite Kl.
  destruct (String.eqb id' id) eqn:E.
  - apply String.eqb_eq in E. subst id'. rewrite lookup_insert_eq.
    apply mem_false_lookup in M. now rewrite M.
  - apply String.eqb_neq in E. rewrite lookup_insert_neq by congruence.
    now destruct (Dict.lookup id' (local_monitors s)).
Qed.

Lemma adopt_loop_local ids : forall s,
  fst (for_each ids (adopt_one cfg) s) = Ok tt ->
  remote_monitors (snd (for_each ids (adopt_one cfg) s)) = remote_monitors s /\
  forall id',
    Dict.lookup id' (local_monitors (snd (for_each ids (adopt_one cfg) s)))
    = match Dict.lookup id' (local_monitors s) with
      | Some l => Some l
      | None => if one_of id' ids then Dict.lookup id' (remote_monitors s)
                else None
      end.
Proof.
  induction ids as [|id rest IH]; intros s.
  - intros _. split; [reflexivity|]. intros id'. simpl.
    now destruct (Dict.lookup id' (local_monitors s)).
  - simpl for_each. rewrite run_bind.
    pose proof (adopt_one_local id s) as H1.
    destruct (adopt_one cfg id s) as [[[]|e] s1]; simpl in H1; [|discriminate].
    destruct (H1 eq_refl) as (R1 & L1). intros Ok2.
    destruct (IH s1 Ok2) as (R2 & L2). split; [congruence|].
    intros id'. rewrite L2, L1, R1. unfold one_of. simpl existsb.
    destruct (Dict.lookup id' (local_monitors s)); [reflexivity|].
    destruct (String.eqb id' id) eqn:E; simpl.
    + apply String.eqb_eq in E. subst id'.
      destruct (Dict.lookup id (remote_monitors s)); [reflexivity|].
      now destruct (existsb (String.eqb id) rest).
    + reflexivity.
Qed.
End Adoption.

Lemma one_of_keys {V} (d : Dict.t V) k :
  one_of k (Dict.keys d) = Dict.mem k d.
Proof.
  unfold one_of, Dict.mem. induction d as [|[k' v] r IH]; simpl; [reflexivity|].
  destruct (String.eqb k k'); [reflexivity | exact IH].
Qed.

(** X3.  When the adoption stage returns, the local mapping holds every
    remote identity: an identity it already held keeps its local record,
    an identity it lacked is bound to the remote record itself; no other
    binding is added and the remote mapping is untouched.  So the loop of
    [check_version_state] that follows finds a local record for every
    remote identity. *)
Theorem adoption_covers_remote {W : World} (cfg : settings) (s : state) :
  fst (adopt_remote_only cfg s) = Ok tt ->
  remote_monitors (snd (adopt_remote_only cfg s)) = remote_monitors s /\
  forall id,
    Dict.lookup id (local_monitors (snd (adopt_remote_only cfg s)))
    = match Dict.lookup id (local_monitors s) with
      | Some l => Some l
      | None => Dict.lookup id (remote_monitors s)
      end.
Proof.
  unfold adopt_remote_only. rewrite run_bind. cbv [gets]. intros H.
  destruct (adopt_loop_local cfg _ s H) as (R & L). split; [exact R|].
  intros id. rewrite L, one_of_keys. unfold Dict.mem.
  destruct (Dict.lookup id (local_monitors s)); [reflexivity|].
  now destruct (Dict.lookup id (remote_monitors s)).
Qed.

Lemma adoption_covers_remote_witness :
  let s' := snd (adopt_remote_only Demo.interactive Demo.unsorted_loaded) in
  remote_monitors s' = remote_monitors Demo.unsorted_loaded /\
  forall id,
    Dict.lookup id (local_monitors s')
    = match Dict.lookup id (local_monitors Demo.unsorted_loaded) with
      | Some l => Some l
      | None => Dict.lookup id (remote_monitors Demo.unsorted_loaded)
      end.
Proof.
  apply (adoption_covers_remote (W:=Demo.world) Demo.interactive
           Demo.unsorted_loaded).
  reflexivity.
Defined.

(** ** Reloading the remote mapping *)

Section Maintains.
Context {W : World}.
Variable P : state -> Prop.

Lemma maintains_ret {A} (a : A) : maintains P (ret a).
Proof. intros s H. exact H. Qed.

Lemma maintains_raise {A} e : maintains P (@raise _ A e).
Proof. intros s H. exact H. Qed.

Lemma maintains_lift {A} (r : result A) : maintains P (lift r).
Proof. intros s H. exact H. Qed.

Lemma maintains_gets {A} (g : state -> A) : maintains P (gets g).
Proof. intros s H. exact H. Qed.

Lemma maintains_modify g : (forall s, P s -> P (g s)) -> maintains P (modify g).
Proof. intros H s. apply H. Qed.

Lemma maintains_bind {A B} (c : M A) (k : A -> M B) :
  maintains P c -> (forall a, maintains P (k a)) -> maintains P (bind c k).
Proof.
  intros Hc Hk s H. rewrite run_bind. specialize (Hc s H).
  destruct (c s) as [[a|e] s1]; simpl in Hc; [now apply Hk | exact Hc].
Qed.

Lemma maintains_for_each {X} (l : list X) (body : X -> M unit) :
  (forall x, In x l -> maintains P (body x)) -> maintains P (for_each l body).
Proof.
  induction l as [|x r IH]; simpl; intros H.
  - apply maintains_ret.
  - apply maintains_bind; [apply H; now left | intros _; apply IH; auto].
Qed.
End Maintains.

Lemma mem_insert_mono {V} (d : Dict.t V) k k' v :
  Dict.mem k d = true -> Dict.mem k (Dict.insert k' v d) = true.
Proof.
  unfold Dict.mem. intros H.
  destruct (String.eqb k k') eqn:E.
  - apply String.eqb_eq in E. subst k'. now rewrite lookup_insert_eq.
  - apply String.eqb_neq in E. rewrite lookup_insert_neq by congruence.
    exact H.
Qed.

Lemma get_maintains {W : World} (P : state -> Prop) uri :
  (forall l s, P s -> P (set_log l s)) -> maintains P (get uri).
Proof.
  intros H. unfold get, emit.
  apply maintains_bind;
    [apply maintains_modify; intros; now apply H | intros _].
  apply maintains_bind; [apply maintains_gets | intros; apply maintains_lift].
Qed.

(** The loop of [load_monitors] over the hits, for a property of the
    remote mapping that every insertion of a hit keeps. *)
Lemma remote_load_maintains {W : World} cfg (P : state -> Prop) :
  (forall l s, P s -> P (set_log l s)) ->
  (forall hit monitor id s,
     normalise_hit hit = Ok monitor ->
     getitem "_id" monitor = Ok (JStr id) ->
     P s ->
     P (set_remote_monitors (Dict.insert id monitor (remote_monitors s)) s)) ->
  maintains P (remote_load_monitors cfg).
Proof.
  intros Hl Hi. unfold remote_load_monitors.
  apply maintains_bind; [now apply get_maintains | intros response].
  apply maintains_bind; [apply maintains_lift | intros hits].
  apply maintains_bind; [apply maintains_lift | intros items].
  apply maintains_for_each. intros hit _.
  destruct (normalise_hit hit) as [monitor|e] eqn:N.
  2:{ intros s Ps. rewrite run_bind. exact Ps. }
  intros s Ps. rewrite run_bind. cbv [lift]. rewrite run_bind.
  assert (K : forall (keep : bool) s0, P s0 ->
            P (snd ((if keep then
                       v <- lift (getitem "_id" monitor) ;;
                       id <- lift (as_key v) ;;
                       modify (fun s =>
                         set_remote_monitors
                           (Dict.insert id monitor (remote_monitors s)) s)
                     else ret tt) s0))).
  { intros [|] s0 P0; [|exact P0].
    rewrite run_bind. cbv [lift].
    destruct (getitem "_id" monitor) as [v|e] eqn:G; [|exact P0].
    rewrite run_bind.
    destruct v; simpl; try exact P0. now apply (Hi hit). }
  destruct (filter_active cfg) as [f|].
  - cbv [lift]. destruct (matches_filter f monitor) as [keep|e]; [|exact Ps].
    exact (K keep s Ps).
  - exact (K true s Ps).
Qed.

(** X4.  [remote.load_monitors] updates [remote.monitors] in place and
    never drops a binding: an identity that was in the mapping before the
    call is still in it afterwards, also when the server no longer
    returns it and also when the call raises. *)
Theorem remote_reload_never_forgets {W : World} (cfg : settings) (s : state)
    (id : string) :
  Dict.mem id (remote_monitors s) = true ->
  Dict.mem id (remote_monitors (snd (remote_load_monitors cfg s))) = true.
Proof.
  apply (remote_load_maintains cfg
           (fun s => Dict.mem id (remote_monitors s) = true)).
  - intros l s0 H. exact H.
  - intros hit monitor id' s0 _ _ H. simpl. now apply mem_insert_mono.
Qed.

Lemma remote_reload_never_forgets_witness :
  Dict.mem "M4"
    (remote_monitors
       (snd (remote_load_monitors Demo.interactive Scenario.stale_remote)))
  = true.
Proof.
  apply (remote_reload_never_forgets (W:=Demo.world) Demo.interactive
           Scenario.stale_remote "M4").
  reflexivity.
Defined.

Lemma getitem_insert_eq k x d : getitem k (JObj (Dict.insert k x d)) = Ok x.
Proof. simpl. now rewrite lookup_insert_eq. Qed.

Lemma getitem_insert_neq k k' x d :
  k <> k' -> getitem k (JObj (Dict.insert k' x d)) = getitem k (JObj d).
Proof. intros N. simpl. now rewrite lookup_insert_neq. Qed.

Lemma getitem_remove_eq k d :
  getitem k (JObj (Dict.remove k d)) = Raise (KeyError k).
Proof. simpl. now rewrite lookup_remove_eq. Qed.

Lemma getitem_remove_neq k k' d :
  k <> k' -> getitem k (JObj (Dict.remove k' d)) = getitem k (JObj d).
Proof. intros N. simpl. now rewrite lookup_remove_neq. Qed.

Lemma setitem_Ok k x v v' :
  setitem k x v = Ok v' -> exists d, v = JObj d /\ v' = JObj (Dict.insert k x d).
Proof. destruct v; simpl; try discriminate. intros [= <-]. eauto. Qed.

(** What [normalise_hit] makes of a hit. *)
Lemma normalise_hit_shape hit monitor :
  normalise_hit hit = Ok monitor ->
  getitem "_id" monitor = getitem "_id" hit /\
  (exists c, getitem "monitor" monitor = Ok c /\
             getitem "last_update_time" c = Ok (JNum 0)) /\
  getitem "_index" monitor = Raise (KeyError "_index") /\
  getitem "_score" monitor = Raise (KeyError "_score") /\
  getitem "_source" monitor = Raise (KeyError "_source").
Proof.
  unfold normalise_hit, reset_last_update_time.
  destruct hit as [| | | | |d]; try discriminate.
  cbn [delitem]. destruct (Dict.mem "_index" d); [|discriminate].
  cbn [rbind delitem].
  destruct (Dict.mem "_score" (Dict.remove "_index" d)); [|discriminate].
  cbn [rbind].
  destruct (getitem "_source" _) as [source|] eqn:G; [|discriminate].
  cbn [rbind delitem].
  destruct (Dict.mem "_source" _); [|discriminate].
  cbn [rbind setitem]. rewrite getitem_insert_eq. cbn [rbind].
  destruct source as [| | | | |sd]; try discriminate. cbn [rbind setitem].
  intros [= <-]. rewrite insert_insert.
  repeat split.
  - rewrite getitem_insert_neq, !getitem_remove_neq by discriminate.
    reflexivity.
  - eexists. split; [apply getitem_insert_eq | apply getitem_insert_eq].
  - rewrite getitem_insert_neq, !getitem_remove_neq by discriminate.
    apply getitem_remove_eq.
  - rewrite getitem_insert_neq, getitem_remove_neq by discriminate.
    apply getitem_remove_eq.
  - rewrite getitem_insert_neq by discriminate. apply getitem_remove_eq.
Qed.

(** [normalise_hit] keeps the [_source] of the hit, and the fields it
    does not name. *)
Lemma normalise_hit_filed hit monitor id :
  normalise_hit hit = Ok monitor ->
  getitem "_id" monitor = Ok (JStr id) ->
  filed_from hit id monitor.
Proof.
  unfold normalise_hit, reset_last_update_time, filed_from.
  destruct hit as [| | | | |d]; try discriminate.
  cbn [delitem]. destruct (Dict.mem "_index" d); [|discriminate].
  cbn [rbind delitem].
  destruct (Dict.mem "_score" (Dict.remove "_index" d)); [|discriminate].
  cbn [rbind].
  destruct (getitem "_source" _) as [source|] eqn:G; [|discriminate].
  cbn [rbind delitem].
  destruct (Dict.mem "_source" _); [|discriminate].
  cbn [rbind setitem]. rewrite getitem_insert_eq. cbn [rbind].
  destruct source as [| | | | |sd]; try discriminate. cbn [rbind setitem].
  intros [= <-]. rewrite insert_insert. intros I.
  rewrite !getitem_remove_neq in G by discriminate.
  split; [|split; [|split; [|split; [|split]]]].
  - rewrite getitem_insert_neq, !getitem_remove_neq in I by discriminate.
    exact I.
  - exists (JObj sd), (JObj (Dict.insert "last_update_time" (JNum 0) sd)).
    split; [exact G|]. split; [reflexivity | apply getitem_insert_eq].
  - rewrite getitem_insert_neq, !getitem_remove_neq by discriminate.
    apply getitem_remove_eq.
  - rewrite getitem_insert_neq, getitem_remove_neq by discriminate.
    apply getitem_remove_eq.
  - rewrite getitem_insert_neq by discriminate. apply getitem_remove_eq.
  - intros k K1 K2 K3 K4.
    rewrite getitem_insert_neq, !getitem_remove_neq by assumption.
    reflexivity.
Qed.

Lemma filed_from_normalised hit id m : filed_from hit id m -> normalised id m.
Proof.
  intros (I & (source & c & G & S & M) & X1 & X2 & X3 & K).
  split; [rewrite K by discriminate; exact I|].
  split; [|now repeat split].
  exists c. split; [exact M|].
  apply setitem_Ok in S as (d & -> & ->). apply getitem_insert_eq.
Qed.

(** The body of the loop of [load_monitors] for one hit keeps a property
    that the insertion of that hit keeps. *)
Lemma load_hit_maintains {W : World} cfg (P : state -> Prop) hit :
  (forall monitor id s,
     normalise_hit hit = Ok monitor ->
     getitem "_id" monitor = Ok (JStr id) ->
     P s ->
     P (set_remote_monitors (Dict.insert id monitor (remote_monitors s)) s)) ->
  maintains P
    (monitor <- lift (normalise_hit hit) ;;
     keep <-
       match filter_active cfg with
       | Some f => lift (matches_filter f monitor)
       | None => ret true
       end ;;
     if (keep : bool) then
       v <- lift (getitem "_id" monitor) ;;
       id <- lift (as_key v) ;;
       modify (fun s =>
         set_remote_monitors (Dict.insert id monitor (remote_monitors s)) s)
     else ret tt).
Proof.
  intros Hi.
  destruct (normalise_hit hit) as [monitor|e] eqn:N.
  2:{ intros s Ps. rewrite run_bind. exact Ps. }
  intros s Ps. rewrite run_bind. cbv [lift]. rewrite run_bind.
  assert (K : forall (keep : bool) s0, P s0 ->
            P (snd ((if keep then
                       v <- lift (getitem "_id" monitor) ;;
                       id <- lift (as_key v) ;;
                       modify (fun s =>
                         set_remote_monitors
                           (Dict.insert id monitor (remote_monitors s)) s)
                     else ret tt) s0))).
  { intros [|] s0 P0; [|exact P0].
    rewrite run_bind. cbv [lift].
    destruct (getitem "_id" monitor) as [v|e] eqn:G; [|exact P0].
    rewrite run_bind.
    destruct v; simpl; try exact P0. now apply Hi. }
  destruct (filter_active cfg) as [f|].
  - cbv [lift]. destruct (matches_filter f monitor) as [keep|e]; [|exact Ps].
    exact (K keep s Ps).
  - exact (K true s Ps).
Qed.

Lemma get_answer {W : World} uri s :
  get uri s = (http_get (srv s) uri, set_log (log s ++ [EGet uri]) s).
Proof. reflexivity. Qed.

(** Where the records of the remote mapping come from after a load. *)
Lemma remote_load_provenance {W : World} cfg s id m :
  Dict.lookup id (remote_monitors (snd (remote_load_monitors cfg s))) = Some m ->
  Dict.lookup id (remote_monitors s) = Some m \/
  exists hit, In hit (search_hits s) /\ filed_from hit id m.
Proof.
  set (P := fun s0 : state =>
              forall id m, Dict.lookup id (remote_monitors s0) = Some m ->
                Dict.lookup id (remote_monitors s) = Some m \/
                exists hit, In hit (search_hits s) /\ filed_from hit id m).
  enough (H : P (snd (remote_load_monitors cfg s))) by (apply H).
  assert (P0 : P (set_log (log s ++ [EGet search_uri]) s))
    by (intros id' m' L; now left).
  unfold remote_load_monitors. rewrite run_bind, get_answer.
  destruct (http_get (srv s) search_uri) as [response|e] eqn:E1; [|exact P0].
  rewrite run_bind. cbv [lift].
  destruct (getitem "hits" response) as [h|e] eqn:E2; [|exact P0].
  cbn [rbind].
  destruct (getitem "hits" h) as [hits|e] eqn:E3; [|exact P0].
  rewrite run_bind.
  destruct (iter_items hits) as [items|e] eqn:E4; [|exact P0].
  assert (Hs : search_hits s = items).
  { unfold search_hits. rewrite E1. cbn [rbind]. rewrite E2. cbn [rbind].
    rewrite E3. cbn [rbind]. now rewrite E4. }
  revert P0. generalize (set_log (log s ++ [EGet search_uri]) s).
  apply maintains_for_each. intros hit I. rewrite <- Hs in I.
  apply load_hit_maintains. intros monitor id' s0 N G Ps id'' m'.
  cbn [remote_monitors set_remote_monitors].
  destruct (String.eqb id'' id') eqn:E.
  - apply String.eqb_eq in E. subst id''. rewrite lookup_insert_eq.
    intros [= <-]. right. exists hit. split; [exact I|].
    now apply normalise_hit_filed.
  - apply String.eqb_neq in E. rewrite lookup_insert_neq by congruence.
    apply Ps.
Qed.

(** X5.  Every record that [remote.load_monitors] files comes from a hit
    of its search and is normalised: a record found in [remote.monitors]
    after the call was either there before, or it sits under the [_id]
    of a hit, carries that hit's [_source] as [monitor] with
    [last_update_time] set to 0, has lost [_index], [_score] and
    [_source], and has every other field of the hit.  So if the mapping
    held only normalised records before the call (it is empty when the
    instance is set up), it holds only such records afterwards, whether
    the call returns or raises. *)
Theorem remote_load_normalises {W : World} (cfg : settings) (s : state) :
  (forall id m,
     Dict.lookup id (remote_monitors (snd (remote_load_monitors cfg s)))
     = Some m ->
     Dict.lookup id (remote_monitors s) = Some m \/
     exists hit, In hit (search_hits s) /\ filed_from hit id m) /\
  (all_normalised s -> all_normalised (snd (remote_load_monitors cfg s))).
Proof.
  split; [intros id m; apply remote_load_provenance|].
  intros A id m L.
  destruct (remote_load_provenance cfg s id m L) as [Old|(hit & _ & F)].
  - now apply A.
  - exact (filed_from_normalised _ _ _ F).
Qed.

Lemma remote_load_normalises_witness :
  all_normalised
    (snd (remote_load_monitors Demo.interactive
            (Demo.boot [] Demo.unsorted_hits []))).
Proof.
  apply (proj2 (remote_load_normalises (W:=Demo.world) Demo.interactive
                  (Demo.boot [] Demo.unsorted_hits []))).
  intros id m. simpl. discriminate.
Defined.

(** ** Answers to [helper.confirm] *)

Section Confirm.
Context {W : World}.
Variable cfg : settings.
Hypothesis asks : force cfg = false.

Lemma stdin_set_confirm_all h d s : stdin (set_confirm_all h d s) = stdin s.
Proof. now destruct h. Qed.

Lemma confirm_all_set_confirm_all h d s :
  confirm_all h (set_confirm_all h d s) = d.
Proof. now destruct h. Qed.

Lemma confirm_all_set_stdin h l s : confirm_all h (set_stdin l s) = confirm_all h s.
Proof. now destruct h. Qed.

Lemma confirm_all_set_log h l s : confirm_all h (set_log l s) = confirm_all h s.
Proof. now destruct h. Qed.

Lemma stdin_set_log l s : stdin (set_log l s) = stdin s.
Proof. reflexivity. Qed.

(** [ask] on an input that holds an answer. *)
Lemma ask_run h message kind s a rest :
  read_answer (stdin s) = (Ok a, rest) ->
  let yes := one_of (lower a) ["y"; "yes"] in
  let all := one_of (lower a) ["a"; "all"] in
  fst (ask h message kind s) = Ok (yes || all) /\
  stdin (snd (ask h message kind s)) = rest /\
  confirm_all h (snd (ask h message kind s))
  = (if negb yes && all then Dict.insert kind true (confirm_all h s)
     else confirm_all h s).
Proof.
  intros R. unfold ask. cbv [bind gets modify emit lift ret]. rewrite R.
  cbv zeta.
  destruct (one_of (lower a) ["y"; "yes"]); cbn [fst snd negb andb orb].
  - rewrite confirm_all_set_log, confirm_all_set_stdin. auto.
  - destruct (one_of (lower a) ["a"; "all"]); cbn [fst snd].
    + rewrite confirm_all_set_log, confirm_all_set_confirm_all,
        stdin_set_log, stdin_set_confirm_all, confirm_all_set_stdin. auto.
    + rewrite confirm_all_set_log, confirm_all_set_stdin. auto.
Qed.

(** [confirm] when the latch of the kind is set. *)
Lemma confirm_latched h message kind s :
  Dict.lookup kind (confirm_all h s) = Some true ->
  confirm cfg h message kind s
  = (Ok true, set_log (log s ++ [EConfirm message kind true]) s).
Proof.
  intros L. unfold confirm. rewrite asks.
  rewrite run_bind. cbv [gets]. rewrite L. reflexivity.
Qed.

Lemma ask_each_latched h kind messages : forall s answers,
  Dict.lookup kind (confirm_all h s) = Some true ->
  fst (fold_M messages answers (fun answers message =>
         b <- confirm cfg h message kind ;; ret (answers ++ [b])) s)
  = Ok (answers ++ map (fun _ => true) messages) /\
  stdin (snd (fold_M messages answers (fun answers message =>
         b <- confirm cfg h message kind ;; ret (answers ++ [b])) s))
  = stdin s.
Proof.
  induction messages as [|m r IH]; intros s answers L; simpl.
  - now rewrite app_nil_r.
  - rewrite run_bind, run_bind, (confirm_latched _ _ _ _ L).
    cbv [ret] in IH |- *.
    destruct (IH (set_log (log s ++ [EConfirm m kind true]) s)
                 (answers ++ [true])) as (F & I).
    { now rewrite confirm_all_set_log. }
    rewrite F, I, <- app_assoc. auto.
Qed.
End Confirm.

(** The first answer, for a helper whose latch is not set. *)
Lemma confirm_first_answer {W : World} cfg h message kind s a rest :
  force cfg = false ->
  Dict.lookup kind (confirm_all h s) <> Some true ->
  read_answer (stdin s) = (Ok a, rest) ->
  fst (confirm cfg h message kind s)
  = Ok (one_of (lower a) ["y"; "yes"; "a"; "all"]) /\
  stdin (snd (confirm cfg h message kind s)) = rest /\
  Dict.lookup kind (confirm_all h (snd (confirm cfg h message kind s)))
  = Some (one_of (lower a) ["a"; "all"]).
Proof.
  intros F L R.
  assert (Y : one_of (lower a) ["y"; "yes"; "a"; "all"]
              = one_of (lower a) ["y"; "yes"] || one_of (lower a) ["a"; "all"]).
  { unfold one_of. simpl. now rewrite !orb_false_r, orb_assoc. }
  assert (N : one_of (lower a) ["y"; "yes"] = true ->
              one_of (lower a) ["a"; "all"] = false).
  { unfold one_of. simpl. rewrite !orb_false_r, orb_true_iff.
    intros [E|E]; apply String.eqb_eq in E; rewrite E; reflexivity. }
  unfold confirm. rewrite F. rewrite run_bind. cbv [gets].
  destruct (Dict.lookup kind (confirm_all h s)) as [[|]|] eqn:Lk.
  - congruence.
  - destruct (ask_run h message kind s a rest R) as (A1 & A2 & A3).
    rewrite A1, A2, A3, Y. repeat split.
    destruct (one_of (lower a) ["y"; "yes"]) eqn:Yes; cbn [negb andb].
    + now rewrite Lk, N.
    + destruct (one_of (lower a) ["a"; "all"]);
        [apply lookup_insert_eq | exact Lk].
  - rewrite run_bind. cbv [modify].
    set (s1 := set_confirm_all h (Dict.insert kind false (confirm_all h s)) s).
    assert (R1 : read_answer (stdin s1) = (Ok a, rest)).
    { unfold s1. now rewrite stdin_set_confirm_all. }
    destruct (ask_run h message kind s1 a rest R1) as (A1 & A2 & A3).
    rewrite A1, A2, A3, Y. repeat split.
    unfold s1. rewrite confirm_all_set_confirm_all.
    destruct (one_of (lower a) ["y"; "yes"]) eqn:Yes; cbn [negb andb].
    + rewrite N by reflexivity. apply lookup_insert_eq.
    + destruct (one_of (lower a) ["a"; "all"]);
        [rewrite insert_insert|]; apply lookup_insert_eq.
Qed.

(** X6.  Outside force mode, and unless the operator has answered [all]
    to this kind of question before, [helper.confirm] skips empty lines
    and consumes exactly the first answer: it returns [True] precisely for
    [y], [yes], [a] and [all] in any letter case, and the latch of the
    kind ends up set precisely for [a] and [all]. *)
Theorem confirm_reads_one_answer {W : World} (cfg : settings) (h : helper_of)
    (message kind : string) (s : state) (a : string) (rest : list string) :
  force cfg = false ->
  Dict.lookup kind (confirm_all h s) <> Some true ->
  read_answer (stdin s) = (Ok a, rest) ->
  fst (confirm cfg h message kind s)
  = Ok (one_of (lower a) ["y"; "yes"; "a"; "all"]) /\
  stdin (snd (confirm cfg h message kind s)) = rest /\
  Dict.lookup kind (confirm_all h (snd (confirm cfg h message kind s)))
  = Some (one_of (lower a) ["a"; "all"]).
Proof. apply confirm_first_answer. Qed.

Lemma confirm_reads_one_answer_witness :
  fst (confirm Demo.interactive MainHelper create_question "general"
         Scenario.eager) = Ok true /\
  stdin (snd (confirm Demo.interactive MainHelper create_question "general"
                Scenario.eager)) = ["no"] /\
  Dict.lookup "general"
    (confirm_all MainHelper
       (snd (confirm Demo.interactive MainHelper create_question "general"
               Scenario.eager))) = Some true.
Proof.
  apply (confirm_reads_one_answer (W:=Demo.world) Demo.interactive MainHelper
           create_question "general" Scenario.eager "All" ["no"]).
  - reflexivity.
  - simpl. discriminate.
  - reflexivity.
Defined.

(** X7.  Once the operator answers [a] or [all], that answer stands for
    every later question of the same kind put by the same helper: each of
    them returns [True] and none reads from the input. *)
Theorem all_answers_later_questions {W : World} (cfg : settings)
    (h : helper_of) (message kind : string) (later : list string) (s : state)
    (a : string) (rest : list string) :
  force cfg = false ->
  Dict.lookup kind (confirm_all h s) <> Some true ->
  read_answer (stdin s) = (Ok a, rest) ->
  one_of (lower a) ["a"; "all"] = true ->
  let run := (first <- confirm cfg h message kind ;;
              others <- ask_each cfg h kind later ;;
              ret (first :: others)) s in
  fst run = Ok (true :: map (fun _ => true) later) /\
  stdin (snd run) = rest.
Proof.
  intros F L R A. cbv zeta. rewrite run_bind.
  destruct (confirm_first_answer cfg h message kind s a rest F L R)
    as (C1 & C2 & C3).
  rewrite A in C3.
  assert (T : one_of (lower a) ["y"; "yes"; "a"; "all"] = true).
  { unfold one_of in *. simpl in *.
    rewrite !orb_false_r in *. rewrite A. now rewrite !orb_true_r. }
  rewrite T in C1.
  destruct (confirm cfg h message kind s) as [[b|e] s1]; simpl in C1, C2, C3;
    [|discriminate].
  injection C1 as ->. rewrite run_bind. unfold ask_each.
  destruct (ask_each_latched cfg F h kind later s1 [] C3) as (E1 & E2).
  destruct (fold_M later [] _ s1) as [[bs|e] s2]; simpl in E1, E2;
    [|discriminate].
  injection E1 as ->. cbv [ret]. simpl. now rewrite E2.
Qed.

Lemma all_answers_later_questions_witness :
  let run := (first <- confirm Demo.interactive MainHelper create_question
                         "general" ;;
              others <- ask_each Demo.interactive MainHelper "general"
                          [create_question; create_question] ;;
              ret (first :: others)) Scenario.eager in
  fst run = Ok [true; true; true] /\ stdin (snd run) = ["no"].
Proof.
  apply (all_answers_later_questions (W:=Demo.world) Demo.interactive
           MainHelper create_question "general"
           [create_question; create_question] Scenario.eager "All" ["no"]).
  - reflexivity.
  - simpl. discriminate.
  - reflexivity.
  - reflexivity.
Defined.

(** ** What [prepare_for_create] leaves of a monitor *)

(** The content that comes back, field by field. *)
Lemma prepare_for_create_fields m m1 c :
  prepare_for_create m = (m1, Ok c) ->
  exists content name,
    getitem "monitor" m = Ok content /\
    getitem "name" content = Ok name /\
    py_pathsafe name = Ok true /\
    (forall k, In k remove_keys -> getitem k c = Raise (KeyError k)) /\
    (forall k, ~ In k remove_keys -> k <> "triggers" ->
               getitem k c = getitem k content) /\
    getitem "monitor" m1 = Ok c /\
    (forall k, k <> "monitor" -> getitem k m1 = getitem k m).
Proof.
  unfold prepare_for_create.
  destruct (getitem "monitor" m) as [content|e] eqn:G; [|discriminate].
  destruct (getitem_Ok_obj _ _ _ G) as [md ->].
  destruct (getitem "name" content) as [n|e] eqn:Gn; simpl rbind;
    [|discriminate].
  destruct (py_pathsafe n) as [[|]|] eqn:P; simpl negb; cbv iota;
    try discriminate.
  destruct (getitem_Ok_obj _ _ _ Gn) as [cd ->].
  destruct (strip_keys_obj remove_keys cd) as (d1 & -> & A1 & B1).
  destruct (strip_triggers "document_level_trigger" (JObj d1)) as [c2 s2] eqn:S2.
  destruct (strip_triggers_fields _ _ _ _ S2) as (d2 & -> & B2).
  destruct (swallow_KeyError s2); [|discriminate].
  destruct (strip_triggers "query_level_trigger" (JObj d2)) as [c3 s3] eqn:S3.
  destruct (strip_triggers_fields _ _ _ _ S3) as (d3 & -> & B3).
  destruct (swallow_KeyError s3); [|discriminate].
  intros [= <- <-]. exists (JObj cd), n.
  assert (T : forall k, In k remove_keys -> k <> "triggers").
  { intros k H ->. simpl in H. intuition discriminate. }
  repeat split; try assumption.
  - intros k H. simpl. now rewrite B3, B2, A1 by auto.
  - intros k H Ht. simpl. now rewrite B3, B2, B1 by auto.
  - apply getitem_insert_eq.
  - intros k H. now apply getitem_insert_neq.
Qed.

(** X8.  When [prepare_for_create] returns, the content it returns has a
    name that [pathsafe] answers [True] for (a string is not required: the
    routine asks [pathsafe] of whatever value the name is, and a list such
    as [[]] gets through), none of the four bookkeeping fields
    [enabled_time], [last_update_time], [data_sources] and [owner], and
    every other field except [triggers] exactly as the monitor had it;
    the caller's monitor now holds that stripped content under [monitor]
    and is otherwise unchanged. *)
Theorem prepare_for_create_strips_bookkeeping (m m1 c : json) :
  prepare_for_create m = (m1, Ok c) ->
  exists content name,
    getitem "monitor" m = Ok content /\
    getitem "name" content = Ok name /\
    py_pathsafe name = Ok true /\
    (forall k, In k remove_keys -> getitem k c = Raise (KeyError k)) /\
    (forall k, ~ In k remove_keys -> k <> "triggers" ->
               getitem k c = getitem k content) /\
    getitem "monitor" m1 = Ok c /\
    (forall k, k <> "monitor" -> getitem k m1 = getitem k m).
Proof. apply prepare_for_create_fields. Qed.

Lemma prepare_for_create_strips_bookkeeping_witness :
  exists content name,
    getitem "monitor" Demo.draft = Ok content /\
    getitem "name" content = Ok name /\
    py_pathsafe name = Ok true /\
    (forall k, In k remove_keys ->
               getitem k Demo.draft_content = Raise (KeyError k)) /\
    (forall k, ~ In k remove_keys -> k <> "triggers" ->
               getitem k Demo.draft_content = getitem k content) /\
    getitem "monitor" Demo.draft_stripped = Ok Demo.draft_content /\
    (forall k, k <> "monitor" ->
               getitem k Demo.draft_stripped = getitem k Demo.draft).
Proof.
  apply (prepare_for_create_strips_bookkeeping Demo.draft Demo.draft_stripped
           Demo.draft_content).
  reflexivity.
Defined.

(** The loop over the triggers for one kind leaves the fields of the
    other kinds alone, in every trigger. *)
Lemma strip_trigger_list_keeps k k' : forall ts ts' s,
  k <> k' -> strip_trigger_list k' ts = (ts', s) ->
  map (getitem k) ts' = map (getitem k) ts.
Proof.
  induction ts as [|t r IH]; simpl; intros ts' s N.
  - now intros [= <- _].
  - destruct (strip_trigger k' t) as [t' [[]|e]] eqn:E.
    + specialize (IH (fst (strip_trigger_list k' r))
                      (snd (strip_trigger_list k' r)) N).
      destruct (strip_trigger_list k' r) as [r' s'].
      intros [= <- _]. simpl in *.
      now rewrite (strip_trigger_other _ _ _ _ _ N E), (IH eq_refl).
    + intros [= <- _]. simpl.
      now rewrite (strip_trigger_other _ _ _ _ _ N E).
Qed.

(** The loop stops at a first trigger that lacks the kind. *)
Lemma strip_trigger_list_stops k t rest x :
  getitem k t = Raise (KeyError x) ->
  strip_trigger_list k (t :: rest) = (t :: rest, Raise (KeyError x)).
Proof. intros G. simpl. unfold strip_trigger. now rewrite G. Qed.

Lemma strip_triggers_list k d ts :
  Dict.lookup "triggers" d = Some (JArr ts) ->
  strip_triggers k (JObj d)
  = (JObj (Dict.insert "triggers" (JArr (fst (strip_trigger_list k ts))) d),
     snd (strip_trigger_list k ts)).
Proof.
  intros L. unfold strip_triggers. simpl. rewrite L.
  now destruct (strip_trigger_list k ts).
Qed.

Lemma prepare_for_create_first_trigger m m1 c content t rest k :
  k = "document_level_trigger" \/ k = "query_level_trigger" ->
  prepare_for_create m = (m1, Ok c) ->
  getitem "monitor" m = Ok content ->
  getitem "triggers" content = Ok (JArr (t :: rest)) ->
  getitem k t = Raise (KeyError k) ->
  exists ts',
    getitem "triggers" c = Ok (JArr ts') /\
    map (getitem k) ts' = map (getitem k) (t :: rest).
Proof.
  intros K. unfold prepare_for_create.
  destruct (getitem "monitor" m) as [content'|e] eqn:G; [|discriminate].
  destruct (getitem "name" content') as [n|e] eqn:Gn; simpl rbind;
    [|discriminate].
  destruct (py_pathsafe n) as [[|]|]; simpl negb; cbv iota;
    try discriminate.
  destruct (getitem_Ok_obj _ _ _ Gn) as [cd ->].
  destruct (strip_keys_obj remove_keys cd) as (d1 & -> & A1 & B1).
  intros H [= <-] Gt Gk. revert H.
  assert (L1 : Dict.lookup "triggers" d1 = Some (JArr (t :: rest))).
  { rewrite B1; [|simpl; intuition discriminate].
    simpl in Gt. destruct (Dict.lookup "triggers" cd); now inversion Gt. }
  rewrite (strip_triggers_list _ _ _ L1).
  destruct (strip_trigger_list "document_level_trigger" (t :: rest))
    as [ts2 s2] eqn:E2.
  cbn [fst snd]. destruct (swallow_KeyError s2); [|discriminate].
  rewrite (strip_triggers_list "query_level_trigger" _ _ (lookup_insert_eq _ _ _ _)).
  destruct (strip_trigger_list "query_level_trigger" ts2) as [ts3 s3] eqn:E3.
  cbn [fst snd]. destruct (swallow_KeyError s3); [|discriminate].
  intros [= _ <-]. rewrite insert_insert, getitem_insert_eq.
  eexists. split; [reflexivity|].
  destruct K as [-> | ->].
  - rewrite (strip_trigger_list_stops _ _ _ _ Gk) in E2.
    injection E2 as <- _.
    eapply (strip_trigger_list_keeps "document_level_trigger"
              "query_level_trigger"); [discriminate | exact E3].
  - assert (Keep : map (getitem "query_level_trigger") ts2
                   = map (getitem "query_level_trigger") (t :: rest)).
    { eapply (strip_trigger_list_keeps "query_level_trigger"
                "document_level_trigger"); [discriminate | exact E2]. }
    destruct ts2 as [|t2 r2]; [discriminate|].
    injection Keep as Kt Kr. rewrite Gk in Kt.
    rewrite (strip_trigger_list_stops _ _ _ _ Kt) in E3.
    injection E3 as <- _. cbn [map]. now rewrite Kt, Kr, Gk.
Qed.

(** X9.  Each of the two trigger loops of [prepare_for_create] gives up
    at the first [KeyError].  So when the first trigger of a monitor is
    not of the kind a loop is after, that loop strips nothing: in the
    returned content every trigger of that kind is as it was, its [id]
    and the [id]s of its actions included. *)
Theorem first_trigger_decides_stripping (m m1 c content t : json)
    (rest : list json) (k : string) :
  k = "document_level_trigger" \/ k = "query_level_trigger" ->
  prepare_for_create m = (m1, Ok c) ->
  getitem "monitor" m = Ok content ->
  getitem "triggers" content = Ok (JArr (t :: rest)) ->
  getitem k t = Raise (KeyError k) ->
  exists ts',
    getitem "triggers" c = Ok (JArr ts') /\
    map (getitem k) ts' = map (getitem k) (t :: rest).
Proof. apply prepare_for_create_first_trigger. Qed.

Lemma first_trigger_decides_stripping_witness :
  exists ts',
    getitem "triggers" (snd (Scenario.mixed_prepared)) = Ok (JArr ts') /\
    map (getitem "document_level_trigger") ts'
    = map (getitem "document_level_trigger") Scenario.mixed_triggers.
Proof.
  apply (first_trigger_decides_stripping Scenario.mixed
           (fst Scenario.mixed_prepared) (snd Scenario.mixed_prepared)
           Scenario.mixed_content
           (hd JNull Scenario.mixed_triggers) (tl Scenario.mixed_triggers)
           "document_level_trigger").
  - now left.
  - reflexivity.
  - reflexivity.
  - reflexivity.
  - reflexivity.
Defined.

(** ** What [compare_monitors] records *)

Lemma compare_step_Ok diff remote id l acc acc' :
  compare_step diff remote id l acc = Ok acc' ->
  exists lc r rc,
    getitem "monitor" l = Ok lc /\
    Dict.lookup id remote = Some r /\
    getitem "monitor" r = Ok rc /\
    acc' = match diff rc lc with
           | Some txt => Dict.insert id txt acc
           | None => acc
           end.
Proof.
  unfold compare_step.
  destruct (getitem "monitor" l) as [lc|]; [|discriminate]. simpl rbind.
  destruct (Dict.lookup id remote) as [r|]; [|discriminate].
  destruct (getitem "monitor" r) as [rc|] eqn:R; [|discriminate]. simpl rbind.
  intros H. exists lc, r, rc. repeat split; [exact R|].
  destruct (diff rc lc); now inversion H.
Qed.

Lemma compare_monitors_run diff remote : forall local acc m,
  NoDup (Dict.keys local) ->
  compare_monitors diff local remote acc = (m, Ok tt) ->
  (forall id, ~ In id (Dict.keys local) ->
     Dict.lookup id m = Dict.lookup id acc) /\
  (forall id l, Dict.lookup id local = Some l ->
     exists lc r rc,
       getitem "monitor" l = Ok lc /\
       Dict.lookup id remote = Some r /\
       getitem "monitor" r = Ok rc /\
       Dict.lookup id m = match diff rc lc with
                          | Some txt => Some txt
                          | None => Dict.lookup id acc
                          end).
Proof.
  induction local as [|[id0 l0] rest IH]; intros acc m ND.
  - simpl. intros [= <-]. split; [reflexivity | discriminate].
  - simpl in ND. inversion ND as [|? ? NI ND']; subst. simpl.
    destruct (compare_step diff remote id0 l0 acc) as [acc'|] eqn:S;
      [|discriminate].
    destruct (compare_step_Ok _ _ _ _ _ _ S) as (lc0 & r0 & rc0 & G0 & L0 & R0 & ->).
    intros E. destruct (IH _ _ ND' E) as (Out & Inside). split.
    + intros id NIn. rewrite Out by tauto.
      destruct (diff rc0 lc0); [|reflexivity].
      apply lookup_insert_neq. intros ->. tauto.
    + intros id l. destruct (String.eqb id id0) eqn:Eid.
      * apply String.eqb_eq in Eid. subst id0. intros [= <-].
        exists lc0, r0, rc0. repeat split; try assumption.
        rewrite Out by exact NI.
        destruct (diff rc0 lc0); [apply lookup_insert_eq | reflexivity].
      * intros L. destruct (Inside id l L) as (lc & r & rc & G & Lr & R & Lm).
        exists lc, r, rc. repeat split; try assumption. rewrite Lm.
        destruct (diff rc lc); [reflexivity|].
        destruct (diff rc0 lc0); [|reflexivity].
        apply lookup_insert_neq. now apply String.eqb_neq.
Qed.

(** X10.  When [compare_monitors], started with an empty [monitor_diff],
    returns, it has recorded exactly the differences [DeepDiff] reports:
    every local identity has a remote counterpart, its entry in
    [monitor_diff] is the report of [DeepDiff(remote, local)] on the two
    [monitor] fields when that report is not empty and is missing when it
    is empty, and no other identity has an entry. *)
Theorem compare_monitors_records_differences
    (diff : json -> json -> option string) (local remote : Dict.t json)
    (m : Dict.t string) :
  Dict.wf local = true ->
  compare_monitors diff local remote [] = (m, Ok tt) ->
  (forall id l, Dict.lookup id local = Some l ->
     exists lc r rc,
       getitem "monitor" l = Ok lc /\
       Dict.lookup id remote = Some r /\
       getitem "monitor" r = Ok rc /\
       Dict.lookup id m = diff rc lc) /\
  (forall id, Dict.lookup id local = None -> Dict.lookup id m = None).
Proof.
  intros Wf E. apply distinct_NoDup in Wf.
  destruct (compare_monitors_run diff remote local [] m Wf E) as (Out & Inside).
  split.
  - intros id l L. destruct (Inside id l L) as (lc & r & rc & G & Lr & R & Lm).
    exists lc, r, rc. repeat split; try assumption. rewrite Lm.
    now destruct (diff rc lc).
  - intros id L. rewrite Out; [reflexivity|]. now apply lookup_None_keys.
Qed.

Lemma compare_monitors_records_differences_witness :
  let local := local_monitors Demo.pair_loaded in
  let remote := remote_monitors Demo.pair_loaded in
  let m := fst (compare_monitors (@deep_diff Demo.world) local remote []) in
  (forall id l, Dict.lookup id local = Some l ->
     exists lc r rc,
       getitem "monitor" l = Ok lc /\
       Dict.lookup id remote = Some r /\
       getitem "monitor" r = Ok rc /\
       Dict.lookup id m = @deep_diff Demo.world rc lc) /\
  (forall id, Dict.lookup id local = None -> Dict.lookup id m = None).
Proof.
  apply (compare_monitors_records_differences (@deep_diff Demo.world)
           (local_monitors Demo.pair_loaded)
           (remote_monitors Demo.pair_loaded)); reflexivity.
Defined.

(** ** An accepted creation in a dry run *)

(** X11.  In dry-run mode [create_monitor] sends nothing and returns the
    [_id] of the dict it was handed, and [main] hands it the content that
    [prepare_for_create] returned.  So the branch of an accepted creation
    raises [KeyError('_id')] when, as usual, the monitor's content has no
    [_id] of its own; and when it has one, the [store_monitor] that follows
    raises [KeyError('monitor')] unless the content also has a [monitor]
    field.  Up to there the monitor was announced and stripped in memory,
    nothing else. *)
Theorem dry_run_creation_raises {W : World} (cfg : settings) (s : state)
    (id : string) (m m1 c content : json) :
  dryrun cfg = true ->
  Dict.lookup id (local_monitors s) = Some m ->
  prepare_for_create m = (m1, Ok c) ->
  getitem "monitor" m = Ok content ->
  (getitem "_id" content = Raise (KeyError "_id") ->
   fst (create_new cfg id s) = Raise (KeyError "_id")) /\
  (forall i, getitem "_id" content = Ok i ->
   getitem "monitor" content = Raise (KeyError "monitor") ->
   fst (create_new cfg id s) = Raise (KeyError "monitor")) /\
  local_monitors (snd (create_new cfg id s))
  = Dict.insert id m1 (local_monitors s).
Proof.
  intros D L P G.
  destruct (prepare_for_create_fields _ _ _ P)
    as (content' & name & G' & Gn & Ps & Gone & Kept & _ & _).
  rewrite G in G'. injection G' as <-.
  assert (Kid : getitem "_id" c = getitem "_id" content).
  { apply Kept; [simpl; intuition discriminate | discriminate]. }
  assert (Km : getitem "monitor" c = getitem "monitor" content).
  { apply Kept; [simpl; intuition discriminate | discriminate]. }
  unfold create_new, local_monitor, create_monitor, store_monitor,
    monitor_name, raw_name.
  rewrite D. cbv [bind gets lift emit modify ret raise].
  rewrite L, G. cbn [rbind]. rewrite Gn.
  cbn [local_monitors set_log]. rewrite L, P. cbn [local_monitors set_local_monitors].
  rewrite Kid.
  split; [|split].
  - intros ->. reflexivity.
  - intros i -> E. cbv beta iota. rewrite Km, E. reflexivity.
  - destruct (getitem "_id" content); [|reflexivity]. cbv beta iota.
    destruct (getitem "monitor" c) as [z|]; [|reflexivity]. cbn [rbind].
    destruct (getitem "name" z) as [y|]; [|reflexivity]. cbn [rbind].
    destruct (as_str y); [|reflexivity].
    now destruct (getitem "monitor_type" z).
Qed.

Lemma dry_run_creation_raises_witness :
  fst (create_new Scenario.dry "createabcdefghij" Scenario.dry_offer)
  = Raise (KeyError "_id").
Proof.
  apply (proj1 (dry_run_creation_raises (W:=Demo.world) Scenario.dry
                  Scenario.dry_offer "createabcdefghij" Demo.draft
                  Demo.draft_stripped Demo.draft_content
                  (JObj [("name", JStr "Disk usage");
                         ("enabled", JBool true);
                         ("enabled_time", JNum 1700000000);
                         ("last_update_time", JNum 1700000001);
                         ("owner", JStr "alerting");
                         ("triggers",
                          JArr [JObj [("query_level_trigger",
                            JObj [("id", JStr "t-1");
                                  ("name", JStr "above 90%");
                                  ("actions",
                                   JArr [JObj [("id", JStr "a-1");
                                               ("name", JStr "page")];
                                         JObj [("id", JStr "a-2");
                                               ("name", JStr "mail")]])])]])])
                  eq_refl eq_refl eq_refl eq_refl)).
  reflexivity.
Defined.

(** ** Storing a monitor and reading it back *)

Section Store.
Context {W : World}.
Variable cfg : settings.
Hypothesis wet : dryrun cfg = false.

(** [makedirs] followed by the write of one file. *)
Lemma makedirs_run n s :
  plain_name n = true ->
  fs_isfile (fs s) n = false ->
  exists s',
    makedirs n s = (Ok tt, s') /\
    Dict.lookup n (fs s') = Some (Dir (files_of (fs s) n)) /\
    (forall d, d <> n -> Dict.lookup d (fs s') = Dict.lookup d (fs s)) /\
    local_monitors s' = local_monitors s /\
    remote_monitors s' = remote_monitors s /\
    local_cleanup s' = local_cleanup s.
Proof.
  intros P F. unfold makedirs, resolve. rewrite P.
  cbv [bind gets lift modify emit ret]. unfold Dict.mem, files_of.
  unfold fs_isfile in F.
  destruct (Dict.lookup n (fs s)) as [[|fl]|] eqn:L; [discriminate| |].
  - eexists. split; [reflexivity|]. repeat split. exact L.
  - eexists. split; [reflexivity|]. cbn [fs set_fs set_log]. unfold fs_mkdir.
    repeat split.
    + apply lookup_insert_eq.
    + intros d N. now apply lookup_insert_neq.
Qed.

Lemma write_file_run n file j fl s :
  plain_name n = true ->
  Dict.lookup n (fs s) = Some (Dir fl) ->
  exists s',
    write_file n file j s = (Ok tt, s') /\
    Dict.lookup n (fs s') = Some (Dir (Dict.insert file (Some j) fl)) /\
    (forall d, d <> n -> Dict.lookup d (fs s') = Dict.lookup d (fs s)) /\
    local_monitors s' = local_monitors s /\
    remote_monitors s' = remote_monitors s /\
    local_cleanup s' = local_cleanup s.
Proof.
  intros P L. unfold write_file, fs_write, fs_files, resolve. rewrite P.
  cbv [bind gets lift modify emit ret rbind]. rewrite L.
  eexists. split; [reflexivity|]. cbn [fs set_fs set_log]. repeat split.
  - apply lookup_insert_eq.
  - intros d N. now apply lookup_insert_neq.
Qed.

(** [store_monitor] outside a dry run. *)
Lemma store_monitor_run id m md n s :
  monitor_name m = Ok n ->
  plain_name n = true ->
  fs_isfile (fs s) n = false ->
  exists s',
    store_monitor cfg id m md s = (Ok tt, s') /\
    Dict.lookup n (fs s')
    = Some (Dir (let fl := Dict.insert "monitor.json" (Some m)
                             (files_of (fs s) n) in
                 if truthy md then Dict.insert "metadata.json" (Some md) fl
                 else fl)) /\
    (forall d, d <> n -> Dict.lookup d (fs s') = Dict.lookup d (fs s)) /\
    local_monitors s' = local_monitors s /\
    remote_monitors s' = remote_monitors s /\
    local_cleanup s' = local_cleanup s.
Proof.
  intros N P F. unfold store_monitor. rewrite wet.
  rewrite run_bind. cbv [lift]. rewrite N.
  destruct (makedirs_run n s P F) as (s1 & E1 & L1 & O1 & A1 & B1 & C1).
  rewrite run_bind, E1.
  destruct (write_file_run n "monitor.json" m _ s1 P L1)
    as (s2 & E2 & L2 & O2 & A2 & B2 & C2).
  rewrite run_bind, E2. cbv zeta.
  destruct (truthy md).
  - destruct (write_file_run n "metadata.json" md _ s2 P L2)
      as (s3 & E3 & L3 & O3 & A3 & B3 & C3).
    exists s3. split; [exact E3|]. split; [exact L3|].
    repeat split; try congruence.
    intros d Hd. now rewrite O3, O2, O1.
  - exists s2. split; [reflexivity|]. split; [exact L2|].
    repeat split; try congruence.
    intros d Hd. now rewrite O2, O1.
Qed.
End Store.

Lemma fs_read_dir t n fl file :
  plain_name n = true ->
  Dict.lookup n t = Some (Dir fl) ->
  fs_read t n file = match Dict.lookup file fl with
                     | Some c => Ok c
                     | None => Raise FileNotFoundError
                     end.
Proof.
  intros P L. unfold fs_read, fs_files, resolve. rewrite P. simpl. now rewrite L.
Qed.

(** X12.  Outside a dry run, [store_monitor] writes the monitor to
    [monitor.json] in the directory named after it, creating the directory
    if need be, and touches no other directory; [metadata.json] is written
    only for a non-empty [metadata] and is otherwise left as it was.  A
    later [load_monitors] reads the monitor back from that directory and
    files it under the [_id] found in the file: the [monitor_id] argument
    of [store_monitor] plays no part. *)
Theorem store_then_load {W : World} (cfg : settings) (s : state)
    (id m md : json) (n i : string) :
  dryrun cfg = false ->
  monitor_name m = Ok n ->
  plain_name n = true ->
  fs_isfile (fs s) n = false ->
  getitem "_id" m = Ok (JStr i) ->
  i <> "" ->
  let s' := snd (store_monitor cfg id m md s) in
  fst (store_monitor cfg id m md s) = Ok tt /\
  fs_read (fs s') n "monitor.json" = Ok (Some m) /\
  (forall all, Dict.lookup i all = None ->
     fst (load_dir cfg all n s') = Ok (Dict.insert i m all)) /\
  fs_read (fs s') n "metadata.json"
  = (if truthy md then Ok (Some md) else fs_read (fs s) n "metadata.json") /\
  (forall d, d <> n -> Dict.lookup d (fs s') = Dict.lookup d (fs s)).
Proof.
  intros D N P F G I. cbv zeta.
  destruct (store_monitor_run cfg D id m md n s N P F)
    as (s' & E & L & O & _).
  rewrite E. cbn [fst snd].
  assert (R : fs_read (fs s') n "monitor.json" = Ok (Some m)).
  { rewrite (fs_read_dir _ _ _ _ P L). cbv zeta.
    destruct (truthy md);
      [rewrite lookup_insert_neq by discriminate|];
      now rewrite lookup_insert_eq. }
  split; [reflexivity|]. split; [exact R|]. split; [|split; [|exact O]].
  - intros all La. unfold load_dir. rewrite run_bind. cbv [gets]. rewrite R.
    destruct (getitem_Ok_obj _ _ _ G) as [d ->].
    rewrite run_bind. cbv [lift py_contains].
    assert (M : Dict.mem "_id" d = true).
    { simpl in G. unfold Dict.mem. now destruct (Dict.lookup "_id" d). }
    rewrite M. cbv [negb]. rewrite run_bind, G, run_bind.
    assert (T : truthy (JStr i) = true).
    { simpl. apply negb_true_iff. now apply String.eqb_neq. }
    rewrite T. cbv [as_key]. now rewrite La.
  - rewrite (fs_read_dir _ _ _ _ P L). cbv zeta.
    destruct (truthy md).
    + now rewrite lookup_insert_eq.
    + rewrite lookup_insert_neq by discriminate.
      unfold fs_read, fs_files, resolve, files_of. rewrite P. simpl.
      unfold fs_isfile in F.
      destruct (Dict.lookup n (fs s)) as [[|fl]|]; [discriminate| |];
        reflexivity.
Qed.

Lemma store_then_load_witness :
  let m := Demo.monitor "M7" "Alert-G" 3 in
  let s := Demo.boot Demo.offline_tree [] [] in
  let s' := snd (store_monitor Demo.interactive (JStr "other") m (JObj []) s) in
  fst (store_monitor Demo.interactive (JStr "other") m (JObj []) s) = Ok tt /\
  fs_read (fs s') "Alert-G" "monitor.json" = Ok (Some m) /\
  (forall all, Dict.lookup "M7" all = None ->
     fst (load_dir Demo.interactive all "Alert-G" s')
     = Ok (Dict.insert "M7" m all)) /\
  fs_read (fs s') "Alert-G" "metadata.json"
  = fs_read (fs s) "Alert-G" "metadata.json" /\
  (forall d, d <> "Alert-G" -> Dict.lookup d (fs s') = Dict.lookup d (fs s)).
Proof.
  apply (store_then_load (W:=Demo.world) Demo.interactive
           (Demo.boot Demo.offline_tree [] []) (JStr "other")
           (Demo.monitor "M7" "Alert-G" 3) (JObj []) "Alert-G" "M7").
  - reflexivity.
  - reflexivity.
  - reflexivity.
  - reflexivity.
  - reflexivity.
  - discriminate.
Defined.

(** ** Directories whose name does not match *)

Lemma fs_read_Ok_dir t d file c :
  fs_read t d file = Ok c ->
  plain_name d = true /\
  exists fl, Dict.lookup d t = Some (Dir fl) /\ Dict.lookup file fl = Some c.
Proof.
  unfold fs_read, fs_files, resolve.
  destruct (plain_name d); [|discriminate]. simpl.
  destruct (Dict.lookup d t) as [[|fl]|]; try discriminate. simpl.
  destruct (Dict.lookup file fl) as [c'|] eqn:L; [|discriminate].
  intros [= <-]. eauto.
Qed.

Lemma for_each_prints {W : World} (moved : Dict.t string) : forall s,
  fst (for_each moved
         (fun kv => emit (EPrint (MovedDir (fst kv) (snd kv)))) s) = Ok tt /\
  log (snd (for_each moved
         (fun kv => emit (EPrint (MovedDir (fst kv) (snd kv)))) s))
  = log s ++ map (fun kv => EPrint (MovedDir (fst kv) (snd kv))) moved.
Proof.
  induction moved as [|kv r IH]; intros s; simpl.
  - now rewrite app_nil_r.
  - rewrite run_bind, emit_run.
    destruct (IH (set_log (log s ++ [EPrint (MovedDir (fst kv) (snd kv))]) s))
      as (F & L).
    rewrite F, L. simpl. now rewrite <- app_assoc.
Qed.

Section Mismatch.
Context {W : World}.
Variable cfg : settings.
Hypothesis wet : dryrun cfg = false.

(** [clean_dir] up to the question. *)
Lemma clean_dir_asks d m n s :
  fs_read (fs s) d "monitor.json" = Ok (Some m) ->
  monitor_name m = Ok n ->
  pathsafe n = true ->
  d <> n ->
  clean_dir cfg d s
  = (confirmation <-
       confirm cfg LocalHelper (mismatch_message d n) "mismatch" ;;
     (if negb (dryrun cfg) && confirmation then
        t1 <- gets fs ;;
        metadata <-
          match fs_read t1 d "metadata.json" with
          | Raise FileNotFoundError => ret (JObj [])
          | Raise e => raise e
          | Ok None => raise ValueError
          | Ok (Some md) =>
              try_except
                (remove_file d "metadata.json" ;; ret md)
                is_FileNotFoundError (ret (JObj []))
          end ;;
        try_except (remove_file d "README.md")
          is_FileNotFoundError (ret tt) ;;
        remove_file d "monitor.json" ;;
        rmdir d ;;
        id <- lift (getitem "_id" m) ;;
        store_monitor cfg id m metadata
      else ret tt) ;;
     modify (fun s =>
       set_local_cleanup (Dict.insert d n (local_cleanup s)) s)) s.
Proof.
  intros R N P Ne. unfold clean_dir. rewrite run_bind. cbv [gets].
  destruct (fs_read_Ok_dir _ _ _ _ R) as (_ & fl & L & _).
  unfold fs_isfile. rewrite L, R.
  rewrite run_bind. cbv [lift]. rewrite N.
  rewrite run_bind, P. cbv [ret].
  apply String.eqb_neq in Ne. now rewrite Ne.
Qed.
End Mismatch.

(** X13.  A directory whose name differs from the name of its monitor is
    entered into [local.cleanup] whether or not the operator agrees to the
    move: when the answer is no, nothing on disk changes, yet the directory
    is recorded.  And [main] prints a [Moved] line for every entry of
    [local.cleanup], so it reports a move that was declined. *)
Theorem declined_move_is_recorded {W : World} (cfg : settings) (s : state)
    (d n : string) (m : json) :
  dryrun cfg = false ->
  fs_read (fs s) d "monitor.json" = Ok (Some m) ->
  monitor_name m = Ok n ->
  pathsafe n = true ->
  d <> n ->
  fst (confirm cfg LocalHelper (mismatch_message d n) "mismatch" s)
  = Ok false ->
  (fst (clean_dir cfg d s) = Ok tt /\
   fs (snd (clean_dir cfg d s)) = fs s /\
   Dict.lookup d (local_cleanup (snd (clean_dir cfg d s))) = Some n) /\
  (forall s0 d0 n0,
     fst (clean_folders cfg s0) = Ok tt ->
     In (d0, n0) (local_cleanup (snd (clean_folders cfg s0))) ->
     In (EPrint (MovedDir d0 n0)) (log (snd (repair_layout cfg s0)))).
Proof.
  intros D R N P Ne C. split.
  - rewrite (clean_dir_asks cfg d m n s R N P Ne).
    rewrite run_bind.
    pose proof (confirm_keeps_fs cfg LocalHelper (mismatch_message d n)
                  "mismatch" s) as Kf.
    destruct (confirm cfg LocalHelper (mismatch_message d n) "mismatch" s)
      as [[b|e] s1]; simpl in C, Kf; [|discriminate].
    injection C as ->. rewrite andb_false_r.
    rewrite run_bind. cbv [ret modify]. cbn [fst snd local_cleanup].
    repeat split; [exact Kf | apply lookup_insert_eq].
  - intros s0 d0 n0 Ok0 I. unfold repair_layout. rewrite run_bind.
    destruct (clean_folders cfg s0) as [[[]|e] s1]; simpl in Ok0, I;
      [|discriminate].
    rewrite run_bind. cbv [gets].
    destruct (local_cleanup s1) as [|kv r] eqn:Lc; [contradiction|].
    rewrite run_bind.
    destruct (for_each_prints (kv :: r) s1) as (F & L).
    destruct (for_each (kv :: r) _ s1) as [[[]|e] s2]; simpl in F, L;
      [|discriminate].
    destruct (local_load_monitors_events cfg s2) as (evs & L2 & _).
    rewrite L2, L. apply in_or_app. left. apply in_or_app. right.
    apply (in_map (fun kv => EPrint (MovedDir (fst kv) (snd kv))) _ _ I).
Qed.

Lemma declined_move_is_recorded_witness :
  let s := Demo.boot Demo.renamed_tree [] ["no"] in
  fst (clean_dir Demo.interactive "old" s) = Ok tt /\
  fs (snd (clean_dir Demo.interactive "old" s)) = fs s /\
  Dict.lookup "old" (local_cleanup (snd (clean_dir Demo.interactive "old" s)))
  = Some "new".
Proof.
  apply (proj1 (declined_move_is_recorded (W:=Demo.world) Demo.interactive
                  (Demo.boot Demo.renamed_tree [] ["no"]) "old" "new"
                  (Demo.monitor "M1" "new" 1)
                  eq_refl eq_refl eq_refl eq_refl
                  ltac:(discriminate) eq_refl)).
Defined.

Lemma remove_comm {V} (d : Dict.t V) k k' :
  Dict.remove k (Dict.remove k' d) = Dict.remove k' (Dict.remove k d).
Proof.
  unfold Dict.remove. rewrite !filter_filter_and.
  apply filter_ext. intros kv. apply andb_comm.
Qed.

Section Move.
Context {W : World}.
Variable cfg : settings.
Hypothesis wet : dryrun cfg = false.

Lemma remove_file_run n file fl s :
  plain_name n = true ->
  Dict.lookup n (fs s) = Some (Dir fl) ->
  Dict.mem file fl = true ->
  exists s',
    remove_file n file s = (Ok tt, s') /\
    Dict.lookup n (fs s') = Some (Dir (Dict.remove file fl)) /\
    (forall x, x <> n -> Dict.lookup x (fs s') = Dict.lookup x (fs s)) /\
    local_cleanup s' = local_cleanup s.
Proof.
  intros P L M. unfold remove_file, fs_remove, fs_files, resolve.
  cbv [bind gets lift modify emit ret rbind]. rewrite P, L, M.
  eexists. split; [reflexivity|]. cbn [fs set_fs set_log]. repeat split.
  - apply lookup_insert_eq.
  - intros x N. now apply lookup_insert_neq.
Qed.

Lemma remove_file_missing n file fl s :
  plain_name n = true ->
  Dict.lookup n (fs s) = Some (Dir fl) ->
  Dict.mem file fl = false ->
  remove_file n file s = (Raise FileNotFoundError, s).
Proof.
  intros P L M. unfold remove_file, fs_remove, fs_files, resolve.
  cbv [bind gets lift modify emit ret rbind]. now rewrite P, L, M.
Qed.

(** [try: remove(n/file) except FileNotFoundError: pass] *)
Lemma try_remove_file_run n file fl s :
  plain_name n = true ->
  Dict.lookup n (fs s) = Some (Dir fl) ->
  exists s',
    try_except (remove_file n file) is_FileNotFoundError (ret tt) s
    = (Ok tt, s') /\
    Dict.lookup n (fs s') = Some (Dir (Dict.remove file fl)) /\
    (forall x, x <> n -> Dict.lookup x (fs s') = Dict.lookup x (fs s)) /\
    local_cleanup s' = local_cleanup s.
Proof.
  intros P L. unfold try_except.
  destruct (Dict.mem file fl) eqn:M.
  - destruct (remove_file_run n file fl s P L M) as (s' & E & R).
    rewrite E. eauto.
  - rewrite (remove_file_missing n file fl s P L M). simpl.
    exists s. rewrite (remove_absent _ _ M). auto.
Qed.

(** The metadata of a directory is read, and its file removed. *)
Lemma take_metadata_run n fl s :
  plain_name n = true ->
  Dict.lookup n (fs s) = Some (Dir fl) ->
  Dict.lookup "metadata.json" fl <> Some None ->
  exists s',
    match fs_read (fs s) n "metadata.json" with
    | Raise FileNotFoundError => ret (JObj [])
    | Raise e => raise e
    | Ok None => raise ValueError
    | Ok (Some md) =>
        try_except (remove_file n "metadata.json" ;; ret md)
          is_FileNotFoundError (ret (JObj []))
    end s = (Ok (metadata_of fl), s') /\
    Dict.lookup n (fs s') = Some (Dir (Dict.remove "metadata.json" fl)) /\
    (forall x, x <> n -> Dict.lookup x (fs s') = Dict.lookup x (fs s)) /\
    local_cleanup s' = local_cleanup s.
Proof.
  intros P L Md. rewrite (fs_read_dir _ _ _ _ P L). unfold metadata_of.
  destruct (Dict.lookup "metadata.json" fl) as [[md|]|] eqn:Lm.
  - assert (M : Dict.mem "metadata.json" fl = true)
      by (unfold Dict.mem; now rewrite Lm).
    destruct (remove_file_run n "metadata.json" fl s P L M) as (s' & E & R).
    unfold try_except. rewrite run_bind, E. cbv [ret]. eauto.
  - exfalso. apply Md. first [reflexivity | assumption].
  - exists s. cbv [ret]. split; [reflexivity|].
    rewrite remove_absent by (unfold Dict.mem; now rewrite Lm). auto.
Qed.

Lemma rmdir_run n s :
  plain_name n = true ->
  Dict.lookup n (fs s) = Some (Dir []) ->
  exists s',
    rmdir n s = (Ok tt, s') /\
    fs s' = Dict.remove n (fs s) /\
    local_cleanup s' = local_cleanup s.
Proof.
  intros P L. unfold rmdir, fs_rmdir, fs_files, resolve.
  cbv [bind gets lift modify emit ret rbind]. rewrite P, L.
  eexists. split; [reflexivity|]. split; reflexivity.
Qed.

(** The branch of [clean_dir] that moves a directory. *)
Lemma move_run d fl m n id s :
  plain_name d = true ->
  Dict.lookup d (fs s) = Some (Dir fl) ->
  forallb (fun f => one_of f managed_files) (Dict.keys fl) = true ->
  Dict.lookup "monitor.json" fl = Some (Some m) ->
  Dict.lookup "metadata.json" fl <> Some None ->
  monitor_name m = Ok n ->
  plain_name n = true ->
  d <> n ->
  fs_isfile (fs s) n = false ->
  getitem "_id" m = Ok id ->
  exists s',
    (t1 <- gets fs ;;
     metadata <-
       match fs_read t1 d "metadata.json" with
       | Raise FileNotFoundError => ret (JObj [])
       | Raise e => raise e
       | Ok None => raise ValueError
       | Ok (Some md) =>
           try_except (remove_file d "metadata.json" ;; ret md)
             is_FileNotFoundError (ret (JObj []))
       end ;;
     try_except (remove_file d "README.md") is_FileNotFoundError (ret tt) ;;
     remove_file d "monitor.json" ;;
     rmdir d ;;
     id <- lift (getitem "_id" m) ;;
     store_monitor cfg id m metadata) s = (Ok tt, s') /\
    Dict.lookup d (fs s') = None /\
    Dict.lookup n (fs s')
    = Some (Dir (let fl' := Dict.insert "monitor.json" (Some m)
                              (files_of (fs s) n) in
                 if truthy (metadata_of fl)
                 then Dict.insert "metadata.json" (Some (metadata_of fl)) fl'
                 else fl')) /\
    (forall x, x <> d -> x <> n ->
       Dict.lookup x (fs s') = Dict.lookup x (fs s)) /\
    local_cleanup s' = local_cleanup s.
Proof.
  intros Pd L F Lm Md N Pn Ne Fn G.
  rewrite run_bind. cbv [gets].
  destruct (take_metadata_run d fl s Pd L Md) as (s1 & E1 & L1 & O1 & C1).
  rewrite run_bind, E1.
  destruct (try_remove_file_run d "README.md" _ s1 Pd L1)
    as (s2 & E2 & L2 & O2 & C2).
  rewrite run_bind, E2.
  assert (M : Dict.mem "monitor.json"
                (Dict.remove "README.md" (Dict.remove "metadata.json" fl))
              = true).
  { unfold Dict.mem. rewrite !lookup_remove_neq by discriminate.
    now rewrite Lm. }
  destruct (remove_file_run d "monitor.json" _ s2 Pd L2 M)
    as (s3 & E3 & L3 & O3 & C3).
  rewrite run_bind, E3.
  assert (Empty : Dict.remove "monitor.json"
                    (Dict.remove "README.md" (Dict.remove "metadata.json" fl))
                  = []).
  { rewrite (remove_comm _ "monitor.json" "README.md").
    rewrite (remove_comm fl "monitor.json" "metadata.json").
    now apply remove_managed. }
  rewrite Empty in L3.
  destruct (rmdir_run d s3 Pd L3) as (s4 & E4 & F4 & C4).
  rewrite run_bind, E4, run_bind. cbv [lift]. rewrite G.
  assert (Same : forall x, x <> d -> Dict.lookup x (fs s4) = Dict.lookup x (fs s)).
  { intros x Hx. rewrite F4, lookup_remove_neq by exact Hx.
    now rewrite O3, O2, O1. }
  assert (Fn4 : fs_isfile (fs s4) n = false).
  { unfold fs_isfile in *. rewrite Same by congruence. exact Fn. }
  destruct (store_monitor_run cfg wet id m (metadata_of fl) n s4 N Pn Fn4)
    as (s5 & E5 & L5 & O5 & _ & _ & C5).
  exists s5. split; [exact E5|]. split; [|split; [|split]].
  - rewrite O5 by congruence. rewrite F4. apply lookup_remove_eq.
  - rewrite L5. unfold files_of. rewrite Same by congruence. reflexivity.
  - intros x Hd Hn. rewrite O5 by exact Hn. now apply Same.
  - congruence.
Qed.
End Move.

(** X14.  When the operator agrees, a directory that holds only the
    manager's files and whose name differs from its monitor's name is
    moved: its files and the directory itself are removed, the monitor is
    stored in the directory named after it together with the metadata that
    came along (a [README.md] is not carried over), no other directory is
    touched, and the move is entered into [local.cleanup]. *)
Theorem accepted_move_renames {W : World} (cfg : settings) (s : state)
    (d n : string) (fl : Dict.t content) (m id : json) :
  dryrun cfg = false ->
  plain_name d = true ->
  Dict.lookup d (fs s) = Some (Dir fl) ->
  forallb (fun f => one_of f managed_files) (Dict.keys fl) = true ->
  Dict.lookup "monitor.json" fl = Some (Some m) ->
  Dict.lookup "metadata.json" fl <> Some None ->
  monitor_name m = Ok n ->
  pathsafe n = true ->
  plain_name n = true ->
  d <> n ->
  fs_isfile (fs s) n = false ->
  getitem "_id" m = Ok id ->
  fst (confirm cfg LocalHelper (mismatch_message d n) "mismatch" s)
  = Ok true ->
  let s' := snd (clean_dir cfg d s) in
  fst (clean_dir cfg d s) = Ok tt /\
  Dict.lookup d (fs s') = None /\
  Dict.lookup n (fs s')
  = Some (Dir (let fl' := Dict.insert "monitor.json" (Some m)
                            (files_of (fs s) n) in
               if truthy (metadata_of fl)
               then Dict.insert "metadata.json" (Some (metadata_of fl)) fl'
               else fl')) /\
  (forall x, x <> d -> x <> n ->
     Dict.lookup x (fs s') = Dict.lookup x (fs s)) /\
  Dict.lookup d (local_cleanup s') = Some n.
Proof.
  intros D Pd L F Lm Md N P Pn Ne Fn G C. cbv zeta.
  assert (R : fs_read (fs s) d "monitor.json" = Ok (Some m)).
  { rewrite (fs_read_dir _ _ _ _ Pd L). now rewrite Lm. }
  rewrite (clean_dir_asks cfg d m n s R N P Ne).
  rewrite run_bind.
  pose proof (confirm_keeps_fs cfg LocalHelper (mismatch_message d n)
                "mismatch" s) as Kf.
  destruct (confirm cfg LocalHelper (mismatch_message d n) "mismatch" s)
    as [[b|e] s1]; simpl in C, Kf; [|discriminate].
  injection C as ->. rewrite D. cbn [negb andb].
  rewrite <- Kf in L, Fn.
  destruct (move_run cfg D d fl m n id s1 Pd L F Lm Md N Pn Ne Fn G)
    as (s2 & E & Gone & There & Others & Cl).
  rewrite run_bind, E. cbv [modify]. cbn [fst snd fs local_cleanup].
  rewrite <- Kf. repeat split; try assumption.
  apply lookup_insert_eq.
Qed.

Lemma accepted_move_renames_witness :
  let s := Demo.boot Demo.renamed_tree [] ["yes"] in
  let s' := snd (clean_dir Demo.interactive "old" s) in
  fst (clean_dir Demo.interactive "old" s) = Ok tt /\
  Dict.lookup "old" (fs s') = None /\
  Dict.lookup "new" (fs s')
  = Some (Dir [("monitor.json", Some (Demo.monitor "M1" "new" 1))]) /\
  (forall x, x <> "old" -> x <> "new" ->
     Dict.lookup x (fs s') = Dict.lookup x (fs s)) /\
  Dict.lookup "old" (local_cleanup s') = Some "new".
Proof.
  apply (accepted_move_renames (W:=Demo.world) Demo.interactive
           (Demo.boot Demo.renamed_tree [] ["yes"]) "old" "new"
           [("monitor.json", Some (Demo.monitor "M1" "new" 1))]
           (Demo.monitor "M1" "new" 1) (JStr "M1")).
  - reflexivity.
  - reflexivity.
  - reflexivity.
  - reflexivity.
  - reflexivity.
  - simpl. discriminate.
  - reflexivity.
  - reflexivity.
  - reflexivity.
  - discriminate.
  - reflexivity.
  - reflexivity.
  - reflexivity.
Defined.

(** ** The notification channels *)

Lemma split_on_cons sep s : exists h t, split_on sep s = h :: t.
Proof.
  induction s as [|c r IH]; simpl; [eauto|].
  destruct (Ascii.eqb c sep); [eauto|].
  destruct IH as (h & t & ->). eauto.
Qed.

(** The first part of a split is what stands in front of the first
    separator. *)
Lemma split_on_hd sep a : forall b,
  (forall c, occurs c a -> c <> sep) ->
  hd EmptyString (split_on sep (a ++ String sep b)) = a.
Proof.
  induction a as [|c r IH]; intros b H; simpl.
  - now rewrite Ascii.eqb_refl.
  - destruct (Ascii.eqb c sep) eqn:E.
    + apply Ascii.eqb_eq in E. exfalso. apply (H c); [now left | exact E].
    + specialize (IH b (fun c' Hc => H c' (or_intror Hc))).
      destruct (split_on_cons sep (r ++ String sep b)) as (h & t & S).
      rewrite S in *. simpl in *. now subst.
Qed.

Lemma split_on_whole sep a :
  (forall c, occurs c a -> c <> sep) ->
  split_on sep a = [a].
Proof.
  induction a as [|c r IH]; intros H; simpl; [reflexivity|].
  destruct (Ascii.eqb c sep) eqn:E.
  - apply Ascii.eqb_eq in E. exfalso. apply (H c); [now left | exact E].
  - now rewrite (IH (fun c' Hc => H c' (or_intror Hc))).
Qed.

Section ChannelsFacts.
Context {W : World}.

Lemma get_run uri s :
  get uri s = (http_get (srv s) uri, set_log (log s ++ [EGet uri]) s).
Proof. reflexivity. Qed.

(** The requests of [get_notification_channels] once the version is
    known. *)
Lemma channels_requests s data v :
  http_get (srv s) root_uri = Ok data ->
  (x <~ getitem "version" data ;; getitem "number" x)%res = Ok (JStr v) ->
  log (snd (get_notification_channels s))
  = log s ++ EGet root_uri ::
      (if String.eqb (major_of v) "2" then [EGet configs_uri]
       else if String.eqb (major_of v) "1" then [EGet destinations_uri]
       else []) /\
  (major_of v <> "2" -> major_of v <> "1" ->
   fst (get_notification_channels s) = Raise SystemExit) /\
  fs (snd (get_notification_channels s)) = fs s /\
  srv (snd (get_notification_channels s)) = srv s.
Proof.
  intros G V. unfold get_notification_channels.
  rewrite run_bind, get_run. cbn [srv set_log] in *. rewrite G.
  rewrite run_bind. cbv [lift]. rewrite V.
  rewrite run_bind. cbn [version_parts]. cbv zeta. fold (major_of v).
  destruct (String.eqb (major_of v) "2") eqn:E2.
  { rewrite run_bind, get_run. cbn [srv set_log log fs].
    split; [|split; [|split]].
    - destruct (http_get (srv s) configs_uri) as [o|]; cbn [snd log];
        [|now rewrite <- app_assoc].
      rewrite run_bind. destruct (getitem "config_list" o); cbn [snd log];
        [|now rewrite <- app_assoc].
      rewrite run_bind. destruct (iter_items a); cbn [snd log];
        now rewrite <- app_assoc.
    - intros N. apply String.eqb_eq in E2. contradiction.
    - destruct (http_get (srv s) configs_uri) as [o|]; [|reflexivity].
      rewrite run_bind. destruct (getitem "config_list" o); [|reflexivity].
      rewrite run_bind. now destruct (iter_items a).
    - destruct (http_get (srv s) configs_uri) as [o|]; [|reflexivity].
      rewrite run_bind. destruct (getitem "config_list" o); [|reflexivity].
      rewrite run_bind. now destruct (iter_items a). }
  destruct (String.eqb (major_of v) "1") eqn:E1.
  { rewrite run_bind, get_run. cbn [srv set_log log fs].
    split; [|split; [|split]].
    - destruct (http_get (srv s) destinations_uri) as [o|]; cbn [snd log];
        [|now rewrite <- app_assoc].
      rewrite run_bind. destruct (getitem "destinations" o); cbn [snd log];
        [|now rewrite <- app_assoc].
      rewrite run_bind. destruct (iter_items a); cbn [snd log];
        now rewrite <- app_assoc.
    - intros _ N. apply String.eqb_eq in E1. contradiction.
    - destruct (http_get (srv s) destinations_uri) as [o|]; [|reflexivity].
      rewrite run_bind. destruct (getitem "destinations" o); [|reflexivity].
      rewrite run_bind. now destruct (iter_items a).
    - destruct (http_get (srv s) destinations_uri) as [o|]; [|reflexivity].
      rewrite run_bind. destruct (getitem "destinations" o); [|reflexivity].
      rewrite run_bind. now destruct (iter_items a). }
  repeat split.
Qed.
End ChannelsFacts.

(** X15.  [get_notification_channels] asks the server for its version
    and goes by the part of the version number in front of the first dot:
    for [2] it reads the notification configs, for [1] the alerting
    destinations, and for anything else (an OpenSearch 3, or a 10) it
    exits after that one request.  It only sends [GET] requests, and
    leaves the local tree and the server as they are. *)
Theorem channels_endpoint_follows_major_version {W : World} (s : state)
    (data : json) (v : string) :
  http_get (srv s) root_uri = Ok data ->
  (x <~ getitem "version" data ;; getitem "number" x)%res = Ok (JStr v) ->
  (forall a b, (forall c, occurs c a -> c <> "."%char) ->
     v = (a ++ String "." b)%string \/ v = a -> major_of v = a) /\
  log (snd (get_notification_channels s))
  = log s ++ EGet root_uri ::
      (if String.eqb (major_of v) "2" then [EGet configs_uri]
       else if String.eqb (major_of v) "1" then [EGet destinations_uri]
       else []) /\
  (major_of v <> "2" -> major_of v <> "1" ->
   fst (get_notification_channels s) = Raise SystemExit) /\
  fs (snd (get_notification_channels s)) = fs s /\
  srv (snd (get_notification_channels s)) = srv s.
Proof.
  intros G V. split; [|now apply (channels_requests s data v)].
  intros a b H [-> | ->]; unfold major_of.
  - now apply split_on_hd.
  - now rewrite split_on_whole.
Qed.

Lemma channels_endpoint_follows_major_version_witness :
  fst (@get_notification_channels (Scenario.versioned "3.1.0")
         (Scenario.versioned_boot "3.1.0")) = Raise SystemExit.
Proof.
  refine (proj1 (proj2 (proj2
    (channels_endpoint_follows_major_version
       (W:=Scenario.versioned "3.1.0") (Scenario.versioned_boot "3.1.0")
       (JObj [("version", JObj [("number", JStr "3.1.0")])]) "3.1.0"
       eq_refl eq_refl))) _ _); discriminate.
Defined.

(** ** [check_name_state] *)

Lemma name_step_nameable local id r acc :
  nameable local (id, r) = true ->
  name_step local id r acc
  = Ok (acc ++ if renamed local (id, r)
               then match Dict.lookup id local with
                    | Some l =>
                        match raw_name l, raw_name r with
                        | Ok ln, Ok rn => [(id, (ln, rn))]
                        | _, _ => []
                        end
                    | None => []
                    end
               else []).
Proof.
  unfold nameable, renamed, name_step. simpl fst. simpl snd.
  destruct (Dict.lookup id local) as [l|]; [|discriminate].
  destruct (raw_name l) as [ln|]; [|discriminate].
  destruct (raw_name r) as [rn|]; [|discriminate].
  intros _. simpl. destruct (negb (py_eq ln rn)); [reflexivity|].
  now rewrite app_nil_r.
Qed.

Lemma name_step_Ok local id r acc acc' :
  name_step local id r acc = Ok acc' ->
  nameable local (id, r) = true.
Proof.
  unfold nameable, name_step. simpl fst. simpl snd.
  destruct (Dict.lookup id local) as [l|]; [|discriminate].
  destruct (raw_name l) as [ln|]; [|discriminate]. simpl.
  destruct (raw_name r) as [rn|]; [reflexivity | discriminate].
Qed.

Lemma check_name_state_run local : forall remote acc,
  forallb (nameable local) remote = true ->
  exists found,
    check_name_state local remote acc = (acc ++ found, Ok tt) /\
    map fst found = map fst (filter (renamed local) remote) /\
    forall id ln rn, In (id, (ln, rn)) found ->
      py_eq ln rn = false /\
      exists l r,
        Dict.lookup id local = Some l /\ raw_name l = Ok ln /\
        In (id, r) remote /\ raw_name r = Ok rn.
Proof.
  induction remote as [|[id r] rest IH]; intros acc H.
  - exists []. simpl. rewrite app_nil_r.
    split; [reflexivity|]. split; [reflexivity|]. contradiction.
  - simpl in H. apply andb_true_iff in H as [N Hr].
    simpl. rewrite (name_step_nameable _ _ _ _ N).
    destruct (IH (acc ++ (if renamed local (id, r)
                          then match Dict.lookup id local with
                               | Some l =>
                                   match raw_name l, raw_name r with
                                   | Ok ln, Ok rn => [(id, (ln, rn))]
                                   | _, _ => []
                                   end
                               | None => []
                               end
                          else [])) Hr) as (found & E & Ids & Each).
    rewrite E, <- app_assoc. eexists. split; [reflexivity|].
    unfold renamed, nameable in *. simpl fst in *. simpl snd in *.
    destruct (Dict.lookup id local) as [l|] eqn:L; [|discriminate].
    destruct (raw_name l) as [ln|] eqn:Nl; [|discriminate].
    destruct (raw_name r) as [rn|] eqn:Nr; [|discriminate].
    destruct (py_eq ln rn) eqn:Q; simpl.
    + split; [exact Ids|]. intros id' ln' rn' I.
      destruct (Each id' ln' rn' I) as (Q' & l' & r' & A & B & C & D).
      split; [exact Q'|]. exists l', r'. auto.
    + split; [now rewrite Ids|]. intros id' ln' rn' [I|I].
      * injection I as <- <- <-. split; [exact Q|]. exists l, r. auto.
      * destruct (Each id' ln' rn' I) as (Q' & l' & r' & A & B & C & D).
        split; [exact Q'|]. exists l', r'. auto.
Qed.

Lemma check_name_state_Ok local : forall remote acc acc',
  check_name_state local remote acc = (acc', Ok tt) ->
  forallb (nameable local) remote = true.
Proof.
  induction remote as [|[id r] rest IH]; intros acc acc'; [reflexivity|].
  simpl. destruct (name_step local id r acc) as [a|] eqn:S; [|discriminate].
  intros E. now rewrite (name_step_Ok _ _ _ _ _ S), (IH _ _ E).
Qed.

Lemma check_name_state_stops local : forall pre acc id r post,
  forallb (nameable local) pre = true ->
  Dict.lookup id local = None ->
  snd (check_name_state local (pre ++ (id, r) :: post) acc)
  = Raise (KeyError id).
Proof.
  induction pre as [|[id0 r0] rest IH]; intros acc id r post H L.
  - simpl. unfold name_step. now rewrite L.
  - simpl in H. apply andb_true_iff in H as [N Hr].
    simpl. rewrite (name_step_nameable _ _ _ _ N). now apply IH.
Qed.

(** X16.  [check_name_state] returns exactly when every remote identity
    has a local record and both records have a name.  It then has
    appended, in the order of the remote mapping, the identities whose
    local and remote names are not equal, and printed the two names for
    each of them.  At the first remote identity that has no local record
    it raises [KeyError] for that identity. *)
Theorem check_name_state_reports_renames (local remote : Dict.t json) :
  (forallb (nameable local) remote = true <->
   exists found, check_name_state local remote [] = (found, Ok tt)) /\
  (forall found, check_name_state local remote [] = (found, Ok tt) ->
     map fst found = map fst (filter (renamed local) remote) /\
     forall id ln rn, In (id, (ln, rn)) found ->
       py_eq ln rn = false /\
       exists l r,
         Dict.lookup id local = Some l /\ raw_name l = Ok ln /\
         In (id, r) remote /\ raw_name r = Ok rn) /\
  (forall pre id r post,
     remote = pre ++ (id, r) :: post ->
     forallb (nameable local) pre = true ->
     Dict.lookup id local = None ->
     snd (check_name_state local remote []) = Raise (KeyError id)).
Proof.
  split; [|split].
  - split.
    + intros H. destruct (check_name_state_run local remote [] H)
        as (found & E & _).
      exists found. exact E.
    + intros (found & E). exact (check_name_state_Ok _ _ _ _ E).
  - intros found E.
    pose proof (check_name_state_Ok _ _ _ _ E) as H.
    destruct (check_name_state_run local remote [] H) as (found' & E' & R).
    rewrite E in E'. simpl in E'. injection E' as ->. exact R.
  - intros pre id r post -> H L. now apply check_name_state_stops.
Qed.

(** ** The validators *)

(** X17.  For a monitor that has a non-empty name, [Validate.enabled]
    returns [True] exactly when [monitor.enabled] is the JSON value
    [true].  When [init_errors] has set up the list of the monitor, every
    other outcome appends exactly one message to that list and leaves the
    lists of other monitors alone.  When it has not, every other outcome
    raises [KeyError] for the name: the handler of the [try] block
    subscripts [self.errors] again. *)
Theorem enabled_verdict (errs : Validate.errors) (monitor m : json)
    (k : string) :
  Validate.unwrap monitor = Ok m ->
  getitem "name" m = Ok (JStr k) ->
  k <> "" ->
  let outcome :=
    match getitem "enabled" m with
    | Ok (JBool true) => (true, "[green]Yes[/green]", [])
    | Ok (JBool false) => (false, "[red]No[/red]", [Validate.disabled_message])
    | Ok _ => (false, "[yellow]Unknown[/yellow]", [Validate.unknown_message])
    | Raise _ => (false, "[red]Fail[/red]", [Validate.missing_message])
    end in
  (forall l, Dict.lookup k errs = Some l ->
     Validate.enabled errs monitor
     = (match snd outcome with
        | [] => errs
        | added => Dict.insert k (l ++ added) errs
        end, Ok (fst outcome))) /\
  (Dict.lookup k errs = None ->
   Validate.enabled errs monitor
   = (errs, match snd outcome with
            | [] => Ok (fst outcome)
            | _ => Raise (KeyError k)
            end)).
Proof.
  intros U N Ne. cbv zeta. unfold Validate.enabled. rewrite U. cbn [rbind].
  rewrite N. cbn [rbind].
  assert (T : truthy (JStr k) = true).
  { simpl. apply negb_true_iff. now apply String.eqb_neq. }
  rewrite T. cbn [negb].
  destruct (getitem_Ok_obj _ _ _ N) as [d ->].
  unfold Validate.record. cbn [as_key rbind].
  split.
  - intros l L. rewrite L.
    destruct (getitem "enabled" (JObj d)) as [e|x] eqn:G; cbn [rbind].
    + destruct e as [|[|]| | | |]; reflexivity.
    + simpl in G. destruct (Dict.lookup "enabled" d); [discriminate|].
      injection G as <-. reflexivity.
  - intros L. rewrite L.
    destruct (getitem "enabled" (JObj d)) as [e|x] eqn:G; cbn [rbind].
    + destruct e as [|[|]| | | |]; reflexivity.
    + simpl in G. destruct (Dict.lookup "enabled" d); [discriminate|].
      injection G as <-. reflexivity.
Qed.

Lemma enabled_verdict_witness :
  Validate.enabled [("Alert-D", [])] (Demo.edited "M4" "Alert-D" 5)
  = ([("Alert-D", [Validate.disabled_message])], Ok (false, "[red]No[/red]")).
Proof.
  apply (proj1 (enabled_verdict [("Alert-D", [])] (Demo.edited "M4" "Alert-D" 5)
                  (JObj [("name", JStr "Alert-D"); ("enabled", JBool false);
                         ("last_update_time", JNum 0)])
                  "Alert-D" eq_refl eq_refl ltac:(discriminate)) []).
  reflexivity.
Defined.

Lemma channels_loop_skips chans pre : forall t rest a more,
  forallb Validate.actionless pre = true ->
  Validate.gather t = Ok (a :: more) ->
  Validate.channels_loop chans (pre ++ t :: rest)
  = Validate.check_destination chans a.
Proof.
  induction pre as [|x r IH]; intros t rest a more H G; simpl.
  - now rewrite G.
  - simpl in H. apply andb_true_iff in H as [A Hr].
    unfold Validate.actionless in A.
    destruct (Validate.gather x) as [[|? ?]|]; try discriminate.
    simpl. now apply (IH t rest a more).
Qed.

Lemma channels_loop_none chans ts :
  forallb Validate.actionless ts = true ->
  Validate.channels_loop chans ts = Ok Validate.Nothing.
Proof.
  induction ts as [|x r IH]; simpl; [reflexivity|].
  intros H. apply andb_true_iff in H as [A Hr].
  unfold Validate.actionless in A.
  destruct (Validate.gather x) as [[|? ?]|]; try discriminate.
  simpl. now apply IH.
Qed.

(** X18.  [Validate.channels] judges a monitor by one action only: the
    first action of the first trigger that has any.  The destination of
    that action decides between [Pass] and [Fail]; the triggers and
    actions behind it are never looked at.  When the monitor has triggers
    but none of them has an action, the call runs off its end and returns
    nothing at all. *)
Theorem channels_judges_first_action (chans : Dict.t json)
    (monitor m name : json) (ts : list json) :
  Validate.unwrap monitor = Ok m ->
  getitem "name" m = Ok name ->
  truthy name = true ->
  getitem "triggers" m = Ok (JArr ts) ->
  ts <> [] ->
  (forall pre t rest a more,
     ts = pre ++ t :: rest ->
     forallb Validate.actionless pre = true ->
     Validate.gather t = Ok (a :: more) ->
     Validate.channels monitor chans = Validate.check_destination chans a) /\
  (forallb Validate.actionless ts = true ->
   Validate.channels monitor chans = Ok Validate.Nothing).
Proof.
  intros U N T G Ne. unfold Validate.channels.
  rewrite U. cbn [rbind]. rewrite N. cbn [rbind]. rewrite T. cbn [negb].
  rewrite G. cbn [rbind].
  assert (Tt : truthy (JArr ts) = true) by (destruct ts; [congruence | reflexivity]).
  rewrite Tt. cbn [py_iter rbind]. split.
  - intros pre t rest a more -> H Ga. now apply (channels_loop_skips _ _ _ _ _ more).
  - apply channels_loop_none.
Qed.

Lemma channels_judges_first_action_witness :
  Validate.channels Scenario.two_actions [("c1", JStr "slack-alerts")]
  = Ok (Validate.Triple true "[green]Pass[/green]" (JStr "slack-alerts")).
Proof.
  apply (proj1 (channels_judges_first_action [("c1", JStr "slack-alerts")]
                  Scenario.two_actions
                  (JObj [("name", JStr "Alert-E");
                         ("triggers",
                          JArr [JObj [("query_level_trigger",
                            JObj [("actions",
                                   JArr [JObj [("destination_id", JStr "c1")];
                                         JObj [("destination_id",
                                                JStr "gone")]])])]])])
                  (JStr "Alert-E")
                  [JObj [("query_level_trigger",
                     JObj [("actions",
                            JArr [JObj [("destination_id", JStr "c1")];
                                  JObj [("destination_id", JStr "gone")]])])]]
                  eq_refl eq_refl eq_refl eq_refl ltac:(discriminate))
           [] _ [] (JObj [("destination_id", JStr "c1")])
           [JObj [("destination_id", JStr "gone")]]
           eq_refl eq_refl eq_refl).
Defined.

(** ** The template configuration *)

Lemma remove_first_absent x l : ~ In x l -> remove_first x l = l.
Proof.
  induction l as [|y r IH]; simpl; [reflexivity|].
  intros H. destruct (String.eqb x y) eqn:E.
  - apply String.eqb_eq in E. subst y. exfalso. apply H. now left.
  - rewrite IH; [reflexivity|]. tauto.
Qed.

Lemma remove_first_middle x done todo :
  ~ In x done -> remove_first x (done ++ x :: todo) = done ++ todo.
Proof.
  induction done as [|y r IH]; simpl; intros H.
  - now rewrite String.eqb_refl.
  - destruct (String.eqb x y) eqn:E.
    + apply String.eqb_eq in E. subst y. exfalso. apply H. now left.
    + rewrite IH; [reflexivity|]. tauto.
Qed.

Lemma nth_error_middle {A} (done : list A) x todo :
  nth_error (done ++ x :: todo) (length done) = Some x.
Proof. induction done; simpl; auto. Qed.

Lemma nth_error_end {A} (done : list A) :
  nth_error done (length done) = None.
Proof. induction done; simpl; auto. Qed.

Lemma prune_past fuel i l : (length l <= i)%nat -> prune fuel i l = l.
Proof.
  intros H. destruct fuel; [reflexivity|]. simpl.
  apply nth_error_None in H. now rewrite H.
Qed.

(** The loop, from the round that looks at the first entry of [todo]. *)
Lemma prune_run : forall fuel todo done,
  (length todo <= fuel)%nat ->
  NoDup (done ++ todo) ->
  prune fuel (length done) (done ++ todo) = done ++ passes_over todo.
Proof.
  induction fuel as [|f IH]; intros todo done Len ND.
  - destruct todo; [reflexivity | simpl in Len; lia].
  - destruct todo as [|x r].
    + simpl. rewrite app_nil_r, nth_error_end. reflexivity.
    + cbn [prune]. rewrite nth_error_middle. simpl in Len.
      assert (Nx : ~ In x done).
      { intros I. apply NoDup_remove_2 in ND. apply ND.
        apply in_or_app. now left. }
      destruct (hidden x) eqn:Hx.
      * rewrite (remove_first_middle _ _ _ Nx).
        apply NoDup_remove_1 in ND.
        destruct r as [|y r'].
        -- cbn [passes_over]. rewrite Hx.
           apply prune_past. rewrite app_nil_r. lia.
        -- cbn [passes_over]. rewrite Hx.
           replace (done ++ y :: r') with ((done ++ [y]) ++ r')
             by now rewrite <- app_assoc.
           replace (S (length done)) with (length (done ++ [y]))
             by (rewrite length_app; simpl; lia).
           rewrite IH.
           ++ now rewrite <- app_assoc.
           ++ simpl in Len. lia.
           ++ now rewrite <- app_assoc.
      * cbn [passes_over]. rewrite Hx.
        replace (done ++ x :: r) with ((done ++ [x]) ++ r)
          by now rewrite <- app_assoc.
        replace (S (length done)) with (length (done ++ [x]))
          by (rewrite length_app; simpl; lia).
        rewrite IH.
        -- now rewrite <- app_assoc.
        -- lia.
        -- now rewrite <- app_assoc.
Qed.

Lemma passes_over_keeps_visible e : forall l,
  In e l -> hidden e = false -> In e (passes_over l).
Proof.
  fix IH 1. intros [|x r] I H; [contradiction|].
  cbn [passes_over]. destruct (hidden x) eqn:Hx.
  - destruct I as [->|I]; [congruence|].
    destruct r as [|y r']; [contradiction|].
    destruct I as [->|I]; [now left | right; now apply IH].
  - destruct I as [->|I]; [now left | right; now apply IH].
Qed.

Lemma passes_over_visible_prefix pre : forall rest,
  forallb (fun x => negb (hidden x)) pre = true ->
  passes_over (pre ++ rest) = pre ++ passes_over rest.
Proof.
  induction pre as [|x r IH]; intros rest H; [reflexivity|].
  simpl in H. apply andb_true_iff in H as [Hx Hr].
  apply negb_true_iff in Hx. cbn [app passes_over]. rewrite Hx.
  now rewrite IH.
Qed.

Lemma found_instance_inactive e : inactive (found_instance e) = true.
Proof. reflexivity. Qed.

(** X19.  The loop with which [create_config] drops the hidden entries
    of the monitor root removes entries from the list it runs over, so
    the entry behind a removed one is passed over.  For a listing without
    repetitions it leaves every visible entry in, but also a hidden entry
    that directly follows a removed one (of [.git], [.github] the second
    stays and becomes an instance of the template).  Every instance of
    the template is inactive. *)
Theorem template_passes_over_hidden_neighbours (listing : list string) :
  NoDup listing ->
  existing_instances listing = passes_over listing /\
  (forall e, In e listing -> hidden e = false ->
             In e (existing_instances listing)) /\
  (forall pre a b post,
     listing = pre ++ a :: b :: post ->
     forallb (fun x => negb (hidden x)) pre = true ->
     hidden a = true ->
     In b (existing_instances listing)) /\
  (forall l items,
     (i <~ getitem "instances" (create_config listing) ;;
      getitem "opensearch" i)%res = Ok l ->
     iter_items l = Ok items ->
     forallb inactive items = true).
Proof.
  intros ND.
  assert (E : existing_instances listing = passes_over listing).
  { unfold existing_instances.
    apply (prune_run (length listing) listing []); [lia | exact ND]. }
  split; [exact E|]. split; [|split].
  - intros e I H. rewrite E. now apply passes_over_keeps_visible.
  - intros pre a b post -> Hp Ha. rewrite E.
    rewrite (passes_over_visible_prefix _ _ Hp).
    apply in_or_app. right. cbn [passes_over]. rewrite Ha. now left.
  - intros l items. simpl. intros [= <-] [= <-].
    rewrite forallb_app. simpl. rewrite andb_true_r.
    apply forallb_forall. intros x I. apply in_map_iff in I as (e & <- & _).
    apply found_instance_inactive.
Qed.

Lemma template_passes_over_hidden_neighbours_witness :
  existing_instances [".git"; ".github"; "prod"] = [".github"; "prod"].
Proof.
  refine (proj1 (template_passes_over_hidden_neighbours
                   [".git"; ".github"; "prod"] _)).
  repeat constructor; simpl; intuition discriminate.
Defined.

(** ** The loop over the instances *)

Section InstancesFacts.
Context {W : World}.
Variable process : json -> M bool.
Variable send : M unit.

Lemma inactive_step vars instance s :
  inactive instance = true ->
  instance_step process send vars instance s = (Ok vars, s).
Proof.
  unfold inactive, instance_step. destruct vars as [c n].
  rewrite run_bind. cbv [lift].
  destruct (getitem "active" instance) as [v|]; [|discriminate].
  intros H. apply negb_true_iff in H. now rewrite H.
Qed.

Lemma inactive_loop items : forall vars s,
  forallb inactive items = true ->
  fold_M items vars (instance_step process send) s = (Ok vars, s).
Proof.
  induction items as [|x r IH]; intros vars s H; [reflexivity|].
  simpl in H. apply andb_true_iff in H as [Hx Hr].
  simpl. rewrite run_bind, (inactive_step _ _ _ Hx). now apply IH.
Qed.
End InstancesFacts.

(** X20.  When no instance of the configuration is active, the loop of
    [main] over the instances does nothing at all: it runs no work,
    sends no notification, raises nothing and leaves the state as it
    was.  The check [instance_counter == 0] sits behind the [continue] of
    the inactive instances and is not reached, so the error about missing
    instances is not raised.  The template that [create_config] writes is
    such a configuration. *)
Theorem no_active_instance_is_silent {W : World} (process : json -> M bool)
    (send : M unit) (config l : json) (items : list json) (s : state) :
  (i <~ getitem "instances" config ;; getitem "opensearch" i)%res = Ok l ->
  iter_items l = Ok items ->
  forallb inactive items = true ->
  instances_loop process send config s = (Ok (0, false), s).
Proof.
  intros G I H. unfold instances_loop.
  rewrite run_bind. cbv [lift]. rewrite G. rewrite run_bind, I.
  now apply inactive_loop.
Qed.

Lemma no_active_instance_is_silent_witness :
  let s := Demo.boot Demo.offline_tree [] [] in
  instances_loop (fun _ => sync_pass Demo.assume_yes ;; ret true)
    (sync_pass Demo.assume_yes) (create_config [".git"; "prod"]) s
  = (Ok (0, false), s).
Proof.
  apply (no_active_instance_is_silent (W:=Demo.world)
           (fun _ => sync_pass Demo.assume_yes ;; ret true)
           (sync_pass Demo.assume_yes) (create_config [".git"; "prod"])
           (JArr [found_instance "prod";
                  example_instance "example-opensearch-1" "OS1";
                  example_instance "example-opensearch-2" "OS2"])
           [found_instance "prod";
            example_instance "example-opensearch-1" "OS1";
            example_instance "example-opensearch-2" "OS2"]
           (Demo.boot Demo.offline_tree [] [])); reflexivity.
Defined.

(** X21.  The loop over the instances exits on its own account only for
    an active instance whose name contains [rename-me]: whenever a round
    of the loop ends in [SystemExit], either that is the case, or the
    work on the instance or the notification raised it.  The counter of
    the instances is incremented before it is compared with 0, so the
    error about missing instances never fires. *)
Theorem instance_counter_check_is_dead {W : World} (process : json -> M bool)
    (send : M unit) (vars : nat * bool) (instance : json) (s : state) :
  fst (instance_step process send vars instance s) = Raise SystemExit ->
  (exists name, getitem "name" instance = Ok name /\
                py_contains "rename-me" name = Ok true) \/
  fst (process instance s) = Raise SystemExit \/
  (exists s', fst (send s') = Raise SystemExit).
Proof.
  assert (NoExit : forall k v e, getitem k v = Raise e -> e <> SystemExit).
  { intros k v e G. destruct (getitem_error _ _ _ G) as [->|[x ->]];
      discriminate. }
  unfold instance_step. destruct vars as [c n].
  rewrite run_bind. cbv [lift].
  destruct (getitem "active" instance) as [v|e] eqn:Ga.
  2:{ simpl. intros [= ->]. now elim (NoExit _ _ _ Ga). }
  destruct (truthy v); [|discriminate].
  rewrite run_bind.
  destruct (getitem "name" instance) as [name|e] eqn:Gn.
  2:{ simpl. intros [= ->]. now elim (NoExit _ _ _ Gn). }
  rewrite run_bind.
  destruct (py_contains "rename-me" name) as [[|]|e] eqn:P.
  { intros _. left. eauto. }
  2:{ simpl. intros [= ->]. destruct name; discriminate. }
  cbv zeta. rewrite run_bind.
  destruct (process instance s) as [[notified|e] s1] eqn:Pr.
  2:{ simpl. intros [= ->]. right. now left. }
  rewrite run_bind. cbn [Nat.eqb]. cbv [ret]. rewrite run_bind.
  destruct (n || notified)%bool; [|discriminate].
  destruct (send s1) as [[[]|e] s2] eqn:Se; [discriminate|].
  simpl. intros [= ->]. right. right. exists s1. now rewrite Se.
Qed.

Lemma instance_counter_check_is_dead_witness :
  let instance := JObj [("active", JBool true); ("name", JStr "rename-me-1")] in
  (exists name, getitem "name" instance = Ok name /\
                py_contains "rename-me" name = Ok true) \/
  fst (@ret Demo.world bool true (Demo.boot [] [] [])) = Raise SystemExit \/
  (exists s', fst (@ret Demo.world unit tt s') = Raise SystemExit).
Proof.
  apply (instance_counter_check_is_dead (W:=Demo.world)
           (fun _ => ret true) (ret tt) (0, false)
           (JObj [("active", JBool true); ("name", JStr "rename-me-1")])
           (Demo.boot [] [] [])).
  reflexivity.
Defined.

(** ** Timestamps *)

Local Open Scope Z_scope.

Lemma digits_of_enough : forall f n g,
  0 <= n < 2 ^ Z.of_nat (S f) ->
  digits_of (S f + g) n = digits_of (S f) n.
Proof.
  induction f as [|f IH]; intros n g H.
  - simpl. assert (L : (n <? 10) = true) by (apply Z.ltb_lt; simpl in H; lia).
    now rewrite L.
  - change (S (S f) + g)%nat with (S (S f + g)). cbn [digits_of].
    destruct (n <? 10) eqn:L; [reflexivity|].
    apply Z.ltb_ge in L. rewrite IH; [reflexivity|].
    rewrite Nat2Z.inj_succ, Z.pow_succ_r in H by lia.
    split; [apply Z.div_pos; lia|].
    apply Z.div_lt_upper_bound; lia.
Qed.

Lemma digits_small n : 0 <= n < 10 -> digits n = String (digit_char n) "".
Proof.
  intros H. unfold digits. cbn [digits_of].
  assert (L : (n <? 10) = true) by (apply Z.ltb_lt; lia). now rewrite L.
Qed.

Lemma digits_step n :
  10 <= n ->
  digits n = (digits (n / 10) ++ String (digit_char (n mod 10)) "")%string.
Proof.
  intros H. unfold digits at 1. cbn [digits_of].
  assert (L : (n <? 10) = false) by (apply Z.ltb_ge; lia). rewrite L.
  f_equal. unfold digits.
  assert (P : 0 < n / 10) by (apply Z.div_str_pos; lia).
  assert (Lt : Z.log2 (n / 10) < Z.log2 n).
  { apply Z.log2_lt_pow2; [exact P|].
    pose proof (Z.log2_spec n ltac:(lia)) as [_ Hi].
    rewrite Z.pow_succ_r in Hi by apply Z.log2_nonneg.
    apply Z.div_lt_upper_bound; lia. }
  pose proof (Z.log2_nonneg (n / 10)) as N0.
  replace (Z.to_nat (Z.log2 n))
    with (S (Z.to_nat (Z.log2 (n / 10)))
          + (Z.to_nat (Z.log2 n) - S (Z.to_nat (Z.log2 (n / 10)))))%nat by lia.
  apply digits_of_enough.
  rewrite Nat2Z.inj_succ, Z2Nat.id by lia.
  pose proof (Z.log2_spec (n / 10) P). lia.
Qed.

Lemma digit_value_char d : 0 <= d < 10 -> digit_value (digit_char d) = Some d.
Proof.
  intros H. unfold digit_value, digit_char.
  rewrite nat_ascii_embedding by lia.
  replace (Nat.leb 48 (48 + Z.to_nat d)) with true
    by (symmetry; apply Nat.leb_le; lia).
  replace (Nat.leb (48 + Z.to_nat d) 57) with true
    by (symmetry; apply Nat.leb_le; lia).
  simpl. f_equal. lia.
Qed.

Lemma value_of_app s1 : forall s2 acc,
  value_of (s1 ++ s2)%string acc
  = match value_of s1 acc with
    | Some v => value_of s2 v
    | None => None
    end.
Proof.
  induction s1 as [|c r IH]; intros s2 acc; simpl; [reflexivity|].
  destruct (digit_value c); [apply IH | reflexivity].
Qed.

Lemma digits_value : forall n, 0 <= n -> value_of (digits n) 0 = Some n.
Proof.
  apply (Zlt_0_ind (fun n => value_of (digits n) 0 = Some n)).
  intros n IH H. destruct (Z_lt_le_dec n 10) as [Lt|Ge].
  - rewrite digits_small by lia. cbn [value_of].
    rewrite digit_value_char by lia. f_equal.
  - rewrite digits_step by exact Ge. rewrite value_of_app.
    rewrite IH by (split; [apply Z.div_pos; lia | apply Z.div_lt; lia]).
    cbn [value_of]. rewrite digit_value_char by (apply Z.mod_pos_bound; lia).
    f_equal. pose proof (Z.div_mod n 10). lia.
Qed.

Lemma length_append s1 : forall s2,
  String.length (s1 ++ s2)%string = (String.length s1 + String.length s2)%nat.
Proof. induction s1; simpl; auto. Qed.

Lemma substring_prefix s1 : forall s2,
  substring 0 (String.length s1) (s1 ++ s2)%string = s1.
Proof.
  induction s1 as [|c r IH]; intros s2; simpl.
  - now destruct s2.
  - now rewrite IH.
Qed.

Lemma drop_last3_app s a b c :
  drop_last3 (s ++ String a (String b (String c "")))%string = s.
Proof.
  unfold drop_last3. rewrite length_append. simpl String.length.
  replace (String.length s + 3 - 3)%nat with (String.length s) by lia.
  apply substring_prefix.
Qed.

Lemma drop_last3_short s :
  (String.length s <= 3)%nat -> drop_last3 s = "".
Proof.
  intros H. unfold drop_last3.
  replace (String.length s - 3)%nat with 0%nat by lia.
  now destruct s.
Qed.

Lemma append_assoc s1 : forall s2 s3,
  ((s1 ++ s2) ++ s3 = s1 ++ (s2 ++ s3))%string.
Proof. induction s1; intros; simpl; [reflexivity | now f_equal]. Qed.

(** The last three digits of a number with more than three. *)
Lemma digits_thousands n :
  1000 <= n ->
  exists a b c,
    digits n = (digits (n / 1000) ++ String a (String b (String c "")))%string.
Proof.
  intros H.
  assert (H1 : 100 <= n / 10) by (apply Z.div_le_lower_bound; lia).
  assert (H2 : 10 <= n / 10 / 10) by (apply Z.div_le_lower_bound; lia).
  rewrite (digits_step n) by lia.
  rewrite (digits_step (n / 10)) by lia.
  rewrite (digits_step (n / 10 / 10)) by lia.
  rewrite !Z.div_div by lia. change (10 * 10 * 10) with 1000.
  rewrite !append_assoc. simpl. eauto.
Qed.

Lemma digits_length_small n :
  0 <= n < 1000 -> (1 <= String.length (digits n) <= 3)%nat.
Proof.
  intros H. destruct (Z_lt_le_dec n 10) as [L|G].
  { rewrite digits_small by lia. simpl. lia. }
  rewrite digits_step by lia. rewrite length_append. simpl.
  assert (H1 : 0 <= n / 10 < 100).
  { split; [apply Z.div_pos; lia | apply Z.div_lt_upper_bound; lia]. }
  destruct (Z_lt_le_dec (n / 10) 10) as [L|G1].
  { rewrite digits_small by lia. simpl. lia. }
  rewrite digits_step by lia. rewrite length_append. simpl.
  assert (H2 : 0 <= n / 10 / 10 < 10).
  { split; [apply Z.div_pos; lia | apply Z.div_lt_upper_bound; lia]. }
  rewrite digits_small by lia. simpl. lia.
Qed.

Lemma int_of_str_digits n : 0 <= n -> int_of_str (digits n) = Ok n.
Proof.
  intros H. pose proof (digits_value n H) as V.
  destruct (digits n) as [|c r] eqn:D.
  - destruct (Z_lt_le_dec n 10).
    + rewrite digits_small in D by lia. discriminate.
    + rewrite digits_step in D by lia.
      destruct (digits (n / 10)); discriminate.
  - unfold int_of_str. destruct (Ascii.eqb c "-") eqn:E.
    + apply Ascii.eqb_eq in E. subst c. discriminate.
    + now rewrite V.
Qed.

Lemma digits_nonempty n : 0 <= n -> digits n <> "".
Proof.
  intros H D. pose proof (int_of_str_digits n H) as I. rewrite D in I.
  discriminate.
Qed.

Local Close Scope Z_scope.

(** X22.  [timestamp_to_string] takes its argument for a number of
    milliseconds: for an integer of four digits or more it cuts the last
    three digits off the decimal text and hands the number that is left,
    the milliseconds divided by 1000 and rounded towards zero, to
    [datetime.fromtimestamp].  An integer of fewer than four digits leaves
    no number behind, and the call raises [ValueError]; [None] gives a
    dash. *)
Theorem timestamp_to_string_truncates (fromtimestamp : Z -> result string)
    (z : Z) :
  timestamp_to_string fromtimestamp JNull = Ok "-" /\
  timestamp_to_string fromtimestamp (JNum z)
  = if (Z.abs z <? 1000)%Z then Raise ValueError
    else fromtimestamp (Z.quot z 1000).
Proof.
  split; [reflexivity|]. unfold timestamp_to_string, str_of_int.
  destruct (z <? 0)%Z eqn:Neg.
  - apply Z.ltb_lt in Neg.
    destruct (Z.abs z <? 1000)%Z eqn:Small.
    + apply Z.ltb_lt in Small.
      pose proof (digits_length_small (- z) ltac:(lia)) as [Lo Hi].
      unfold drop_last3. simpl String.length.
      destruct (String.length (digits (- z))) as [|[|[|[|k]]]] eqn:Len;
        try lia; simpl; try reflexivity.
      destruct (digits (- z)); reflexivity.
    + apply Z.ltb_ge in Small.
      destruct (digits_thousands (- z) ltac:(lia)) as (a & b & c & D).
      rewrite D.
      change (String "-" (digits (- z / 1000) ++ String a (String b (String c "")))%string)
        with ((String "-" (digits (- z / 1000)))
              ++ String a (String b (String c "")))%string.
      rewrite drop_last3_app. unfold int_of_str. rewrite Ascii.eqb_refl.
      assert (P : (0 <= - z / 1000)%Z) by (apply Z.div_pos; lia).
      pose proof (digits_nonempty _ P) as Ne.
      rewrite (digits_value _ P).
      destruct (digits (- z / 1000)); [congruence|]. simpl. f_equal.
      rewrite <- (Z.opp_involutive z) at 2.
      rewrite Z.quot_opp_l by lia. rewrite Z.quot_div_nonneg by lia.
      reflexivity.
  - apply Z.ltb_ge in Neg.
    destruct (Z.abs z <? 1000)%Z eqn:Small.
    + apply Z.ltb_lt in Small.
      pose proof (digits_length_small z ltac:(lia)) as [Lo Hi].
      now rewrite drop_last3_short by lia.
    + apply Z.ltb_ge in Small.
      destruct (digits_thousands z ltac:(lia)) as (a & b & c & D).
      rewrite D, drop_last3_app.
      rewrite int_of_str_digits by (apply Z.div_pos; lia). simpl.
      now rewrite Z.quot_div_nonneg by lia.
Qed.

(** ** The stages and the server *)

Section Offline.
Context {W : World}.
Variable cfg : settings.

Ltac stage_frame :=
  unfold adopt_remote_only, adopt_one, reconcile_versions, pull_one,
    local_load_monitors, load_dir, clean_folders, clean_dir,
    remove_monitor, store_monitor, makedirs, write_file, remove_file, rmdir,
    local_monitor, remote_monitor, confirm, ask;
  repeat preserves_step.

Lemma adopt_keeps_srv : preserves srv (adopt_remote_only cfg).
Proof. stage_frame. Qed.

Lemma pull_keeps_srv : preserves srv (reconcile_versions cfg).
Proof. stage_frame. Qed.

Lemma pull_keeps_remote : preserves remote_monitors (reconcile_versions cfg).
Proof. stage_frame. Qed.

Lemma adopt_offline : allows (no is_request) (adopt_remote_only cfg).
Proof.
  unfold adopt_remote_only, adopt_one, remote_monitor. allows_auto.
Qed.

Lemma pull_offline : allows (no is_request) (reconcile_versions cfg).
Proof.
  unfold reconcile_versions, pull_one, local_monitor, remote_monitor.
  allows_auto.
Qed.
End Offline.

(** X23.  The two stages that bring the local copy up to date, the
    adoption of remote-only monitors and the pull of newer remote
    versions, work from the remote mapping loaded at the start of the
    pass: neither sends a request to the server, and neither changes the
    server or the remote mapping, whether it returns or raises. *)
Theorem local_stages_send_no_request {W : World} (cfg : settings) (s : state) :
  (srv (snd (adopt_remote_only cfg s)) = srv s /\
   remote_monitors (snd (adopt_remote_only cfg s)) = remote_monitors s /\
   exists evs,
     log (snd (adopt_remote_only cfg s)) = log s ++ evs /\
     forallb (no is_request) evs = true) /\
  (srv (snd (reconcile_versions cfg s)) = srv s /\
   remote_monitors (snd (reconcile_versions cfg s)) = remote_monitors s /\
   exists evs,
     log (snd (reconcile_versions cfg s)) = log s ++ evs /\
     forallb (no is_request) evs = true).
Proof.
  split; (split; [|split]).
  - apply adopt_keeps_srv.
  - unfold adopt_remote_only. apply preserves_bind; [apply preserves_gets|].
    intros r. apply preserves_for_each. intros id. unfold adopt_one, remote_monitor.
    repeat first [preserves_step | apply store_monitor_keeps_remote].
  - apply adopt_offline.
  - apply pull_keeps_srv.
  - apply pull_keeps_remote.
  - apply pull_offline.
Qed.

(** ** An accepted push *)

Lemma store_monitor_srv {W : World} cfg id c md :
  preserves srv (store_monitor cfg id c md).
Proof. by_frame. Qed.

Section Push.
Context {W : World}.
Variable cfg : settings.
Hypothesis wet : dryrun cfg = false.

(** [update_monitor] when the server accepts the [PUT] and answers the
    [GET]. *)
Lemma update_monitor_run id m n c srv1 r r' s :
  raw_name m = Ok n ->
  getitem "monitor" m = Ok c ->
  http_put (srv s) (monitor_uri id) c = (srv1, Ok tt) ->
  http_get srv1 (monitor_uri id) = Ok r ->
  reset_last_update_time r = Ok r' ->
  update_monitor cfg id m s
  = (Ok (id, r'),
     set_log (log s ++ [EPrint (UpdatingMonitor n id);
                        EPut (monitor_uri id) c;
                        EGet (monitor_uri id)])
       (set_srv srv1 s)).
Proof.
  intros N G P Ge R. unfold update_monitor, put, get_monitor_contents, get.
  rewrite wet. cbv [bind gets lift emit modify ret].
  rewrite N, G. cbn [srv set_log]. rewrite P. cbn [srv set_log set_srv].
  rewrite Ge, R. cbn [log set_log set_srv]. rewrite <- !app_assoc.
  reflexivity.
Qed.

(** An accepted push, step by step. *)
Lemma push_one_accepted id difference m n c srv1 r r' n' s :
  Dict.lookup id (local_monitors s) = Some m ->
  raw_name m = Ok n ->
  getitem "monitor" m = Ok c ->
  fst (confirm cfg MainHelper push_question "monitor_update"
         (set_log (log s ++ [EPrint (FoundLocalChanges n)]) s)) = Ok true ->
  http_put (srv s) (monitor_uri id) c = (srv1, Ok tt) ->
  http_get srv1 (monitor_uri id) = Ok r ->
  reset_last_update_time r = Ok r' ->
  monitor_name r' = Ok n' ->
  plain_name n' = true ->
  fs_isfile (fs s) n' = false ->
  exists s',
    push_one cfg (id, difference) s = (Ok tt, s') /\
    In (EPut (monitor_uri id) c) (log s') /\
    srv s' = srv1 /\
    fs_read (fs s') n' "monitor.json" = Ok (Some r') /\
    (forall d, d <> n' -> Dict.lookup d (fs s') = Dict.lookup d (fs s)) /\
    local_monitors s' = local_monitors s.
Proof.
  intros L N G C P Ge R N' Pn Fn.
  unfold push_one.
  rewrite run_bind, (local_monitor_run id m s L).
  rewrite run_bind, lift_run, N.
  rewrite run_bind, emit_run, run_bind.
  set (s0 := set_log (log s ++ [EPrint (FoundLocalChanges n)]) s) in *.
  pose proof (confirm_keeps_fs cfg MainHelper push_question "monitor_update" s0) as Kf.
  pose proof (confirm_keeps_srv cfg MainHelper push_question "monitor_update" s0) as Ks.
  pose proof (confirm_keeps_local cfg MainHelper push_question "monitor_update" s0) as Kl.
  destruct (confirm cfg MainHelper push_question "monitor_update" s0)
    as [[b|e] s1]; simpl in C, Kf, Ks, Kl; [|discriminate].
  injection C as ->.
  assert (L1 : Dict.lookup id (local_monitors s1) = Some m)
    by (rewrite Kl; exact L).
  rewrite run_bind, (local_monitor_run id m s1 L1), run_bind.
  assert (P1 : http_put (srv s1) (monitor_uri id) c = (srv1, Ok tt))
    by (rewrite Ks; exact P).
  rewrite (update_monitor_run id m n c srv1 r r' s1 N G P1 Ge R).
  set (s2 := set_log _ (set_srv srv1 s1)).
  assert (F2 : fs_isfile (fs s2) n' = false) by (unfold s2; simpl; now rewrite Kf).
  destruct (store_monitor_run cfg wet (JStr id) r' (JObj []) n' s2 N' Pn F2)
    as (s3 & E3 & L3 & O3 & Loc3 & _).
  rewrite run_bind, E3.
  assert (Lm : Dict.lookup id (local_monitors s3) = Some m).
  { rewrite Loc3. unfold s2. simpl. exact L1. }
  rewrite run_bind, (local_monitor_run id m s3 Lm).
  rewrite run_bind, lift_run, N, ret_run.
  destruct (store_monitor_events cfg (JStr id) r' (JObj []) s2) as (evs & Lg & _).
  rewrite E3 in Lg. simpl in Lg.
  pose proof (store_monitor_srv cfg (JStr id) r' (JObj []) s2) as Sv.
  rewrite E3 in Sv. simpl in Sv.
  exists s3. split; [reflexivity|]. split; [|split; [|split; [|split]]].
  - rewrite Lg. apply in_or_app. left. unfold s2. simpl.
    apply in_or_app. right. right. now left.
  - rewrite Sv. reflexivity.
  - rewrite (fs_read_dir _ _ _ _ Pn L3). simpl. now rewrite lookup_insert_eq.
  - intros d Hd. rewrite O3 by exact Hd. unfold s2. simpl. now rewrite Kf.
  - rewrite Loc3. unfold s2. simpl. exact Kl.
Qed.
End Push.

(** X24.  When the operator accepts a push outside a dry run and the
    server takes the [PUT] and answers the [GET] that follows, [main]
    sends the [monitor] field of the local record as the body of the
    [PUT], and then stores what the server returned (with
    [last_update_time] set to 0) in the directory named after the
    returned monitor.  The record in [local.monitors] is not replaced: in
    memory the pass goes on with the local edit. *)
Theorem accepted_push_stores_server_copy {W : World} (cfg : settings)
    (s : state) (id difference : string) (m c r r' : json) (n : json)
    (n' : string) (srv1 : server) :
  dryrun cfg = false ->
  Dict.lookup id (local_monitors s) = Some m ->
  raw_name m = Ok n ->
  getitem "monitor" m = Ok c ->
  fst (confirm cfg MainHelper push_question "monitor_update"
         (set_log (log s ++ [EPrint (FoundLocalChanges n)]) s)) = Ok true ->
  http_put (srv s) (monitor_uri id) c = (srv1, Ok tt) ->
  http_get srv1 (monitor_uri id) = Ok r ->
  reset_last_update_time r = Ok r' ->
  monitor_name r' = Ok n' ->
  plain_name n' = true ->
  fs_isfile (fs s) n' = false ->
  let s' := snd (push_one cfg (id, difference) s) in
  fst (push_one cfg (id, difference) s) = Ok tt /\
  In (EPut (monitor_uri id) c) (log s') /\
  srv s' = srv1 /\
  fs_read (fs s') n' "monitor.json" = Ok (Some r') /\
  (forall d, d <> n' -> Dict.lookup d (fs s') = Dict.lookup d (fs s)) /\
  local_monitors s' = local_monitors s.
Proof.
  intros D L N G C P Ge R N' Pn Fn. cbv zeta.
  destruct (push_one_accepted cfg D id difference m n c srv1 r r' n' s
              L N G C P Ge R N' Pn Fn) as (s' & E & H).
  rewrite E. split; [reflexivity | exact H].
Qed.

Lemma accepted_push_stores_server_copy_witness :
  let c := JObj [("name", JStr "Alert-D"); ("enabled", JBool false);
                 ("last_update_time", JNum 0)] in
  let r' := JObj [("_id", JStr "M4"); ("_version", JNum 6); ("monitor", c)] in
  let s' := snd (@push_one Scenario.keeper Demo.assume_yes ("M4", "{}")
                   Scenario.edited_loaded) in
  fst (@push_one Scenario.keeper Demo.assume_yes ("M4", "{}")
         Scenario.edited_loaded) = Ok tt /\
  In (EPut (monitor_uri "M4") c) (log s') /\
  srv s' = [(monitor_uri "M4", c)] /\
  fs_read (fs s') "Alert-D" "monitor.json" = Ok (Some r') /\
  (forall d, d <> "Alert-D" ->
     Dict.lookup d (fs s') = Dict.lookup d (fs Scenario.edited_loaded)) /\
  local_monitors s' = local_monitors Scenario.edited_loaded.
Proof.
  apply (accepted_push_stores_server_copy (W:=Scenario.keeper)
           Demo.assume_yes Scenario.edited_loaded "M4" "{}"
           (Demo.edited "M4" "Alert-D" 5)
           (JObj [("name", JStr "Alert-D"); ("enabled", JBool false);
                  ("last_update_time", JNum 0)])
           (JObj [("_id", JStr "M4"); ("_version", JNum 6);
                  ("monitor",
                   JObj [("name", JStr "Alert-D"); ("enabled", JBool false);
                         ("last_update_time", JNum 0)])])
           (JObj [("_id", JStr "M4"); ("_version", JNum 6);
                  ("monitor",
                   JObj [("name", JStr "Alert-D"); ("enabled", JBool false);
                         ("last_update_time", JNum 0)])])
           (JStr "Alert-D") "Alert-D"
           [(monitor_uri "M4",
             JObj [("name", JStr "Alert-D"); ("enabled", JBool false);
                   ("last_update_time", JNum 0)])]);
    reflexivity.
Defined.

(** ** The metadata of a monitor *)

(** X25.  Outside a dry run, [Metadata.read_json] on a monitor whose
    directory exists never overwrites a [metadata.json] that is there: it
    loads that file into [monitor_metadata] under the monitor's [_id] and
    leaves the disk as it is.  Only when the file is missing does it have
    [create_json] write the template (the monitor's [_id], placeholder
    description and author, the attributes and references of the
    configuration or the defaults), and then it loads exactly what was
    written; no other file or directory is touched. *)
Theorem read_json_keeps_existing_metadata {W : World} (cfg : settings)
    (config : json) (monitor_metadata : Dict.t json) (m : json)
    (n i : string) (fl : Dict.t content) (s : state) :
  dryrun cfg = false ->
  monitor_name m = Ok n ->
  plain_name n = true ->
  Dict.lookup n (fs s) = Some (Dir fl) ->
  getitem "_id" m = Ok (JStr i) ->
  (forall md, Dict.lookup "metadata.json" fl = Some (Some md) ->
     read_json cfg config monitor_metadata m s
     = (Ok (Dict.insert i md monitor_metadata, true), s)) /\
  (forall data, Dict.lookup "metadata.json" fl = None ->
     metadata_template config m = Ok data ->
     fst (read_json cfg config monitor_metadata m s)
     = Ok (Dict.insert i data monitor_metadata, true) /\
     Dict.lookup n (fs (snd (read_json cfg config monitor_metadata m s)))
     = Some (Dir (Dict.insert "metadata.json" (Some data) fl)) /\
     forall d, d <> n ->
       Dict.lookup d (fs (snd (read_json cfg config monitor_metadata m s)))
       = Dict.lookup d (fs s)).
Proof.
  intros D N P L G. split.
  - intros md Lm. unfold read_json.
    rewrite run_bind, lift_run, N, D.
    rewrite run_bind, gets_run. unfold fs_exists.
    rewrite (fs_read_dir _ _ _ _ P L), Lm. cbn [negb].
    rewrite run_bind, ret_run, run_bind, gets_run.
    rewrite (fs_read_dir _ _ _ _ P L), Lm.
    rewrite run_bind, lift_run, G, run_bind. reflexivity.
  - intros data Lm T.
    destruct (write_file_run n "metadata.json" data fl s P L)
      as (s1 & E1 & L1 & O1 & _).
    assert (R : read_json cfg config monitor_metadata m s
                = (Ok (Dict.insert i data monitor_metadata, true), s1)).
    { unfold read_json.
      rewrite run_bind, lift_run, N, D.
      rewrite run_bind, gets_run. unfold fs_exists at 1.
      rewrite (fs_read_dir _ _ _ _ P L), Lm. cbn [negb].
      rewrite run_bind, run_bind. unfold create_json. rewrite D.
      rewrite run_bind, lift_run, N, run_bind, gets_run.
      unfold fs_exists. rewrite (fs_read_dir _ _ _ _ P L), Lm. cbn [andb negb].
      rewrite run_bind, lift_run, T.
      rewrite run_bind, E1, ret_run, ret_run, run_bind, gets_run.
      rewrite (fs_read_dir _ _ _ _ P L1), lookup_insert_eq.
      rewrite run_bind, lift_run, G, run_bind. reflexivity. }
    rewrite R. cbn [fst snd]. auto.
Qed.

Lemma read_json_keeps_existing_metadata_witness :
  let s := Demo.boot Demo.offline_tree [] [] in
  let data := JObj [("id", JStr "M2");
                    ("description", JStr "No description");
                    ("author", JStr "Unknown author");
                    ("attributes", JObj default_attributes);
                    ("references", default_references)] in
  fst (read_json Demo.interactive (JObj []) [] (Demo.monitor "M2" "M2" 1) s)
  = Ok ([("M2", data)], true) /\
  Dict.lookup "M2"
    (fs (snd (read_json Demo.interactive (JObj []) []
                (Demo.monitor "M2" "M2" 1) s)))
  = Some (Dir [("monitor.json", Some (Demo.monitor "M2" "M2" 1));
               ("metadata.json", Some data)]) /\
  forall d, d <> "M2" ->
    Dict.lookup d
      (fs (snd (read_json Demo.interactive (JObj []) []
                  (Demo.monitor "M2" "M2" 1) s)))
    = Dict.lookup d (fs s).
Proof.
  apply (proj2 (read_json_keeps_existing_metadata (W:=Demo.world)
                  Demo.interactive (JObj []) [] (Demo.monitor "M2" "M2" 1)
                  "M2" "M2"
                  [("monitor.json", Some (Demo.monitor "M2" "M2" 1))]
                  (Demo.boot Demo.offline_tree [] [])
                  eq_refl eq_refl eq_refl eq_refl eq_refl));
    reflexivity.
Defined.

(** ** Removing a monitor directory *)

Lemma remove_managed_foreign (fl : Dict.t content) :
  Dict.remove "README.md"
    (Dict.remove "metadata.json" (Dict.remove "monitor.json" fl))
  = foreign_files fl.
Proof.
  unfold Dict.remove, foreign_files. rewrite !filter_filter_and.
  apply filter_ext. intros [f c]. cbn [fst].
  unfold one_of, managed_files. cbn [existsb].
  rewrite (String.eqb_sym f "monitor.json"),
    (String.eqb_sym f "metadata.json"), (String.eqb_sym f "README.md").
  destruct (String.eqb "monitor.json" f), (String.eqb "metadata.json" f),
    (String.eqb "README.md" f); reflexivity.
Qed.

Lemma foreign_files_left (fl : Dict.t content) :
  forallb (fun f => one_of f managed_files) (Dict.keys fl) = false ->
  foreign_files fl <> [].
Proof.
  unfold foreign_files, Dict.keys.
  induction fl as [|[f c] r IH]; cbn [map forallb filter fst];
    [discriminate|].
  destruct (one_of f managed_files); cbn [negb andb]; [exact IH|].
  discriminate.
Qed.

Lemma rmdir_missing {W : World} n s :
  plain_name n = true ->
  Dict.lookup n (fs s) = None ->
  rmdir n s = (Raise FileNotFoundError, s).
Proof.
  intros P L. unfold rmdir, fs_rmdir, fs_files, resolve.
  cbv [bind gets lift modify emit ret rbind]. now rewrite P, L.
Qed.

Lemma remove_file_nowhere {W : World} n file s :
  plain_name n = true ->
  Dict.lookup n (fs s) = None ->
  try_except (remove_file n file) is_FileNotFoundError (ret tt) s
  = (Ok tt, s).
Proof.
  intros P L. unfold try_except, remove_file, fs_remove, fs_files, resolve.
  cbv [bind gets lift modify emit ret rbind]. now rewrite P, L.
Qed.

(** X26.  Outside a dry run, [remove_monitor] is not all-or-nothing.  On
    a directory that holds a file other than [monitor.json],
    [metadata.json] and [README.md], it removes those three and then
    raises [OSError] at [rmdir]: the directory stays, with exactly the
    other files in it, and no other directory is touched.  On a name
    for which there is no directory it raises [FileNotFoundError] (the
    three removals swallow theirs, [rmdir] does not) and changes
    nothing. *)
Theorem remove_monitor_leaves_foreign_files {W : World} (cfg : settings)
    (n : string) (s : state) :
  dryrun cfg = false ->
  plain_name n = true ->
  (forall fl,
     Dict.lookup n (fs s) = Some (Dir fl) ->
     forallb (fun f => one_of f managed_files) (Dict.keys fl) = false ->
     fst (remove_monitor cfg (JStr n) s) = Raise OSError /\
     Dict.lookup n (fs (snd (remove_monitor cfg (JStr n) s)))
     = Some (Dir (foreign_files fl)) /\
     forall x, x <> n ->
       Dict.lookup x (fs (snd (remove_monitor cfg (JStr n) s)))
       = Dict.lookup x (fs s)) /\
  (Dict.lookup n (fs s) = None ->
   remove_monitor cfg (JStr n) s = (Raise FileNotFoundError, s)).
Proof.
  intros D P. split.
  - intros fl L F.
    destruct (try_remove_file_run n "monitor.json" fl s P L)
      as (s1 & E1 & L1 & O1 & _).
    destruct (try_remove_file_run n "metadata.json" _ s1 P L1)
      as (s2 & E2 & L2 & O2 & _).
    destruct (try_remove_file_run n "README.md" _ s2 P L2)
      as (s3 & E3 & L3 & O3 & _).
    rewrite remove_managed_foreign in L3.
    assert (R : remove_monitor cfg (JStr n) s = (Raise OSError, s3)).
    { unfold remove_monitor. rewrite D.
      rewrite run_bind. cbv [lift as_str]. rewrite run_bind.
      unfold managed_files. cbn [for_each].
      rewrite run_bind, E1, run_bind, E2, run_bind, E3.
      cbv [ret]. unfold rmdir, fs_rmdir, fs_files, resolve.
      cbv [bind gets lift modify emit rbind]. rewrite P, L3.
      destruct (foreign_files fl) eqn:Fo; [|reflexivity].
      now apply foreign_files_left in F. }
    rewrite R. cbn [fst snd]. split; [reflexivity|]. split; [exact L3|].
    intros x N. now rewrite (O3 x N), (O2 x N), (O1 x N).
  - intros L. unfold remove_monitor. rewrite D.
    rewrite run_bind. cbv [lift as_str]. rewrite run_bind.
    unfold managed_files. cbn [for_each].
    rewrite run_bind, (remove_file_nowhere n _ s P L).
    rewrite run_bind, (remove_file_nowhere n _ s P L).
    rewrite run_bind, (remove_file_nowhere n _ s P L).
    cbv [ret]. now apply rmdir_missing.
Qed.

Lemma remove_monitor_leaves_foreign_files_witness :
  let s := Demo.boot Scenario.annotated_tree [] [] in
  fst (remove_monitor Demo.interactive (JStr "M2") s) = Raise OSError /\
  Dict.lookup "M2" (fs (snd (remove_monitor Demo.interactive (JStr "M2") s)))
  = Some (Dir [("notes.txt", None)]) /\
  forall x, x <> "M2" ->
    Dict.lookup x (fs (snd (remove_monitor Demo.interactive (JStr "M2") s)))
    = Dict.lookup x (fs s).
Proof.
  apply (proj1 (remove_monitor_leaves_foreign_files (W:=Demo.world)
                  Demo.interactive "M2"
                  (Demo.boot Scenario.annotated_tree [] [])
                  eq_refl eq_refl)
           [("monitor.json", Some (Demo.monitor "M2" "M2" 1));
            ("notes.txt", None)]);
    reflexivity.
Defined.

(** ** Reading the configuration *)

Lemma check_items_name (d : Dict.t json) (v : json) :
  check_items d = Ok tt ->
  Dict.lookup "name" d = Some v ->
  py_pathsafe v = Ok true.
Proof.
  induction d as [|[k x] r IH]; cbn [check_items Dict.lookup];
    [discriminate|].
  rewrite (String.eqb_sym "name" k).
  destruct (String.eqb k "name"); [|exact IH].
  intros C [= <-].
  destruct (py_pathsafe x) as [[|]|]; [reflexivity | discriminate C ..].
Qed.

Lemma check_instances_name (l : list json) (instance name : json) :
  check_instances l = Ok tt ->
  In instance l ->
  getitem "name" instance = Ok name ->
  py_pathsafe name = Ok true.
Proof.
  induction l as [|i r IH]; cbn [check_instances In]; [tauto|].
  destruct (check_instance i) as [[]|e] eqn:C; [|discriminate].
  cbn [rbind]. intros Cr [<-|I] G.
  - destruct i; try discriminate. cbn [check_instance] in C.
    cbn [getitem] in G.
    destruct (Dict.lookup "name" d) as [v|] eqn:L; [|discriminate].
    injection G as <-. exact (check_items_name d v C L).
  - exact (IH Cr I G).
Qed.

Lemma resolve_webhook_dict getenv (d : Dict.t json) (g : json) :
  resolve_webhook getenv (JObj d) = Ok g ->
  g = JObj d \/
  exists value, g = JObj (Dict.insert "slack webhook" (JStr value) d).
Proof.
  unfold resolve_webhook. cbn [getitem].
  destruct (Dict.lookup "slack webhook" d) as [w|]; [|discriminate].
  cbn [rbind]. destruct (truthy w); [|intros [= <-]; now left].
  destruct w; try discriminate.
  destruct (negb (String.eqb (substring 0 8 s) "https://"));
    [|intros [= <-]; now left].
  destruct (getenv (upper s)) as [value|]; [|discriminate].
  cbn [setitem]. intros [= <-]. right. eauto.
Qed.

(** X27.  [read_config] returns a configuration only when the
    configuration file exists and parses, and it leaves that file as it
    is.  In the configuration it returns, [global] carries the monitor
    root under [monitor root path], the instances are those of the file,
    and [pathsafe] answers [True] for the [name] of every instance that
    has one.  For a name that is a string this means none of the nine
    unsafe characters and no leading space; the name need not be a
    string, though: [pathsafe] lets a list such as [[]] through, and so
    does [read_config]. *)
Theorem read_config_returns_safe_names (getenv : string -> option string)
    (monitor_root : string) (file : option content) (listing : list string)
    (c : json) :
  fst (read_config getenv monitor_root file listing) = Ok c ->
  (exists config,
     file = Some (Some config) /\
     getitem "instances" c = getitem "instances" config) /\
  snd (read_config getenv monitor_root file listing) = file /\
  (exists g, getitem "global" c = Ok g /\
             getitem "monitor root path" g = Ok (JStr monitor_root)) /\
  (exists l instances,
     (i <~ getitem "instances" c ;; getitem "opensearch" i)%res = Ok l /\
     py_iter l = Ok instances /\
     forall instance name,
       In instance instances ->
       getitem "name" instance = Ok name ->
       py_pathsafe name = Ok true /\
       forall n, name = JStr n -> pathsafe n = true).
Proof.
  destruct file as [[config|]|]; cbn [read_config fst snd]; try discriminate.
  unfold parsed_config.
  destruct (getitem "global" config) as [g|] eqn:G; [|discriminate].
  cbn [rbind].
  destruct g as [| | | | |gd]; try discriminate. cbn [setitem rbind].
  destruct (resolve_webhook getenv
              (JObj (Dict.insert "monitor root path" (JStr monitor_root) gd)))
    as [g'|] eqn:R; [|discriminate].
  cbn [rbind].
  destruct config as [| | | | |cd]; try discriminate. cbn [setitem rbind].
  destruct (getitem "instances" (JObj (Dict.insert "global" g' cd)))
    as [i|] eqn:I; [|discriminate].
  cbn [rbind].
  destruct (getitem "opensearch" i) as [l|] eqn:O; [|discriminate].
  cbn [rbind].
  destruct (py_iter l) as [instances|] eqn:Y; [|discriminate].
  cbn [rbind].
  destruct (check_instances instances) as [[]|] eqn:C; [|discriminate].
  cbn [rbind]. intros [= <-].
  assert (Ii : getitem "instances" (JObj (Dict.insert "global" g' cd))
               = getitem "instances" (JObj cd)).
  { cbn [getitem]. rewrite lookup_insert_neq by discriminate. reflexivity. }
  split; [eexists; split; [reflexivity | exact Ii]|].
  split; [reflexivity|]. split.
  - exists g'. split; [cbn [getitem]; now rewrite lookup_insert_eq|].
    apply resolve_webhook_dict in R as [->|[value ->]]; cbn [getitem].
    + now rewrite lookup_insert_eq.
    + rewrite lookup_insert_neq by discriminate.
      now rewrite lookup_insert_eq.
  - exists l, instances. rewrite I. cbn [rbind].
    split; [exact O|]. split; [exact Y|].
    intros instance name In_ Gn.
    pose proof (check_instances_name _ _ _ C In_ Gn) as P.
    split; [exact P|]. intros n ->. now injection P.
Qed.

Lemma read_config_returns_safe_names_witness :
  let config :=
    JObj [("global", JObj [("slack webhook", JStr "hooks")]);
          ("instances",
           JObj [("opensearch",
                  JArr [JObj [("active", JBool true);
                              ("name", JStr "prod")]])])] in
  let getenv := fun v => if String.eqb v "HOOKS"
                         then Some "https://hooks.example/1"%string
                         else None in
  let c := JObj [("global",
                  JObj [("slack webhook", JStr "https://hooks.example/1");
                        ("monitor root path", JStr "/srv/monitors/")]);
                 ("instances",
                  JObj [("opensearch",
                         JArr [JObj [("active", JBool true);
                                     ("name", JStr "prod")]])])] in
  fst (read_config getenv "/srv/monitors/" (Some (Some config)) []) = Ok c /\
  exists l instances,
    (i <~ getitem "instances" c ;; getitem "opensearch" i)%res = Ok l /\
    py_iter l = Ok instances /\
    forall instance name,
      In instance instances ->
      getitem "name" instance = Ok name ->
      py_pathsafe name = Ok true /\
      forall n, name = JStr n -> pathsafe n = true.
Proof.
  split; [reflexivity|].
  apply (proj2 (proj2 (proj2
    (read_config_returns_safe_names
       (fun v => if String.eqb v "HOOKS"
                 then Some "https://hooks.example/1"%string else None)
       "/srv/monitors/"
       (Some (Some
          (JObj [("global", JObj [("slack webhook", JStr "hooks")]);
                 ("instances",
                  JObj [("opensearch",
                         JArr [JObj [("active", JBool true);
                                     ("name", JStr "prod")]])])])))
       [] _ eq_refl)))).
Defined.

Lemma check_instances_app (a b : list json) :
  check_instances (a ++ b)
  = (u <~ check_instances a ;; check_instances b)%res.
Proof.
  induction a as [|i r IH]; cbn [app check_instances rbind]; [reflexivity|].
  destruct (check_instance i) as [[]|e]; cbn [rbind]; [exact IH|reflexivity].
Qed.

Lemma check_found_instances (l : list string) :
  check_instances (map found_instance l)
  = if forallb pathsafe l then Ok tt else Raise SystemExit.
Proof.
  induction l as [|e r IH]; [reflexivity|].
  cbn [map check_instances forallb].
  unfold found_instance at 1. cbn [check_instance check_items].
  cbn [String.eqb Ascii.eqb Bool.eqb py_pathsafe rbind].
  destruct (pathsafe e); cbn [andb rbind]; [exact IH | reflexivity].
Qed.

(** X28.  The first run without a configuration file writes the template
    of [create_config] and exits.  The next run reads that template back:
    [read_config] accepts it, with the instances as they were written,
    exactly when every folder of the monitor root that became an instance
    has a name that [pathsafe] accepts.  A folder whose name has, say, a
    colon or a leading space yields a template that the program itself
    turns down with an exit. *)
Theorem template_read_back (getenv : string -> option string)
    (monitor_root : string) (listing listing' : list string) :
  let first := read_config getenv monitor_root None listing in
  let second := read_config getenv monitor_root (snd first) listing' in
  fst first = Raise SystemExit /\
  snd first = Some (Some (create_config listing)) /\
  snd second = snd first /\
  if forallb pathsafe (existing_instances listing)
  then exists c,
         fst second = Ok c /\
         getitem "instances" c = getitem "instances" (create_config listing)
  else fst second = Raise SystemExit.
Proof.
  cbv zeta. cbn [read_config fst snd].
  split; [reflexivity|]. split; [reflexivity|]. split; [reflexivity|].
  unfold parsed_config, create_config.
  cbn [getitem Dict.lookup String.eqb Ascii.eqb Bool.eqb rbind setitem
       Dict.insert resolve_webhook truthy negb py_iter].
  rewrite check_instances_app, check_found_instances.
  destruct (forallb pathsafe (existing_instances listing));
    cbn [rbind]; [|reflexivity].
  eexists. split; reflexivity.
Qed.

(** ** Validating the Slack actions *)

Lemma slack_actions_app errs name a : forall b,
  Validate.slack_actions errs name (a ++ b)
  = match Validate.slack_actions errs name a with
    | Ok None => Validate.slack_actions errs name b
    | other => other
    end.
Proof.
  induction a as [|x r IH]; intros b; cbn [app Validate.slack_actions];
    [reflexivity|].
  destruct (Validate.blank "subject_template" x) as [[|]|e]; cbn [rbind].
  - destruct (Validate.record name Validate.subject_message errs);
      reflexivity.
  - destruct (Validate.blank "message_template" x) as [[|]|e'];
      cbn [rbind]; [reflexivity | apply IH | reflexivity].
  - reflexivity.
Qed.

Lemma slack_actions_complete errs name pre :
  forallb Validate.complete pre = true ->
  Validate.slack_actions errs name pre = Ok None.
Proof.
  induction pre as [|x r IH]; cbn [forallb Validate.slack_actions];
    [reflexivity|].
  intros H. apply andb_true_iff in H as [C Hr]. unfold Validate.complete in C.
  destruct (Validate.blank "subject_template" x) as [[|]|]; try discriminate.
  destruct (Validate.blank "message_template" x) as [[|]|]; try discriminate.
  cbn [rbind]. exact (IH Hr).
Qed.

Lemma slack_loop_concat errs name ts actss :
  Forall2 (fun t acts => Validate.gather t = Ok acts) ts actss ->
  Validate.slack_loop errs name ts
  = match Validate.slack_actions errs name (concat actss) with
    | Ok (Some out) => Ok out
    | Ok None => Ok (errs, (true, "[green]Pass[/green]"%string))
    | Raise e => Raise e
    end.
Proof.
  induction 1 as [|t acts ts actss G F IH];
    cbn [Validate.slack_loop concat]; [reflexivity|].
  rewrite G. cbn [rbind]. rewrite slack_actions_app.
  destruct (Validate.slack_actions errs name acts) as [[out|]|e];
    cbn [rbind]; [reflexivity | exact IH | reflexivity].
Qed.

(** X29.  [Validate.slack] looks at every action of every trigger, in
    order, and the first action with an empty subject or message decides.
    When all actions have a subject and a message, the verdict is [Pass]
    and no error is recorded.  An empty subject gives [Fail] and records
    [Slack subject missing]; an empty message behind a subject gives
    [Fail] as well, but records nothing: the list of errors of the
    monitor says nothing about why. *)
Theorem slack_fails_silently_on_blank_message (errs : Validate.errors)
    (monitor id m name : json) (ts : list json) (actss : list (list json)) :
  getitem "_id" monitor = Ok id ->
  truthy id = true ->
  getitem "monitor" monitor = Ok m ->
  getitem "name" m = Ok name ->
  truthy name = true ->
  getitem "triggers" m = Ok (JArr ts) ->
  ts <> [] ->
  Forall2 (fun t acts => Validate.gather t = Ok acts) ts actss ->
  (forallb Validate.complete (concat actss) = true ->
   Validate.slack errs monitor = (errs, Ok (true, "[green]Pass[/green]"%string)))
  /\
  (forall pre a post,
     concat actss = pre ++ a :: post ->
     forallb Validate.complete pre = true ->
     Validate.blank "subject_template" a = Ok false ->
     Validate.blank "message_template" a = Ok true ->
     Validate.slack errs monitor = (errs, Ok (false, "[red]Fail[/red]"%string)))
  /\
  (forall pre a post k l,
     concat actss = pre ++ a :: post ->
     forallb Validate.complete pre = true ->
     Validate.blank "subject_template" a = Ok true ->
     name = JStr k ->
     Dict.lookup k errs = Some l ->
     Validate.slack errs monitor
     = (Dict.insert k (l ++ [Validate.subject_message]) errs,
        Ok (false, "[red]Fail[/red]"%string))).
Proof.
  intros I Ti M N Tn T Ne F.
  assert (Tt : truthy (JArr ts) = true)
    by (destruct ts; [congruence | reflexivity]).
  assert (E : Validate.slack errs monitor
              = match Validate.slack_loop errs name ts with
                | Ok (errs', v) => (errs', Ok v)
                | Raise e => (errs, Raise e)
                end).
  { unfold Validate.slack. rewrite I. cbn [rbind]. rewrite Ti, M.
    cbn [rbind]. rewrite N. cbn [rbind]. rewrite Tn. cbn [negb].
    rewrite T. cbn [rbind]. rewrite Tt. reflexivity. }
  rewrite E, (slack_loop_concat errs name ts actss F).
  split; [|split].
  - intros C. now rewrite (slack_actions_complete errs name _ C).
  - intros pre a post -> C S Me. rewrite slack_actions_app.
    rewrite (slack_actions_complete errs name _ C).
    cbn [Validate.slack_actions]. rewrite S. cbn [rbind]. rewrite Me.
    reflexivity.
  - intros pre a post k l -> C S -> L. rewrite slack_actions_app.
    rewrite (slack_actions_complete errs (JStr k) _ C).
    cbn [Validate.slack_actions]. rewrite S. cbn [rbind].
    unfold Validate.record. cbn [as_key rbind]. rewrite L. reflexivity.
Qed.

Lemma slack_fails_silently_on_blank_message_witness :
  Validate.slack [("Alert-F", [])] Scenario.half_written
  = ([("Alert-F", [])], Ok (false, "[red]Fail[/red]"%string)).
Proof.
  apply (proj1 (proj2
    (slack_fails_silently_on_blank_message [("Alert-F", [])]
       Scenario.half_written (JStr "M6") Scenario.half_written_content
       (JStr "Alert-F")
       [JObj [("query_level_trigger",
               JObj [("actions",
                      JArr [Scenario.slack_action "Disk" "Disk is full";
                            Scenario.slack_action "Disk again" ""])])]]
       [[Scenario.slack_action "Disk" "Disk is full";
         Scenario.slack_action "Disk again" ""]]
       eq_refl eq_refl eq_refl eq_refl eq_refl eq_refl ltac:(discriminate)
       ltac:(constructor; [reflexivity | constructor])))
    [Scenario.slack_action "Disk" "Disk is full"]
    (Scenario.slack_action "Disk again" "") []
    eq_refl eq_refl eq_refl eq_refl).
Defined.

(** X30.  [Validate.slack] tests [monitor["_id"]] for truth where the
    other validators test [monitor.get("_id") != False].  A record that a
    user wrote by hand carries the empty [_id] that marks it as new: the
    other validators go on with its [monitor] field, but [slack] looks
    for the name in the record itself and raises [KeyError] for [name],
    recording nothing. *)
Theorem slack_raises_on_new_monitor (errs : Validate.errors)
    (monitor m : json) :
  getitem "_id" monitor = Ok (JStr "") ->
  getitem "monitor" monitor = Ok m ->
  getitem "name" monitor = Raise (KeyError "name") ->
  Validate.unwrap monitor = Ok m /\
  Validate.slack errs monitor = (errs, Raise (KeyError "name")).
Proof.
  intros I M N. split.
  - destruct monitor as [| | | | |d]; try discriminate.
    cbn [getitem] in I. unfold Validate.unwrap.
    destruct (Dict.lookup "_id" d) as [v|]; [|discriminate].
    injection I as ->. cbn [py_eq negb]. exact M.
  - unfold Validate.slack. rewrite I. cbn [rbind truthy String.eqb negb].
    rewrite N. reflexivity.
Qed.

Lemma slack_raises_on_new_monitor_witness :
  Validate.unwrap Scenario.handwritten = Ok Scenario.half_written_content /\
  Validate.slack [("Alert-F", [])] Scenario.handwritten
  = ([("Alert-F", [])], Raise (KeyError "name")).
Proof.
  apply (slack_raises_on_new_monitor [("Alert-F", [])] Scenario.handwritten
           Scenario.half_written_content eq_refl eq_refl eq_refl).
Defined.

(** ** The order in which a stage goes through its monitors *)

Section Rounds.
Context {W : World}.

(** A loop logs what its rounds log, one after the other, and goes
    through its items in order.  [Inv] is kept by every round that
    returns; [T] is what is known of the log of a round. *)
Lemma rounds_spec {X} (body : X -> M unit) (Inv : list X -> state -> Prop)
    (T : X -> list event -> Prop) :
  (forall x r s, Inv (x :: r) s -> fst (body x s) = Ok tt ->
                 Inv r (snd (body x s))) ->
  (forall x r s, Inv (x :: r) s ->
     exists evs, log (snd (body x s)) = log s ++ evs /\ T x evs) ->
  forall l s, Inv l s ->
    log (snd (for_each l body s))
    = log s ++ concat (map snd (rounds body l s)) /\
    in_order l (rounds body l s) (fst (for_each l body s)) /\
    Forall (fun r => T (fst r) (snd r)) (rounds body l s).
Proof.
  intros Hi Ht. induction l as [|x r IH]; intros s I.
  - cbn. rewrite app_nil_r. split; [reflexivity|].
    split; [exists []; split; auto | constructor].
  - cbn [for_each rounds]. rewrite run_bind.
    destruct (Ht x r s I) as (evs & L & Tx).
    rewrite (new_events_app _ _ _ L).
    specialize (Hi x r s I).
    destruct (body x s) as [[[]|e] s1]; cbn [fst snd] in *.
    + destruct (IH s1 (Hi eq_refl)) as (L1 & (rest & E & O) & F).
      cbn [map concat fst snd]. split; [|split].
      * now rewrite L1, L, app_assoc.
      * exists rest. split; [now rewrite E at 1 | exact O].
      * now constructor.
    + cbn [map concat fst snd]. rewrite app_nil_r. split; [exact L|].
      split; [|now repeat constructor].
      exists r. split; [reflexivity|]. now intros [a [=]].
Qed.

Lemma rounds_fold_spec {X A} (body : A -> X -> M A)
    (Inv : list X -> state -> Prop) (T : X -> list event -> Prop) :
  (forall a x r s, Inv (x :: r) s ->
     (exists a', fst (body a x s) = Ok a') -> Inv r (snd (body a x s))) ->
  (forall a x r s, Inv (x :: r) s ->
     exists evs, log (snd (body a x s)) = log s ++ evs /\ T x evs) ->
  forall l a s, Inv l s ->
    log (snd (fold_M l a body s))
    = log s ++ concat (map snd (rounds_fold body l a s)) /\
    in_order l (rounds_fold body l a s) (fst (fold_M l a body s)) /\
    Forall (fun r => T (fst r) (snd r)) (rounds_fold body l a s).
Proof.
  intros Hi Ht. induction l as [|x r IH]; intros a s I.
  - cbn. rewrite app_nil_r. split; [reflexivity|].
    split; [exists []; split; auto | constructor].
  - cbn [fold_M rounds_fold]. rewrite run_bind.
    destruct (Ht a x r s I) as (evs & L & Tx).
    rewrite (new_events_app _ _ _ L).
    specialize (Hi a x r s I).
    destruct (body a x s) as [[a'|e] s1]; cbn [fst snd] in *.
    + destruct (IH a' s1 (Hi (ex_intro _ a' eq_refl)))
        as (L1 & (rest & E & O) & F).
      cbn [map concat fst snd]. split; [|split].
      * now rewrite L1, L, app_assoc.
      * exists rest. split; [now rewrite E at 1 | exact O].
      * now constructor.
    + cbn [map concat fst snd]. rewrite app_nil_r. split; [exact L|].
      split; [|now repeat constructor].
      exists r. split; [reflexivity|]. now intros [a' [=]].
Qed.
End Rounds.

Section RoundTraces.
Context {W : World}.
Variable cfg : settings.

(** What [store_monitor] logs when it is called without metadata. *)
Lemma store_monitor_stored id r :
  traces (stored r) (store_monitor cfg id r (JObj [])).
Proof.
  intros s. unfold store_monitor, stored.
  rewrite run_bind, lift_run.
  destruct (monitor_name r) as [n|e] eqn:N.
  2:{ exists []. cbn [snd]. rewrite app_nil_r. auto. }
  destruct (dryrun cfg).
  { exists []. rewrite ret_run. cbn [snd]. rewrite app_nil_r. auto. }
  unfold makedirs, write_file, resolve. cbn [truthy].
  cbv [bind lift gets modify emit ret].
  destruct (plain_name n).
  2:{ exists []. cbn [snd]. rewrite app_nil_r. auto. }
  destruct (Dict.mem n (fs s)).
  - destruct (fs_write (fs s) n "monitor.json" r) as [t'|e].
    + exists [EWrite n "monitor.json" r]. cbn [snd log set_log set_fs].
      split; [reflexivity|]. right. exists n. auto.
    + exists []. cbn [snd]. rewrite app_nil_r. auto.
  - cbn [fs set_fs set_log].
    destruct (fs_write (fs_mkdir (fs s) n) n "monitor.json" r) as [t'|e].
    + exists [EMakedirs n; EWrite n "monitor.json" r].
      cbn [snd log set_log set_fs]. split; [now rewrite <- app_assoc|].
      right. exists n. auto.
    + exists [EMakedirs n]. cbn [snd log set_log set_fs].
      split; [reflexivity|]. right. exists n. auto.
Qed.

Lemma store_monitor_dry id r md s :
  dryrun cfg = true -> log (snd (store_monitor cfg id r md s)) = log s.
Proof.
  intros D. unfold store_monitor. rewrite run_bind, lift_run.
  destruct (monitor_name r); [|reflexivity]. now rewrite D.
Qed.

(** The round of the adoption loop. *)
Lemma adopt_one_trace id s :
  exists evs,
    log (snd (adopt_one cfg id s)) = log s ++ evs /\ adopt_trace s id evs.
Proof.
  unfold adopt_one, adopt_trace. rewrite run_bind, gets_run.
  destruct (Dict.mem id (local_monitors s)) eqn:M.
  { exists []. rewrite ret_run. cbn [snd]. rewrite app_nil_r. auto. }
  rewrite run_bind. unfold remote_monitor. rewrite run_bind, gets_run.
  destruct (Dict.lookup id (remote_monitors s)) as [r|] eqn:R.
  2:{ exists []. cbn [raise snd]. rewrite app_nil_r. auto. }
  rewrite ret_run, run_bind.
  destruct (store_monitor_stored (JStr id) r s) as (pre & Lp & St).
  destruct (store_monitor cfg (JStr id) r (JObj []) s) as [[[]|e] s1];
    cbn [snd] in Lp.
  2:{ exists pre. cbn [snd]. split; [exact Lp|].
      right. exists r, pre. auto. }
  rewrite run_bind. cbv [modify]. rewrite run_bind, lift_run.
  destruct (raw_name r) as [n|e] eqn:N.
  - exists (pre ++ [EPrint (Storing n)]). rewrite emit_run.
    cbn [snd log set_log set_local_monitors]. split.
    + now rewrite Lp, app_assoc.
    + right. exists r, pre. repeat split; auto. right. eauto.
  - exists pre. cbn [snd log set_local_monitors]. split; [exact Lp|].
    right. exists r, pre. auto.
Qed.

(** The round of the pull loop. *)
Lemma pull_one_trace item s :
  exists evs,
    log (snd (pull_one cfg item s)) = log s ++ evs /\ pull_trace s item evs.
Proof.
  destruct item as [id [[name rv] lv]]. unfold pull_one, pull_trace.
  rewrite run_bind, emit_run.
  set (s1 := set_log (log s ++ [EPrint (RemoteIsNewer name rv lv)]) s).
  rewrite run_bind.
  pose proof (confirm_log cfg MainHelper pull_question "sync" s1) as Lc.
  pose proof (confirm_keeps_local cfg MainHelper pull_question "sync" s1)
    as Kl.
  pose proof (confirm_keeps_remote cfg MainHelper pull_question "sync" s1)
    as Kr.
  assert (Front : forall s2 rest,
            log s2 = log s1 ++ rest ->
            log s2 = log s ++ EPrint (RemoteIsNewer name rv lv) :: rest).
  { intros s2 rest E. rewrite E. cbn [s1 log set_log].
    now rewrite <- app_assoc. }
  destruct (confirm cfg MainHelper pull_question "sync" s1)
    as [[[|]|e] s2]; cbn [fst snd] in Lc, Kl, Kr.
  - (* yes *)
    assert (Yes : forall s3 acts,
              log s3 = log s2 ++ acts ->
              log s3 = log s ++ EPrint (RemoteIsNewer name rv lv)
                         :: EConfirm pull_question "sync" true :: acts).
    { intros s3 acts E. apply Front. rewrite E, Lc.
      now rewrite <- app_assoc. }
    rewrite run_bind. unfold local_monitor. rewrite run_bind, gets_run.
    rewrite Kl. change (local_monitors s1) with (local_monitors s).
    destruct (Dict.lookup id (local_monitors s)) as [m|] eqn:L.
    2:{ eexists. split; [apply Yes; cbn [raise snd]; now rewrite app_nil_r|].
        eexists. split; [reflexivity|]. right. right. eauto. }
    rewrite ret_run, run_bind, lift_run.
    destruct (raw_name m) as [n|e] eqn:N.
    2:{ eexists. split; [apply Yes; cbn [snd]; now rewrite app_nil_r|].
        eexists. split; [reflexivity|]. right. right. eauto. }
    rewrite run_bind, emit_run.
    set (s3 := set_log (log s2 ++ [EPrint (UpdatingLocal n)]) s2).
    rewrite run_bind. unfold remote_monitor. rewrite run_bind, gets_run.
    change (remote_monitors s3) with (remote_monitors s2). rewrite Kr.
    change (remote_monitors s1) with (remote_monitors s).
    destruct (Dict.lookup id (remote_monitors s)) as [r|] eqn:R.
    2:{ exists (EPrint (RemoteIsNewer name rv lv)
                :: EConfirm pull_question "sync" true
                :: [EPrint (UpdatingLocal n)]).
        split; [apply Yes; reflexivity|].
        eexists. split; [reflexivity|]. right. right.
        eexists. split; [reflexivity|]. right. exists m, n, []. auto. }
    rewrite ret_run.
    destruct (store_monitor_stored (JStr id) r s3) as (w & Lw & St).
    exists (EPrint (RemoteIsNewer name rv lv)
            :: EConfirm pull_question "sync" true
            :: EPrint (UpdatingLocal n) :: w).
    split.
    + apply Yes. rewrite Lw. cbn [s3 log set_log]. now rewrite <- app_assoc.
    + eexists. split; [reflexivity|]. right. right.
      eexists. split; [reflexivity|]. right. exists m, n, w.
      repeat split; auto. right. eauto.
  - (* no *)
    rewrite emit_run.
    exists (EPrint (RemoteIsNewer name rv lv)
            :: [EConfirm pull_question "sync" false; EPrint (Skipping name)]).
    split.
    + apply Front. cbn [snd log set_log]. now rewrite Lc, <- app_assoc.
    + eexists. split; [reflexivity|]. auto.
  - exists [EPrint (RemoteIsNewer name rv lv)]. split.
    + apply Front. cbn [snd]. now rewrite Lc, app_nil_r.
    + eexists. split; [reflexivity|]. auto.
Qed.

(** What [update_monitor] logs and returns, for a record named [n]. *)
Lemma update_monitor_trace id m n s :
  raw_name m = Ok n ->
  exists acts,
    log (snd (update_monitor cfg id m s))
    = log s ++ EPrint (UpdatingMonitor n id) :: acts /\
    (if dryrun cfg then acts = []
     else
       acts = [] \/
       exists c,
         getitem "monitor" m = Ok c /\
         (acts = [EPut (monitor_uri id) c] \/
          acts = [EPut (monitor_uri id) c; EGet (monitor_uri id)])) /\
    (forall x, fst (update_monitor cfg id m s) = Ok x ->
               dryrun cfg = false ->
               exists c, getitem "monitor" m = Ok c /\
                         acts = [EPut (monitor_uri id) c;
                                 EGet (monitor_uri id)]).
Proof.
  intros N. unfold update_monitor, put, get_monitor_contents, get.
  cbv [bind lift gets modify emit ret]. rewrite N.
  destruct (dryrun cfg) eqn:D.
  { exists []. cbn [snd fst log set_log]. repeat split. discriminate. }
  destruct (getitem "monitor" m) as [c|e].
  2:{ exists []. cbn [snd fst log set_log].
      split; [reflexivity|]. split; [now left | discriminate]. }
  cbn [srv set_log].
  destruct (http_put (srv s) (monitor_uri id) c) as [srv1 [[]|e]].
  2:{ exists [EPut (monitor_uri id) c]. cbn [snd fst log set_log set_srv].
      split; [now rewrite <- app_assoc|].
      split; [right; eauto | discriminate]. }
  cbn [srv set_srv set_log].
  exists [EPut (monitor_uri id) c; EGet (monitor_uri id)].
  destruct (http_get srv1 (monitor_uri id)) as [r|e];
    [destruct (reset_last_update_time r)|];
    cbn [snd fst log set_log set_srv];
    (split; [now rewrite <- !app_assoc|]);
    (split; [right; eauto|]); intros; eauto.
Qed.

Lemma push_trace_intro s id difference m n rest :
  Dict.lookup id (local_monitors s) = Some m ->
  raw_name m = Ok n ->
  (rest = [] \/
   rest = [EConfirm push_question "monitor_update" false] \/
   exists acts,
     rest = EConfirm push_question "monitor_update" true
            :: EPrint (UpdatingMonitor n id) :: acts /\
     (acts = [] \/
      exists c,
        getitem "monitor" m = Ok c /\
        (acts = [EPut (monitor_uri id) c] \/
         exists w,
           acts = EPut (monitor_uri id) c :: EGet (monitor_uri id) :: w /\
           (w = [] \/ exists u, stored u w)))) ->
  push_trace s (id, difference) (EPrint (FoundLocalChanges n) :: rest).
Proof. intros L N H. right. exists m, n, rest. auto. Qed.

(** The round of the push loop. *)
Lemma push_one_trace item s :
  exists evs,
    log (snd (push_one cfg item s)) = log s ++ evs /\ push_trace s item evs.
Proof.
  destruct item as [id difference]. unfold push_one.
  rewrite run_bind. unfold local_monitor at 1. rewrite run_bind, gets_run.
  destruct (Dict.lookup id (local_monitors s)) as [m|] eqn:L.
  2:{ exists []. cbn [raise snd]. rewrite app_nil_r. split; [auto | now left]. }
  rewrite ret_run, run_bind, lift_run.
  destruct (raw_name m) as [n|e] eqn:N.
  2:{ exists []. cbn [snd]. rewrite app_nil_r. split; [auto | now left]. }
  rewrite run_bind, emit_run.
  set (s1 := set_log (log s ++ [EPrint (FoundLocalChanges n)]) s).
  rewrite run_bind.
  pose proof (confirm_log cfg MainHelper push_question "monitor_update" s1)
    as Lc.
  pose proof (confirm_keeps_local cfg MainHelper push_question
                "monitor_update" s1) as Kl.
  assert (Front : forall s2 rest,
            log s2 = log s1 ++ rest ->
            log s2 = log s ++ EPrint (FoundLocalChanges n) :: rest).
  { intros s2 rest E. rewrite E. cbn [s1 log set_log].
    now rewrite <- app_assoc. }
  pose proof (push_trace_intro s id difference m n) as Shape.
  destruct (confirm cfg MainHelper push_question "monitor_update" s1)
    as [[[|]|e] s2]; cbn [fst snd] in Lc, Kl.
  - (* yes *)
    rewrite run_bind.
    assert (L2 : Dict.lookup id (local_monitors s2) = Some m)
      by (rewrite Kl; exact L).
    rewrite (local_monitor_run id m s2 L2), run_bind.
    destruct (update_monitor_trace id m n s2 N) as (acts & La & Sa & Oa).
    pose proof (update_monitor_keeps_local cfg id m s2) as Ku.
    destruct (update_monitor cfg id m s2) as [[[uid uc]|e] s3];
      cbn [fst snd] in La, Oa, Ku.
    2:{ exists (EPrint (FoundLocalChanges n)
                :: EConfirm push_question "monitor_update" true
                :: EPrint (UpdatingMonitor n id) :: acts).
        split.
        - apply Front. cbn [snd]. rewrite La, Lc. now rewrite <- app_assoc.
        - apply Shape; auto. right. right. eexists. split; [reflexivity|].
          destruct (dryrun cfg); [now left|].
          destruct Sa as [->|(c & G & [->| ->])]; [now left| |].
          + right. exists c. auto.
          + right. exists c. split; [exact G|]. right. exists []. auto. }
    rewrite run_bind.
    destruct (store_monitor_stored (JStr uid) uc s3) as (w & Lw & St).
    pose proof (store_monitor_dry (JStr uid) uc (JObj []) s3) as Dry.
    pose proof (store_monitor_keeps_local cfg (JStr uid) uc (JObj []) s3)
      as Ks.
    assert (Tail : forall s5,
              log s5 = log (snd (store_monitor cfg (JStr uid) uc (JObj []) s3)) ->
              exists evs,
                log s5 = log s ++ evs /\ push_trace s (id, difference) evs).
    { intros s5 E5. destruct (dryrun cfg) eqn:D.
      - exists (EPrint (FoundLocalChanges n)
                :: EConfirm push_question "monitor_update" true
                :: [EPrint (UpdatingMonitor n id)]).
        split.
        + apply Front. rewrite E5, (Dry eq_refl), La, Lc, Sa.
          now rewrite <- app_assoc.
        + apply Shape; auto. right. right. eexists. split; [reflexivity|].
          now left.
      - destruct (Oa _ eq_refl eq_refl) as (c & G & ->).
        exists (EPrint (FoundLocalChanges n)
                :: EConfirm push_question "monitor_update" true
                :: EPrint (UpdatingMonitor n id)
                :: EPut (monitor_uri id) c :: EGet (monitor_uri id) :: w).
        split.
        + apply Front. rewrite E5, Lw, La, Lc.
          now rewrite <- !app_assoc.
        + apply Shape; auto. right. right. eexists. split; [reflexivity|].
          right. exists c. split; [exact G|]. right. exists w.
          split; [reflexivity|]. right. eauto. }
    destruct (store_monitor cfg (JStr uid) uc (JObj []) s3) as [[[]|e] s4];
      cbn [snd] in Tail, Ks; [|now apply Tail].
    rewrite run_bind.
    assert (L4 : Dict.lookup id (local_monitors s4) = Some m)
      by (rewrite Ks, Ku; exact L2).
    rewrite (local_monitor_run id m s4 L4), run_bind, lift_run, N, ret_run.
    now apply Tail.
  - (* no *)
    rewrite ret_run. cbn [snd].
    exists (EPrint (FoundLocalChanges n)
            :: [EConfirm push_question "monitor_update" false]).
    split; [apply Front; exact Lc | apply Shape; auto].
  - cbn [snd]. exists [EPrint (FoundLocalChanges n)].
    split; [apply Front; now rewrite Lc, app_nil_r | apply Shape; auto].
Qed.
End RoundTraces.

Section StageOrder.
Context {W : World}.
Variable cfg : settings.

Lemma offer_one_keeps_remote vars id :
  preserves remote_monitors (offer_one cfg vars id).
Proof. destruct vars. unfold offer_one. by_frame. Qed.

Lemma offer_one_keeps_others vars id id' :
  id' <> id ->
  preserves (fun s => Dict.lookup id' (local_monitors s))
    (offer_one cfg vars id).
Proof.
  intros N. destruct vars. unfold offer_one. by_frame.
  apply preserves_modify. intros s. simpl. now apply lookup_insert_neq.
Qed.

Lemma pull_one_keeps_local item :
  preserves local_monitors (pull_one cfg item).
Proof. destruct item as [id [[name rv] lv]]. unfold pull_one. by_frame. Qed.

Lemma pull_one_keeps_remote item :
  preserves remote_monitors (pull_one cfg item).
Proof. destruct item as [id [[name rv] lv]]. unfold pull_one. by_frame. Qed.

Lemma push_one_keeps_local item :
  preserves local_monitors (push_one cfg item).
Proof. destruct item as [id difference]. unfold push_one. by_frame. Qed.

Lemma push_one_keeps_remote item :
  preserves remote_monitors (push_one cfg item).
Proof. destruct item as [id difference]. unfold push_one. by_frame. Qed.

Lemma reload_repair_events :
  allows is_layout_event (local_load_monitors cfg ;; clean_folders cfg).
Proof.
  apply allows_bind; [allows_known | intros _].
  unfold clean_folders, clean_dir, confirm, ask. allows_auto.
Qed.

(** The adoption loop, round by round. *)
Lemma adopt_rounds s :
  let ids := Dict.keys (remote_monitors s) in
  let rs := rounds (adopt_one cfg) ids s in
  log (snd (for_each ids (adopt_one cfg) s)) = log s ++ concat (map snd rs) /\
  in_order ids rs (fst (for_each ids (adopt_one cfg) s)) /\
  Forall (fun r => adopt_trace s (fst r) (snd r)) rs.
Proof.
  cbv zeta.
  apply (rounds_spec (adopt_one cfg)
           (fun _ s' =>
              remote_monitors s' = remote_monitors s /\
              forall id, Dict.mem id (local_monitors s) = true ->
                         Dict.mem id (local_monitors s') = true)).
  - intros id r s' [R Mn] Ok_.
    destruct (adopt_one_local cfg id s' Ok_) as (R' & L'). split.
    + now rewrite R'.
    + intros id' M. specialize (Mn id' M). unfold Dict.mem in *.
      rewrite L'. now destruct (Dict.lookup id' (local_monitors s')).
  - intros id r s' [R Mn].
    destruct (adopt_one_trace cfg id s') as (evs & L & T).
    exists evs. split; [exact L|].
    destruct T as [->|(rec & pre & M & Lr & St & Sh)]; [now left|].
    right. exists rec, pre. rewrite <- R. repeat split; auto.
    destruct (Dict.mem id (local_monitors s)) eqn:M0; [|reflexivity].
    rewrite (Mn id M0) in M. discriminate.
  - split; [reflexivity | auto].
Qed.

(** The offer loop, round by round. *)
Lemma offer_rounds s :
  Dict.wf (local_monitors s) = true ->
  let ids := Dict.keys (local_monitors s) in
  let rs := rounds_fold (offer_one cfg) ids (false, []) s in
  log (snd (fold_M ids (false, []) (offer_one cfg) s))
  = log s ++ concat (map snd rs) /\
  in_order ids rs (fst (fold_M ids (false, []) (offer_one cfg) s)) /\
  Forall (fun r => offer_trace s (fst r) (snd r)) rs.
Proof.
  intros WF. apply distinct_NoDup in WF. cbv zeta.
  apply (rounds_fold_spec (offer_one cfg)
           (fun l s' =>
              remote_monitors s' = remote_monitors s /\
              NoDup l /\
              forall id, In id l ->
                Dict.lookup id (local_monitors s')
                = Dict.lookup id (local_monitors s))).
  - intros vars id r s' (R & ND & Lk) _.
    inversion ND as [|? ? NI ND']; subst.
    split; [now rewrite offer_one_keeps_remote|].
    split; [exact ND'|].
    intros id' I.
    rewrite (offer_one_keeps_others vars id id'); [apply Lk; now right|].
    intros ->. contradiction.
  - intros vars id r s' (R & ND & Lk).
    destruct (offer_one_trace cfg vars id s') as (evs & L & T).
    exists evs. split; [exact L|].
    unfold offer_trace in *. rewrite <- R, <- (Lk id (or_introl eq_refl)).
    exact T.
  - split; [reflexivity|]. split; [exact WF | reflexivity].
Qed.

(** The pull loop and the push loop, round by round. *)
Lemma pull_rounds items s0 s :
  local_monitors s = local_monitors s0 ->
  remote_monitors s = remote_monitors s0 ->
  let rs := rounds (pull_one cfg) items s in
  log (snd (for_each items (pull_one cfg) s)) = log s ++ concat (map snd rs) /\
  in_order items rs (fst (for_each items (pull_one cfg) s)) /\
  Forall (fun r => pull_trace s0 (fst r) (snd r)) rs.
Proof.
  intros El Er. cbv zeta.
  apply (rounds_spec (pull_one cfg)
           (fun _ s' =>
              local_monitors s' = local_monitors s0 /\
              remote_monitors s' = remote_monitors s0)).
  - intros item r s' [L R] _.
    now rewrite pull_one_keeps_local, pull_one_keeps_remote.
  - intros item r s' [L R].
    destruct (pull_one_trace cfg item s') as (evs & Le & T).
    exists evs. split; [exact Le|].
    destruct item as [id [[name rv] lv]]. unfold pull_trace in *.
    rewrite <- L, <- R. exact T.
  - now split.
Qed.

Lemma push_rounds items s0 s :
  local_monitors s = local_monitors s0 ->
  let rs := rounds (push_one cfg) items s in
  log (snd (for_each items (push_one cfg) s)) = log s ++ concat (map snd rs) /\
  in_order items rs (fst (for_each items (push_one cfg) s)) /\
  Forall (fun r => push_trace s0 (fst r) (snd r)) rs.
Proof.
  intros El. cbv zeta.
  apply (rounds_spec (push_one cfg)
           (fun _ s' => local_monitors s' = local_monitors s0)).
  - intros item r s' L _. now rewrite push_one_keeps_local.
  - intros item r s' L.
    destruct (push_one_trace cfg item s') as (evs & Le & T).
    exists evs. split; [exact Le|].
    unfold push_trace in *. rewrite <- L. exact T.
  - exact El.
Qed.
End StageOrder.

(** C6, as the code has it: every stage walks the mapping that drives it
    in that mapping's own order, the order in which the store enumerated
    its entries, and not in the order of the names.  What a stage adds to
    the log, prompts and actions included, is what its rounds add, one
    round after the other, in the order of
    - [remote.monitors] for the adoption,
    - [local.monitors] for the creation offers,
    - [version_sync_mismatch] for the version pulls,
    - [monitor_diff] for the content pushes;
    the rounds start at the first entry and reach every entry when the
    stage returns; when a round raises, the stage ends there, and when
    the comparison that fills the mapping of the pulls or of the pushes
    raises, the stage logs nothing.  Each round
    concerns its own monitor only: the line that announces the monitor
    comes first, the question about it next, and the writes and requests
    for it follow a yes.  Behind the rounds of the offers come only what
    the two reloads log, and behind the rounds of the pulls what the
    reload and the layout repair log.  The stages are functions of the
    configuration and of the state, so the same input gives the same
    sequence again. *)
Theorem stages_follow_mapping_order {W : World} (cfg : settings) (s : state) :
  (let ids := Dict.keys (remote_monitors s) in
   let rs := rounds (adopt_one cfg) ids s in
   new_events (adopt_remote_only cfg) s = concat (map snd rs) /\
   in_order ids rs (fst (adopt_remote_only cfg s)) /\
   Forall (fun r => adopt_trace s (fst r) (snd r)) rs)
  /\
  (Dict.wf (local_monitors s) = true ->
   let ids := Dict.keys (local_monitors s) in
   let rs := rounds_fold (offer_one cfg) ids (false, []) s in
   (exists tail,
      new_events (offer_local_only cfg) s = concat (map snd rs) ++ tail /\
      forallb (either is_fs_event is_get) tail = true) /\
   in_order ids rs (fst (offer_local_only cfg s)) /\
   Forall (fun r => offer_trace s (fst r) (snd r)) rs)
  /\
  (forall items,
     check_version_state (local_monitors s) (remote_monitors s)
       (version_sync_mismatch s) = (items, Ok tt) ->
     let rs := rounds (pull_one cfg) items
                 (set_version_sync_mismatch items s) in
     (exists tail,
        new_events (reconcile_versions cfg) s = concat (map snd rs) ++ tail /\
        forallb is_layout_event tail = true) /\
     in_order items rs (fst (reconcile_versions cfg s)) /\
     Forall (fun r => pull_trace s (fst r) (snd r)) rs)
  /\
  (forall items,
     compare_monitors deep_diff (local_monitors s) (remote_monitors s)
       (monitor_diff s) = (items, Ok tt) ->
     let rs := rounds (push_one cfg) items (set_monitor_diff items s) in
     new_events (reconcile_content cfg) s = concat (map snd rs) /\
     in_order items rs (fst (reconcile_content cfg s)) /\
     Forall (fun r => push_trace s (fst r) (snd r)) rs)
  /\
  (forall items e,
     check_version_state (local_monitors s) (remote_monitors s)
       (version_sync_mismatch s) = (items, Raise e) ->
     new_events (reconcile_versions cfg) s = [])
  /\
  (forall items e,
     compare_monitors deep_diff (local_monitors s) (remote_monitors s)
       (monitor_diff s) = (items, Raise e) ->
     new_events (reconcile_content cfg) s = []).
Proof.
  split; [|split; [|split; [|split; [|split]]]].
  - destruct (adopt_rounds cfg s) as (L & O & F). cbv zeta.
    change (adopt_remote_only cfg s)
      with (for_each (Dict.keys (remote_monitors s)) (adopt_one cfg) s).
    split; [|split; [exact O | exact F]].
    unfold new_events.
    change (adopt_remote_only cfg s)
      with (for_each (Dict.keys (remote_monitors s)) (adopt_one cfg) s).
    rewrite L, skipn_app, skipn_all, Nat.sub_diag. reflexivity.
  - intros WF. destruct (offer_rounds cfg s WF) as (L & O & F). cbv zeta.
    split; [|split; [|exact F]].
    + unfold new_events, offer_local_only.
      rewrite run_bind, gets_run, run_bind.
      destruct (fold_M (Dict.keys (local_monitors s)) (false, [])
                  (offer_one cfg) s) as [[[created_new skipped]|e] s1];
        cbn [snd] in L.
      * assert (Rest : allows (either is_fs_event is_get)
                         (for_each skipped forget_local ;;
                          (if created_new
                           then local_load_monitors cfg ;;
                                remote_load_monitors cfg
                           else ret tt))).
        { unfold forget_local. allows_auto. }
        destruct (Rest s1) as (tail & Lt & Ft).
        exists tail. split; [|exact Ft].
        rewrite Lt, L, <- app_assoc, skipn_app, skipn_all, Nat.sub_diag.
        reflexivity.
      * exists []. split; [|reflexivity]. cbn [snd].
        rewrite L, app_nil_r, skipn_app, skipn_all, Nat.sub_diag.
        reflexivity.
    + destruct O as (rest & E & R). exists rest. split; [exact E|].
      intros [a Oa]. apply R.
      unfold offer_local_only in Oa. rewrite run_bind, gets_run, run_bind in Oa.
      destruct (fold_M (Dict.keys (local_monitors s)) (false, [])
                  (offer_one cfg) s) as [[v|e] s1];
        [now exists v | discriminate].
  - intros items C. cbv zeta.
    set (sa := set_version_sync_mismatch items s).
    destruct (pull_rounds cfg items s sa eq_refl eq_refl) as (L & O & F).
    assert (E : reconcile_versions cfg s
                = match items with
                  | [] => (Ok tt, sa)
                  | _ => (for_each items (pull_one cfg) ;;
                          local_load_monitors cfg ;; clean_folders cfg) sa
                  end).
    { unfold reconcile_versions. cbv [bind gets modify lift]. rewrite C.
      now destruct items. }
    split; [|split; [|exact F]].
    + unfold new_events. rewrite E. destruct items as [|item rest].
      { exists []. cbn. now rewrite skipn_all. }
      rewrite run_bind.
      change (log s) with (log sa) at 1.
      destruct (for_each (item :: rest) (pull_one cfg) sa) as [[[]|e] s1];
        cbn [snd] in L.
      * destruct (reload_repair_events cfg s1) as (tail & Lt & Ft).
        exists tail. split; [|exact Ft].
        rewrite Lt, L, <- app_assoc, skipn_app, skipn_all, Nat.sub_diag.
        reflexivity.
      * exists []. split; [|reflexivity]. cbn [snd].
        rewrite L, app_nil_r, skipn_app, skipn_all, Nat.sub_diag.
        reflexivity.
    + destruct O as (rest & Er & R). exists rest. split; [exact Er|].
      intros [a Oa]. apply R. rewrite E in Oa.
      destruct items as [|item more]; [now exists tt|].
      rewrite run_bind in Oa.
      destruct (for_each (item :: more) (pull_one cfg) sa) as [[v|e] s1];
        [now exists v | discriminate].
  - intros items C. cbv zeta.
    set (sa := set_monitor_diff items s).
    destruct (push_rounds cfg items s sa eq_refl) as (L & O & F).
    assert (E : reconcile_content cfg s = for_each items (push_one cfg) sa).
    { unfold reconcile_content. cbv [bind gets modify lift]. now rewrite C. }
    split; [|split; [|exact F]].
    + unfold new_events. rewrite E. change (log s) with (log sa) at 1.
      rewrite L, skipn_app, skipn_all, Nat.sub_diag. reflexivity.
    + now rewrite E.
  - intros items e C. unfold new_events, reconcile_versions.
    cbv [bind gets modify lift]. rewrite C. cbn [snd log set_version_sync_mismatch].
    apply skipn_all.
  - intros items e C. unfold new_events, reconcile_content.
    cbv [bind gets modify lift]. rewrite C. cbn [snd log set_monitor_diff].
    apply skipn_all.
Qed.

Lemma stages_follow_mapping_order_witness :
  new_events (adopt_remote_only (W:=Demo.world) Demo.interactive)
    Demo.unsorted_loaded
  = [EMakedirs "b";
     EWrite "b" "monitor.json" (Demo.monitor "id1" "b" 1);
     EPrint (Storing (JStr "b"));
     EMakedirs "a";
     EWrite "a" "monitor.json" (Demo.monitor "id2" "a" 1);
     EPrint (Storing (JStr "a"))] /\
  (exists tail,
     new_events (offer_local_only (W:=Demo.world) Demo.interactive)
       Scenario.drafts_loaded
     = [EPrint (NewMonitorFound (JStr "B-draft"));
        EConfirm create_question "general" false;
        EPrint (NewMonitorFound (JStr "A-draft"));
        EConfirm create_question "general" true;
        EPrint (Creating (JStr "A-draft"));
        EPost create_uri
          (JObj [("name", JStr "A-draft"); ("enabled", JBool true)])]
       ++ tail) /\
  (exists tail,
     new_events (reconcile_versions (W:=Demo.world) Demo.interactive)
       Scenario.behind_loaded
     = [EPrint (RemoteIsNewer (JStr "Alert-C") (JNum 5) (JNum 2));
        EConfirm pull_question "sync" true;
        EPrint (UpdatingLocal (JStr "Alert-C"));
        EWrite "Alert-C" "monitor.json" (Demo.monitor "M3" "Alert-C" 5);
        EPrint (RemoteIsNewer (JStr "Alert-A") (JNum 4) (JNum 1));
        EConfirm pull_question "sync" false;
        EPrint (Skipping (JStr "Alert-A"))]
       ++ tail) /\
  new_events (reconcile_content (W:=Demo.world) Demo.interactive)
    Scenario.edits_loaded
  = [EPrint (FoundLocalChanges (JStr "Alert-D"));
     EConfirm push_question "monitor_update" false;
     EPrint (FoundLocalChanges (JStr "Alert-B"));
     EConfirm push_question "monitor_update" true;
     EPrint (UpdatingMonitor (JStr "Alert-B") "M6");
     EPut (monitor_uri "M6")
       (JObj [("name", JStr "Alert-B"); ("enabled", JBool false);
              ("last_update_time", JNum 0)])].
Proof.
  split; [|split; [|split]].
  - rewrite (proj1 (proj1 (stages_follow_mapping_order (W:=Demo.world)
                             Demo.interactive Demo.unsorted_loaded))).
    vm_compute. reflexivity.
  - destruct (proj1 (proj1 (proj2 (stages_follow_mapping_order
                                     (W:=Demo.world) Demo.interactive
                                     Scenario.drafts_loaded))
                      eq_refl)) as (tail & E & _).
    exists tail. rewrite E. f_equal.
  - assert (C : check_version_state
                  (local_monitors Scenario.behind_loaded)
                  (remote_monitors Scenario.behind_loaded)
                  (version_sync_mismatch Scenario.behind_loaded)
                = ([("M3", (JStr "Alert-C", JNum 5, JNum 2));
                    ("M5", (JStr "Alert-A", JNum 4, JNum 1))], Ok tt))
      by (vm_compute; reflexivity).
    destruct (proj1 (proj1 (proj2 (proj2 (stages_follow_mapping_order
                                            (W:=Demo.world) Demo.interactive
                                            Scenario.behind_loaded)))
                      _ C)) as (tail & E & _).
    exists tail. rewrite E. f_equal.
  - assert (C : compare_monitors (@deep_diff Demo.world)
                  (local_monitors Scenario.edits_loaded)
                  (remote_monitors Scenario.edits_loaded)
                  (monitor_diff Scenario.edits_loaded)
                = ([("M4", "{}"); ("M6", "{}")], Ok tt))
      by (vm_compute; reflexivity).
    rewrite (proj1 (proj1 (proj2 (proj2 (proj2 (stages_follow_mapping_order
                                                  (W:=Demo.world)
                                                  Demo.interactive
                                                  Scenario.edits_loaded))))
                      _ C)).
    vm_compute. reflexivity.
Defined.

(** C6, the claim as written fails.  The search returns the monitor named
    [b] before the one named [a]; the pass adopts [b] first, although [a]
    is the smaller name. *)
Lemma adoption_follows_search_order_not_names :
  fst (sync_pass (W:=Demo.world) Demo.interactive
         (Demo.boot [] Demo.unsorted_hits [])) = Ok tt /\
  filter is_storing
    (log (snd (sync_pass (W:=Demo.world) Demo.interactive
                 (Demo.boot [] Demo.unsorted_hits []))))
  = [EPrint (Storing (JStr "b")); EPrint (Storing (JStr "a"))] /\
  String.ltb "a" "b" = true.
Proof. repeat split; vm_compute; reflexivity. Qed.
